(** * CogWSL cognitive core: a shallow embedding of [cognitive.cpp]

    The development follows [src/shared/inc/cognitive.h] and
    [src/shared/cognitive/cognitive.cpp]: the knowledge unit [Atom], the
    graph store [AtomSpace], the worker [CognitiveAgent] and the registry
    [CognitiveSystem].

    Modelling choices.
    - [float] is IEEE-754 binary32 with round-to-nearest-even, taken from the
      standard library's [SpecFloat] at precision 24 and maximal exponent
      128.  Expressions are evaluated in single precision, each operation
      rounded once.
    - [std::shared_ptr<Atom>] is an index into a global heap of atoms that
      only grows; pointer equality is index equality and [nullptr] is [None].
    - [std::unordered_map] is a [gmap]; its iteration order, which the C++
      standard leaves to the implementation, is a parameter ([BucketOrder]).
    - [uint64_t] identifiers are integers reduced modulo [2^64].
    - Clock reads ([m_creationTime], [m_lastAccessed], [m_startTime],
      [uptime]) and the locks are not part of the model; the processing
      thread is reduced to a flag, and one iteration of the processing loop
      is a function of the outcome of its random draw. *)

From Stdlib Require Import ZArith Lia.
From Stdlib Require Import SpecFloat.
From stdpp Require Import gmap strings list fin_maps.

Local Open Scope Z_scope.

(** ** Single-precision arithmetic *)

Module F32.

Definition prec : Z := 24.
Definition emax : Z := 128.

Abbreviation t := spec_float.

Definition add : t -> t -> t := SFadd prec emax.
Definition mul : t -> t -> t := SFmul prec emax.
Definition div : t -> t -> t := SFdiv prec emax.

(** [a < b], [a <= b]; both are [false] as soon as one side is a NaN. *)
Definition ltb : t -> t -> bool := SFltb.
Definition leb : t -> t -> bool := SFleb.

(** Conversion of an integer, as done for [size_t] operands. *)
Definition of_Z (n : Z) : t := binary_normalize prec emax n 0 false.
Definition of_size (n : nat) : t := of_Z (Z.of_nat n).

(** A decimal literal [num/den] with both parts exactly representable is
    the correctly rounded quotient. *)
Definition lit (num den : Z) : t := div (of_Z num) (of_Z den).

(** [std::max(a, b)] is [(a < b) ? b : a]; [std::min(a, b)] is
    [(b < a) ? b : a]; [std::clamp(v, lo, hi)] is
    [(v < lo) ? lo : (hi < v) ? hi : v]. *)
Definition max (a b : t) : t := if ltb a b then b else a.
Definition min (a b : t) : t := if ltb b a then b else a.
Definition clamp (v lo hi : t) : t :=
  if ltb v lo then lo else if ltb hi v then hi else v.

Definition f0_0  : t := S754_zero false.
Definition f1_0  : t := Eval vm_compute in of_Z 1.
Definition f2_0  : t := Eval vm_compute in of_Z 2.
Definition f0_5  : t := Eval vm_compute in lit 5 10.
Definition f0_01 : t := Eval vm_compute in lit 1 100.
Definition f0_05 : t := Eval vm_compute in lit 5 100.
Definition f0_1  : t := Eval vm_compute in lit 1 10.
Definition f0_4  : t := Eval vm_compute in lit 4 10.
Definition f0_7  : t := Eval vm_compute in lit 7 10.
Definition f0_8  : t := Eval vm_compute in lit 8 10.
Definition f0_9  : t := Eval vm_compute in lit 9 10.
Definition f0_95 : t := Eval vm_compute in lit 95 100.
Definition f1_1  : t := Eval vm_compute in lit 11 10.

(** A value a [float] can hold: canonical mantissa, exponent in range. *)
Definition valid (x : t) : bool := valid_binary prec emax x.

(** A value that respects the attention floor: not a NaN, at least 0.01. *)
Definition above_floor (x : t) : bool := valid x && leb f0_01 x.

End F32.

(** ** Rounding in binary32, as integer arithmetic

    What [binary_round_aux] computes for an exact positive value, written
    with quotients and remainders; used to state and prove the order facts
    of the arithmetic. *)

(** The integer nearest to [M / 2^k], ties to even, written with the bits
    the shift leaves behind. *)
Definition rne (M k : Z) : Z :=
  let q := M / 2 ^ k in
  if (0 <? k) && Z.odd (M / 2 ^ (k - 1))
     && (negb (M mod 2 ^ (k - 1) =? 0) || Z.odd q)
  then q + 1 else q.

Definition fexp32 (x : Z) : Z := fexp 24 128 x.

(** The float made of the rounded mantissa [q] at exponent [E]. *)
Definition pack (s : bool) (q E : Z) : spec_float :=
  match q with
  | Z0 => S754_zero s
  | Zpos p =>
      if q <? 2 ^ 24 then
        if E <=? 104 then S754_finite s p E else S754_infinity s
      else
        if E + 1 <=? 104 then S754_finite s 8388608 (E + 1) else S754_infinity s
  | Zneg _ => S754_nan
  end.

(** Zero of either sign, a positive finite float or plus infinity. *)
Definition nonneg (x : spec_float) : bool := SFleb (S754_zero false) x.

(** A valid positive float: finite with a canonical mantissa, or plus
    infinity. *)
Definition above_zero (x : spec_float) : bool :=
  match x with
  | S754_finite false m e => bounded 24 128 m e
  | S754_infinity false => true
  | _ => false
  end.

Variant nonneg_shape : spec_float -> Prop :=
| shape_zero s : nonneg_shape (S754_zero s)
| shape_finite m e : nonneg_shape (S754_finite false m e)
| shape_infinity : nonneg_shape (S754_infinity false).


(** ** Strings *)

(** [s.substr(pos)]: the suffix from [pos]; [std::out_of_range] ([None])
    when [pos > s.size()]. *)
Fixpoint substr_from (pos : nat) (s : string) : option string :=
  match pos, s with
  | O, _ => Some s
  | S _, EmptyString => None
  | S p, String _ s' => substr_from p s'
  end.

(** [s.substr(0, n)]: the first [min n s.size()] characters, never throws. *)
Definition substr_0 (n : nat) (s : string) : string := String.substring 0 n s.

(** [hay.find(needle) != std::string::npos]. *)
Definition str_contains (hay needle : string) : bool :=
  match String.index 0 needle hay with
  | Some _ => true
  | None => false
  end.

(** ** Atoms *)

Abbreviation loc := nat.

Module Atom.

Inductive Type' : Set :=
| Concept | Link | Process | Agent | Rule | Goal | Memory.

#[global] Instance Type_eq_dec : EqDecision Type'.
Proof. solve_decision. Defined.

Record t : Type := mk {
  m_type : Type';
  m_name : string;
  m_id : Z;
  m_truthValue : F32.t;
  m_confidence : F32.t;
  m_attention : F32.t;
  m_incomingLinks : list loc;
  m_outgoingLinks : list loc
}.

(** [Atom::Atom], given the identifier drawn from [s_nextId]. *)
Definition ctor (type : Type') (name : string) (truthValue confidence : F32.t)
    (id : Z) : t :=
  mk type name id truthValue confidence F32.f0_5 [] [].

Definition SetTruthValue (truth confidence : F32.t) (this : t) : t :=
  mk (m_type this) (m_name this) (m_id this)
     (F32.clamp truth F32.f0_0 F32.f1_0)
     (F32.clamp confidence F32.f0_0 F32.f1_0)
     (m_attention this) (m_incomingLinks this) (m_outgoingLinks this).

Definition SetAttention (attention : F32.t) (this : t) : t :=
  mk (m_type this) (m_name this) (m_id this)
     (m_truthValue this) (m_confidence this)
     attention (m_incomingLinks this) (m_outgoingLinks this).

Definition AddIncomingLink (atom : option loc) (this : t) : t :=
  match atom with
  | Some l =>
      if bool_decide (l ∈ m_incomingLinks this) then this
      else mk (m_type this) (m_name this) (m_id this)
              (m_truthValue this) (m_confidence this) (m_attention this)
              (m_incomingLinks this ++ [l]) (m_outgoingLinks this)
  | None => this
  end.

Definition AddOutgoingLink (atom : option loc) (this : t) : t :=
  match atom with
  | Some l =>
      if bool_decide (l ∈ m_outgoingLinks this) then this
      else mk (m_type this) (m_name this) (m_id this)
              (m_truthValue this) (m_confidence this) (m_attention this)
              (m_incomingLinks this) (m_outgoingLinks this ++ [l])
  | None => this
  end.

End Atom.

(** ** The machine: atom heap, identifier counter, graph stores *)

Module AtomSpace.
Record t : Type := mk {
  m_atoms : gmap Z loc;
  m_atomsByName : gmap string loc
}.
End AtomSpace.

Record Machine : Type := mkMachine {
  heap : list Atom.t;
  s_nextId : Z;
  spaces : list AtomSpace.t
}.

(** ** Agents and the registry: data *)

Module CognitiveAgent.

Inductive State : Set :=
| Inactive | Active | Learning | Planning | Executing | SelfModifying | Error.

#[global] Instance State_eq_dec : EqDecision State.
Proof. solve_decision. Defined.

Record t : Type := mk {
  m_name : string;
  m_atomSpace : option nat;
  m_state : State;
  m_shouldStop : bool;
  m_processingThread : bool;
  m_goals : list loc;
  m_memories : list loc
}.

End CognitiveAgent.

Module CognitiveSystem.

Record t : Type := mk {
  m_globalAtomSpace : nat;
  m_agents : gmap string CognitiveAgent.t;
  m_configuration : gmap string string;
  m_initialized : bool
}.

Record SystemStats : Type := mkStats {
  totalAgents : Z;
  activeAgents : Z;
  totalAtoms : Z;
  averageAttention : F32.t
}.

End CognitiveSystem.

(** ** Iteration order of the hash tables *)

Class BucketOrder : Type := {
  atoms_order : gmap Z loc -> list (Z * loc);
  atoms_order_perm : forall m, atoms_order m ≡ₚ map_to_list m;
  agents_order :
    gmap string CognitiveAgent.t -> list (string * CognitiveAgent.t);
  agents_order_perm : forall m, agents_order m ≡ₚ map_to_list m
}.

(** The order in which [gmap] lists its bindings is one admissible order. *)
#[export] Instance canonical_order : BucketOrder.
Proof.
  refine {| atoms_order := map_to_list; agents_order := map_to_list |};
    reflexivity.
Defined.

(** ** Computations: state, exceptions, undefined behaviour *)

Inductive outcome (S A : Type) : Type :=
| Ok (a : A) (s : S)
| Throw (s : S)
| Fault.
Arguments Ok {S A} a s.
Arguments Throw {S A} s.
Arguments Fault {S A}.

Definition M (S A : Type) : Type := S -> outcome S A.

#[export] Instance M_ret {S} : MRet (M S) := fun A a s => Ok a s.

#[export] Instance M_bind {S} : MBind (M S) := fun A B k c s =>
  match c s with
  | Ok a s' => k a s'
  | Throw s' => Throw s'
  | Fault => Fault
  end.

Definition get {S} : M S S := fun s => Ok s s.
Definition put {S} (s : S) : M S unit := fun _ => Ok tt s.
Definition throw {S A} : M S A := fun s => Throw s.
Definition fault {S A} : M S A := fun _ => Fault.

Definition from_option {S A} (o : option A) : M S A :=
  match o with
  | Some a => mret a
  | None => fault
  end.

Fixpoint for_each {S A} (l : list A) (body : A -> M S unit) : M S unit :=
  match l with
  | [] => mret tt
  | x :: l' => body x;; for_each l' body
  end.

(** A computation on the machine run from a method of an object [X]. *)
Definition lift {X A} (c : M Machine A) : M (X * Machine) A :=
  fun '(x, m) =>
    match c m with
    | Ok a m' => Ok a (x, m')
    | Throw m' => Throw (x, m')
    | Fault => Fault
    end.

Definition this {X} : M (X * Machine) X := fun '(x, m) => Ok x (x, m).
Definition set_this {X} (x : X) : M (X * Machine) unit :=
  fun '(_, m) => Ok tt (x, m).

(** ** Heap access *)

Definition deref (l : loc) : M Machine Atom.t :=
  fun m => from_option (heap m !! l) m.

(** Apply a member function of [Atom] through a pointer. *)
Definition on_atom (l : loc) (f : Atom.t -> Atom.t) : M Machine unit :=
  fun m =>
    match heap m !! l with
    | Some a => Ok tt (mkMachine (<[l := f a]> (heap m)) (s_nextId m) (spaces m))
    | None => Fault
    end.

(** The successor of an identifier, [s_nextId++] on [uint64_t]. *)
Definition next_id (id : Z) : Z := (id + 1) mod 2 ^ 64.

(** [std::make_shared<Atom>(...)]: draws [s_nextId++]. *)
Definition make_shared_Atom (type : Atom.Type') (name : string)
    (truthValue confidence : F32.t) : M Machine loc :=
  fun m =>
    Ok (length (heap m))
       (mkMachine (heap m ++ [Atom.ctor type name truthValue confidence (s_nextId m)])
                  (next_id (s_nextId m))
                  (spaces m)).

Definition get_space (sp : nat) : M Machine AtomSpace.t :=
  fun m => from_option (spaces m !! sp) m.

Definition set_space (sp : nat) (s : AtomSpace.t) : M Machine unit :=
  fun m => Ok tt (mkMachine (heap m) (s_nextId m) (<[sp := s]> (spaces m))).

Fixpoint filter_m {S A} (p : A -> M S bool) (l : list A) : M S (list A) :=
  match l with
  | [] => mret []
  | x :: l' =>
      b ← p x;
      r ← filter_m p l';
      mret (if b : bool then x :: r else r)
  end.

(** Methods of an agent and of the registry act on the object and on the
    machine. *)
Abbreviation AgentM := (M (CognitiveAgent.t * Machine)).
Abbreviation SystemM := (M (CognitiveSystem.t * Machine)).

(** The value of a read-only predicate on the atom behind a pointer. *)
Definition holds_at (m : Machine) (f : Atom.t -> bool) (l : loc) : bool :=
  match heap m !! l with
  | Some a => f a
  | None => false
  end.

(** ** Well-formed machines

    What C++ guarantees for free, and what [AtomSpace] keeps true of its two
    tables: a [shared_ptr] never dangles, so every pointer held in a table or
    in a link list is live; an atom registered under its identifier is also
    registered under its name, and conversely. *)

Definition entry_okb (m : Machine) (s : AtomSpace.t) (e : Z * loc) : bool :=
  match heap m !! e.2 with
  | Some a =>
      bool_decide (Atom.m_id a = e.1)
      && bool_decide (AtomSpace.m_atomsByName s !! Atom.m_name a = Some e.2)
  | None => false
  end.

Definition name_okb (m : Machine) (s : AtomSpace.t) (e : string * loc) : bool :=
  match heap m !! e.2 with
  | Some a =>
      bool_decide (Atom.m_name a = e.1)
      && bool_decide (AtomSpace.m_atoms s !! Atom.m_id a = Some e.2)
  | None => false
  end.

Definition space_okb (m : Machine) (s : AtomSpace.t) : bool :=
  forallb (entry_okb m s) (map_to_list (AtomSpace.m_atoms s))
  && forallb (name_okb m s) (map_to_list (AtomSpace.m_atomsByName s)).

(** The links of an atom are live, and their number fits [size_t]. *)
Definition links_okb (m : Machine) (a : Atom.t) : bool :=
  forallb (fun l => bool_decide (l < length (heap m))%nat) (Atom.m_outgoingLinks a)
  && forallb (fun l => bool_decide (l < length (heap m))%nat) (Atom.m_incomingLinks a)
  && (Z.of_nat (length (Atom.m_outgoingLinks a)) <? 2 ^ 64).

Definition heap_okb (m : Machine) : bool := forallb (links_okb m) (heap m).

(** Every atom respects the attention floor. *)
Definition floors_okb (m : Machine) : bool :=
  forallb (fun a => F32.above_floor (Atom.m_attention a)) (heap m).

Section Methods.

Context `{BucketOrder}.

(** ** AtomSpace *)

(** The pointers of the table [m_atoms], in iteration order. *)
Definition table (s : AtomSpace.t) : list loc :=
  snd <$> atoms_order (AtomSpace.m_atoms s).

Definition CreateAtom (sp : nat) (type : Atom.Type') (name : string)
    (truthValue confidence : F32.t) : M Machine loc :=
  s ← get_space sp;
  match AtomSpace.m_atomsByName s !! name with
  | Some existing => mret existing
  | None =>
      atom ← make_shared_Atom type name truthValue confidence;
      a ← deref atom;
      set_space sp
        (AtomSpace.mk (<[Atom.m_id a := atom]> (AtomSpace.m_atoms s))
                      (<[name := atom]> (AtomSpace.m_atomsByName s)));;
      mret atom
  end.

(** [std::make_shared<AtomSpace>()], running [AtomSpace::AtomSpace]. *)
Definition new_AtomSpace : M Machine nat :=
  m ← get;
  let sp := length (spaces m) in
  put (mkMachine (heap m) (s_nextId m) (spaces m ++ [AtomSpace.mk ∅ ∅]));;
  CreateAtom sp Atom.Concept "Self" F32.f1_0 F32.f1_0;;
  CreateAtom sp Atom.Concept "System" F32.f1_0 F32.f1_0;;
  CreateAtom sp Atom.Concept "WSL" F32.f1_0 F32.f1_0;;
  mret sp.

Definition GetAtom (sp : nat) (id : Z) : M Machine (option loc) :=
  s ← get_space sp;
  mret (AtomSpace.m_atoms s !! id).

Definition FindAtom (sp : nat) (name : string) : M Machine (option loc) :=
  s ← get_space sp;
  mret (AtomSpace.m_atomsByName s !! name).

Definition FindAtomsByType (sp : nat) (type : Atom.Type') : M Machine (list loc) :=
  s ← get_space sp;
  filter_m (fun atom => a ← deref atom; mret (bool_decide (Atom.m_type a = type)))
           (table s).

Definition RemoveAtom (sp : nat) (id : Z) : M Machine bool :=
  s ← get_space sp;
  match AtomSpace.m_atoms s !! id with
  | None => mret false
  | Some atom =>
      a ← deref atom;
      set_space sp
        (AtomSpace.mk (delete id (AtomSpace.m_atoms s))
                      (delete (Atom.m_name a) (AtomSpace.m_atomsByName s)));;
      mret true
  end.

Definition Clear (sp : nat) : M Machine unit :=
  _ ← get_space sp;
  set_space sp (AtomSpace.mk ∅ ∅).

(** The predicate receives the atom by reference; it may read the machine and
    may throw. *)
Definition Query (sp : nat) (predicate : Atom.t -> M Machine bool)
    : M Machine (list loc) :=
  s ← get_space sp;
  filter_m (fun atom => a ← deref atom; predicate a)
           (table s).

(** The body of the loop of [UpdateAttentionValues] for one table entry. *)
Definition attention_step (atom : loc) : M Machine unit :=
  a ← deref atom;
  let currentAttention := Atom.m_attention a in
  let newAttention := F32.mul currentAttention F32.f0_95 in
  let outgoing := Atom.m_outgoingLinks a in
  (if bool_decide (outgoing = []) then mret tt
   else
     let spreadAmount :=
       F32.div (F32.mul currentAttention F32.f0_1) (F32.of_size (length outgoing)) in
     for_each outgoing (fun linked =>
       b ← deref linked;
       on_atom linked (Atom.SetAttention (F32.add (Atom.m_attention b) spreadAmount))));;
  on_atom atom (Atom.SetAttention (F32.max F32.f0_01 newAttention)).

Definition UpdateAttentionValues (sp : nat) : M Machine unit :=
  s ← get_space sp;
  for_each (table s) attention_step.

Definition GetAtomCount (sp : nat) : M Machine Z :=
  s ← get_space sp;
  mret (Z.of_nat (size (AtomSpace.m_atoms s))).

Definition GetAtomCountByType (sp : nat) (type : Atom.Type') : M Machine Z :=
  l ← FindAtomsByType sp type;
  mret (Z.of_nat (length l)).

(** ** CognitiveAgent *)

Definition set_state (st : CognitiveAgent.State) : AgentM unit :=
  ag ← this;
  set_this (CognitiveAgent.mk (CognitiveAgent.m_name ag) (CognitiveAgent.m_atomSpace ag)
              st (CognitiveAgent.m_shouldStop ag) (CognitiveAgent.m_processingThread ag)
              (CognitiveAgent.m_goals ag) (CognitiveAgent.m_memories ag)).

Definition set_memories (l : list loc) : AgentM unit :=
  ag ← this;
  set_this (CognitiveAgent.mk (CognitiveAgent.m_name ag) (CognitiveAgent.m_atomSpace ag)
              (CognitiveAgent.m_state ag) (CognitiveAgent.m_shouldStop ag)
              (CognitiveAgent.m_processingThread ag)
              (CognitiveAgent.m_goals ag) l).

Definition set_goals (l : list loc) : AgentM unit :=
  ag ← this;
  set_this (CognitiveAgent.mk (CognitiveAgent.m_name ag) (CognitiveAgent.m_atomSpace ag)
              (CognitiveAgent.m_state ag) (CognitiveAgent.m_shouldStop ag)
              (CognitiveAgent.m_processingThread ag)
              l (CognitiveAgent.m_memories ag)).

Definition push_memory (memory : loc) : AgentM unit :=
  ag ← this;
  set_memories (CognitiveAgent.m_memories ag ++ [memory]).

(** [CognitiveAgent::CognitiveAgent]. *)
Definition new_CognitiveAgent (name : string) (atomSpace : option nat)
    : M Machine CognitiveAgent.t :=
  match atomSpace with
  | Some sp =>
      selfConcept ← CreateAtom sp Atom.Agent ("Agent:" +:+ name) F32.f1_0 F32.f1_0;
      on_atom selfConcept (Atom.SetAttention F32.f1_0)
  | None => mret tt
  end;;
  mret (CognitiveAgent.mk name atomSpace CognitiveAgent.Inactive false false [] []).

Definition Start : AgentM unit :=
  ag ← this;
  if bool_decide (CognitiveAgent.m_state ag ≠ CognitiveAgent.Inactive) then mret tt
  else
    set_this (CognitiveAgent.mk (CognitiveAgent.m_name ag) (CognitiveAgent.m_atomSpace ag)
                CognitiveAgent.Active false true
                (CognitiveAgent.m_goals ag) (CognitiveAgent.m_memories ag)).

Definition Stop : AgentM unit :=
  ag ← this;
  set_this (CognitiveAgent.mk (CognitiveAgent.m_name ag) (CognitiveAgent.m_atomSpace ag)
              CognitiveAgent.Inactive true false
              (CognitiveAgent.m_goals ag) (CognitiveAgent.m_memories ag)).


Definition Resume : AgentM unit :=
  ag ← this;
  if bool_decide (CognitiveAgent.m_state ag = CognitiveAgent.Inactive)
     && negb (CognitiveAgent.m_shouldStop ag)
  then set_state CognitiveAgent.Active
  else mret tt.

Definition Perceive : AgentM unit :=
  ag ← this;
  match CognitiveAgent.m_atomSpace ag with
  | None => mret tt
  | Some sp =>
      set_state CognitiveAgent.Active;;
      highAttentionAtoms ←
        lift (Query sp (fun atom => mret (F32.ltb F32.f0_7 (Atom.m_attention atom))));
      for_each highAttentionAtoms (fun atom =>
        a ← lift (deref atom);
        memory ← lift (CreateAtom sp Atom.Memory ("Perceived:" +:+ Atom.m_name a)
                         (Atom.m_truthValue a) (Atom.m_confidence a));
        push_memory memory)
  end.

(** The lambda of [Reason]: [&&] evaluates [substr(9)] only for Concept
    atoms. *)
Definition related_to (memory : loc) (atom : Atom.t) : M Machine bool :=
  if bool_decide (Atom.m_type atom = Atom.Concept) then
    mem ← deref memory;
    match substr_from 9 (Atom.m_name mem) with
    | Some needle => mret (str_contains (Atom.m_name atom) needle)
    | None => throw
    end
  else mret false.

Definition Reason : AgentM unit :=
  ag ← this;
  match CognitiveAgent.m_atomSpace ag with
  | None => mret tt
  | Some sp =>
      for_each (CognitiveAgent.m_memories ag) (fun memory =>
        relatedAtoms ← lift (Query sp (related_to memory));
        for_each relatedAtoms (fun related =>
          r ← lift (deref related);
          mem ← lift (deref memory);
          let currentTruth := Atom.m_truthValue r in
          let memoryTruth := Atom.m_truthValue mem in
          let newTruth := F32.div (F32.add currentTruth memoryTruth) F32.f2_0 in
          lift (on_atom related
                  (Atom.SetTruthValue newTruth (F32.mul (Atom.m_confidence r) F32.f1_1)))))
  end.

(** [Plan] and [Act] dereference [m_atomSpace] without a null check. *)
Definition Plan : AgentM unit :=
  ag ← this;
  for_each (CognitiveAgent.m_goals ag) (fun goal =>
    g ← lift (deref goal);
    if F32.ltb (Atom.m_truthValue g) F32.f0_8 then
      sp ← from_option (CognitiveAgent.m_atomSpace ag);
      plan ← lift (CreateAtom sp Atom.Process ("Plan:" +:+ Atom.m_name g)
                     F32.f0_5 F32.f0_8);
      lift (on_atom goal (Atom.AddOutgoingLink (Some plan)))
    else mret tt).

Definition Act : AgentM unit :=
  ag ← this;
  sp ← from_option (CognitiveAgent.m_atomSpace ag);
  plans ← lift (FindAtomsByType sp Atom.Process);
  for_each plans (fun plan =>
    p ← lift (deref plan);
    if bool_decide (substr_0 5 (Atom.m_name p) = "Plan:")
       && F32.ltb F32.f0_4 (Atom.m_truthValue p)
    then
      lift (on_atom plan
              (Atom.SetTruthValue (F32.add (Atom.m_truthValue p) F32.f0_1)
                                  (Atom.m_confidence p)));;
      for_each (Atom.m_incomingLinks p) (fun incoming =>
        i ← lift (deref incoming);
        if bool_decide (Atom.m_type i = Atom.Goal) then
          lift (on_atom incoming
                  (Atom.SetTruthValue (F32.add (Atom.m_truthValue i) F32.f0_05)
                                      (Atom.m_confidence i)))
        else mret tt)
    else mret tt).

Definition Learn : AgentM unit :=
  ag ← this;
  match CognitiveAgent.m_atomSpace ag with
  | None => mret tt
  | Some sp =>
      set_state CognitiveAgent.Learning;;
      concepts ← lift (FindAtomsByType sp Atom.Concept);
      for_each concepts (fun concept =>
        c ← lift (deref concept);
        if F32.ltb F32.f0_5 (Atom.m_attention c) then
          lift (on_atom concept
                  (Atom.SetTruthValue (Atom.m_truthValue c)
                     (F32.min F32.f1_0 (F32.add (Atom.m_confidence c) F32.f0_01))))
        else mret tt);;
      ag' ← this;
      if bool_decide (1000 < length (CognitiveAgent.m_memories ag'))%nat
      then set_memories (drop 100 (CognitiveAgent.m_memories ag'))
      else mret tt
  end.

Definition successful_plan (atom : Atom.t) : bool :=
  bool_decide (Atom.m_type atom = Atom.Process)
  && bool_decide (substr_0 5 (Atom.m_name atom) = "Plan:")
  && F32.ltb F32.f0_8 (Atom.m_truthValue atom).

Definition SelfModify : AgentM unit :=
  ag ← this;
  match CognitiveAgent.m_atomSpace ag with
  | None => mret tt
  | Some sp =>
      set_state CognitiveAgent.SelfModifying;;
      successfulPlans ← lift (Query sp (fun atom => mret (successful_plan atom)));
      for_each successfulPlans (fun plan =>
        p ← lift (deref plan);
        rule ← lift (CreateAtom sp Atom.Rule ("Rule:" +:+ Atom.m_name p)
                       (Atom.m_truthValue p) (Atom.m_confidence p));
        lift (on_atom plan (Atom.AddOutgoingLink (Some rule))))
  end.

Definition AddGoal (goal : option loc) : AgentM unit :=
  match goal with
  | None => mret tt
  | Some l =>
      g ← lift (deref l);
      if bool_decide (Atom.m_type g = Atom.Goal) then
        ag ← this;
        set_goals (CognitiveAgent.m_goals ag ++ [l])
      else mret tt
  end.

Definition RemoveGoal (goalId : Z) : AgentM unit :=
  ag ← this;
  keep ← lift (filter_m (fun goal => g ← deref goal;
                            mret (negb (bool_decide (Atom.m_id g = goalId))))
                 (CognitiveAgent.m_goals ag));
  set_goals keep.

Definition SendMessage (targetAgent message : string) : AgentM unit := mret tt.

Definition ReceiveMessage (fromAgent message : string) : AgentM unit :=
  ag ← this;
  match CognitiveAgent.m_atomSpace ag with
  | None => mret tt
  | Some sp =>
      messageAtom ← lift (CreateAtom sp Atom.Memory
                            ("Message:" +:+ fromAgent +:+ ":" +:+ message)
                            F32.f1_0 F32.f0_9);
      push_memory messageAtom
  end.

(** The stages of one pass through the body of [ProcessingLoop]; [draw] tells
    whether the random number fell below 0.01. *)
Definition stages (draw : bool) : AgentM unit :=
  Perceive;; Reason;; Plan;; Act;; Learn;;
  (if draw then SelfModify else mret tt).

(** One iteration: the [try] block and its [catch (...)]. *)
Definition iteration (draw : bool) : AgentM unit :=
  fun s =>
    match stages draw s with
    | Ok _ s' => Ok tt s'
    | Throw s' => set_state CognitiveAgent.Error s'
    | Fault => Fault
    end.

(** [ProcessingLoop] for a finite sequence of draws, as long as the stop flag
    is clear. *)
Fixpoint ProcessingLoop (draws : list bool) : AgentM unit :=
  match draws with
  | [] => mret tt
  | d :: ds =>
      ag ← this;
      if CognitiveAgent.m_shouldStop ag then mret tt
      else iteration d;; ProcessingLoop ds
  end.

(** ** CognitiveSystem *)

Definition set_agents (ags : gmap string CognitiveAgent.t) : SystemM unit :=
  sys ← this;
  set_this (CognitiveSystem.mk (CognitiveSystem.m_globalAtomSpace sys) ags
              (CognitiveSystem.m_configuration sys) (CognitiveSystem.m_initialized sys)).

Definition set_initialized (b : bool) : SystemM unit :=
  sys ← this;
  set_this (CognitiveSystem.mk (CognitiveSystem.m_globalAtomSpace sys)
              (CognitiveSystem.m_agents sys) (CognitiveSystem.m_configuration sys) b).

(** Call a method of the registered agent [name] through its pointer. *)
Definition on_agent {A} (name : string) (method : AgentM A) : SystemM A :=
  fun '(sys, m) =>
    match CognitiveSystem.m_agents sys !! name with
    | None => Fault
    | Some ag =>
        let back ag' :=
          CognitiveSystem.mk (CognitiveSystem.m_globalAtomSpace sys)
            (<[name := ag']> (CognitiveSystem.m_agents sys))
            (CognitiveSystem.m_configuration sys) (CognitiveSystem.m_initialized sys) in
        match method (ag, m) with
        | Ok a (ag', m') => Ok a (back ag', m')
        | Throw (ag', m') => Throw (back ag', m')
        | Fault => Fault
        end
    end.

(** [CognitiveSystem::CognitiveSystem]. *)
Definition new_CognitiveSystem : M Machine CognitiveSystem.t :=
  sp ← new_AtomSpace;
  mret (CognitiveSystem.mk sp ∅ ∅ false).

Definition SetConfiguration (key value : string) : SystemM unit :=
  sys ← this;
  set_this (CognitiveSystem.mk (CognitiveSystem.m_globalAtomSpace sys)
              (CognitiveSystem.m_agents sys)
              (<[key := value]> (CognitiveSystem.m_configuration sys))
              (CognitiveSystem.m_initialized sys)).

Definition GetConfiguration (key : string) : SystemM string :=
  sys ← this;
  mret (default "" (CognitiveSystem.m_configuration sys !! key)).

Definition Initialize : SystemM unit :=
  sys ← this;
  set_initialized true;;
  if CognitiveSystem.m_initialized sys then mret tt
  else
    let sp := CognitiveSystem.m_globalAtomSpace sys in
    lift (CreateAtom sp Atom.Concept "CognitiveSystem" F32.f1_0 F32.f1_0);;
    lift (CreateAtom sp Atom.Goal "SystemStability" F32.f1_0 F32.f1_0);;
    lift (CreateAtom sp Atom.Goal "OptimizePerformance" F32.f0_8 F32.f0_9);;
    SetConfiguration "max_agents" "10";;
    SetConfiguration "attention_update_interval" "1000";;
    SetConfiguration "self_modification_probability" "0.01".

Definition Shutdown : SystemM unit :=
  sys ← this;
  set_initialized false;;
  if negb (CognitiveSystem.m_initialized sys) then mret tt
  else
    for_each (agents_order (CognitiveSystem.m_agents sys))
             (fun '(name, _) => on_agent name Stop);;
    set_agents ∅.

(** The agent is returned by its registry key. *)
Definition CreateAgent (name : string) : SystemM string :=
  sys ← this;
  match CognitiveSystem.m_agents sys !! name with
  | Some _ => mret name
  | None =>
      agent ← lift (new_CognitiveAgent name (Some (CognitiveSystem.m_globalAtomSpace sys)));
      set_agents (<[name := agent]> (CognitiveSystem.m_agents sys));;
      goal ← lift (CreateAtom (CognitiveSystem.m_globalAtomSpace sys) Atom.Goal
                     ("AgentGoal:" +:+ name) F32.f0_5 F32.f0_8);
      on_agent name (AddGoal (Some goal));;
      mret name
  end.

Definition GetAgent (name : string) : SystemM (option CognitiveAgent.t) :=
  sys ← this;
  mret (CognitiveSystem.m_agents sys !! name).

Definition RemoveAgent (name : string) : SystemM bool :=
  sys ← this;
  match CognitiveSystem.m_agents sys !! name with
  | None => mret false
  | Some _ =>
      on_agent name Stop;;
      sys' ← this;
      set_agents (delete name (CognitiveSystem.m_agents sys'));;
      mret true
  end.

Definition GetAgentNames : SystemM (list string) :=
  sys ← this;
  mret (fst <$> agents_order (CognitiveSystem.m_agents sys)).

Definition GetAgentCount : SystemM Z :=
  sys ← this;
  mret (Z.of_nat (size (CognitiveSystem.m_agents sys))).

Definition BroadcastMessage (message : string) : SystemM unit :=
  sys ← this;
  for_each (agents_order (CognitiveSystem.m_agents sys))
           (fun '(name, _) => on_agent name (ReceiveMessage "System" message)).

(** The states [GetStatistics] counts as active. *)
Definition counts_as_active (st : CognitiveAgent.State) : bool :=
  bool_decide (st = CognitiveAgent.Active)
  || bool_decide (st = CognitiveAgent.Learning)
  || bool_decide (st = CognitiveAgent.Planning)
  || bool_decide (st = CognitiveAgent.Executing)
  || bool_decide (st = CognitiveAgent.SelfModifying).

Definition GetStatistics : SystemM CognitiveSystem.SystemStats :=
  sys ← this;
  let ags := agents_order (CognitiveSystem.m_agents sys) in
  let total := Z.of_nat (size (CognitiveSystem.m_agents sys)) in
  let active :=
    Z.of_nat (length (List.filter
                        (fun e => counts_as_active (CognitiveAgent.m_state e.2)) ags)) in
  atoms ← lift (GetAtomCount (CognitiveSystem.m_globalAtomSpace sys));
  allAtoms ← lift (Query (CognitiveSystem.m_globalAtomSpace sys) (fun _ => mret true));
  atts ← lift (mapM (M := M Machine) (fun atom => a ← deref atom; mret (Atom.m_attention a)) allAtoms);
  let average :=
    if bool_decide (allAtoms = []) then F32.f0_0
    else F32.div (foldl F32.add F32.f0_0 atts) (F32.of_size (length allAtoms)) in
  mret (CognitiveSystem.mkStats total active atoms average).

(** The inner loop of [UpdateSystem]: [Resume] the first agent found
    [Inactive], then [break]. *)
Fixpoint activate_first (ags : list (string * CognitiveAgent.t)) : SystemM unit :=
  match ags with
  | [] => mret tt
  | (name, agent) :: rest =>
      if bool_decide (CognitiveAgent.m_state agent = CognitiveAgent.Inactive)
      then on_agent name Resume
      else activate_first rest
  end.

(** The body of the loop of [UpdateSystem] over the Goal atoms. *)
Definition goal_step (goal : loc) : SystemM unit :=
  g ← lift (deref goal);
  if bool_decide (Atom.m_name g = "OptimizePerformance") then
    stats ← GetStatistics;
    if CognitiveSystem.activeAgents stats <? CognitiveSystem.totalAgents stats / 2 then
      sys' ← this;
      activate_first (agents_order (CognitiveSystem.m_agents sys'))
    else mret tt
  else mret tt.

Definition UpdateSystem : SystemM unit :=
  sys ← this;
  if negb (CognitiveSystem.m_initialized sys) then mret tt
  else
    lift (UpdateAttentionValues (CognitiveSystem.m_globalAtomSpace sys));;
    systemGoals ← lift (FindAtomsByType (CognitiveSystem.m_globalAtomSpace sys) Atom.Goal);
    for_each systemGoals goal_step.

End Methods.

(** * Frame conditions *)

(** A method that leaves the part [f] of the object it is called on as it
    was, whether it returns or throws. *)
Definition keeps {X Y A} (f : X -> Y) (c : M (X * Machine) A) : Prop :=
  forall x m,
    match c (x, m) with
    | Ok _ (x', _) => f x' = f x
    | Throw (x', _) => f x' = f x
    | Fault => True
    end.

(** A method that leaves the whole object as it was. *)
Definition keeps_this {X A} (c : M (X * Machine) A) : Prop := keeps id c.

(** [m'] extends [m] without touching incoming links: the heap has only
    grown, every old atom has the incoming links it had, every new atom has
    none. *)
Definition incoming_kept (m m' : Machine) : Prop :=
  (length (heap m) <= length (heap m'))%nat /\
  (forall (l : loc) a', heap m' !! l = Some a' ->
     Atom.m_incomingLinks a' =
     match heap m !! l with
     | Some a => Atom.m_incomingLinks a
     | None => []
     end).

(** [m'] differs from [m] in attention values only. *)
Definition attention_only (m m' : Machine) : Prop :=
  spaces m' = spaces m /\ s_nextId m' = s_nextId m /\
  length (heap m') = length (heap m) /\
  (forall (l : loc) a, heap m !! l = Some a ->
     exists a', heap m' !! l = Some a' /\
                Atom.SetAttention (Atom.m_attention a) a' = a).

(** Every atom of [m] respects the attention floor. *)
Definition floors (m : Machine) : Prop :=
  forall (l : loc) a, heap m !! l = Some a ->
    F32.above_floor (Atom.m_attention a) = true.

(** No attention is lower in [m'] than in [m], except at the atoms [skip]. *)
Definition grows_except (skip : list loc) (m m' : Machine) : Prop :=
  forall (l : loc) a a', l ∉ skip ->
    heap m !! l = Some a -> heap m' !! l = Some a' ->
    F32.leb (Atom.m_attention a) (Atom.m_attention a') = true.

(** The loop of [UpdateAttentionValues] over a given traversal. *)
Definition pass_over (L : list loc) : M Machine unit := for_each L attention_step.

(** * The self-tuning step of the registry, as a function

    What [UpdateSystem] does to the registered agents once it has found the
    goal "OptimizePerformance". *)

(** The effect of [Resume] on an agent. *)
Definition resumed (ag : CognitiveAgent.t) : CognitiveAgent.t :=
  if bool_decide (CognitiveAgent.m_state ag = CognitiveAgent.Inactive)
     && negb (CognitiveAgent.m_shouldStop ag)
  then CognitiveAgent.mk (CognitiveAgent.m_name ag) (CognitiveAgent.m_atomSpace ag)
         CognitiveAgent.Active (CognitiveAgent.m_shouldStop ag)
         (CognitiveAgent.m_processingThread ag)
         (CognitiveAgent.m_goals ag) (CognitiveAgent.m_memories ag)
  else ag.

(** The first agent of a traversal that is [Inactive]. *)
Fixpoint first_inactive (ags : list (string * CognitiveAgent.t))
    : option (string * CognitiveAgent.t) :=
  match ags with
  | [] => None
  | (name, agent) :: rest =>
      if bool_decide (CognitiveAgent.m_state agent = CognitiveAgent.Inactive)
      then Some (name, agent)
      else first_inactive rest
  end.

(** The number of agents of a traversal that [GetStatistics] counts as
    active. *)
Definition active_count (ags : list (string * CognitiveAgent.t)) : Z :=
  Z.of_nat (length (List.filter
                      (fun e => counts_as_active (CognitiveAgent.m_state e.2)) ags)).

Definition nudged `{BucketOrder} (agents : gmap string CognitiveAgent.t)
    : gmap string CognitiveAgent.t :=
  if active_count (agents_order agents) <? Z.of_nat (size agents) / 2 then
    match first_inactive (agents_order agents) with
    | Some (name, agent) => <[name := resumed agent]> agents
    | None => agents
    end
  else agents.

(** Whether the atom behind a pointer is named "OptimizePerformance". *)
Definition is_optimize (m : Machine) (l : loc) : bool :=
  holds_at m (fun a => bool_decide (Atom.m_name a = "OptimizePerformance")) l.

(** The registry with another set of agents. *)
Definition with_agents (sys : CognitiveSystem.t) (ags : gmap string CognitiveAgent.t)
    : CognitiveSystem.t :=
  CognitiveSystem.mk (CognitiveSystem.m_globalAtomSpace sys) ags
    (CognitiveSystem.m_configuration sys) (CognitiveSystem.m_initialized sys).

(** Whether the store binds "OptimizePerformance" to a Goal. *)
Definition has_optimize_goal (m : Machine) (s : AtomSpace.t) : bool :=
  match AtomSpace.m_atomsByName s !! "OptimizePerformance" with
  | Some l => holds_at m (fun a => bool_decide (Atom.m_type a = Atom.Goal)) l
  | None => false
  end.

(** * Predicates and values used in the statements *)

(** Every pointer of the list is live. *)
Definition all_liveb (m : Machine) (ls : list loc) : bool :=
  forallb (fun l => bool_decide (l < length (heap m))%nat) ls.

(** Every pointer filed under a name is live. *)
Definition names_live (m : Machine) (s : AtomSpace.t) : Prop :=
  forall n l, AtomSpace.m_atomsByName s !! n = Some l -> (l < length (heap m))%nat.

(** The atom behind [l] carries the identifier [goalId]. *)
Definition has_id (m : Machine) (goalId : Z) (l : loc) : bool :=
  holds_at m (fun a => bool_decide (Atom.m_id a = goalId)) l.

(** The agent with one more memory. *)
Definition remembering (node : loc) (ag : CognitiveAgent.t) : CognitiveAgent.t :=
  CognitiveAgent.mk (CognitiveAgent.m_name ag) (CognitiveAgent.m_atomSpace ag)
    (CognitiveAgent.m_state ag) (CognitiveAgent.m_shouldStop ag)
    (CognitiveAgent.m_processingThread ag) (CognitiveAgent.m_goals ag)
    (CognitiveAgent.m_memories ag ++ [node]).

(** The name under which [ReceiveMessage] files a message. *)
Definition message_name (fromAgent message : string) : string :=
  "Message:" +:+ fromAgent +:+ ":" +:+ message.

(** Every registered agent works on the global store, as the agents made by
    [CreateAgent] do. *)
Definition agents_boundb (sys : CognitiveSystem.t) : bool :=
  forallb (fun e => bool_decide (CognitiveAgent.m_atomSpace e.2 =
                                 Some (CognitiveSystem.m_globalAtomSpace sys)))
          (map_to_list (CognitiveSystem.m_agents sys)).

(** ** Live pointers *)

(** The tables of a store hold live pointers, and a pointer filed under a
    name leads to an atom of that name. *)
Definition store_live (m : Machine) (s : AtomSpace.t) : Prop :=
  (forall id l, AtomSpace.m_atoms s !! id = Some l -> (l < length (heap m))%nat) /\
  (forall n l, AtomSpace.m_atomsByName s !! n = Some l ->
     exists a, heap m !! l = Some a /\ Atom.m_name a = n).

(** Every link of every atom is a live pointer. *)
Definition links_live (m : Machine) : Prop :=
  forall l a, heap m !! l = Some a ->
    Forall (fun x => x < length (heap m))%nat (Atom.m_outgoingLinks a) /\
    Forall (fun x => x < length (heap m))%nat (Atom.m_incomingLinks a).

(** No pointer of the machine dangles. *)
Definition live (m : Machine) : Prop :=
  (forall sp s, spaces m !! sp = Some s -> store_live m s) /\ links_live m.

(** [m'] is [m] after creations and updates in place: no store and no atom
    is freed, and an atom keeps its name. *)
Definition evolves (m m' : Machine) : Prop :=
  length (spaces m') = length (spaces m) /\
  forall l a, heap m !! l = Some a ->
    exists a', heap m' !! l = Some a' /\ Atom.m_name a' = Atom.m_name a.

(** A memory whose name [Reason] can cut at position 9. *)
Definition memory_ok (m : Machine) (l : loc) : Prop :=
  exists a, heap m !! l = Some a /\ (9 <= String.length (Atom.m_name a))%nat.

(** An agent bound to the store [sp] whose pointers are live. *)
Definition agent_live (sp : nat) (ag : CognitiveAgent.t) (m : Machine) : Prop :=
  CognitiveAgent.m_atomSpace ag = Some sp /\ (sp < length (spaces m))%nat /\
  Forall (fun l => l < length (heap m))%nat (CognitiveAgent.m_goals ag) /\
  Forall (memory_ok m) (CognitiveAgent.m_memories ag).
(** [m'] differs from [m] in truth values and confidences only. *)
Definition truth_only (m m' : Machine) : Prop :=
  spaces m' = spaces m /\ s_nextId m' = s_nextId m /\
  length (heap m') = length (heap m) /\
  forall l a, heap m !! l = Some a ->
    exists a', heap m' !! l = Some a' /\
      Atom.mk (Atom.m_type a') (Atom.m_name a') (Atom.m_id a')
        (Atom.m_truthValue a) (Atom.m_confidence a) (Atom.m_attention a')
        (Atom.m_incomingLinks a') (Atom.m_outgoingLinks a') = a.

(** The executable forms of [store_live], [live] and [agent_live]. *)
Definition store_liveb (m : Machine) (s : AtomSpace.t) : bool :=
  forallb (fun e => bool_decide (e.2 < length (heap m))%nat)
          (map_to_list (AtomSpace.m_atoms s))
  && forallb (fun e => holds_at m (fun a => bool_decide (Atom.m_name a = e.1)) e.2)
             (map_to_list (AtomSpace.m_atomsByName s)).

Definition liveb (m : Machine) : bool :=
  forallb (store_liveb m) (spaces m)
  && forallb (fun a => all_liveb m (Atom.m_outgoingLinks a)
                       && all_liveb m (Atom.m_incomingLinks a)) (heap m).

Definition agent_liveb (ag : CognitiveAgent.t) (m : Machine) : bool :=
  match CognitiveAgent.m_atomSpace ag with
  | Some sp => bool_decide (sp < length (spaces m))%nat
  | None => false
  end
  && all_liveb m (CognitiveAgent.m_goals ag)
  && forallb (holds_at m (fun a => bool_decide (9 <= String.length (Atom.m_name a))%nat))
             (CognitiveAgent.m_memories ag).

(** The atoms [Perceive] finds above the threshold 0.7. *)
Definition perceived `{BucketOrder} (m : Machine) (s : AtomSpace.t) : list loc :=
  List.filter (holds_at m (fun a => F32.ltb F32.f0_7 (Atom.m_attention a))) (table s).

(** ** Identifiers, reports and plans *)

(** Identifiers are below the counter and no two atoms share one. *)
Definition ids_okb (m : Machine) : bool :=
  forallb (fun a => Atom.m_id a <? s_nextId m) (heap m)
  && bool_decide (NoDup (Atom.m_id <$> heap m)).

(** Whether the agent registered under [name] is in one of the states that
    count as active. *)
Definition is_active (sys : CognitiveSystem.t) (name : string) : bool :=
  match CognitiveSystem.m_agents sys !! name with
  | Some ag => counts_as_active (CognitiveAgent.m_state ag)
  | None => false
  end.

(** [m'] keeps what [m] has and may add to it: atoms keep their name and
    truth value and the links they point with, the store [sp] keeps its
    names. *)
Definition adds_only (sp : nat) (m m' : Machine) : Prop :=
  (forall l a, heap m !! l = Some a ->
     exists a', heap m' !! l = Some a' /\
       Atom.m_name a' = Atom.m_name a /\
       Atom.m_truthValue a' = Atom.m_truthValue a /\
       (forall x, x ∈ Atom.m_outgoingLinks a -> x ∈ Atom.m_outgoingLinks a')) /\
  (forall s, spaces m !! sp = Some s ->
     exists s', spaces m' !! sp = Some s' /\
       forall n l, AtomSpace.m_atomsByName s !! n = Some l ->
                   AtomSpace.m_atomsByName s' !! n = Some l).

(** The goal behind [goal], if it is not achieved, points to the atom that
    the store [sp] holds under the name of its plan. *)
Definition planned (sp : nat) (m : Machine) (goal : loc) : Prop :=
  forall g, heap m !! goal = Some g ->
    F32.ltb (Atom.m_truthValue g) F32.f0_8 = true ->
    exists s plan,
      spaces m !! sp = Some s /\
      AtomSpace.m_atomsByName s !! ("Plan:" +:+ Atom.m_name g) = Some plan /\
      plan ∈ Atom.m_outgoingLinks g.

(** * Scenarios

    Programs against the public interface, used to evaluate the model on
    concrete inputs. *)

(** The machine at program start: no atom, [s_nextId{1}], no store. *)
Definition boot : Machine := mkMachine [] 1 [].

(** The machine after [AtomSpace::AtomSpace]. *)
Definition seeded (m : Machine) : Machine :=
  let h := length (heap m) in
  let id1 := s_nextId m in
  let id2 := next_id id1 in
  let id3 := next_id id2 in
  mkMachine
    (heap m ++ [Atom.ctor Atom.Concept "Self" F32.f1_0 F32.f1_0 id1;
                Atom.ctor Atom.Concept "System" F32.f1_0 F32.f1_0 id2;
                Atom.ctor Atom.Concept "WSL" F32.f1_0 F32.f1_0 id3])
    (next_id id3)
    (spaces m ++
       [AtomSpace.mk
          (<[id3 := S (S h)]> (<[id2 := S h]> (<[id1 := h]> ∅)))
          (<["WSL" := S (S h)]> (<["System" := S h]> (<["Self" := h]> ∅)))]).

(** The store built by [AtomSpace::AtomSpace] at program start. *)
Definition boot_space : AtomSpace.t :=
  AtomSpace.mk (<[3 := 2%nat]> (<[2 := 1%nat]> (<[1 := 0%nat]> ∅)))
               (<["WSL" := 2%nat]> (<["System" := 1%nat]> (<["Self" := 0%nat]> ∅))).

(** Run a method of an object that is held by value. *)
Definition call {X A} (method : M (X * Machine) A) (x : X) : M Machine (A * X) :=
  fun m =>
    match method (x, m) with
    | Ok a (x', m') => Ok (a, x') m'
    | Throw (_, m') => Throw m'
    | Fault => Fault
    end.

(** Truth, confidence and attention of an atom. *)
Definition scalars (l : loc) : M Machine (F32.t * F32.t * F32.t) :=
  a ← deref l;
  mret (Atom.m_truthValue a, Atom.m_confidence a, Atom.m_attention a).

(** The agent of the unit test [TestCognitiveAgent]: a fresh store, the agent
    "TestAgent" and its goal "TestGoal" at truth 0.5 and confidence 0.8. *)
Definition test_agent : M Machine (loc * CognitiveAgent.t) :=
  sp ← new_AtomSpace;
  ag ← new_CognitiveAgent "TestAgent" (Some sp);
  goal ← CreateAtom sp Atom.Goal "TestGoal" F32.f0_5 F32.f0_8;
  r ← call (AddGoal (Some goal)) ag;
  mret (goal, r.2).

(** The state of the agent after each stage of its first cycle, with the
    self-modification drawn. *)
Definition states_through_cycle : M Machine (list CognitiveAgent.State) :=
  r ← test_agent;
  r0 ← call Start r.2;
  r1 ← call Perceive r0.2;
  r2 ← call Reason r1.2;
  r3 ← call Plan r2.2;
  r4 ← call Act r3.2;
  r5 ← call Learn r4.2;
  r6 ← call SelfModify r5.2;
  mret (CognitiveAgent.m_state <$> [r0.2; r1.2; r2.2; r3.2; r4.2; r5.2; r6.2]).

(** One [Plan] stage and then one [Act] stage of the test agent: the goal,
    the plan found under "Plan:TestGoal", and the truth of the goal before
    and after, the truth of the plan after, and the links. *)
Definition plan_then_act
    : M Machine (F32.t * F32.t * F32.t * list loc * list loc * loc * option loc) :=
  r ← test_agent;
  g0 ← deref r.1;
  r1 ← call Plan r.2;
  r2 ← call Act r1.2;
  plan ← FindAtom 0 "Plan:TestGoal";
  g ← deref r.1;
  p ← from_option (plan ≫= fun l => Some l);
  pa ← deref p;
  mret (Atom.m_truthValue g0, Atom.m_truthValue g, Atom.m_truthValue pa,
        Atom.m_outgoingLinks g, Atom.m_incomingLinks pa, r.1, plan).

(** [n] calls of a method in a row. *)
Fixpoint times {S} (n : nat) (c : M S unit) : M S unit :=
  match n with
  | O => mret tt
  | S k => c;; times k c
  end.

(** An agent on a fresh store receives [n] messages and then runs [Learn]:
    the size of its memory list before and after the stage. *)
Definition learn_after_messages (n : nat) : M Machine (nat * nat) :=
  sp ← new_AtomSpace;
  ag ← new_CognitiveAgent "TestAgent" (Some sp);
  r1 ← call (times n (ReceiveMessage "System" "tick")) ag;
  r2 ← call Learn r1.2;
  mret (length (CognitiveAgent.m_memories r1.2), length (CognitiveAgent.m_memories r2.2)).

(** What [Learn] leaves of a memory list. *)
Definition trimmed (memories : list loc) : list loc :=
  if bool_decide (1000 < length memories)%nat then drop 100 memories else memories.

(** The Concept "Self" is raised to attention 0.9 and perceived by a new
    agent, which stores the memory "Perceived:Self" with truth and
    confidence 1.0.  The belief in "Self" then drops to truth 0.5 and
    confidence 0.5, a Concept "Note:Self" is created at truth 0.5 and
    confidence 0.5, and [Reason] runs.  Returned: the names of the memories,
    the needle cut from "Perceived:Self", and truth and confidence of "Self"
    before and after [Reason] and of "Note:Self" after it. *)
Definition reason_about_Self
    : M Machine (list string * option string
                 * (F32.t * F32.t) * (F32.t * F32.t) * (F32.t * F32.t)) :=
  sp ← new_AtomSpace;
  ag ← new_CognitiveAgent "TestAgent" (Some sp);
  found ← FindAtom sp "Self";
  self ← from_option found;
  on_atom self (Atom.SetAttention F32.f0_9);;
  r1 ← call Perceive ag;
  on_atom self (Atom.SetTruthValue F32.f0_5 F32.f0_5);;
  note ← CreateAtom sp Atom.Concept "Note:Self" F32.f0_5 F32.f0_5;
  before ← deref self;
  r2 ← call Reason r1.2;
  after ← deref self;
  noteAfter ← deref note;
  names ← mapM (M := M Machine) (fun l => a ← deref l; mret (Atom.m_name a))
             (CognitiveAgent.m_memories r2.2);
  found' ← FindAtom sp "Perceived:Self";
  memory ← from_option found';
  mem ← deref memory;
  mret (names, substr_from 9 (Atom.m_name mem),
        (Atom.m_truthValue before, Atom.m_confidence before),
        (Atom.m_truthValue after, Atom.m_confidence after),
        (Atom.m_truthValue noteAfter, Atom.m_confidence noteAfter)).

(** The state of a registered agent. *)
Definition state_of (sys : CognitiveSystem.t) (name : string)
    : option CognitiveAgent.State :=
  CognitiveAgent.m_state <$> CognitiveSystem.m_agents sys !! name.

(** An initialized system with the single agent "Agent1", never started:
    the statistics, and the state of the agent before and after
    [UpdateSystem]. *)
Definition update_with_one_idle_agent
    : M Machine (Z * Z * option CognitiveAgent.State * option CognitiveAgent.State) :=
  sys ← new_CognitiveSystem;
  r1 ← call Initialize sys;
  r2 ← call (CreateAgent "Agent1") r1.2;
  r3 ← call GetStatistics r2.2;
  r4 ← call UpdateSystem r3.2;
  mret (CognitiveSystem.totalAgents r3.1, CognitiveSystem.activeAgents r3.1,
        state_of r3.2 "Agent1", state_of r4.2 "Agent1").

(** An initialized system with the agents "Agent1" and "Agent2", both
    started and stopped again: the statistics, and the states of the agents
    after [UpdateSystem]. *)
Definition update_with_two_stopped_agents
    : M Machine (Z * Z * option CognitiveAgent.State * option CognitiveAgent.State) :=
  sys ← new_CognitiveSystem;
  r1 ← call Initialize sys;
  r2 ← call (CreateAgent "Agent1";; CreateAgent "Agent2") r1.2;
  r3 ← call (on_agent "Agent1" (Start;; Stop);; on_agent "Agent2" (Start;; Stop)) r2.2;
  r4 ← call GetStatistics r3.2;
  r5 ← call UpdateSystem r4.2;
  mret (CognitiveSystem.totalAgents r4.1, CognitiveSystem.activeAgents r4.1,
        state_of r5.2 "Agent1", state_of r5.2 "Agent2").

(** An initialized system with the agents "Agent1" and "Agent2", neither
    of them started. *)
Definition two_idle_agents : CognitiveSystem.t * Machine :=
  Eval vm_compute in
    match (sys ← new_CognitiveSystem;
           r ← call (Initialize;; CreateAgent "Agent1";; CreateAgent "Agent2") sys;
           mret r.2) boot with
    | Ok sys m => (sys, m)
    | _ => (CognitiveSystem.mk 0 ∅ ∅ false, boot)
    end.

(** A fresh store, then two [CreateAtom] calls on the seeded name "Self". *)
Definition create_Self_twice : M Machine (loc * loc * (F32.t * F32.t * F32.t)) :=
  sp ← new_AtomSpace;
  n1 ← CreateAtom sp Atom.Concept "Self" F32.f0_5 F32.f0_4;
  n2 ← CreateAtom sp Atom.Process "Self" F32.f0_1 F32.f0_1;
  v ← scalars n2;
  mret (n1, n2, v).

(** The attention read back from a list of atoms. *)
Definition attentions (nodes : list loc) : M Machine (list F32.t) :=
  mapM (fun l => a ← deref l; mret (Atom.m_attention a)) nodes.

(** Two Concepts "A" and "B" created in the store [sp], with an outgoing
    link from A to B and, if [back] is set, one from B to A; their attentions
    are set to [a] and [b] through [SetAttention]. *)
Definition linked_pair (back : bool) (a b : F32.t) (sp : nat) : M Machine (loc * loc) :=
  A ← CreateAtom sp Atom.Concept "A" F32.f1_0 F32.f1_0;
  B ← CreateAtom sp Atom.Concept "B" F32.f1_0 F32.f1_0;
  on_atom A (Atom.AddOutgoingLink (Some B));;
  (if back then on_atom B (Atom.AddOutgoingLink (Some A)) else mret tt);;
  on_atom A (Atom.SetAttention a);;
  on_atom B (Atom.SetAttention b);;
  mret (A, B).

(** The pair in a fresh store, where A and B sit at locations 3 and 4 behind
    the three seeded atoms, and the attentions of A and B after one pass
    that visits the five atoms in the given order. *)
Definition pass_on_linked_pair (back : bool) (a b : F32.t) (order : list loc)
    : M Machine (list F32.t) :=
  sp ← new_AtomSpace;
  r ← linked_pair back a b sp;
  pass_over order;;
  attentions [r.1; r.2].


(** The machine and the two nodes of a pair in a fresh store, both nodes at
    the attention 0.5 they are created with. *)
Definition half_pair : Machine * (loc * loc) :=
  Eval vm_compute in
    match (sp ← new_AtomSpace; linked_pair false F32.f0_5 F32.f0_5 sp) boot with
    | Ok r m => (m, r)
    | _ => (boot, (0%nat, 0%nat))
    end.

(** The agent of the unit test on the machine with a fresh store, and its
    goal "TestGoal". *)
Definition test_agent_on_store : CognitiveAgent.t * Machine * loc :=
  Eval vm_compute in
    match test_agent boot with
    | Ok r m => (r.2, m, r.1)
    | _ => (CognitiveAgent.mk "" None CognitiveAgent.Inactive false false [] [], boot, 0%nat)
    end.

(** An agent constructed with a null store pointer, on the machine with a
    fresh store. *)
Definition agent_without_store : CognitiveAgent.t :=
  CognitiveAgent.mk "Orphan" None CognitiveAgent.Inactive false false [] [].

(** * Properties *)

(** ** Single-precision facts *)

(** ** Digits *)

Lemma digits2_log2 p : Zpos (digits2_pos p) = Z.log2 (Zpos p) + 1.
Proof.
  assert (Hsize : digits2_pos p = Pos.size p).
  { induction p as [p IH|p IH|]; cbn; congruence. }
  destruct p as [p|p|]; cbn [Z.log2]; rewrite ?Hsize; cbn; lia.
Qed.

Lemma digits2_bounds p :
  2 ^ (Zpos (digits2_pos p) - 1) <= Zpos p < 2 ^ Zpos (digits2_pos p).
Proof.
  rewrite digits2_log2. replace (Z.log2 (Zpos p) + 1 - 1) with (Z.log2 (Zpos p)) by lia.
  pose proof (Z.log2_spec (Zpos p) ltac:(lia)) as Hspec.
  replace (Z.log2 (Zpos p) + 1) with (Z.succ (Z.log2 (Zpos p))) by lia. exact Hspec.
Qed.

Lemma digits2_unique p d :
  2 ^ (d - 1) <= Zpos p < 2 ^ d -> Zpos (digits2_pos p) = d.
Proof.
  intros Hb. rewrite digits2_log2.
  assert (0 < d).
  { destruct (Z.le_gt_cases d 0) as [Hd|Hd]; [|exact Hd].
    assert (2 ^ d <= 2 ^ 0) by (apply Z.pow_le_mono_r; lia). cbn in *. lia. }
  rewrite (Z.log2_unique (Zpos p) (d - 1)); [lia|lia|].
  replace (Z.succ (d - 1)) with d by lia. exact Hb.
Qed.

(** ** Shifting right *)

Lemma shr_1_spec m r s :
  0 <= m -> shr_1 (Build_shr_record m r s) = Build_shr_record (m / 2) (Z.odd m) (r || s).
Proof.
  intros Hm. rewrite <- Z.div2_div.
  destruct m as [|[p|p|]|p]; try lia; reflexivity.
Qed.

Lemma iter_pos_nat {A} (f : A -> A) p x :
  SpecFloat.iter_pos f p x = Nat.iter (Pos.to_nat p) f x.
Proof.
  revert x. induction p as [p IH|p IH|]; intros x; cbn [SpecFloat.iter_pos].
  - rewrite !IH, Pos2Nat.inj_xI.
    replace (S (2 * Pos.to_nat p)) with (Pos.to_nat p + (Pos.to_nat p + 1))%nat by lia.
    rewrite !Nat.iter_add. reflexivity.
  - rewrite !IH, Pos2Nat.inj_xO.
    replace (2 * Pos.to_nat p)%nat with (Pos.to_nat p + Pos.to_nat p)%nat by lia.
    rewrite Nat.iter_add. reflexivity.
  - reflexivity.
Qed.

(** The record after [k + 1] shifts of the exact mantissa [M]. *)
Lemma shr_iter M k :
  0 <= M ->
  Nat.iter (S k) shr_1 (Build_shr_record M false false) =
  Build_shr_record (M / 2 ^ Z.of_nat (S k))
                   (Z.odd (M / 2 ^ Z.of_nat k))
                   (negb (M mod 2 ^ Z.of_nat k =? 0)).
Proof.
  intros HM. induction k as [|k IH].
  - cbn [Nat.iter]. rewrite shr_1_spec by exact HM.
    change (2 ^ Z.of_nat 1) with 2. change (2 ^ Z.of_nat 0) with 1.
    rewrite Z.div_1_r, Z.mod_1_r. reflexivity.
  - rewrite Nat.iter_succ, IH.
    rewrite shr_1_spec by (apply Z.div_pos; lia).
    assert (Hpow : 2 ^ Z.of_nat (S (S k)) = 2 ^ Z.of_nat (S k) * 2).
    { rewrite (Nat2Z.inj_succ (S k)), Z.pow_succ_r by lia. lia. }
    assert (Hpow' : 2 ^ Z.of_nat (S k) = 2 ^ Z.of_nat k * 2).
    { rewrite (Nat2Z.inj_succ k), Z.pow_succ_r by lia. lia. }
    assert (0 < 2 ^ Z.of_nat k) by (apply Z.pow_pos_nonneg; lia).
    assert (0 < 2 ^ Z.of_nat (S k)) by (apply Z.pow_pos_nonneg; lia).
    f_equal.
    + rewrite Hpow, Z.div_div by lia. reflexivity.
    + rewrite Hpow', Z.rem_mul_r by lia.
      pose proof (Z.mod_pos_bound M (2 ^ Z.of_nat k) ltac:(lia)) as Hrem.
      rewrite <- (Z.negb_even (M / 2 ^ Z.of_nat k)).
      rewrite Zeven_mod.
      pose proof (Z.mod_pos_bound (M / 2 ^ Z.of_nat k) 2 ltac:(lia)) as Hbit.
      destruct (Z.eqb_spec ((M / 2 ^ Z.of_nat k) mod 2) 0) as [Hz|Hnz];
        destruct (Z.eqb_spec (M mod 2 ^ Z.of_nat k) 0) as [Hz'|Hnz'];
        destruct (Z.eqb_spec (M mod 2 ^ Z.of_nat k
                              + 2 ^ Z.of_nat k * ((M / 2 ^ Z.of_nat k) mod 2)) 0)
          as [Hs|Hs]; cbn; try reflexivity; exfalso; nia.
Qed.

(** ** Rounding to nearest, ties to even *)

Lemma rne_0 M : rne M 0 = M.
Proof. unfold rne. cbn. apply Z.div_1_r. Qed.

Lemma round_of_record m r s :
  round_nearest_even m (loc_of_shr_record (Build_shr_record m r s)) =
  if r && (s || Z.odd m) then m + 1 else m.
Proof.
  destruct r, s; cbn; try reflexivity.
  rewrite <- Z.negb_odd. destruct (Z.odd m); reflexivity.
Qed.

Lemma shr_round M e n :
  0 <= M ->
  let r := shr (Build_shr_record M false false) e n in
  round_nearest_even (shr_m r.1) (loc_of_shr_record r.1) = rne M (Z.max 0 n) /\
  r.2 = e + Z.max 0 n.
Proof.
  intros HM. destruct n as [|p|p]; cbn [shr fst snd].
  - rewrite Z.max_id, rne_0. cbn. split; [reflexivity|lia].
  - rewrite iter_pos_nat.
    destruct (Pos2Nat.is_succ p) as [k Hk]. rewrite Hk, shr_iter by exact HM.
    rewrite round_of_record. rewrite Z.max_r by lia. split; [|reflexivity].
    unfold rne.
    assert (Hp : Zpos p = Z.of_nat (S k)) by lia.
    assert (Hp1 : Zpos p - 1 = Z.of_nat k) by lia.
    rewrite Hp1, Hp. replace (0 <? Z.of_nat (S k)) with true by (symmetry; apply Z.ltb_lt; lia).
    reflexivity.
  - replace (Z.max 0 (Zneg p)) with 0 by lia. rewrite rne_0. cbn. split; [reflexivity|lia].
Qed.

(** The rounded mantissa is within half a unit of the exact quotient. *)
Lemma rne_close M k :
  0 <= M -> 0 <= k ->
  - 2 ^ k <= 2 * (rne M k * 2 ^ k - M) <= 2 ^ k.
Proof.
  intros HM Hk. unfold rne.
  assert (HP : 0 < 2 ^ k) by (apply Z.pow_pos_nonneg; lia).
  pose proof (Z.div_mod M (2 ^ k) ltac:(lia)) as Hdm.
  pose proof (Z.mod_pos_bound M (2 ^ k) ltac:(lia)) as Hrem.
  destruct (Z.ltb_spec 0 k) as [Hpos|Hzero]; cbn [andb].
  - assert (Hhalf : 2 ^ k = 2 ^ (k - 1) * 2).
    { replace k with (Z.succ (k - 1)) at 1 by lia. rewrite Z.pow_succ_r by lia. lia. }
    assert (HH : 0 < 2 ^ (k - 1)) by (apply Z.pow_pos_nonneg; lia).
    pose proof (Z.rem_mul_r M (2 ^ (k - 1)) 2 ltac:(lia) ltac:(lia)) as Hsplit.
    rewrite <- Hhalf in Hsplit.
    pose proof (Z.mod_pos_bound M (2 ^ (k - 1)) ltac:(lia)) as Hr0.
    pose proof (Z.mod_pos_bound (M / 2 ^ (k - 1)) 2 ltac:(lia)) as Hbit.
    rewrite <- (Z.negb_even (M / 2 ^ (k - 1))), Zeven_mod.
    destruct (Z.eqb_spec ((M / 2 ^ (k - 1)) mod 2) 0) as [Hb|Hb]; cbn [negb andb].
    + nia.
    + destruct (Z.eqb_spec (M mod 2 ^ (k - 1)) 0) as [Hz|Hz]; cbn [negb orb].
      * destruct (Z.odd (M / 2 ^ k)); nia.
      * nia.
  - assert (k = 0) by lia. subst k. cbn in *. lia.
Qed.

Lemma rne_mono M M' k :
  0 <= M <= M' -> 0 <= k -> rne M k <= rne M' k.
Proof.
  intros HM Hk.
  destruct (Z.le_gt_cases (rne M k) (rne M' k)) as [Hle|Hgt]; [exact Hle|].
  exfalso.
  pose proof (rne_close M k ltac:(lia) Hk) as H1.
  pose proof (rne_close M' k ltac:(lia) Hk) as H2.
  assert (HP : 0 < 2 ^ k) by (apply Z.pow_pos_nonneg; lia).
  assert (Heq : M = M') by nia.
  subst M'. lia.
Qed.

Lemma rne_exact c k : 0 <= c -> 0 <= k -> rne (c * 2 ^ k) k = c.
Proof.
  intros Hc Hk.
  assert (HP : 0 < 2 ^ k) by (apply Z.pow_pos_nonneg; lia).
  pose proof (rne_close (c * 2 ^ k) k ltac:(nia) Hk) as Hclose.
  nia.
Qed.

Lemma rne_nonneg M k : 0 <= M -> 0 <= k -> 0 <= rne M k.
Proof.
  intros HM Hk. rewrite <- (rne_exact 0 k) by lia.
  apply rne_mono; [|exact Hk]. cbn. lia.
Qed.

(** ** Rounding of an exact positive value in binary32 *)

Lemma fexp32_eq x : fexp32 x = Z.max (x - 24) (-149).
Proof. reflexivity. Qed.

Lemma Zdigits2_bounds M :
  0 < M -> 2 ^ (Zdigits2 M - 1) <= M < 2 ^ Zdigits2 M.
Proof. destruct M as [|p|p]; try lia. intros _. apply digits2_bounds. Qed.

Lemma Zdigits2_le M d : 0 < M -> M < 2 ^ d -> Zdigits2 M <= d.
Proof.
  intros HM Hlt. pose proof (Zdigits2_bounds M HM) as [Hlo _].
  destruct (Z.le_gt_cases (Zdigits2 M) d) as [Hle|Hgt]; [exact Hle|].
  assert (2 ^ d <= 2 ^ (Zdigits2 M - 1)) by (apply Z.pow_le_mono_r; lia). lia.
Qed.

Lemma Zdigits2_pos M : 0 < M -> 0 < Zdigits2 M.
Proof. destruct M; try lia. intros _. reflexivity. Qed.

(** The rounded mantissa of a value with [d] digits shifted by at least
    [d - 24] has at most 24 digits, or is [2^24]. *)
Lemma rne_le_pow M k :
  0 < M -> 0 <= k -> Zdigits2 M - 24 <= k -> rne M k <= 2 ^ 24.
Proof.
  intros HM Hk Hd. rewrite <- (rne_exact (2 ^ 24) k) by lia.
  apply rne_mono; [|exact Hk]. split; [lia|].
  pose proof (Zdigits2_bounds M HM) as [_ Hhi].
  rewrite <- Z.pow_add_r by lia.
  assert (2 ^ Zdigits2 M <= 2 ^ (24 + k)) by (apply Z.pow_le_mono_r; lia). lia.
Qed.

Lemma round_aux_spec s M e :
  0 < M -> e <= fexp32 (Zdigits2 M + e) ->
  binary_round_aux 24 128 s M e loc_Exact =
  pack s (rne M (fexp32 (Zdigits2 M + e) - e)) (fexp32 (Zdigits2 M + e)).
Proof.
  intros HM Hn. set (E := fexp32 (Zdigits2 M + e)) in *.
  unfold binary_round_aux. unfold shr_fexp at 1.
  change (fexp 24 128 (Zdigits2 M + e)) with E. cbn [shr_record_of_loc].
  pose proof (shr_round M e (E - e) ltac:(lia)) as Hshr. cbn zeta in Hshr.
  destruct (shr (Build_shr_record M false false) e (E - e)) as [mrs e'].
  cbn [fst snd] in Hshr. destruct Hshr as [Hq He'].
  rewrite Z.max_r in Hq, He' by lia. rewrite Hq.
  replace e' with E by lia. clear He' e' Hq mrs.
  assert (HE : -149 <= E) by (subst E; rewrite fexp32_eq; lia).
  assert (Hk : Zdigits2 M - 24 <= E - e) by (subst E; rewrite fexp32_eq; lia).
  pose proof (rne_le_pow M (E - e) HM ltac:(lia) Hk) as Hle.
  pose proof (rne_nonneg M (E - e) ltac:(lia) ltac:(lia)) as Hge.
  set (q := rne M (E - e)) in *. clearbody q.
  unfold shr_fexp. change (fexp 24 128 (Zdigits2 q + E)) with (fexp32 (Zdigits2 q + E)).
  cbn [shr_record_of_loc].
  destruct (Z.eq_dec q 0) as [->|Hq0].
  - cbn [Zdigits2]. replace (fexp32 (0 + E) - E) with (Z.max (-24) (-149 - E))
      by (rewrite fexp32_eq; lia).
    destruct (Z.max (-24) (-149 - E)) eqn:Hmax; try lia; reflexivity.
  - destruct (Z.eq_dec q (2 ^ 24)) as [->|Hq24].
    + change (Zdigits2 (2 ^ 24)) with 25.
      replace (fexp32 (25 + E) - E) with 1 by (rewrite fexp32_eq; lia).
      cbn [shr SpecFloat.iter_pos shr_1 fst snd shr_m pack].
      change (2 ^ 24) with 16777216. cbn [shr_1 shr_m Z.ltb Z.compare Pos.compare Pos.compare_cont].
      change (128 - 24) with 104. reflexivity.
    + assert (Hlt : q < 2 ^ 24) by lia.
      pose proof (Zdigits2_le q 24 ltac:(lia) Hlt) as Hdq.
      assert (Hno : fexp32 (Zdigits2 q + E) - E <= 0) by (rewrite fexp32_eq; lia).
      destruct (fexp32 (Zdigits2 q + E) - E) as [|n2|n2] eqn:Hn2; try lia;
        cbn [shr fst snd shr_m]; destruct q as [|mq|mq]; try lia;
        unfold pack; (destruct (Z.ltb_spec (Zpos mq) (2 ^ 24)); [|lia]); reflexivity.
Qed.

Lemma rne_scale M k j :
  0 <= M -> 0 <= k -> 0 <= j -> rne (M * 2 ^ j) (k + j) = rne M k.
Proof.
  intros HM Hk Hj.
  assert (HJ : 0 < 2 ^ j) by (apply Z.pow_pos_nonneg; lia).
  destruct (Z.eq_dec k 0) as [->|Hk0].
  - rewrite rne_0. cbn [Z.add]. apply rne_exact; lia.
  - unfold rne.
    replace (0 <? k + j) with true by (symmetry; apply Z.ltb_lt; lia).
    replace (0 <? k) with true by (symmetry; apply Z.ltb_lt; lia).
    rewrite Z.pow_add_r by lia.
    replace (k + j - 1) with ((k - 1) + j) by lia. rewrite (Z.pow_add_r 2 (k - 1) j) by lia.
    assert (0 < 2 ^ k) by (apply Z.pow_pos_nonneg; lia).
    assert (0 < 2 ^ (k - 1)) by (apply Z.pow_pos_nonneg; lia).
    rewrite !Z.div_mul_cancel_r by lia.
    rewrite Z.mul_mod_distr_r by lia.
    destruct (Z.eqb_spec (M mod 2 ^ (k - 1)) 0) as [Hz|Hz];
      destruct (Z.eqb_spec (M mod 2 ^ (k - 1) * 2 ^ j) 0) as [Hz'|Hz']; try reflexivity; nia.
Qed.

(** ** Order on the non-negative floats *)

Lemma SFleb_finite m1 e1 m2 e2 :
  SFleb (S754_finite false m1 e1) (S754_finite false m2 e2) = true <->
  e1 < e2 \/ (e1 = e2 /\ Zpos m1 <= Zpos m2).
Proof.
  unfold SFleb, SFcompare.
  change (Pos.compare_cont Eq m1 m2) with (Pos.compare m1 m2).
  destruct (Z.compare_spec e1 e2) as [He|He|He];
    [destruct (Pos.compare_spec m1 m2) as [Hm|Hm|Hm]| |];
    (split; [intros Hx; try discriminate Hx; lia | intros Hx; try reflexivity; lia]).
Qed.

Lemma pack_le q1 E1 q2 E2 :
  0 <= q1 <= 2 ^ 24 -> 0 <= q2 <= 2 ^ 24 ->
  (E1 = E2 /\ q1 <= q2) \/ (E1 < E2 /\ 2 ^ 23 <= q2) ->
  SFleb (pack false q1 E1) (pack false q2 E2) = true.
Proof.
  intros H1 H2 Hcmp. unfold pack.
  change (2 ^ 24) with 16777216 in *. change (2 ^ 23) with 8388608 in *.
  destruct q1 as [|p1|p1]; [|
    |lia].
  - destruct q2 as [|p2|p2]; [reflexivity| |lia].
    destruct (Zpos p2 <? 16777216);
      [destruct (E2 <=? 104)|destruct (E2 + 1 <=? 104)]; reflexivity.
  - destruct q2 as [|p2|p2]; [lia| |lia].
    destruct (Z.ltb_spec (Zpos p1) 16777216) as [Hq1|Hq1];
      destruct (Z.ltb_spec (Zpos p2) 16777216) as [Hq2|Hq2];
      repeat match goal with
             | |- context [?a <=? ?b] => destruct (Z.leb_spec a b)
             end;
      try reflexivity; try (apply SFleb_finite; lia); lia.
Qed.

(** Rounding is monotone: a smaller exact value never rounds to a larger
    float. *)
Lemma round_aux_mono M1 e1 M2 e2 :
  0 < M1 -> 0 < M2 ->
  e1 <= fexp32 (Zdigits2 M1 + e1) -> e2 <= fexp32 (Zdigits2 M2 + e2) ->
  M1 * 2 ^ (e1 - Z.min e1 e2) <= M2 * 2 ^ (e2 - Z.min e1 e2) ->
  SFleb (binary_round_aux 24 128 false M1 e1 loc_Exact)
        (binary_round_aux 24 128 false M2 e2 loc_Exact) = true.
Proof.
  intros HM1 HM2 Hn1 Hn2 Hle.
  rewrite (round_aux_spec false M1 e1 HM1 Hn1), (round_aux_spec false M2 e2 HM2 Hn2).
  set (e0 := Z.min e1 e2) in *.
  set (d1 := Zdigits2 M1) in *. set (d2 := Zdigits2 M2) in *.
  pose proof (Zdigits2_bounds M1 HM1) as [Hlo1 Hhi1]. fold d1 in Hlo1, Hhi1.
  pose proof (Zdigits2_bounds M2 HM2) as [Hlo2 Hhi2]. fold d2 in Hlo2, Hhi2.
  pose proof (Zdigits2_pos M1 HM1) as Hd1. fold d1 in Hd1.
  pose proof (Zdigits2_pos M2 HM2) as Hd2. fold d2 in Hd2.
  assert (HD : d1 + e1 <= d2 + e2).
  { assert (Hlt : 2 ^ (d1 - 1 + (e1 - e0)) < 2 ^ (d2 + (e2 - e0))).
    { rewrite !Z.pow_add_r by lia.
      assert (0 < 2 ^ (e1 - e0)) by (apply Z.pow_pos_nonneg; lia).
      assert (0 < 2 ^ (e2 - e0)) by (apply Z.pow_pos_nonneg; lia). nia. }
    apply Z.pow_lt_mono_r_iff in Hlt; lia. }
  set (E1 := fexp32 (d1 + e1)) in *. set (E2 := fexp32 (d2 + e2)) in *.
  assert (HE : E1 <= E2) by (subst E1 E2; rewrite !fexp32_eq; lia).
  assert (HE1 : -149 <= E1) by (subst E1; rewrite fexp32_eq; lia).
  assert (Hk1 : d1 - 24 <= E1 - e1) by (subst E1; rewrite fexp32_eq; lia).
  assert (Hk2 : d2 - 24 <= E2 - e2) by (subst E2; rewrite fexp32_eq; lia).
  pose proof (rne_le_pow M1 (E1 - e1) HM1 ltac:(lia) Hk1) as Hq1.
  pose proof (rne_le_pow M2 (E2 - e2) HM2 ltac:(lia) Hk2) as Hq2.
  pose proof (rne_nonneg M1 (E1 - e1) ltac:(lia) ltac:(lia)) as Hq1'.
  pose proof (rne_nonneg M2 (E2 - e2) ltac:(lia) ltac:(lia)) as Hq2'.
  apply pack_le; [lia|lia|].
  destruct (Z.eq_dec E1 E2) as [Heq|Hne].
  - left. split; [exact Heq|].
    rewrite <- (rne_scale M1 (E1 - e1) (e1 - e0)) by lia.
    rewrite <- (rne_scale M2 (E2 - e2) (e2 - e0)) by lia.
    replace (E1 - e1 + (e1 - e0)) with (E2 - e0) by lia.
    replace (E2 - e2 + (e2 - e0)) with (E2 - e0) by lia.
    apply rne_mono; [|lia]. split; [|exact Hle].
    assert (0 < 2 ^ (e1 - e0)) by (apply Z.pow_pos_nonneg; lia). nia.
  - right. split; [lia|].
    assert (HE2 : E2 = d2 + e2 - 24) by (subst E2; rewrite fexp32_eq in *; lia).
    rewrite <- (rne_exact (2 ^ 23) (E2 - e2)) by lia.
    apply rne_mono; [|lia].
    assert (0 < 2 ^ 23 * 2 ^ (E2 - e2)) by (apply Z.mul_pos_pos; apply Z.pow_pos_nonneg; lia).
    split; [lia|]. rewrite <- Z.pow_add_r by lia.
    replace (23 + (E2 - e2)) with (d2 - 1) by lia. exact Hlo2.
Qed.

(** ** Valid floats *)

Lemma Zdigits2_ge M d : 0 < M -> 2 ^ (d - 1) <= M -> d <= Zdigits2 M.
Proof.
  intros HM Hlo. pose proof (Zdigits2_bounds M HM) as [_ Hhi].
  destruct (Z.le_gt_cases d (Zdigits2 M)) as [Hle|Hgt]; [exact Hle|].
  assert (2 ^ Zdigits2 M <= 2 ^ (d - 1)) by (apply Z.pow_le_mono_r; [lia|lia]). lia.
Qed.

Lemma bounded_iff m e :
  bounded 24 128 m e = true <->
  fexp32 (Zpos (digits2_pos m) + e) = e /\ e <= 104.
Proof.
  unfold bounded, canonical_mantissa. rewrite andb_true_iff, Z.eqb_eq, Z.leb_le.
  change (128 - 24) with 104. reflexivity.
Qed.

(** A canonical mantissa has at most 24 digits, and exactly 24 above the
    smallest exponent. *)
Lemma bounded_digits m e :
  bounded 24 128 m e = true ->
  -149 <= e <= 104 /\ Zpos m < 2 ^ 24 /\ (e = -149 \/ 2 ^ 23 <= Zpos m).
Proof.
  intros Hb. apply bounded_iff in Hb. destruct Hb as [Hc He].
  rewrite fexp32_eq in Hc.
  pose proof (digits2_bounds m) as [Hlo Hhi].
  split; [lia|]. split.
  - assert (2 ^ Zpos (digits2_pos m) <= 2 ^ 24) by (apply Z.pow_le_mono_r; lia). lia.
  - destruct (Z.eq_dec e (-149)) as [->|Hne]; [left; reflexivity|right].
    assert (Zpos (digits2_pos m) = 24) by lia.
    replace 23 with (Zpos (digits2_pos m) - 1) by lia. exact Hlo.
Qed.

Lemma pack_valid s M e :
  0 < M -> e <= fexp32 (Zdigits2 M + e) ->
  valid_binary 24 128 (binary_round_aux 24 128 s M e loc_Exact) = true.
Proof.
  intros HM Hn. rewrite (round_aux_spec s M e HM Hn).
  set (E := fexp32 (Zdigits2 M + e)) in *.
  assert (HE : -149 <= E) by (subst E; rewrite fexp32_eq; lia).
  assert (Hk : Zdigits2 M - 24 <= E - e) by (subst E; rewrite fexp32_eq; lia).
  pose proof (rne_le_pow M (E - e) HM ltac:(lia) Hk) as Hq.
  pose proof (rne_nonneg M (E - e) ltac:(lia) ltac:(lia)) as Hq'.
  assert (Hnormal : E = -149 \/ 2 ^ 23 <= rne M (E - e)).
  { destruct (Z.eq_dec E (-149)) as [->|Hne]; [left; reflexivity|right].
    assert (HEd : E = Zdigits2 M + e - 24) by (subst E; rewrite fexp32_eq in *; lia).
    rewrite <- (rne_exact (2 ^ 23) (E - e)) by lia.
    apply rne_mono; [|lia].
    assert (0 < 2 ^ 23 * 2 ^ (E - e)) by (apply Z.mul_pos_pos; apply Z.pow_pos_nonneg; lia).
    split; [lia|]. rewrite <- Z.pow_add_r by lia.
    replace (23 + (E - e)) with (Zdigits2 M - 1) by lia.
    apply Zdigits2_bounds. exact HM. }
  set (q := rne M (E - e)) in *. clearbody q. unfold pack.
  destruct q as [|p|p]; [reflexivity| |lia].
  destruct (Z.ltb_spec (Zpos p) (2 ^ 24)) as [Hlt|Hge].
  - destruct (Z.leb_spec E 104) as [HE104|HE104]; [|reflexivity].
    cbn [valid_binary]. apply bounded_iff. split; [|exact HE104].
    rewrite fexp32_eq.
    pose proof (Zdigits2_le (Zpos p) 24 ltac:(lia) Hlt) as Hd. cbn [Zdigits2] in Hd.
    destruct Hnormal as [->|Hnorm]; [lia|].
    pose proof (Zdigits2_ge (Zpos p) 24 ltac:(lia) Hnorm) as Hd'. cbn [Zdigits2] in Hd'.
    lia.
  - destruct (Z.leb_spec (E + 1) 104) as [HE104|HE104]; [|reflexivity].
    cbn [valid_binary]. apply bounded_iff. split; [|exact HE104].
    change (Zpos (digits2_pos 8388608)) with 24. rewrite fexp32_eq. lia.
Qed.

(** A valid float rounds to itself. *)
Lemma round_aux_exact m e :
  bounded 24 128 m e = true ->
  binary_round_aux 24 128 false (Zpos m) e loc_Exact = S754_finite false m e.
Proof.
  intros Hb. pose proof (bounded_digits m e Hb) as (He & Hm & _).
  apply bounded_iff in Hb. destruct Hb as [Hc _].
  rewrite round_aux_spec by (cbn [Zdigits2]; lia).
  cbn [Zdigits2]. rewrite Hc, Z.sub_diag, rne_0. unfold pack.
  destruct (Z.ltb_spec (Zpos m) (2 ^ 24)); [|lia].
  destruct (Z.leb_spec e 104); [reflexivity|lia].
Qed.

(** ** [binary_round]: alignment, then rounding *)

Lemma iter_xO_spec m d : Zpos (Pos.iter xO m d) = Zpos m * 2 ^ Zpos d.
Proof.
  induction d as [|d IH] using Pos.peano_ind.
  - cbn. lia.
  - rewrite Pos.iter_succ, Pos2Z.inj_xO, IH, Pos2Z.inj_succ, Z.pow_succ_r by lia. lia.
Qed.

Lemma Zdigits2_shift M k : 0 < M -> 0 <= k -> Zdigits2 (M * 2 ^ k) = Zdigits2 M + k.
Proof.
  intros HM Hk. pose proof (Zdigits2_bounds M HM) as [Hlo Hhi].
  pose proof (Zdigits2_pos M HM) as Hd.
  assert (HP : 0 < 2 ^ k) by (apply Z.pow_pos_nonneg; lia).
  assert (HMk : 0 < M * 2 ^ k) by nia.
  destruct (M * 2 ^ k) as [|p|p] eqn:Hp; try lia. cbn [Zdigits2].
  apply digits2_unique. rewrite <- Hp.
  replace (Zdigits2 M + k - 1) with (Zdigits2 M - 1 + k) by lia.
  rewrite !Z.pow_add_r by lia. nia.
Qed.

(** [binary_round] is the rounding of an aligned mantissa of the same
    value. *)
Lemma binary_round_spec s m e :
  exists M' e',
    binary_round 24 128 s m e = binary_round_aux 24 128 s M' e' loc_Exact /\
    0 < M' /\ e' <= e /\ M' = Zpos m * 2 ^ (e - e') /\
    e' <= fexp32 (Zdigits2 M' + e').
Proof.
  unfold binary_round, shl_align.
  change (fexp 24 128 (Zpos (digits2_pos m) + e)) with (fexp32 (Zpos (digits2_pos m) + e)).
  destruct (fexp32 (Zpos (digits2_pos m) + e) - e) as [|d|d] eqn:Hd.
  - exists (Zpos m), e. split; [reflexivity|]. split; [lia|]. split; [lia|].
    split; [rewrite Z.sub_diag; cbn; lia|]. cbn [Zdigits2]. lia.
  - exists (Zpos m), e. split; [reflexivity|]. split; [lia|]. split; [lia|].
    split; [rewrite Z.sub_diag; cbn; lia|]. cbn [Zdigits2]. lia.
  - exists (Zpos (Pos.iter xO m d)), (fexp32 (Zpos (digits2_pos m) + e)).
    split; [reflexivity|]. split; [lia|]. split; [lia|].
    rewrite iter_xO_spec. replace (e - fexp32 (Zpos (digits2_pos m) + e)) with (Zpos d) by lia.
    split; [reflexivity|].
    rewrite Zdigits2_shift by lia. cbn [Zdigits2].
    replace (Zpos (digits2_pos m) + Zpos d + fexp32 (Zpos (digits2_pos m) + e))
      with (Zpos (digits2_pos m) + e) by lia.
    lia.
Qed.

(** ** The order on non-negative floats *)

Lemma nonneg_inv x : nonneg x = true -> nonneg_shape x.
Proof.
  destruct x as [s|[|]| |[|] m e]; cbn; try discriminate; intros _; constructor.
Qed.

Lemma above_zero_nonneg x : above_zero x = true -> nonneg x = true.
Proof. destruct x as [s|[|]| |[|] m e]; cbn; try discriminate; reflexivity. Qed.


Lemma SFleb_refl x : nonneg x = true -> SFleb x x = true.
Proof.
  intros Hx. destruct (nonneg_inv x Hx); try reflexivity.
  apply SFleb_finite. lia.
Qed.

Lemma SFleb_trans x y z :
  nonneg x = true -> nonneg y = true -> nonneg z = true ->
  SFleb x y = true -> SFleb y z = true -> SFleb x z = true.
Proof.
  intros Hx Hy Hz.
  destruct (nonneg_inv x Hx), (nonneg_inv y Hy), (nonneg_inv z Hz);
    try reflexivity; try discriminate;
    rewrite ?SFleb_finite; try lia; try (intros; discriminate).
Qed.


Lemma SFltb_leb x y : SFltb x y = true -> SFleb x y = true.
Proof. unfold SFltb, SFleb. destruct (SFcompare x y) as [[| |]|]; congruence. Qed.

(** Above a non-negative float there are only non-negative floats. *)
Lemma SFleb_nonneg x y : nonneg x = true -> SFleb x y = true -> nonneg y = true.
Proof.
  intros Hx. destruct (nonneg_inv x Hx);
    destruct y as [s'|[|]| |[|] m' e']; cbn; try discriminate; reflexivity.
Qed.

(** ** Addition of a non-negative float *)

Lemma shl_align_fst m e ez :
  ez <= e -> Zpos (fst (shl_align m e ez)) = Zpos m * 2 ^ (e - ez).
Proof.
  intros Hle. unfold shl_align.
  destruct (ez - e) as [|d|d] eqn:Hd; cbn [fst].
  - replace (e - ez) with 0 by lia. cbn. lia.
  - lia.
  - rewrite iter_xO_spec. f_equal. f_equal. lia.
Qed.

(** The rounding of a positive value yields a zero, a positive finite float
    or plus infinity. *)
Lemma pack_shape q E : 0 <= q -> nonneg (pack false q E) = true.
Proof.
  intros Hq. unfold pack. destruct q as [|p|p]; [reflexivity| |lia].
  destruct (_ <? _); [destruct (E <=? 104)|destruct (E + 1 <=? 104)]; reflexivity.
Qed.

Lemma round_aux_nonneg M e :
  0 < M -> e <= fexp32 (Zdigits2 M + e) ->
  nonneg (binary_round_aux 24 128 false M e loc_Exact) = true.
Proof.
  intros HM Hn. rewrite round_aux_spec by assumption.
  apply pack_shape, rne_nonneg; [lia|]. lia.
Qed.

(** A valid positive float [x] plus a non-negative float is a valid
    positive float that is not below [x]. *)
Lemma add_nonneg_ge x s :
  above_zero x = true -> nonneg s = true ->
  above_zero (SFadd 24 128 x s) = true /\ SFleb x (SFadd 24 128 x s) = true.
Proof.
  intros Hx Hs. apply nonneg_inv in Hs.
  destruct x as [sx|[|]| |[|] m e]; try discriminate Hx.
  - destruct Hs; cbn; auto.
  - cbn [above_zero] in Hx. destruct Hs as [ss|ms es|].
    + cbn [SFadd above_zero]. split; [exact Hx|]. apply SFleb_finite. lia.
    + cbn [SFadd cond_Zopp].
      set (ez := Z.min e es).
      pose proof (shl_align_fst m e ez ltac:(lia)) as Hm.
      pose proof (shl_align_fst ms es ez ltac:(lia)) as Hms.
      set (a := fst (shl_align m e ez)) in *. set (b := fst (shl_align ms es ez)) in *.
      change (Zpos a + Zpos b) with (Zpos (a + b)). cbn [binary_normalize].
      destruct (binary_round_spec false (a + b) ez) as (M' & e' & Hround & HM' & He' & Hval & Hn').
      rewrite Hround.
      pose proof (bounded_digits m e Hx) as (Herange & _).
      pose proof Hx as Hcanon. apply bounded_iff in Hcanon. destruct Hcanon as [Hcanon _].
      assert (Hge : SFleb (S754_finite false m e)
                      (binary_round_aux 24 128 false M' e' loc_Exact) = true).
      { rewrite <- (round_aux_exact m e Hx).
        apply round_aux_mono; [lia|exact HM'|cbn [Zdigits2]; lia|exact Hn'|].
        rewrite Z.min_r by lia. rewrite Z.sub_diag, Z.mul_1_r.
        rewrite Hval, Pos2Z.inj_add, Hm.
        assert (0 < 2 ^ (ez - e')) by (apply Z.pow_pos_nonneg; lia).
        replace (e - e') with ((e - ez) + (ez - e')) by lia.
        rewrite Z.pow_add_r by lia. nia. }
      split; [|exact Hge].
      pose proof (pack_valid false M' e' HM' Hn') as Hvalid.
      pose proof (round_aux_nonneg M' e' HM' Hn') as Hnn.
      destruct (nonneg_inv _ Hnn) as [s0|m0 e0|]; [discriminate Hge|exact Hvalid|reflexivity].
    + cbn. auto.
Qed.

(** ** Multiplication by a positive normal constant *)


Section Constant.

Variables (mc : positive) (ec : Z).
Hypothesis Hnormal : 2 ^ 23 <= Zpos mc.

Let c := S754_finite false mc ec.

Lemma mul_precondition m e :
  e + ec <= fexp32 (Zdigits2 (Zpos (m * mc)) + (e + ec)).
Proof.
  rewrite fexp32_eq.
  assert (24 <= Zdigits2 (Zpos (m * mc))); [|lia].
  apply Zdigits2_ge; [lia|]. rewrite Pos2Z.inj_mul. change (2 ^ (24 - 1)) with (2 ^ 23). nia.
Qed.

Lemma mul_const_finite m e :
  SFmul 24 128 (S754_finite false m e) c =
  binary_round_aux 24 128 false (Zpos (m * mc)) (e + ec) loc_Exact.
Proof. reflexivity. Qed.

(** The product of a valid positive float and the constant is zero or a
    valid positive float. *)
Lemma mul_const_valid x :
  above_zero x = true ->
  nonneg (SFmul 24 128 x c) = true /\ valid_binary 24 128 (SFmul 24 128 x c) = true.
Proof.
  intros Hx. destruct x as [sx|[|]| |[|] m e]; try discriminate Hx.
  - cbn. auto.
  - rewrite mul_const_finite. split.
    + apply round_aux_nonneg; [lia|apply mul_precondition].
    + apply pack_valid; [lia|apply mul_precondition].
Qed.


End Constant.

(** ** Division of a non-negative float by a positive one *)

Lemma shr_1_nonneg mrs : 0 <= shr_m mrs -> 0 <= shr_m (shr_1 mrs).
Proof.
  destruct mrs as [m r s]. cbn [shr_m]. intros Hm.
  rewrite shr_1_spec by exact Hm. cbn [shr_m]. apply Z.div_pos; lia.
Qed.

Lemma shr_nonneg mrs e n : 0 <= shr_m mrs -> 0 <= shr_m (fst (shr mrs e n)).
Proof.
  intros Hm. destruct n as [|p|p]; cbn [shr fst]; try exact Hm.
  rewrite iter_pos_nat. induction (Pos.to_nat p) as [|k IH]; cbn [Nat.iter].
  - exact Hm.
  - apply shr_1_nonneg. exact IH.
Qed.

Lemma round_nearest_even_nonneg m l : 0 <= m -> 0 <= round_nearest_even m l.
Proof.
  intros Hm. destruct l as [|[| |]]; cbn; try lia. destruct (Z.even m); lia.
Qed.

Lemma shr_record_of_loc_m m l : shr_m (shr_record_of_loc m l) = m.
Proof. destruct l as [|[| |]]; reflexivity. Qed.

(** Whatever the location, rounding a non-negative mantissa with the sign
    [false] gives a non-negative float, never a NaN. *)
Lemma round_aux_nonneg_loc M e l :
  0 <= M -> nonneg (binary_round_aux 24 128 false M e l) = true.
Proof.
  intros HM. unfold binary_round_aux.
  pose proof (shr_nonneg (shr_record_of_loc M l) e (fexp 24 128 (Zdigits2 M + e) - e)
                ltac:(rewrite shr_record_of_loc_m; exact HM)) as H1.
  unfold shr_fexp at 1.
  destruct (shr (shr_record_of_loc M l) e (fexp 24 128 (Zdigits2 M + e) - e)) as [mrs e'].
  cbn [fst] in H1.
  pose proof (round_nearest_even_nonneg (shr_m mrs) (loc_of_shr_record mrs) H1) as H2.
  set (q := round_nearest_even (shr_m mrs) (loc_of_shr_record mrs)) in *.
  pose proof (shr_nonneg (shr_record_of_loc q loc_Exact) e' (fexp 24 128 (Zdigits2 q + e') - e')
                ltac:(rewrite shr_record_of_loc_m; exact H2)) as H3.
  unfold shr_fexp.
  destruct (shr (shr_record_of_loc q loc_Exact) e' (fexp 24 128 (Zdigits2 q + e') - e'))
    as [mrs2 e2].
  cbn [fst] in H3. destruct (shr_m mrs2) as [|p|p]; [reflexivity| |lia].
  destruct (e2 <=? 128 - 24); reflexivity.
Qed.

Lemma div_nonneg x my ey :
  nonneg x = true -> nonneg (SFdiv 24 128 x (S754_finite false my ey)) = true.
Proof.
  intros Hx. destruct (nonneg_inv x Hx) as [s|m e|].
  - destruct s; reflexivity.
  - cbn [SFdiv xorb]. unfold SFdiv_core_binary.
    set (m' := match _ - _ - _ with Z0 => _ | Zpos _ => _ | Zneg _ => _ end).
    assert (Hm' : 0 <= m').
    { subst m'. destruct (_ - _ - _) as [|p|p]; try lia.
      rewrite Z.shiftl_mul_pow2 by lia.
      assert (0 < 2 ^ Zpos p) by (apply Z.pow_pos_nonneg; lia). nia. }
    pose proof (Z.div_pos m' (Zpos my) Hm' ltac:(lia)) as Hq.
    unfold Z.div in Hq. destruct (Z.div_eucl m' (Zpos my)) as [q r]. cbn [fst] in Hq.
    apply round_aux_nonneg_loc. exact Hq.
  - reflexivity.
Qed.

(** The conversion of a positive integer below [2^64] is a positive finite
    float. *)
Lemma of_Z_finite n :
  0 < n < 2 ^ 64 ->
  exists m e, binary_normalize 24 128 n 0 false = S754_finite false m e.
Proof.
  intros Hn. destruct n as [|p|p]; try lia. cbn [binary_normalize].
  destruct (binary_round_spec false p 0) as (M' & e' & Hround & HM' & He' & Hval & Hn').
  rewrite Hround, round_aux_spec by assumption.
  assert (Hd : Zdigits2 M' + e' = Zpos (digits2_pos p)).
  { rewrite Hval, Zdigits2_shift by lia. cbn [Zdigits2]. lia. }
  pose proof (digits2_bounds p) as [Hlo Hhi].
  assert (Hd64 : Zpos (digits2_pos p) <= 64).
  { exact (Zdigits2_le (Zpos p) 64 ltac:(lia) (proj2 Hn)). }
  rewrite Hd in Hn' |- *. set (d := Zpos (digits2_pos p)) in *.
  assert (HE : fexp32 d = d - 24) by (rewrite fexp32_eq; lia). rewrite HE in Hn' |- *.
  assert (Hq : 2 ^ 23 <= rne M' (d - 24 - e')).
  { rewrite <- (rne_exact (2 ^ 23) (d - 24 - e')) by lia.
    apply rne_mono; [|lia].
    assert (0 < 2 ^ 23 * 2 ^ (d - 24 - e')) by (apply Z.mul_pos_pos; apply Z.pow_pos_nonneg; lia).
    split; [lia|]. rewrite <- Z.pow_add_r by lia.
    replace (23 + (d - 24 - e')) with (Zdigits2 M' - 1) by lia.
    apply Zdigits2_bounds. exact HM'. }
  change (2 ^ 23) with 8388608 in Hq.
  unfold pack. destruct (rne M' (d - 24 - e')) as [|q|q]; try lia.
  destruct (_ <? _).
  - destruct (Z.leb_spec (d - 24) 104); [eauto|lia].
  - destruct (Z.leb_spec (d - 24 + 1) 104); [eauto|lia].
Qed.

(** ** Reasoning about computations *)

Lemma bind_Ok {S A B} (c : M S A) (k : A -> M S B) s b s2 :
  (c ≫= k) s = Ok b s2 <-> exists a s1, c s = Ok a s1 /\ k a s1 = Ok b s2.
Proof.
  unfold mbind, M_bind. destruct (c s) as [a s1| |]; split.
  - intros Hk. exists a, s1. auto.
  - intros (a' & s1' & Heq & Hk). inversion Heq. subst. exact Hk.
  - discriminate.
  - intros (a' & s1' & Heq & _). discriminate.
  - discriminate.
  - intros (a' & s1' & Heq & _). discriminate.
Qed.

Lemma bind_run {S A B} (c : M S A) (k : A -> M S B) s a s1 :
  c s = Ok a s1 -> (c ≫= k) s = k a s1.
Proof. intros Hc. unfold mbind, M_bind. rewrite Hc. reflexivity. Qed.

Lemma lift_Ok {X A} (c : M Machine A) (x : X) m a x' m' :
  lift c (x, m) = Ok a (x', m') <-> c m = Ok a m' /\ x' = x.
Proof.
  unfold lift. destruct (c m) as [a0 m0| |]; split; try discriminate.
  - intros Heq. inversion Heq. subst. auto.
  - intros [Heq ->]. inversion Heq. reflexivity.
  - intros [Heq _]. discriminate.
  - intros [Heq _]. discriminate.
Qed.

Lemma lift_run {X A} (c : M Machine A) (x : X) m a m' :
  c m = Ok a m' -> lift c (x, m) = Ok a (x, m').
Proof. intros Hc. unfold lift. rewrite Hc. reflexivity. Qed.

Lemma this_run {X} (x : X) m : this (x, m) = Ok x (x, m).
Proof. reflexivity. Qed.

Lemma deref_Ok l m a m' :
  deref l m = Ok a m' <-> heap m !! l = Some a /\ m' = m.
Proof.
  unfold deref, from_option. destruct (heap m !! l) as [a0|]; cbn; split.
  - intros Heq. inversion Heq. auto.
  - intros [Heq ->]. inversion Heq. reflexivity.
  - discriminate.
  - intros [Heq _]. discriminate.
Qed.

Lemma deref_run l m a : heap m !! l = Some a -> deref l m = Ok a m.
Proof. intros Hl. apply deref_Ok. auto. Qed.

Lemma on_atom_Ok l f m m' :
  on_atom l f m = Ok tt m' <->
  exists a, heap m !! l = Some a /\
            m' = mkMachine (<[l := f a]> (heap m)) (s_nextId m) (spaces m).
Proof.
  unfold on_atom. destruct (heap m !! l) as [a0|]; split.
  - intros Heq. inversion Heq. eauto.
  - intros (a & Heq & ->). inversion Heq. reflexivity.
  - discriminate.
  - intros (a & Heq & _). discriminate.
Qed.

Lemma on_atom_run l f m a :
  heap m !! l = Some a ->
  on_atom l f m = Ok tt (mkMachine (<[l := f a]> (heap m)) (s_nextId m) (spaces m)).
Proof. intros Hl. unfold on_atom. rewrite Hl. reflexivity. Qed.

Lemma get_space_Ok sp m s m' :
  get_space sp m = Ok s m' <-> spaces m !! sp = Some s /\ m' = m.
Proof.
  unfold get_space, from_option. destruct (spaces m !! sp) as [s0|]; cbn; split.
  - intros Heq. inversion Heq. auto.
  - intros [Heq ->]. inversion Heq. reflexivity.
  - discriminate.
  - intros [Heq _]. discriminate.
Qed.

Lemma get_space_run sp m s : spaces m !! sp = Some s -> get_space sp m = Ok s m.
Proof. intros Hs. apply get_space_Ok. auto. Qed.

(** ** Creation *)

(** What [CreateAtom] does when the name is bound: nothing. *)
Lemma CreateAtom_existing sp type name tv conf m s l :
  spaces m !! sp = Some s ->
  AtomSpace.m_atomsByName s !! name = Some l ->
  CreateAtom sp type name tv conf m = Ok l m.
Proof.
  intros Hs Hn. unfold CreateAtom.
  rewrite (bind_run _ _ _ _ _ (get_space_run _ _ _ Hs)). rewrite Hn. reflexivity.
Qed.

(** What [CreateAtom] does when the name is free. *)
Lemma CreateAtom_fresh sp type name tv conf m s :
  spaces m !! sp = Some s ->
  AtomSpace.m_atomsByName s !! name = None ->
  CreateAtom sp type name tv conf m =
  Ok (length (heap m))
     (mkMachine
        (heap m ++ [Atom.ctor type name tv conf (s_nextId m)])
        (next_id (s_nextId m))
        (<[sp := AtomSpace.mk
                   (<[s_nextId m := length (heap m)]> (AtomSpace.m_atoms s))
                   (<[name := length (heap m)]> (AtomSpace.m_atomsByName s))]>
           (spaces m))).
Proof.
  intros Hs Hn. unfold CreateAtom.
  rewrite (bind_run _ _ _ _ _ (get_space_run _ _ _ Hs)). rewrite Hn.
  unfold make_shared_Atom, mbind, M_bind, deref, from_option, set_space, mret, M_ret.
  cbn [heap s_nextId spaces].
  rewrite lookup_app_r by lia. rewrite Nat.sub_diag. reflexivity.
Qed.

(** [CreateAtom] returns on every live store. *)
Lemma CreateAtom_total sp type name tv conf m :
  is_Some (spaces m !! sp) ->
  exists l m', CreateAtom sp type name tv conf m = Ok l m'.
Proof.
  intros [s Hs]. destruct (AtomSpace.m_atomsByName s !! name) as [l|] eqn:Hn.
  - eexists _, _. eapply CreateAtom_existing; eauto.
  - eexists _, _. eapply CreateAtom_fresh; eauto.
Qed.

(** C1, as amended: on a live store, [CreateAtom] twice on the same name
    returns the same node both times and the second call changes nothing;
    when the name was not bound before the first call, the node carries the
    first call's type, truth and confidence after the second call. *)
Theorem createOrGet_idempotent sp t1 t2 name v1 c1 v2 c2 m :
  is_Some (spaces m !! sp) ->
  exists node m1,
    CreateAtom sp t1 name v1 c1 m = Ok node m1 /\
    CreateAtom sp t2 name v2 c2 m1 = Ok node m1 /\
    (FindAtom sp name m = Ok None m ->
     exists a, heap m1 !! node = Some a /\
               Atom.m_type a = t1 /\ Atom.m_name a = name /\
               Atom.m_truthValue a = v1 /\ Atom.m_confidence a = c1).
Proof.
  intros [s Hs]. destruct (AtomSpace.m_atomsByName s !! name) as [l|] eqn:Hn.
  - exists l, m. rewrite !(CreateAtom_existing _ _ _ _ _ _ _ _ Hs Hn).
    split; [reflexivity|]. split; [reflexivity|].
    unfold FindAtom. rewrite (bind_run _ _ _ _ _ (get_space_run _ _ _ Hs)).
    rewrite Hn. discriminate.
  - eexists _, _. split; [eapply CreateAtom_fresh; eauto|]. split.
    + eapply CreateAtom_existing; cbn [spaces].
      * apply list_lookup_insert_eq. eapply lookup_lt_Some; eauto.
      * cbn. apply lookup_insert_eq.
    + intros _. eexists. cbn [heap]. split.
      * rewrite lookup_app_r by lia. rewrite Nat.sub_diag. reflexivity.
      * cbn. auto.
Qed.

Lemma createOrGet_idempotent_witness :
  exists node m1,
    CreateAtom 0 Atom.Concept "A" F32.f0_8 F32.f0_9
      (mkMachine [] 1 [AtomSpace.mk ∅ ∅]) = Ok node m1 /\
    CreateAtom 0 Atom.Concept "A" F32.f0_1 F32.f0_1 m1 = Ok node m1 /\
    (FindAtom 0 "A" (mkMachine [] 1 [AtomSpace.mk ∅ ∅])
       = Ok None (mkMachine [] 1 [AtomSpace.mk ∅ ∅]) ->
     exists a, heap m1 !! node = Some a /\
               Atom.m_type a = Atom.Concept /\ Atom.m_name a = "A" /\
               Atom.m_truthValue a = F32.f0_8 /\ Atom.m_confidence a = F32.f0_9).
Proof.
  apply (createOrGet_idempotent 0 Atom.Concept Atom.Concept "A"
           F32.f0_8 F32.f0_9 F32.f0_1 F32.f0_1 (mkMachine [] 1 [AtomSpace.mk ∅ ∅])).
  simpl. eexists. reflexivity.
Defined.

(** C1, as stated, fails for a name that is already bound: on a fresh store
    "Self" exists with truth and confidence 1.0, so
    [CreateAtom(Concept, "Self", 0.5, 0.4)] followed by
    [CreateAtom(Process, "Self", 0.1, 0.1)] returns the same node twice, but
    its truth and confidence are 1.0 and not the 0.5 and 0.4 of the first
    call. *)
Lemma createOrGet_bound_name_ignores_first_call :
  match create_Self_twice boot with
  | Ok (n1, n2, (truth, confidence, _)) _ =>
      n1 = n2 /\ truth = F32.f1_0 /\ confidence = F32.f1_0 /\
      truth <> F32.f0_5 /\ confidence <> F32.f0_4
  | _ => False
  end.
Proof. vm_compute. repeat split; discriminate. Qed.

(** ** The constructor of the store *)

Lemma next_id_neq id : next_id id <> id.
Proof.
  unfold next_id. change (2 ^ 64) with 18446744073709551616.
  Z.div_mod_to_equations. lia.
Qed.

Lemma next_id_next_id_neq id : next_id (next_id id) <> id.
Proof.
  unfold next_id. change (2 ^ 64) with 18446744073709551616.
  Z.div_mod_to_equations. lia.
Qed.

Lemma new_AtomSpace_run m :
  new_AtomSpace m = Ok (length (spaces m)) (seeded m).
Proof.
  unfold new_AtomSpace, get, put.
  unfold mbind at 1, M_bind at 1. unfold mbind at 1, M_bind at 1.
  set (sp := length (spaces m)).
  erewrite bind_run; cycle 1.
  { eapply CreateAtom_fresh; cbn [spaces].
    - subst sp. rewrite lookup_app_r by lia. rewrite Nat.sub_diag. reflexivity.
    - reflexivity. }
  cbn [heap s_nextId spaces].
  erewrite bind_run; cycle 1.
  { eapply CreateAtom_fresh; cbn [spaces].
    - subst sp. apply list_lookup_insert_eq. rewrite length_app. cbn. lia.
    - reflexivity. }
  cbn [heap s_nextId spaces].
  erewrite bind_run; cycle 1.
  { eapply CreateAtom_fresh; cbn [spaces].
    - subst sp. apply list_lookup_insert_eq.
      rewrite !length_insert, length_app. cbn. lia.
    - reflexivity. }
  cbn [heap s_nextId spaces AtomSpace.m_atoms AtomSpace.m_atomsByName].
  unfold mret, M_ret, seeded. f_equal. f_equal.
  - rewrite <- !app_assoc. reflexivity.
  - subst sp. rewrite !list_insert_insert_eq.
    rewrite insert_app_r_alt by lia. rewrite Nat.sub_diag. cbn.
    rewrite !length_app. cbn. repeat f_equal; lia.
Qed.

(** ** Scans of the table *)

Lemma filter_m_pure {S A} (p : A -> M S bool) (f : A -> bool) (l : list A) s :
  (forall x, x ∈ l -> p x s = Ok (f x) s) ->
  filter_m p l s = Ok (List.filter f l) s.
Proof.
  induction l as [|x l IH]; intros Hp; [reflexivity|].
  cbn [filter_m List.filter].
  rewrite (bind_run _ _ _ _ _ (Hp x ltac:(left))).
  rewrite (bind_run _ _ _ _ _ (IH ltac:(intros; apply Hp; right; assumption))).
  destruct (f x); reflexivity.
Qed.

Lemma Forall_valid_lookup (m : Machine) (ls : list loc) x :
  Forall (fun l => l < length (heap m))%nat ls -> x ∈ ls ->
  exists a, heap m !! x = Some a.
Proof.
  intros HF Hx. rewrite Forall_forall in HF.
  apply lookup_lt_is_Some_2, HF, Hx.
Qed.

Section Scans.

Context `{BucketOrder}.

Lemma table_perm s : table s ≡ₚ snd <$> map_to_list (AtomSpace.m_atoms s).
Proof. unfold table. rewrite atoms_order_perm. reflexivity. Qed.

Lemma elem_of_table s l :
  l ∈ table s <-> exists id, AtomSpace.m_atoms s !! id = Some l.
Proof.
  rewrite table_perm, list_elem_of_fmap. split.
  - intros ([id l'] & -> & Hin). exists id. apply elem_of_map_to_list in Hin. exact Hin.
  - intros (id & Hid). exists (id, l). split; [reflexivity|].
    apply elem_of_map_to_list. exact Hid.
Qed.

(** A scan with a read-only predicate over valid pointers is a filter. *)
Lemma Query_pure sp (predicate : Atom.t -> M Machine bool) (f : Atom.t -> bool) m s :
  spaces m !! sp = Some s ->
  Forall (fun l => l < length (heap m))%nat (table s) ->
  (forall a, predicate a m = Ok (f a) m) ->
  Query sp predicate m = Ok (List.filter (holds_at m f) (table s)) m.
Proof.
  intros Hs Hv Hp. unfold Query.
  rewrite (bind_run _ _ _ _ _ (get_space_run _ _ _ Hs)).
  apply filter_m_pure. intros x Hx.
  destruct (Forall_valid_lookup m _ x Hv Hx) as [a Ha].
  rewrite (bind_run _ _ _ _ _ (deref_run _ _ _ Ha)).
  unfold holds_at. rewrite Ha. apply Hp.
Qed.

Lemma FindAtomsByType_run sp type m s :
  spaces m !! sp = Some s ->
  Forall (fun l => l < length (heap m))%nat (table s) ->
  FindAtomsByType sp type m =
  Ok (List.filter (holds_at m (fun a => bool_decide (Atom.m_type a = type))) (table s)) m.
Proof.
  intros Hs Hv. unfold FindAtomsByType.
  rewrite (bind_run _ _ _ _ _ (get_space_run _ _ _ Hs)).
  apply filter_m_pure. intros x Hx.
  destruct (Forall_valid_lookup m _ x Hv Hx) as [a Ha].
  rewrite (bind_run _ _ _ _ _ (deref_run _ _ _ Ha)).
  unfold holds_at. rewrite Ha. reflexivity.
Qed.

End Scans.

Lemma existsb_ext_in {A} (f g : A -> bool) (l : list A) :
  (forall x, In x l -> f x = g x) -> existsb f l = existsb g l.
Proof.
  induction l as [|x l IH]; intros Hfg; [reflexivity|].
  cbn. rewrite (Hfg x) by (left; reflexivity).
  rewrite IH by (intros; apply Hfg; right; assumption). reflexivity.
Qed.

Lemma filter_length_perm {A} (f : A -> bool) (l1 l2 : list A) :
  l1 ≡ₚ l2 -> length (List.filter f l1) = length (List.filter f l2).
Proof.
  induction 1 as [|x l1 l2 _ IH|x y l|l1 l2 l3 _ IH1 _ IH2]; cbn.
  - reflexivity.
  - destruct (f x); cbn; congruence.
  - destruct (f x), (f y); reflexivity.
  - congruence.
Qed.

(** C9: a freshly constructed store, on any machine, holds exactly three
    atoms: the Concepts "Self", "System" and "WSL".  [GetAtomCount] returns
    3, [FindAtom] succeeds on the three names and on no other, every entry of
    the table is one of the three, and a scan by type finds three Concepts
    whatever the iteration order. *)
Theorem fresh_store_has_three_concepts `{BucketOrder} (m : Machine) :
  exists sp m' s,
    new_AtomSpace m = Ok sp m' /\
    spaces m' !! sp = Some s /\
    GetAtomCount sp m' = Ok 3 m' /\
    GetAtomCountByType sp Atom.Concept m' = Ok 3 m' /\
    (forall name, name ∈ ["Self"; "System"; "WSL"] ->
       exists l a, FindAtom sp name m' = Ok (Some l) m' /\
                   heap m' !! l = Some a /\
                   AtomSpace.m_atoms s !! Atom.m_id a = Some l /\
                   a = Atom.ctor Atom.Concept name F32.f1_0 F32.f1_0 (Atom.m_id a)) /\
    (forall name, name ∉ ["Self"; "System"; "WSL"] ->
       FindAtom sp name m' = Ok None m') /\
    (forall id l, AtomSpace.m_atoms s !! id = Some l ->
       exists a, heap m' !! l = Some a /\ Atom.m_id a = id /\
                 Atom.m_type a = Atom.Concept /\
                 Atom.m_name a ∈ ["Self"; "System"; "WSL"]).
Proof.
  pose proof (next_id_neq (s_nextId m)) as N1.
  pose proof (next_id_neq (next_id (s_nextId m))) as N2.
  pose proof (next_id_next_id_neq (s_nextId m)) as N3.
  set (h := length (heap m)).
  assert (Hh : forall k a b c, (k < 3)%nat ->
            (heap m ++ [a; b; c]) !! (h + k)%nat = [a; b; c] !! k).
  { intros k a b c Hk. rewrite lookup_app_r by (subst h; lia).
    f_equal. subst h. lia. }
  eexists _, _, _. split; [apply new_AtomSpace_run|].
  assert (Hsp : spaces (seeded m) !! length (spaces m) =
                Some (AtomSpace.mk
                  (<[next_id (next_id (s_nextId m)) := S (S h)]>
                     (<[next_id (s_nextId m) := S h]> (<[s_nextId m := h]> ∅)))
                  (<["WSL" := S (S h)]> (<["System" := S h]> (<["Self" := h]> ∅))))).
  { unfold seeded. cbn [spaces]. rewrite lookup_app_r by lia.
    rewrite Nat.sub_diag. reflexivity. }
  split; [exact Hsp|].
  assert (Hcount : size (<[next_id (next_id (s_nextId m)) := S (S h)]>
                     (<[next_id (s_nextId m) := S h]>
                        (<[s_nextId m := h]> (∅ : gmap Z nat)))) = 3%nat).
  { rewrite !map_size_insert_None, map_size_empty;
      rewrite ?lookup_insert_ne by congruence; try apply lookup_empty.
    reflexivity. }
  split.
  { unfold GetAtomCount. rewrite (bind_run _ _ _ _ _ (get_space_run _ _ _ Hsp)).
    cbn [AtomSpace.m_atoms]. rewrite Hcount. reflexivity. }
  assert (Htab : table (AtomSpace.mk
                  (<[next_id (next_id (s_nextId m)) := S (S h)]>
                     (<[next_id (s_nextId m) := S h]> (<[s_nextId m := h]> ∅)))
                  (<["WSL" := S (S h)]> (<["System" := S h]> (<["Self" := h]> ∅))))
                ≡ₚ [S (S h); S h; h]).
  { rewrite table_perm. cbn [AtomSpace.m_atoms].
    rewrite !map_to_list_insert, map_to_list_empty;
      rewrite ?lookup_insert_ne by congruence; try apply lookup_empty.
    reflexivity. }
  assert (H0 : heap (seeded m) !! h =
               Some (Atom.ctor Atom.Concept "Self" F32.f1_0 F32.f1_0 (s_nextId m))).
  { unfold seeded. cbn [heap]. rewrite <- (Nat.add_0_r h) at 1. rewrite Hh by lia. reflexivity. }
  assert (H1 : heap (seeded m) !! S h =
               Some (Atom.ctor Atom.Concept "System" F32.f1_0 F32.f1_0 (next_id (s_nextId m)))).
  { unfold seeded. cbn [heap]. replace (S h) with (h + 1)%nat by lia.
    rewrite Hh by lia. reflexivity. }
  assert (H2 : heap (seeded m) !! S (S h) =
               Some (Atom.ctor Atom.Concept "WSL" F32.f1_0 F32.f1_0
                       (next_id (next_id (s_nextId m))))).
  { unfold seeded. cbn [heap]. replace (S (S h)) with (h + 2)%nat by lia.
    rewrite Hh by lia. reflexivity. }
  split.
  { unfold GetAtomCountByType. erewrite bind_run; cycle 1.
    { apply (FindAtomsByType_run _ _ _ _ Hsp).
      rewrite Htab. repeat constructor; eapply lookup_lt_Some; eauto. }
    rewrite (filter_length_perm _ _ _ Htab). cbn [List.filter].
    unfold holds_at. rewrite H0, H1, H2. reflexivity. }
  split.
  { intros name Hname. unfold FindAtom.
    rewrite (bind_run _ _ _ _ _ (get_space_run _ _ _ Hsp)).
    cbn [AtomSpace.m_atomsByName AtomSpace.m_atoms].
    rewrite !elem_of_cons, elem_of_nil in Hname.
    destruct Hname as [->|[->|[->|[]]]]; eexists _, _;
      (split; [reflexivity|]); (split; [eassumption|]); cbn [Atom.m_id Atom.ctor].
    - rewrite !lookup_insert_ne by congruence. rewrite lookup_insert_eq. auto.
    - rewrite lookup_insert_ne by congruence. rewrite lookup_insert_eq. auto.
    - rewrite lookup_insert_eq. auto. }
  split.
  { intros name Hname. unfold FindAtom.
    rewrite (bind_run _ _ _ _ _ (get_space_run _ _ _ Hsp)).
    cbn [AtomSpace.m_atomsByName].
    rewrite !not_elem_of_cons in Hname. destruct Hname as (? & ? & ? & _).
    rewrite !lookup_insert_ne by congruence. rewrite lookup_empty. reflexivity. }
  intros id l. cbn [AtomSpace.m_atoms].
  rewrite !lookup_insert_Some, lookup_empty.
  intros [[<- <-]|[_ [[<- <-]|[_ [[<- <-]|[_ ?]]]]]]; [| | |discriminate];
    eexists; (split; [eassumption|]); cbn;
    (split; [reflexivity|]); (split; [reflexivity|]); set_solver.
Qed.

(** ** Well-formed stores *)

Lemma space_ok_entry m s id l :
  space_okb m s = true ->
  AtomSpace.m_atoms s !! id = Some l ->
  exists a, heap m !! l = Some a /\ Atom.m_id a = id /\
            AtomSpace.m_atomsByName s !! Atom.m_name a = Some l.
Proof.
  unfold space_okb. rewrite andb_true_iff, !forallb_forall.
  intros [He _] Hl.
  specialize (He (id, l)). unfold entry_okb in He. cbn in He.
  destruct (heap m !! l) as [a|].
  - exists a. rewrite andb_true_iff, !bool_decide_eq_true in He.
    split; [reflexivity|]. apply He.
    apply list_elem_of_In, elem_of_map_to_list. exact Hl.
  - discriminate He. apply list_elem_of_In, elem_of_map_to_list. exact Hl.
Qed.

Lemma space_ok_name m s name l :
  space_okb m s = true ->
  AtomSpace.m_atomsByName s !! name = Some l ->
  exists a, heap m !! l = Some a /\ Atom.m_name a = name /\
            AtomSpace.m_atoms s !! Atom.m_id a = Some l.
Proof.
  unfold space_okb. rewrite andb_true_iff, !forallb_forall.
  intros [_ Hn] Hl.
  specialize (Hn (name, l)). unfold name_okb in Hn. cbn in Hn.
  destruct (heap m !! l) as [a|].
  - exists a. rewrite andb_true_iff, !bool_decide_eq_true in Hn.
    split; [reflexivity|]. apply Hn.
    apply list_elem_of_In, elem_of_map_to_list. exact Hl.
  - discriminate Hn. apply list_elem_of_In, elem_of_map_to_list. exact Hl.
Qed.

Section StoreFacts.

Context `{BucketOrder}.

Lemma space_ok_table_valid m s :
  space_okb m s = true -> Forall (fun l => l < length (heap m))%nat (table s).
Proof.
  intros Hok. apply Forall_forall. intros l Hl.
  apply elem_of_table in Hl. destruct Hl as [id Hid].
  destruct (space_ok_entry _ _ _ _ Hok Hid) as (a & Ha & _).
  eapply lookup_lt_Some. exact Ha.
Qed.

End StoreFacts.

(** ** Construction of atoms and agents *)

(** C10: every atom is constructed with attention 0.5, which is not above
    the threshold 0.7 of [Perceive], also when it is created through the
    store; the constructor of an agent bound to a well-formed store then
    sets the attention of the atom named "Agent:<name>" to 1.0 and leaves
    every other atom as it was. *)
Theorem nodes_start_at_attention_half (agentName : string) (sp : nat)
    (m : Machine) (s : AtomSpace.t) :
  spaces m !! sp = Some s ->
  space_okb m s = true ->
  (forall type name tv conf id,
     Atom.m_attention (Atom.ctor type name tv conf id) = F32.f0_5 /\
     F32.ltb F32.f0_7 (Atom.m_attention (Atom.ctor type name tv conf id)) = false) /\
  (forall type name tv conf,
     AtomSpace.m_atomsByName s !! name = None ->
     exists l m' a, CreateAtom sp type name tv conf m = Ok l m' /\
                    heap m' !! l = Some a /\ Atom.m_attention a = F32.f0_5) /\
  (exists ag m' l a,
     new_CognitiveAgent agentName (Some sp) m = Ok ag m' /\
     FindAtom sp ("Agent:" +:+ agentName) m' = Ok (Some l) m' /\
     heap m' !! l = Some a /\
     Atom.m_name a = "Agent:" +:+ agentName /\
     Atom.m_attention a = F32.f1_0 /\
     (forall l', l' <> l -> heap m' !! l' = heap m !! l')).
Proof.
  intros Hs Hok. split; [|split].
  - intros. split; reflexivity.
  - intros type name tv conf Hn. eexists _, _, _.
    split; [eapply CreateAtom_fresh; eauto|]. cbn [heap]. split.
    + rewrite lookup_app_r by lia. rewrite Nat.sub_diag. reflexivity.
    + reflexivity.
  - unfold new_CognitiveAgent.
    destruct (AtomSpace.m_atomsByName s !! ("Agent:" +:+ agentName)) as [l|] eqn:Hn.
    + destruct (space_ok_name _ _ _ _ Hok Hn) as (a & Ha & Hname & _).
      eexists _, _, l, _. split.
      { erewrite bind_run; [reflexivity|].
        erewrite bind_run; [|eapply CreateAtom_existing; eauto].
        apply on_atom_run. exact Ha. }
      cbn [heap spaces]. split.
      { unfold FindAtom. erewrite bind_run; cycle 1.
        { apply get_space_run. cbn [spaces]. exact Hs. }
        rewrite Hn. reflexivity. }
      split; [apply list_lookup_insert_eq; eapply lookup_lt_Some; eauto|].
      split; [exact Hname|]. split; [reflexivity|].
      intros l' Hne. apply list_lookup_insert_ne. congruence.
    + eexists _, _, (length (heap m)), _. split.
      { erewrite bind_run; [reflexivity|].
        erewrite bind_run; [|eapply CreateAtom_fresh; eauto].
        apply on_atom_run. cbn [heap].
        rewrite lookup_app_r by lia. rewrite Nat.sub_diag. reflexivity. }
      cbn [heap spaces]. split.
      { unfold FindAtom. erewrite bind_run; cycle 1.
        { apply get_space_run. cbn [spaces].
          apply list_lookup_insert_eq. eapply lookup_lt_Some; eauto. }
        cbn [AtomSpace.m_atomsByName]. rewrite lookup_insert_eq. reflexivity. }
      split.
      { apply list_lookup_insert_eq. rewrite length_app. cbn. lia. }
      split; [reflexivity|]. split; [reflexivity|].
      intros l' Hne. rewrite list_lookup_insert_ne by congruence.
      destruct (decide (l' < length (heap m))%nat) as [Hlt|Hge].
      * apply lookup_app_l. exact Hlt.
      * rewrite (lookup_ge_None_2 (heap m)) by lia.
        apply lookup_ge_None_2. rewrite length_app. cbn. lia.
Qed.

Lemma nodes_start_at_attention_half_witness :
  spaces (seeded boot) !! 0%nat = Some boot_space /\
  space_okb (seeded boot) boot_space = true /\
  exists ag m' l a,
    new_CognitiveAgent "Bob" (Some 0%nat) (seeded boot) = Ok ag m' /\
    FindAtom 0 "Agent:Bob" m' = Ok (Some l) m' /\
    heap m' !! l = Some a /\
    Atom.m_name a = "Agent:Bob" /\
    Atom.m_attention a = F32.f1_0 /\
    (forall l', l' <> l -> heap m' !! l' = heap (seeded boot) !! l').
Proof.
  assert (H1 : spaces (seeded boot) !! 0%nat = Some boot_space) by reflexivity.
  assert (H2 : space_okb (seeded boot) boot_space = true) by (vm_compute; reflexivity).
  split; [exact H1|]. split; [exact H2|].
  exact (proj2 (proj2 (nodes_start_at_attention_half "Bob" 0 (seeded boot) boot_space H1 H2))).
Defined.

(** ** Frames *)

Lemma keeps_lift {X Y A} (f : X -> Y) (c : M Machine A) : keeps f (lift c).
Proof. intros x m. unfold lift. destruct (c m); reflexivity. Qed.

Lemma keeps_ret {X Y A} (f : X -> Y) (a : A) : keeps f (mret a).
Proof. intros x m. reflexivity. Qed.

Lemma keeps_read {X Y} (f : X -> Y) : keeps f this.
Proof. intros x m. reflexivity. Qed.

Lemma keeps_from_option {X Y A} (f : X -> Y) (o : option A) : keeps f (from_option o).
Proof. intros x m. destruct o; reflexivity. Qed.

Lemma keeps_bind {X Y A B} (f : X -> Y) (c : M (X * Machine) A)
    (k : A -> M (X * Machine) B) :
  keeps f c -> (forall a, keeps f (k a)) -> keeps f (c ≫= k).
Proof.
  intros Hc Hk x m. specialize (Hc x m). unfold mbind, M_bind.
  destruct (c (x, m)) as [a [x1 m1]|[x1 m1]|]; [|assumption|exact I].
  specialize (Hk a x1 m1).
  destruct (k a (x1, m1)) as [b [x2 m2]|[x2 m2]|]; congruence.
Qed.

Lemma keeps_for_each {X Y A} (f : X -> Y) (l : list A)
    (body : A -> M (X * Machine) unit) :
  (forall a, keeps f (body a)) -> keeps f (for_each l body).
Proof.
  intros Hb. induction l as [|a l IH]; cbn [for_each].
  - apply keeps_ret.
  - apply keeps_bind; [apply Hb|intros _; exact IH].
Qed.

Lemma keeps_Ok {X Y A} (f : X -> Y) (c : M (X * Machine) A) :
  keeps f c -> forall x m a x' m', c (x, m) = Ok a (x', m') -> f x' = f x.
Proof. intros Hc x m a x' m' Hrun. specialize (Hc x m). rewrite Hrun in Hc. exact Hc. Qed.

Ltac frame :=
  unfold keeps_this;
  repeat first
    [ apply keeps_lift | apply keeps_ret | apply keeps_read
    | apply keeps_from_option
    | apply keeps_bind; [|intros ?]
    | apply keeps_for_each; intros ?
    | match goal with
      | |- keeps _ (if ?b then _ else _) => destruct b
      | |- keeps _ (match ?o with Some _ => _ | None => _ end) => destruct o
      end ].

Section Stages.

Context `{BucketOrder}.

(** [Reason], [Plan] and [Act] have no assignment to a member of the agent. *)
Lemma Reason_keeps_agent : keeps_this Reason.
Proof. unfold Reason. frame. Qed.

Lemma Plan_keeps_agent : keeps_this Plan.
Proof. unfold Plan. frame. Qed.

Lemma Act_keeps_agent : keeps_this Act.
Proof. unfold Act. frame. Qed.

Lemma push_memory_keeps_state memory : keeps CognitiveAgent.m_state (push_memory memory).
Proof. intros ag m. reflexivity. Qed.

Lemma set_state_run st ag m :
  set_state st (ag, m) =
  Ok tt (CognitiveAgent.mk (CognitiveAgent.m_name ag) (CognitiveAgent.m_atomSpace ag)
           st (CognitiveAgent.m_shouldStop ag) (CognitiveAgent.m_processingThread ag)
           (CognitiveAgent.m_goals ag) (CognitiveAgent.m_memories ag), m).
Proof. reflexivity. Qed.

(** The three stages that assign [m_state] do so right after their null
    check, and write nothing else to it. *)
Lemma Perceive_state ag m sp r ag' m' :
  CognitiveAgent.m_atomSpace ag = Some sp ->
  Perceive (ag, m) = Ok r (ag', m') ->
  CognitiveAgent.m_state ag' = CognitiveAgent.Active.
Proof.
  intros Hsp. unfold Perceive. rewrite (bind_run _ _ _ _ _ (this_run ag m)), Hsp.
  rewrite (bind_run _ _ _ _ _ (set_state_run _ _ _)). intros Hrun.
  eapply (keeps_Ok CognitiveAgent.m_state) in Hrun; [exact Hrun|].
  frame; try apply push_memory_keeps_state.
Qed.

Lemma Learn_state ag m sp r ag' m' :
  CognitiveAgent.m_atomSpace ag = Some sp ->
  Learn (ag, m) = Ok r (ag', m') ->
  CognitiveAgent.m_state ag' = CognitiveAgent.Learning.
Proof.
  intros Hsp. unfold Learn. rewrite (bind_run _ _ _ _ _ (this_run ag m)), Hsp.
  rewrite (bind_run _ _ _ _ _ (set_state_run _ _ _)). intros Hrun.
  eapply (keeps_Ok CognitiveAgent.m_state) in Hrun; [exact Hrun|].
  frame; try (intros ag0 m0; reflexivity).
Qed.

Lemma SelfModify_state ag m sp r ag' m' :
  CognitiveAgent.m_atomSpace ag = Some sp ->
  SelfModify (ag, m) = Ok r (ag', m') ->
  CognitiveAgent.m_state ag' = CognitiveAgent.SelfModifying.
Proof.
  intros Hsp. unfold SelfModify. rewrite (bind_run _ _ _ _ _ (this_run ag m)), Hsp.
  rewrite (bind_run _ _ _ _ _ (set_state_run _ _ _)). intros Hrun.
  eapply (keeps_Ok CognitiveAgent.m_state) in Hrun; [exact Hrun|].
  frame.
Qed.

(** In every pass through the loop body of an agent bound to a store, the
    state is [Active] when [Plan] starts, when [Act] starts and when [Act]
    ends. *)
Lemma state_during_Plan_and_Act ag m sp r1 ag1 m1 r2 ag2 m2 r3 ag3 m3 r4 ag4 m4 :
  CognitiveAgent.m_atomSpace ag = Some sp ->
  Perceive (ag, m) = Ok r1 (ag1, m1) ->
  Reason (ag1, m1) = Ok r2 (ag2, m2) ->
  Plan (ag2, m2) = Ok r3 (ag3, m3) ->
  Act (ag3, m3) = Ok r4 (ag4, m4) ->
  CognitiveAgent.m_state ag2 = CognitiveAgent.Active /\
  CognitiveAgent.m_state ag3 = CognitiveAgent.Active /\
  CognitiveAgent.m_state ag4 = CognitiveAgent.Active.
Proof.
  intros Hsp HP HR HPl HA.
  apply (Perceive_state _ _ _ _ _ _ Hsp) in HP.
  apply (keeps_Ok id _ Reason_keeps_agent) in HR.
  apply (keeps_Ok id _ Plan_keeps_agent) in HPl.
  apply (keeps_Ok id _ Act_keeps_agent) in HA.
  cbn in HR, HPl, HA. subst. auto.
Qed.

End Stages.

Lemma for_each_rel {S A} (R : S -> S -> Prop) (l : list A) (body : A -> M S unit) :
  (forall s, R s s) ->
  (forall s1 s2 s3, R s1 s2 -> R s2 s3 -> R s1 s3) ->
  (forall x s s', body x s = Ok tt s' -> R s s') ->
  forall s s', for_each l body s = Ok tt s' -> R s s'.
Proof.
  intros Hrefl Htrans Hbody. induction l as [|x l IH]; intros s s' Hrun.
  - inversion Hrun. apply Hrefl.
  - cbn [for_each] in Hrun. apply bind_Ok in Hrun.
    destruct Hrun as ([] & s1 & Hx & Hl).
    eapply Htrans; [eapply Hbody; eassumption|]. apply IH. exact Hl.
Qed.

Lemma incoming_kept_refl m : incoming_kept m m.
Proof.
  split; [reflexivity|]. intros l a' Hl. rewrite Hl. reflexivity.
Qed.

Lemma incoming_kept_trans m1 m2 m3 :
  incoming_kept m1 m2 -> incoming_kept m2 m3 -> incoming_kept m1 m3.
Proof.
  intros [Hlen12 H12] [Hlen23 H23]. split; [lia|].
  intros l a3 Hl3. rewrite (H23 _ _ Hl3).
  destruct (heap m2 !! l) as [a2|] eqn:Hl2.
  - apply H12. exact Hl2.
  - rewrite (lookup_ge_None_2 (heap m1)); [reflexivity|].
    apply lookup_ge_None_1 in Hl2. lia.
Qed.

Lemma CreateAtom_incoming_kept sp type name tv conf m l m' :
  CreateAtom sp type name tv conf m = Ok l m' -> incoming_kept m m'.
Proof.
  unfold CreateAtom. intros Hrun. apply bind_Ok in Hrun.
  destruct Hrun as (s & m1 & Hs & Hrun). apply get_space_Ok in Hs.
  destruct Hs as [Hs ->].
  destruct (AtomSpace.m_atomsByName s !! name) as [l0|] eqn:Hn.
  - inversion Hrun. subst. apply incoming_kept_refl.
  - pose proof (CreateAtom_fresh sp type name tv conf m s Hs Hn) as Hfresh.
    unfold CreateAtom in Hfresh.
    rewrite (bind_run _ _ _ _ _ (get_space_run _ _ _ Hs)), Hn in Hfresh.
    rewrite Hfresh in Hrun. inversion Hrun. subst. clear Hrun Hfresh.
    split; cbn [heap]; [rewrite length_app; lia|].
    intros l a' Hl. destruct (heap m !! l) as [a|] eqn:Hml.
    + rewrite (lookup_app_l_Some _ _ _ _ Hml) in Hl. inversion Hl. reflexivity.
    + apply lookup_ge_None_1 in Hml. rewrite lookup_app_r in Hl by lia.
      destruct (l - length (heap m))%nat; cbn in Hl; [|discriminate].
      inversion Hl. reflexivity.
Qed.

Lemma AddOutgoingLink_incoming_kept l x m m' :
  on_atom l (Atom.AddOutgoingLink x) m = Ok tt m' -> incoming_kept m m'.
Proof.
  intros Hrun. apply on_atom_Ok in Hrun. destruct Hrun as (a & Ha & ->).
  split; cbn [heap]; [rewrite length_insert; lia|].
  intros l' a' Hl'. destruct (decide (l = l')) as [<-|Hne].
  - rewrite list_lookup_insert_eq in Hl' by (eapply lookup_lt_Some; eauto).
    inversion Hl'. rewrite Ha. unfold Atom.AddOutgoingLink.
    destruct x as [p|]; [|reflexivity]. destruct (bool_decide _); reflexivity.
  - rewrite list_lookup_insert_ne in Hl' by exact Hne. rewrite Hl'. reflexivity.
Qed.

Section PlanAct.

Context `{BucketOrder}.

(** [Plan] registers the plan among the outgoing links of the goal and
    nowhere else: no atom gains an incoming link, and a plan created by the
    stage has none. *)
Lemma Plan_adds_no_incoming_link ag m r ag' m' :
  Plan (ag, m) = Ok r (ag', m') -> incoming_kept m m'.
Proof.
  unfold Plan. intros Hrun. apply bind_Ok in Hrun.
  destruct Hrun as (ag0 & [ag1 m1] & Hthis & Hrun).
  inversion Hthis. subst ag0 ag1 m1. clear Hthis. destruct r.
  apply (for_each_rel (fun s s' => incoming_kept s.2 s'.2)) in Hrun; [exact Hrun| | |].
  - intros s. apply incoming_kept_refl.
  - intros s1 s2 s3. apply incoming_kept_trans.
  - clear Hrun. intros goal [x1 m1] [x2 m2] Hbody. cbn [snd].
    apply bind_Ok in Hbody. destruct Hbody as (g & [x3 m3] & Hg & Hbody).
    apply lift_Ok in Hg. destruct Hg as [Hg ->]. apply deref_Ok in Hg.
    destruct Hg as [Hg ->].
    destruct (F32.ltb (Atom.m_truthValue g) F32.f0_8).
    + apply bind_Ok in Hbody. destruct Hbody as (sp & [x4 m4] & Hsp & Hbody).
      destruct (CognitiveAgent.m_atomSpace ag); [|discriminate].
      inversion Hsp. subst. clear Hsp.
      apply bind_Ok in Hbody. destruct Hbody as (plan & [x5 m5] & Hplan & Hbody).
      apply lift_Ok in Hplan. destruct Hplan as [Hplan ->].
      apply lift_Ok in Hbody. destruct Hbody as [Hbody ->].
      eapply incoming_kept_trans.
      * eapply CreateAtom_incoming_kept. exact Hplan.
      * eapply AddOutgoingLink_incoming_kept. exact Hbody.
    + inversion Hbody. apply incoming_kept_refl.
Qed.

End PlanAct.

(** C3 on the agent of the unit test: the goal "TestGoal" has truth 0.5,
    [Plan] creates "Plan:TestGoal" and puts it among the outgoing links of
    the goal, [Act] finds the plan at truth 0.5 and raises it to 0.6 -- and
    the truth of the goal is still 0.5, not 0.55, because the incoming links
    of the plan are empty. *)
Theorem plan_then_act_leaves_goal_truth :
  match plan_then_act boot with
  | Ok (goalBefore, goalAfter, planAfter, goalOut, planIn, goal, plan) _ =>
      goalBefore = F32.f0_5 /\
      F32.ltb goalBefore F32.f0_8 = true /\
      plan = Some 5%nat /\ goalOut = [5%nat] /\
      planAfter = F32.add F32.f0_5 F32.f0_1 /\
      planIn = [] /\
      goalAfter = goalBefore /\
      goalAfter <> F32.add goalBefore F32.f0_05
  | _ => False
  end.
Proof. vm_compute. repeat split; discriminate. Qed.

(** C8 on the agent of the unit test, started: the states after [Start],
    [Perceive], [Reason], [Plan], [Act], [Learn] and [SelfModify].  The agent
    is [Active] when [Plan] starts and when [Act] starts, and it still is
    when they end; [Planning] and [Executing] never occur. *)
Theorem plan_and_act_run_in_state_Active :
  match states_through_cycle boot with
  | Ok states _ =>
      states = [CognitiveAgent.Active; CognitiveAgent.Active; CognitiveAgent.Active;
                CognitiveAgent.Active; CognitiveAgent.Active;
                CognitiveAgent.Learning; CognitiveAgent.SelfModifying] /\
      (CognitiveAgent.Planning ∉ states) /\ (CognitiveAgent.Executing ∉ states)
  | _ => False
  end.
Proof.
  vm_compute. split; [reflexivity|].
  split; intros Hin; repeat (apply elem_of_cons in Hin as [Hin|Hin]; [discriminate|]);
    apply elem_of_nil in Hin; exact Hin.
Qed.

(** ** Loops that cannot fail *)

Lemma for_each_inv {S A} (I : S -> Prop) (l : list A) (body : A -> M S unit) :
  (forall x s, x ∈ l -> I s -> exists s', body x s = Ok tt s' /\ I s') ->
  forall s, I s -> exists s', for_each l body s = Ok tt s' /\ I s'.
Proof.
  induction l as [|x l IH]; intros Hbody s Hs.
  - exists s. split; [reflexivity|exact Hs].
  - destruct (Hbody x s ltac:(left) Hs) as (s1 & Hx & Hs1).
    destruct (IH ltac:(intros; apply Hbody; [right|]; assumption) s1 Hs1)
      as (s2 & Hl & Hs2).
    exists s2. split; [|exact Hs2].
    cbn [for_each]. rewrite (bind_run _ _ _ _ _ Hx). exact Hl.
Qed.

Lemma elem_of_filter_bool {A} (f : A -> bool) (l : list A) x :
  x ∈ List.filter f l -> x ∈ l /\ f x = true.
Proof.
  rewrite !list_elem_of_In. rewrite filter_In. auto.
Qed.

(** ** The memory list *)

Section Memory.

Context `{BucketOrder}.

(** [Learn] on an agent bound to a well-formed store returns; the agent is
    then in state [Learning] and its memory list is trimmed. *)
Lemma Learn_run ag m sp s :
  CognitiveAgent.m_atomSpace ag = Some sp ->
  spaces m !! sp = Some s ->
  space_okb m s = true ->
  exists m',
    Learn (ag, m) =
    Ok tt (CognitiveAgent.mk (CognitiveAgent.m_name ag) (CognitiveAgent.m_atomSpace ag)
             CognitiveAgent.Learning (CognitiveAgent.m_shouldStop ag)
             (CognitiveAgent.m_processingThread ag) (CognitiveAgent.m_goals ag)
             (trimmed (CognitiveAgent.m_memories ag)), m').
Proof.
  intros Hsp Hs Hok. unfold Learn.
  rewrite (bind_run _ _ _ _ _ (this_run ag m)), Hsp.
  rewrite (bind_run _ _ _ _ _ (set_state_run _ _ _)).
  set (agL := CognitiveAgent.mk _ _ CognitiveAgent.Learning _ _ _ _).
  pose proof (space_ok_table_valid _ _ Hok) as Hvalid.
  rewrite (bind_run _ _ _ _ _ (lift_run _ agL _ _ _ (FindAtomsByType_run _ _ _ _ Hs Hvalid))).
  match goal with
  | |- context [for_each ?l ?body] =>
      destruct (for_each_inv
                  (fun s' => s'.1 = agL /\ length (heap s'.2) = length (heap m))
                  l body) with (s := (agL, m)) as ([ag1 m1] & Hloop & Hag & _)
  end.
  - intros concept [ag0 m0] Hin [Hag Hlen]. cbn [fst snd] in Hag, Hlen. subst ag0.
    apply elem_of_filter_bool in Hin. destruct Hin as [Hin _].
    rewrite Forall_forall in Hvalid. specialize (Hvalid _ Hin).
    destruct (lookup_lt_is_Some_2 (heap m0) concept ltac:(lia)) as [c Hc].
    rewrite (bind_run _ _ _ _ _ (lift_run _ agL _ _ _ (deref_run _ _ _ Hc))).
    destruct (F32.ltb F32.f0_5 (Atom.m_attention c)).
    + eexists. split; [apply lift_run, on_atom_run; exact Hc|].
      cbn [fst snd heap]. rewrite length_insert. auto.
    + eexists. split; [reflexivity|]. auto.
  - cbn [fst snd]. auto.
  - cbn [fst] in Hag. subst ag1. exists m1.
    rewrite (bind_run _ _ _ _ _ Hloop).
    rewrite (bind_run _ _ _ _ _ (this_run agL m1)).
    subst agL. cbn [CognitiveAgent.m_memories]. unfold trimmed.
    destruct (bool_decide _); unfold set_memories, set_this, this, mbind, M_bind, mret, M_ret;
      cbn; rewrite Hsp; reflexivity.
Qed.

End Memory.

(** C5, as amended: [Learn] on an agent bound to a well-formed store
    returns, and when it finds more than 1000 entries in the memory list it
    removes exactly the 100 oldest, the others keeping their order; with at
    most 1000 entries it leaves the list alone.  After the stage the list
    has at most [max 1000 (n - 100)] entries, where [n] is its size
    before. *)
Theorem Learn_trims_memories `{BucketOrder} ag m sp s :
  CognitiveAgent.m_atomSpace ag = Some sp ->
  spaces m !! sp = Some s ->
  space_okb m s = true ->
  exists ag' m',
    Learn (ag, m) = Ok tt (ag', m') /\
    let before := CognitiveAgent.m_memories ag in
    let after := CognitiveAgent.m_memories ag' in
    ((1000 < length before)%nat ->
       after = drop 100 before /\ before = take 100 before ++ after /\
       length after = (length before - 100)%nat) /\
    ((length before <= 1000)%nat -> after = before) /\
    (length after <= Nat.max 1000 (length before - 100))%nat.
Proof.
  intros Hsp Hs Hok. destruct (Learn_run ag m sp s Hsp Hs Hok) as [m' Hrun].
  eexists _, m'. split; [exact Hrun|]. cbn [CognitiveAgent.m_memories].
  unfold trimmed. case_bool_decide as Hlen.
  - split; [|split].
    + intros _. split; [reflexivity|]. split.
      * symmetry. apply take_drop.
      * apply length_drop.
    + intros Hle. lia.
    + rewrite length_drop. lia.
  - split; [|split].
    + intros Hgt. lia.
    + intros _. reflexivity.
    + lia.
Qed.

Lemma Learn_trims_memories_witness :
  exists ag' m',
    Learn (CognitiveAgent.mk "TestAgent" (Some 0%nat) CognitiveAgent.Active false true
             [] (replicate 1001 0%nat), seeded boot) = Ok tt (ag', m') /\
    CognitiveAgent.m_memories ag' = replicate 901 0%nat.
Proof.
  destruct (Learn_trims_memories
              (CognitiveAgent.mk "TestAgent" (Some 0%nat) CognitiveAgent.Active false true
                 [] (replicate 1001 0%nat))
              (seeded boot) 0%nat boot_space eq_refl eq_refl
              ltac:(vm_compute; reflexivity))
    as (ag' & m' & Hrun & Hgt & _).
  exists ag', m'. split; [exact Hrun|].
  destruct Hgt as [Hdrop _].
  - cbn [CognitiveAgent.m_memories]. rewrite length_replicate. lia.
  - rewrite Hdrop. reflexivity.
Defined.

(** C5, as stated, fails: an agent that has received 1200 messages holds
    1200 memories, and the [Learn] stage that follows leaves 1100 of them. *)
Lemma memory_list_exceeds_1000 :
  match learn_after_messages 1200 boot with
  | Ok (before, after) _ =>
      before = 1200%nat /\ after = 1100%nat /\ (1000 < after)%nat
  | _ => False
  end.
Proof. vm_compute. repeat split. lia. Qed.

(** ** The needle of [Reason] *)

Lemma prefix_length (s1 s2 : string) :
  String.prefix s1 s2 = true -> (String.length s1 <= String.length s2)%nat.
Proof.
  revert s2. induction s1 as [|c s1 IH]; intros s2 Hp; cbn; [lia|].
  destruct s2 as [|c2 s2]; cbn in Hp; [discriminate|].
  destruct (Ascii.ascii_dec c c2); [|discriminate].
  specialize (IH _ Hp). cbn. lia.
Qed.

Lemma index_length (needle hay : string) n k :
  String.index n needle hay = Some k ->
  (String.length needle <= String.length hay)%nat.
Proof.
  revert n k. induction hay as [|c hay IH]; intros n k Hi.
  - destruct n; cbn in Hi; [|discriminate].
    destruct needle; [cbn; lia|discriminate].
  - destruct n as [|n]; cbn [String.index] in Hi.
    + destruct (String.prefix needle (String c hay)) eqn:Hp.
      * apply prefix_length. exact Hp.
      * destruct (String.index 0 needle hay) eqn:Hrec; [|discriminate].
        specialize (IH _ _ Hrec). cbn. lia.
    + destruct (String.index n needle hay) eqn:Hrec; [|discriminate].
      specialize (IH _ _ Hrec). cbn. lia.
Qed.

(** [substr(9)] leaves the colon of "Perceived:" in front of the name. *)
Lemma needle_of_perceived (name : string) :
  substr_from 9 ("Perceived:" +:+ name) = Some (":" +:+ name).
Proof. reflexivity. Qed.

(** No name contains itself with a colon in front: the atom that was
    perceived is never related to the memory of its own perception. *)
Lemma perceived_atom_not_related (name : string) :
  str_contains name (":" +:+ name) = false.
Proof.
  unfold str_contains.
  destruct (String.index 0 (":" +:+ name) name) as [k|] eqn:Hi; [|reflexivity].
  apply index_length in Hi.
  change (String.length (":" +:+ name)) with (S (String.length name)) in Hi. lia.
Qed.

(** C6 on a fresh store: the memory "Perceived:Self" has truth 1.0; the
    needle cut from it is ":Self"; the Concept "Self", at truth 0.5 and
    confidence 0.5, is left as it is by [Reason] instead of moving to the
    mean 0.75 and to confidence 0.55; the Concept "Note:Self", whose name
    contains ":Self", is the one that moves. *)
Theorem Reason_misses_the_perceived_concept :
  match reason_about_Self boot with
  | Ok (names, needle, selfBefore, selfAfter, noteAfter) _ =>
      "Perceived:Self" ∈ names /\
      needle = Some ":Self" /\
      str_contains "Self" "Self" = true /\
      str_contains "Self" ":Self" = false /\
      selfBefore = (F32.f0_5, F32.f0_5) /\
      selfAfter = selfBefore /\
      selfAfter <> (F32.div (F32.add F32.f0_5 F32.f1_0) F32.f2_0,
                    F32.min F32.f1_0 (F32.mul F32.f0_5 F32.f1_1)) /\
      noteAfter = (F32.div (F32.add F32.f0_5 F32.f1_0) F32.f2_0,
                   F32.min F32.f1_0 (F32.mul F32.f0_5 F32.f1_1))
  | _ => False
  end.
Proof.
  vm_compute. split; [right; left|]. repeat split; discriminate.
Qed.

(** ** The attention pass changes attention only *)

Lemma attention_only_refl m : attention_only m m.
Proof.
  repeat split. intros l a Hl. exists a. split; [exact Hl|]. destruct a; reflexivity.
Qed.

Lemma attention_only_trans m1 m2 m3 :
  attention_only m1 m2 -> attention_only m2 m3 -> attention_only m1 m3.
Proof.
  intros (Hs12 & Hn12 & Hl12 & H12) (Hs23 & Hn23 & Hl23 & H23).
  split; [congruence|]. split; [congruence|]. split; [congruence|].
  intros l a1 Hl. destruct (H12 _ _ Hl) as (a2 & Hl2 & Ha2).
  destruct (H23 _ _ Hl2) as (a3 & Hl3 & Ha3). exists a3. split; [exact Hl3|].
  rewrite <- Ha2, <- Ha3. reflexivity.
Qed.

Lemma SetAttention_attention_only l x m m' :
  on_atom l (Atom.SetAttention x) m = Ok tt m' -> attention_only m m'.
Proof.
  intros Hrun. apply on_atom_Ok in Hrun. destruct Hrun as (a & Ha & ->).
  split; [reflexivity|]. split; [reflexivity|]. cbn [heap].
  split; [apply length_insert|].
  intros l' a' Hl'. destruct (decide (l = l')) as [<-|Hne].
  - exists (Atom.SetAttention x a). split.
    + apply list_lookup_insert_eq. eapply lookup_lt_Some; eauto.
    + rewrite Ha in Hl'. inversion Hl'. subst a'. destruct a; reflexivity.
  - exists a'. split.
    + rewrite list_lookup_insert_ne by exact Hne. exact Hl'.
    + destruct a'; reflexivity.
Qed.

Lemma attention_only_links m m' l a a' :
  attention_only m m' -> heap m !! l = Some a -> heap m' !! l = Some a' ->
  Atom.m_outgoingLinks a' = Atom.m_outgoingLinks a /\
  Atom.m_incomingLinks a' = Atom.m_incomingLinks a /\
  Atom.m_type a' = Atom.m_type a /\ Atom.m_name a' = Atom.m_name a /\
  Atom.m_id a' = Atom.m_id a /\
  Atom.m_truthValue a' = Atom.m_truthValue a /\
  Atom.m_confidence a' = Atom.m_confidence a.
Proof.
  intros (_ & _ & _ & Hat) Hl Hl'. destruct (Hat _ _ Hl) as (a2 & Hl2 & Ha2).
  rewrite Hl' in Hl2. inversion Hl2. subst a2. rewrite <- Ha2.
  destruct a'; cbn. repeat split.
Qed.

Lemma heap_ok_outgoing m l a :
  heap_okb m = true -> heap m !! l = Some a ->
  Forall (fun x => x < length (heap m))%nat (Atom.m_outgoingLinks a).
Proof.
  unfold heap_okb. rewrite forallb_forall. intros Hok Hl.
  specialize (Hok a ltac:(apply list_elem_of_In, list_elem_of_lookup; eauto)).
  unfold links_okb in Hok. rewrite !andb_true_iff, !forallb_forall in Hok.
  destruct Hok as [[Hout _] _]. apply Forall_forall. intros x Hx.
  apply list_elem_of_In in Hx. specialize (Hout _ Hx).
  apply bool_decide_eq_true in Hout. exact Hout.
Qed.

(** One step of the pass, on a machine that differs from a well-formed one
    in attention only. *)
Lemma attention_step_run m0 m atom :
  heap_okb m0 = true -> attention_only m0 m ->
  (atom < length (heap m0))%nat ->
  exists m', attention_step atom m = Ok tt m' /\ attention_only m0 m'.
Proof.
  intros Hok Hshape Hatom.
  destruct (lookup_lt_is_Some_2 (heap m0) atom Hatom) as [a0 Ha0].
  pose proof Hshape as (_ & _ & Hlen & Hat).
  destruct (Hat _ _ Ha0) as (a & Ha & _).
  pose proof (attention_only_links _ _ _ _ _ Hshape Ha0 Ha) as (Hout & _).
  pose proof (heap_ok_outgoing _ _ _ Hok Ha0) as Hvalid. rewrite <- Hout in Hvalid.
  unfold attention_step. rewrite (bind_run _ _ _ _ _ (deref_run _ _ _ Ha)).
  assert (Hspread : exists m1,
            (if bool_decide (Atom.m_outgoingLinks a = []) then mret tt
             else for_each (Atom.m_outgoingLinks a) (fun linked =>
                    b ← deref linked;
                    on_atom linked
                      (Atom.SetAttention
                         (F32.add (Atom.m_attention b)
                            (F32.div (F32.mul (Atom.m_attention a) F32.f0_1)
                               (F32.of_size (length (Atom.m_outgoingLinks a))))))))
              m = Ok tt m1 /\ attention_only m0 m1).
  { destruct (bool_decide (Atom.m_outgoingLinks a = [])).
    - exists m. split; [reflexivity|exact Hshape].
    - apply (for_each_inv (attention_only m0)); [|exact Hshape].
      intros linked m1 Hin Hshape1.
      rewrite Forall_forall in Hvalid. specialize (Hvalid _ Hin).
      pose proof Hshape1 as (_ & _ & Hlen1 & _).
      destruct (lookup_lt_is_Some_2 (heap m1) linked ltac:(lia)) as [b Hb].
      rewrite (bind_run _ _ _ _ _ (deref_run _ _ _ Hb)).
      eexists. split; [apply on_atom_run; exact Hb|].
      eapply attention_only_trans; [exact Hshape1|].
      eapply SetAttention_attention_only. apply on_atom_run. exact Hb. }
  destruct Hspread as (m1 & Hrun1 & Hshape1).
  rewrite (bind_run _ _ _ _ _ Hrun1).
  pose proof Hshape1 as (_ & _ & Hlen1 & _).
  destruct (lookup_lt_is_Some_2 (heap m1) atom ltac:(lia)) as [a1 Ha1].
  eexists. split; [apply on_atom_run; exact Ha1|].
  eapply attention_only_trans; [exact Hshape1|].
  eapply SetAttention_attention_only. apply on_atom_run. exact Ha1.
Qed.

Section Pass.

Context `{BucketOrder}.

(** The pass returns on a well-formed machine and changes attention only. *)
Lemma UpdateAttentionValues_run sp m s :
  spaces m !! sp = Some s ->
  space_okb m s = true ->
  heap_okb m = true ->
  exists m', UpdateAttentionValues sp m = Ok tt m' /\ attention_only m m'.
Proof.
  intros Hs Hsok Hok. unfold UpdateAttentionValues.
  rewrite (bind_run _ _ _ _ _ (get_space_run _ _ _ Hs)).
  apply (for_each_inv (attention_only m)); [|apply attention_only_refl].
  intros atom m1 Hin Hshape.
  apply (attention_step_run m); [exact Hok|exact Hshape|].
  pose proof (space_ok_table_valid _ _ Hsok) as Hvalid.
  rewrite Forall_forall in Hvalid. apply Hvalid. exact Hin.
Qed.

End Pass.

(** ** The registry *)

Lemma mapM_pure {S A B} (f : A -> M S B) (g : A -> B) (l : list A) s :
  (forall x, x ∈ l -> f x s = Ok (g x) s) ->
  mapM (M := M S) f l s = Ok (g <$> l) s.
Proof.
  induction l as [|x l IH]; intros Hf; [reflexivity|].
  cbn [mapM]. rewrite (bind_run _ _ _ _ _ (Hf x ltac:(left))).
  rewrite (bind_run _ _ _ _ _ (IH ltac:(intros; apply Hf; right; assumption))).
  reflexivity.
Qed.

Lemma Resume_run ag m : Resume (ag, m) = Ok tt (resumed ag, m).
Proof.
  unfold Resume, resumed. rewrite (bind_run _ _ _ _ _ (this_run ag m)).
  destruct (bool_decide _ && negb _); reflexivity.
Qed.

Section Registry.

Context `{BucketOrder}.

Lemma GetStatistics_run sys m s :
  spaces m !! CognitiveSystem.m_globalAtomSpace sys = Some s ->
  Forall (fun l => l < length (heap m))%nat (table s) ->
  exists stats,
    GetStatistics (sys, m) = Ok stats (sys, m) /\
    CognitiveSystem.totalAgents stats = Z.of_nat (size (CognitiveSystem.m_agents sys)) /\
    CognitiveSystem.activeAgents stats =
      active_count (agents_order (CognitiveSystem.m_agents sys)).
Proof.
  intros Hs Hvalid. unfold GetStatistics.
  rewrite (bind_run _ _ _ _ _ (this_run sys m)).
  erewrite bind_run; cycle 1.
  { apply lift_run. unfold GetAtomCount.
    rewrite (bind_run _ _ _ _ _ (get_space_run _ _ _ Hs)). reflexivity. }
  erewrite bind_run; cycle 1.
  { apply lift_run. apply (Query_pure _ _ (fun _ => true) _ _ Hs Hvalid).
    intros a. reflexivity. }
  erewrite bind_run; cycle 1.
  { apply lift_run.
    apply (mapM_pure _ (fun l => default F32.f0_0 (Atom.m_attention <$> heap m !! l))).
    intros x Hx. apply elem_of_filter_bool in Hx. destruct Hx as [Hx _].
    destruct (Forall_valid_lookup m _ x Hvalid Hx) as [a Ha].
    rewrite (bind_run _ _ _ _ _ (deref_run _ _ _ Ha)). rewrite Ha. reflexivity. }
  eexists. split; [reflexivity|]. split; reflexivity.
Qed.

Lemma activate_first_run ags sys m :
  (forall name agent, (name, agent) ∈ ags ->
     CognitiveSystem.m_agents sys !! name = Some agent) ->
  activate_first ags (sys, m) =
  Ok tt (CognitiveSystem.mk (CognitiveSystem.m_globalAtomSpace sys)
           match first_inactive ags with
           | Some (name, agent) => <[name := resumed agent]> (CognitiveSystem.m_agents sys)
           | None => CognitiveSystem.m_agents sys
           end
           (CognitiveSystem.m_configuration sys) (CognitiveSystem.m_initialized sys), m).
Proof.
  induction ags as [|[name agent] ags IH]; intros Hags.
  - destruct sys; reflexivity.
  - cbn [activate_first first_inactive].
    destruct (bool_decide (CognitiveAgent.m_state agent = CognitiveAgent.Inactive)).
    + unfold on_agent. rewrite (Hags name agent ltac:(left)).
      rewrite Resume_run. reflexivity.
    + apply IH. intros n a Hin. apply Hags. right. exact Hin.
Qed.

End Registry.

Section SelfTuning.

Context `{BucketOrder}.

Lemma table_NoDup m s : space_okb m s = true -> NoDup (table s).
Proof.
  intros Hok. rewrite table_perm. apply NoDup_fmap_2_strong.
  - intros [id1 l1] [id2 l2] H1 H2 Heq. cbn in Heq. subst l2.
    apply elem_of_map_to_list in H1, H2.
    destruct (space_ok_entry _ _ _ _ Hok H1) as (a1 & Ha1 & Hid1 & _).
    destruct (space_ok_entry _ _ _ _ Hok H2) as (a2 & Ha2 & Hid2 & _).
    congruence.
  - apply NoDup_map_to_list.
Qed.

Lemma agents_order_lookup (agents : gmap string CognitiveAgent.t) name agent :
  (name, agent) ∈ agents_order agents -> agents !! name = Some agent.
Proof. rewrite agents_order_perm. apply elem_of_map_to_list. Qed.

Lemma with_agents_same sys : with_agents sys (CognitiveSystem.m_agents sys) = sys.
Proof. destruct sys; reflexivity. Qed.

Lemma goal_step_other sys m l :
  (l < length (heap m))%nat -> is_optimize m l = false ->
  goal_step l (sys, m) = Ok tt (sys, m).
Proof.
  intros Hl Hno. destruct (lookup_lt_is_Some_2 _ _ Hl) as [g Hg].
  unfold goal_step. rewrite (bind_run _ _ _ _ _ (lift_run _ sys _ _ _ (deref_run _ _ _ Hg))).
  unfold is_optimize, holds_at in Hno. rewrite Hg in Hno. rewrite Hno. reflexivity.
Qed.

Lemma goal_step_optimize sys m s l :
  spaces m !! CognitiveSystem.m_globalAtomSpace sys = Some s ->
  Forall (fun l => l < length (heap m))%nat (table s) ->
  (l < length (heap m))%nat -> is_optimize m l = true ->
  goal_step l (sys, m) =
  Ok tt (with_agents sys (nudged (CognitiveSystem.m_agents sys)), m).
Proof.
  intros Hs Hvalid Hl Hyes. destruct (lookup_lt_is_Some_2 _ _ Hl) as [g Hg].
  unfold goal_step. rewrite (bind_run _ _ _ _ _ (lift_run _ sys _ _ _ (deref_run _ _ _ Hg))).
  unfold is_optimize, holds_at in Hyes. rewrite Hg in Hyes. rewrite Hyes.
  destruct (GetStatistics_run sys m s Hs Hvalid) as (stats & Hstats & Htotal & Hactive).
  rewrite (bind_run _ _ _ _ _ Hstats). rewrite Htotal, Hactive. unfold nudged.
  destruct (_ <? _).
  - rewrite (bind_run _ _ _ _ _ (this_run sys m)).
    rewrite activate_first_run by (intros n a; apply agents_order_lookup).
    unfold with_agents.
    destruct (first_inactive _) as [[n a]|]; reflexivity.
  - rewrite with_agents_same. reflexivity.
Qed.

Lemma goals_loop_skip sys m (L : list loc) :
  Forall (fun l => l < length (heap m))%nat L ->
  Forall (fun l => is_optimize m l = false) L ->
  for_each L goal_step (sys, m) = Ok tt (sys, m).
Proof.
  induction L as [|l L IH]; intros Hv Hno; [reflexivity|].
  inversion Hv; inversion Hno; subst. cbn [for_each].
  rewrite (bind_run _ _ _ _ _ (goal_step_other sys m l ltac:(assumption) ltac:(assumption))).
  apply IH; assumption.
Qed.

Lemma goals_loop sys m s (L : list loc) :
  spaces m !! CognitiveSystem.m_globalAtomSpace sys = Some s ->
  Forall (fun l => l < length (heap m))%nat (table s) ->
  Forall (fun l => l < length (heap m))%nat L ->
  NoDup L ->
  (forall l1 l2, l1 ∈ L -> l2 ∈ L ->
     is_optimize m l1 = true -> is_optimize m l2 = true -> l1 = l2) ->
  for_each L goal_step (sys, m) =
  Ok tt (if existsb (is_optimize m) L
         then with_agents sys (nudged (CognitiveSystem.m_agents sys))
         else sys, m).
Proof.
  intros Hs Hvalid. induction L as [|l L IH]; intros Hv Hnd Huniq; [reflexivity|].
  inversion Hv as [|? ? Hl HvL]; subst. apply NoDup_cons in Hnd as [Hnotin HndL].
  cbn [for_each existsb]. destruct (is_optimize m l) eqn:Hopt.
  - rewrite (bind_run _ _ _ _ _ (goal_step_optimize sys m s l Hs Hvalid Hl Hopt)).
    cbn [orb]. apply goals_loop_skip; [exact HvL|].
    apply Forall_forall. intros l' Hl'.
    destruct (is_optimize m l') eqn:Hopt'; [|reflexivity].
    exfalso. apply Hnotin.
    rewrite (Huniq l l' ltac:(left) ltac:(right; exact Hl') Hopt Hopt'). exact Hl'.
  - rewrite (bind_run _ _ _ _ _ (goal_step_other sys m l Hl Hopt)).
    cbn [orb]. apply IH; [exact HvL|exact HndL|].
    intros l1 l2 H1 H2. apply Huniq; right; assumption.
Qed.

End SelfTuning.

Section UpdateSystemSpec.

Context `{BucketOrder}.

Lemma is_optimize_attention_only m m1 l :
  attention_only m m1 -> is_optimize m1 l = is_optimize m l.
Proof.
  intros Hshape. unfold is_optimize, holds_at.
  pose proof Hshape as (_ & _ & Hlen & Hat).
  destruct (heap m !! l) as [a|] eqn:Hl.
  - destruct (Hat _ _ Hl) as (a1 & Hl1 & _). rewrite Hl1.
    destruct (attention_only_links _ _ _ _ _ Hshape Hl Hl1) as (_ & _ & _ & -> & _).
    reflexivity.
  - rewrite (lookup_ge_None_2 (heap m1)); [reflexivity|].
    apply lookup_ge_None_1 in Hl. lia.
Qed.

Lemma Goal_attention_only m m1 l :
  attention_only m m1 ->
  holds_at m1 (fun a => bool_decide (Atom.m_type a = Atom.Goal)) l =
  holds_at m (fun a => bool_decide (Atom.m_type a = Atom.Goal)) l.
Proof.
  intros Hshape. unfold holds_at.
  pose proof Hshape as (_ & _ & Hlen & Hat).
  destruct (heap m !! l) as [a|] eqn:Hl.
  - destruct (Hat _ _ Hl) as (a1 & Hl1 & _). rewrite Hl1.
    destruct (attention_only_links _ _ _ _ _ Hshape Hl Hl1) as (_ & _ & -> & _).
    reflexivity.
  - rewrite (lookup_ge_None_2 (heap m1)); [reflexivity|].
    apply lookup_ge_None_1 in Hl. lia.
Qed.

(** Among the Goal atoms of a well-formed store, one is named
    "OptimizePerformance" exactly when the name is bound to a Goal. *)
Lemma exists_optimize_goal m s :
  space_okb m s = true ->
  existsb (is_optimize m)
    (List.filter (holds_at m (fun a => bool_decide (Atom.m_type a = Atom.Goal))) (table s))
  = has_optimize_goal m s.
Proof.
  intros Hok. unfold has_optimize_goal.
  destruct (existsb _ _) eqn:Hex.
  - apply existsb_exists in Hex. destruct Hex as (l & Hin & Hopt).
    apply filter_In in Hin. destruct Hin as [Hin Hgoal].
    apply list_elem_of_In, elem_of_table in Hin. destruct Hin as [id Hid].
    destruct (space_ok_entry _ _ _ _ Hok Hid) as (a & Ha & _ & Hname).
    unfold is_optimize, holds_at in Hopt. rewrite Ha in Hopt.
    apply bool_decide_eq_true in Hopt. rewrite Hopt in Hname. rewrite Hname.
    symmetry. exact Hgoal.
  - destruct (AtomSpace.m_atomsByName s !! "OptimizePerformance") as [l|] eqn:Hn;
      [|reflexivity].
    destruct (holds_at m _ l) eqn:Hgoal; [|reflexivity].
    destruct (space_ok_name _ _ _ _ Hok Hn) as (a & Ha & Hname & Hid).
    assert (Hin : In l (List.filter
                     (holds_at m (fun a => bool_decide (Atom.m_type a = Atom.Goal)))
                     (table s))).
    { apply filter_In. split; [|exact Hgoal].
      apply list_elem_of_In, elem_of_table. eauto. }
    assert (Hopt : is_optimize m l = true).
    { unfold is_optimize, holds_at. rewrite Ha. apply bool_decide_eq_true. exact Hname. }
    assert (Hyes : existsb (is_optimize m)
                     (List.filter
                        (holds_at m (fun a => bool_decide (Atom.m_type a = Atom.Goal)))
                        (table s)) = true)
      by (apply existsb_exists; eauto).
    congruence.
Qed.

Lemma optimize_goal_unique m s l1 l2 :
  space_okb m s = true ->
  l1 ∈ table s -> l2 ∈ table s ->
  is_optimize m l1 = true -> is_optimize m l2 = true -> l1 = l2.
Proof.
  intros Hok H1 H2 Ho1 Ho2.
  apply elem_of_table in H1, H2. destruct H1 as [id1 H1], H2 as [id2 H2].
  destruct (space_ok_entry _ _ _ _ Hok H1) as (a1 & Ha1 & _ & Hn1).
  destruct (space_ok_entry _ _ _ _ Hok H2) as (a2 & Ha2 & _ & Hn2).
  unfold is_optimize, holds_at in Ho1, Ho2. rewrite Ha1 in Ho1. rewrite Ha2 in Ho2.
  apply bool_decide_eq_true in Ho1, Ho2. congruence.
Qed.

(** [UpdateSystem] as a function of the registry. *)
Lemma UpdateSystem_run sys m s :
  spaces m !! CognitiveSystem.m_globalAtomSpace sys = Some s ->
  space_okb m s = true ->
  heap_okb m = true ->
  exists m',
    UpdateSystem (sys, m) =
    Ok tt (with_agents sys
             (if CognitiveSystem.m_initialized sys && has_optimize_goal m s
              then nudged (CognitiveSystem.m_agents sys)
              else CognitiveSystem.m_agents sys), m') /\
    attention_only m m'.
Proof.
  intros Hs Hsok Hok. unfold UpdateSystem.
  rewrite (bind_run _ _ _ _ _ (this_run sys m)).
  destruct (CognitiveSystem.m_initialized sys) eqn:Hinit; cbn [negb andb].
  - destruct (UpdateAttentionValues_run _ _ _ Hs Hsok Hok) as (m1 & Hpass & Hshape).
    rewrite (bind_run _ _ _ _ _ (lift_run _ sys _ _ _ Hpass)).
    pose proof Hshape as (Hspaces & _ & Hlen & _).
    assert (Hs1 : spaces m1 !! CognitiveSystem.m_globalAtomSpace sys = Some s)
      by (rewrite Hspaces; exact Hs).
    assert (Hvalid1 : Forall (fun l => l < length (heap m1))%nat (table s)).
    { rewrite Hlen. apply space_ok_table_valid. exact Hsok. }
    rewrite (bind_run _ _ _ _ _
               (lift_run _ sys _ _ _ (FindAtomsByType_run _ _ _ _ Hs1 Hvalid1))).
    exists m1. split; [|exact Hshape].
    erewrite goals_loop; [| exact Hs1 | exact Hvalid1 | | |].
    + f_equal.
      rewrite (filter_ext_in _ (holds_at m (fun a => bool_decide (Atom.m_type a = Atom.Goal))))
        by (intros; apply Goal_attention_only; exact Hshape).
      rewrite (existsb_ext_in _ (is_optimize m))
        by (intros; apply is_optimize_attention_only; exact Hshape).
      rewrite (exists_optimize_goal _ _ Hsok).
      destruct (has_optimize_goal m s); [reflexivity|].
      rewrite with_agents_same. reflexivity.
    + apply Forall_forall. intros l Hl. apply elem_of_filter_bool in Hl.
      rewrite Forall_forall in Hvalid1. apply Hvalid1. apply Hl.
    + apply NoDup_ListNoDup, Stdlib.Lists.List.NoDup_filter, NoDup_ListNoDup.
      eapply table_NoDup. exact Hsok.
    + intros l1 l2 H1 H2 Ho1 Ho2. apply elem_of_filter_bool in H1, H2.
      rewrite (is_optimize_attention_only m m1) in Ho1, Ho2 by exact Hshape.
      eapply optimize_goal_unique; [exact Hsok| | |exact Ho1|exact Ho2]; tauto.
  - exists m. rewrite with_agents_same. split; [reflexivity|apply attention_only_refl].
Qed.

End UpdateSystemSpec.

Lemma first_inactive_Some ags name ag :
  first_inactive ags = Some (name, ag) ->
  (name, ag) ∈ ags /\ CognitiveAgent.m_state ag = CognitiveAgent.Inactive.
Proof.
  induction ags as [|[n a] ags IH]; cbn [first_inactive]; [discriminate|].
  case_bool_decide as Hst.
  - intros Heq. inversion Heq. subst. split; [left|exact Hst].
  - intros Heq. destruct (IH Heq) as [Hin Hst']. split; [right; exact Hin|exact Hst'].
Qed.

(** C7, as amended: on a well-formed machine [UpdateSystem] returns.  When
    the system is initialized, the store binds "OptimizePerformance" to a
    Goal and [activeAgents < totalAgents / 2] in integer division, [Resume]
    is called on the first agent of the registry's iteration order whose
    state is [Inactive], if there is one, and on no other agent; in every
    other case the registry is left as it was.  An agent whose entry has
    changed is therefore that first [Inactive] agent, its stop flag was
    clear, and it is now [Active]. *)
Theorem UpdateSystem_resumes_first_inactive `{BucketOrder} sys m s :
  spaces m !! CognitiveSystem.m_globalAtomSpace sys = Some s ->
  space_okb m s = true ->
  heap_okb m = true ->
  let agents := CognitiveSystem.m_agents sys in
  exists agents' m',
    UpdateSystem (sys, m) = Ok tt (with_agents sys agents', m') /\
    agents' = (if CognitiveSystem.m_initialized sys && has_optimize_goal m s
               then nudged agents else agents) /\
    (forall name, agents' !! name <> agents !! name ->
       CognitiveSystem.m_initialized sys = true /\
       has_optimize_goal m s = true /\
       active_count (agents_order agents) < Z.of_nat (size agents) / 2 /\
       exists ag,
         first_inactive (agents_order agents) = Some (name, ag) /\
         CognitiveAgent.m_state ag = CognitiveAgent.Inactive /\
         CognitiveAgent.m_shouldStop ag = false /\
         agents' !! name = Some (resumed ag) /\
         CognitiveAgent.m_state (resumed ag) = CognitiveAgent.Active).
Proof.
  intros Hs Hsok Hok agents.
  destruct (UpdateSystem_run sys m s Hs Hsok Hok) as (m' & Hrun & _).
  eexists _, m'. split; [exact Hrun|]. split; [reflexivity|].
  fold agents. intros name Hne.
  destruct (CognitiveSystem.m_initialized sys); [|contradiction].
  destruct (has_optimize_goal m s); [|contradiction].
  cbn [andb] in Hne |- *. unfold nudged in Hne |- *.
  destruct (Z.ltb_spec (active_count (agents_order agents)) (Z.of_nat (size agents) / 2))
    as [Hlt|Hge]; [|contradiction].
  destruct (first_inactive (agents_order agents)) as [[n ag]|] eqn:Hfirst; [|contradiction].
  destruct (first_inactive_Some _ _ _ Hfirst) as [Hin Hst].
  apply agents_order_lookup in Hin.
  destruct (decide (n = name)) as [->|Hn];
    [|rewrite lookup_insert_ne in Hne by exact Hn; contradiction].
  rewrite lookup_insert_eq, Hin in Hne. rewrite lookup_insert_eq.
  split; [reflexivity|]. split; [reflexivity|]. split; [exact Hlt|].
  exists ag. split; [reflexivity|]. split; [exact Hst|].
  unfold resumed in *. rewrite Hst in *. rewrite bool_decide_eq_true_2 in * by reflexivity.
  destruct (CognitiveAgent.m_shouldStop ag); cbn [negb andb] in *; [congruence|].
  auto.
Qed.

Lemma UpdateSystem_resumes_first_inactive_witness :
  let sys := two_idle_agents.1 in
  let m := two_idle_agents.2 in
  exists agents' m',
    UpdateSystem (sys, m) = Ok tt (with_agents sys agents', m') /\
    agents' = nudged (CognitiveSystem.m_agents sys) /\
    state_of (with_agents sys agents') "Agent1" = Some CognitiveAgent.Active /\
    state_of (with_agents sys agents') "Agent2" = Some CognitiveAgent.Inactive.
Proof.
  intros sys m.
  pose (s := default (AtomSpace.mk ∅ ∅) (spaces m !! 0%nat)).
  assert (H1 : spaces m !! CognitiveSystem.m_globalAtomSpace sys = Some s)
    by (vm_compute; reflexivity).
  assert (H2 : space_okb m s = true) by (vm_compute; reflexivity).
  assert (H3 : heap_okb m = true) by (vm_compute; reflexivity).
  destruct (UpdateSystem_resumes_first_inactive sys m s H1 H2 H3)
    as (agents' & m' & Hrun & Hagents & _).
  exists agents', m'. split; [exact Hrun|]. rewrite Hagents.
  split; [reflexivity|]. split; vm_compute; reflexivity.
Defined.

(** C7, as stated, fails.  With one registered agent, never started, none
    of one agent is active, which is fewer than half, and [UpdateSystem]
    resumes nobody, since [0 < 1 / 2] is false in integer division.  With
    two agents that were started and stopped, [0 < 2 / 2] holds, [Resume] is
    called on the first of them and does nothing, because the stop flag is
    set: again no agent is resumed. *)
Lemma UpdateSystem_resumes_nobody :
  match update_with_one_idle_agent boot, update_with_two_stopped_agents boot with
  | Ok (total1, active1, before1, after1) _, Ok (total2, active2, after2a, after2b) _ =>
      (total1 = 1 /\ active1 = 0 /\ 2 * active1 < total1 /\
       before1 = Some CognitiveAgent.Inactive /\ after1 = Some CognitiveAgent.Inactive) /\
      (total2 = 2 /\ active2 = 0 /\ 2 * active2 < total2 /\
       after2a = Some CognitiveAgent.Inactive /\ after2b = Some CognitiveAgent.Inactive)
  | _, _ => False
  end.
Proof. vm_compute. repeat split. Qed.

(** ** The arithmetic of the attention pass *)

Lemma above_floor_inv x :
  F32.above_floor x = true -> above_zero x = true /\ F32.leb F32.f0_01 x = true.
Proof.
  unfold F32.above_floor, F32.valid. rewrite andb_true_iff. intros [Hv Hle].
  split; [|exact Hle].
  destruct x as [s|[|]| |[|] m e]; try discriminate Hle; try reflexivity. exact Hv.
Qed.

Lemma above_floor_intro x :
  above_zero x = true -> F32.leb F32.f0_01 x = true -> F32.above_floor x = true.
Proof.
  intros Hz Hle. unfold F32.above_floor, F32.valid. rewrite Hle, andb_true_r.
  destruct x as [s|[|]| |[|] m e]; try discriminate Hz; try reflexivity. exact Hz.
Qed.

Lemma above_floor_nonneg x : F32.above_floor x = true -> nonneg x = true.
Proof. intros Hx. apply above_zero_nonneg, above_floor_inv, Hx. Qed.

(** Adding a non-negative amount to an attention above the floor keeps it
    above the floor and does not lower it. *)
Lemma add_spread_floor x s :
  F32.above_floor x = true -> nonneg s = true ->
  F32.above_floor (F32.add x s) = true /\ F32.leb x (F32.add x s) = true.
Proof.
  intros Hx Hs. destruct (above_floor_inv x Hx) as [Hz Hfloor].
  destruct (add_nonneg_ge x s Hz Hs) as [Hz' Hle].
  split; [|exact Hle]. apply above_floor_intro; [exact Hz'|].
  unfold F32.leb.
  apply (SFleb_trans F32.f0_01 x); try reflexivity; try assumption;
    apply above_zero_nonneg; assumption.
Qed.

(** The amount spread over [n] links by a sender above the floor is
    not negative. *)
Lemma spread_nonneg cur (n : nat) :
  F32.above_floor cur = true -> (0 < n)%nat -> Z.of_nat n < 2 ^ 64 ->
  nonneg (F32.div (F32.mul cur F32.f0_1) (F32.of_size n)) = true.
Proof.
  intros Hcur Hn Hsize. destruct (above_floor_inv cur Hcur) as [Hz _].
  destruct (of_Z_finite (Z.of_nat n) ltac:(lia)) as (my & ey & Hy).
  unfold F32.div, F32.of_size, F32.of_Z, F32.prec, F32.emax. rewrite Hy.
  apply div_nonneg.
  exact (proj1 (mul_const_valid 13421773 (-27) ltac:(vm_compute; discriminate)
                  cur Hz)).
Qed.

(** The value written for the visited atom respects the floor, whatever
    its attention was. *)
Lemma decay_leb cur :
  F32.leb F32.f0_01 (F32.max F32.f0_01 (F32.mul cur F32.f0_95)) = true.
Proof.
  unfold F32.max. destruct (F32.ltb F32.f0_01 (F32.mul cur F32.f0_95)) eqn:Hlt.
  - apply SFltb_leb. exact Hlt.
  - reflexivity.
Qed.

Lemma decay_floor cur :
  F32.above_floor cur = true ->
  F32.above_floor (F32.max F32.f0_01 (F32.mul cur F32.f0_95)) = true.
Proof.
  intros Hcur. destruct (above_floor_inv cur Hcur) as [Hz _].
  destruct (mul_const_valid 15938355 (-24) ltac:(vm_compute; discriminate) cur Hz) as [Hnn Hv].
  unfold F32.above_floor. rewrite decay_leb, andb_true_r.
  unfold F32.max. destruct (F32.ltb F32.f0_01 (F32.mul cur F32.f0_95)); [exact Hv|reflexivity].
Qed.


(** ** The attention pass keeps the floor *)

Lemma floors_okb_floors m : floors_okb m = true <-> floors m.
Proof.
  unfold floors_okb, floors. rewrite forallb_forall. split.
  - intros Hall l a Hl. apply Hall, list_elem_of_In, list_elem_of_lookup. eauto.
  - intros Hall a Hin. apply list_elem_of_In, list_elem_of_lookup in Hin.
    destruct Hin as [l Hl]. eapply Hall. exact Hl.
Qed.

Lemma heap_ok_degree m l a :
  heap_okb m = true -> heap m !! l = Some a ->
  Z.of_nat (length (Atom.m_outgoingLinks a)) < 2 ^ 64.
Proof.
  unfold heap_okb. rewrite forallb_forall. intros Hok Hl.
  specialize (Hok a ltac:(apply list_elem_of_In, list_elem_of_lookup; eauto)).
  unfold links_okb in Hok. rewrite !andb_true_iff in Hok.
  destruct Hok as [_ Hdeg]. apply Z.ltb_lt in Hdeg. exact Hdeg.
Qed.

Lemma grows_except_refl skip m : floors m -> grows_except skip m m.
Proof.
  intros Hfl l a a' _ Hl Hl'. rewrite Hl in Hl'. inversion Hl'. subst.
  apply SFleb_refl, above_floor_nonneg. eapply Hfl. exact Hl.
Qed.

Lemma grows_except_trans skip m1 m2 m3 :
  floors m1 -> floors m2 -> floors m3 ->
  length (heap m2) = length (heap m1) ->
  grows_except skip m1 m2 -> grows_except skip m2 m3 -> grows_except skip m1 m3.
Proof.
  intros Hf1 Hf2 Hf3 Hlen H12 H23 l a1 a3 Hskip Hl1 Hl3.
  destruct (lookup_lt_is_Some_2 (heap m2) l) as [a2 Hl2].
  { rewrite Hlen. eapply lookup_lt_Some. exact Hl1. }
  apply (SFleb_trans _ (Atom.m_attention a2)).
  - eapply above_floor_nonneg, Hf1. exact Hl1.
  - eapply above_floor_nonneg, Hf2. exact Hl2.
  - eapply above_floor_nonneg, Hf3. exact Hl3.
  - eapply H12; eauto.
  - eapply H23; eauto.
Qed.

(** Writing an attention above the floor. *)
Lemma SetAttention_floors l x m m' :
  floors m -> F32.above_floor x = true ->
  on_atom l (Atom.SetAttention x) m = Ok tt m' -> floors m'.
Proof.
  intros Hfl Hx Hrun. apply on_atom_Ok in Hrun. destruct Hrun as (a & Ha & ->).
  intros l' a' Hl'. cbn [heap] in Hl'. destruct (decide (l = l')) as [<-|Hne].
  - rewrite list_lookup_insert_eq in Hl' by (eapply lookup_lt_Some; eauto).
    inversion Hl'. exact Hx.
  - rewrite list_lookup_insert_ne in Hl' by exact Hne. eapply Hfl. exact Hl'.
Qed.

(** The loop that spreads a non-negative amount over the outgoing links. *)
Lemma spread_run m0 m (outgoing : list loc) s :
  attention_only m0 m -> floors m -> nonneg s = true ->
  Forall (fun l => l < length (heap m0))%nat outgoing ->
  exists m',
    for_each outgoing (fun linked =>
      b ← deref linked;
      on_atom linked (Atom.SetAttention (F32.add (Atom.m_attention b) s))) m = Ok tt m' /\
    attention_only m0 m' /\ floors m' /\ grows_except [] m m'.
Proof.
  intros Hshape Hfl Hs Hvalid.
  apply (for_each_inv (fun m' => attention_only m0 m' /\ floors m' /\ grows_except [] m m'));
    [|split; [exact Hshape|split; [exact Hfl|apply grows_except_refl; exact Hfl]]].
  intros linked m1 Hin (Hshape1 & Hfl1 & Hgrow1).
  rewrite Forall_forall in Hvalid. specialize (Hvalid _ Hin).
  pose proof Hshape as (_ & _ & Hlen & _). pose proof Hshape1 as (_ & _ & Hlen1 & _).
  destruct (lookup_lt_is_Some_2 (heap m1) linked ltac:(lia)) as [b Hb].
  rewrite (bind_run _ _ _ _ _ (deref_run _ _ _ Hb)).
  pose proof (on_atom_run linked
                (Atom.SetAttention (F32.add (Atom.m_attention b) s)) m1 b Hb) as Hrun.
  destruct (add_spread_floor (Atom.m_attention b) s (Hfl1 _ _ Hb) Hs) as [Hfloor Hle].
  eexists. split; [exact Hrun|].
  pose proof (SetAttention_floors _ _ _ _ Hfl1 Hfloor Hrun) as Hfl2.
  split; [|split; [exact Hfl2|]].
  - eapply attention_only_trans; [exact Hshape1|].
    eapply SetAttention_attention_only. exact Hrun.
  - eapply (grows_except_trans [] m m1); [exact Hfl|exact Hfl1|exact Hfl2|lia|exact Hgrow1|].
    intros l a a' _ Hl Hl'. cbn [heap] in Hl'.
    destruct (decide (linked = l)) as [<-|Hne].
    + rewrite list_lookup_insert_eq in Hl' by (eapply lookup_lt_Some; eauto).
      inversion Hl'. subst a'. rewrite Hb in Hl. inversion Hl. subst a. exact Hle.
    + rewrite list_lookup_insert_ne in Hl' by exact Hne. rewrite Hl in Hl'. inversion Hl'.
      subst a'. apply SFleb_refl, above_floor_nonneg. eapply Hfl1. exact Hl.
Qed.

(** One step of the pass on a machine whose atoms respect the floor: it
    returns, the floor is kept, no atom other than the visited one loses
    attention, and the visited atom ends at [max(0.01, 0.95 * a)]. *)
Lemma attention_step_floors m0 m atom :
  heap_okb m0 = true -> attention_only m0 m -> floors m ->
  (atom < length (heap m0))%nat ->
  exists m' a a',
    attention_step atom m = Ok tt m' /\
    attention_only m0 m' /\ floors m' /\
    grows_except [atom] m m' /\
    heap m !! atom = Some a /\ heap m' !! atom = Some a' /\
    Atom.m_attention a' = F32.max F32.f0_01 (F32.mul (Atom.m_attention a) F32.f0_95).
Proof.
  intros Hok Hshape Hfl Hatom.
  destruct (lookup_lt_is_Some_2 (heap m0) atom Hatom) as [a0 Ha0].
  pose proof Hshape as (_ & _ & Hlen & Hat).
  destruct (Hat _ _ Ha0) as (a & Ha & _).
  pose proof (attention_only_links _ _ _ _ _ Hshape Ha0 Ha) as (Hout & _).
  pose proof (heap_ok_outgoing _ _ _ Hok Ha0) as Hvalid. rewrite <- Hout in Hvalid.
  pose proof (heap_ok_degree _ _ _ Hok Ha0) as Hdeg. rewrite <- Hout in Hdeg.
  unfold attention_step. rewrite (bind_run _ _ _ _ _ (deref_run _ _ _ Ha)).
  assert (Hspread : exists m1,
            (if bool_decide (Atom.m_outgoingLinks a = []) then mret tt
             else for_each (Atom.m_outgoingLinks a) (fun linked =>
                    b ← deref linked;
                    on_atom linked
                      (Atom.SetAttention
                         (F32.add (Atom.m_attention b)
                            (F32.div (F32.mul (Atom.m_attention a) F32.f0_1)
                               (F32.of_size (length (Atom.m_outgoingLinks a))))))))
              m = Ok tt m1 /\
            attention_only m0 m1 /\ floors m1 /\ grows_except [] m m1).
  { case_bool_decide as Hempty.
    - exists m. split; [reflexivity|]. split; [exact Hshape|].
      split; [exact Hfl|apply grows_except_refl; exact Hfl].
    - apply spread_run; [exact Hshape|exact Hfl| |exact Hvalid].
      apply spread_nonneg; [eapply Hfl; exact Ha| |exact Hdeg].
      destruct (Atom.m_outgoingLinks a); [contradiction|cbn; lia]. }
  destruct Hspread as (m1 & Hrun1 & Hshape1 & Hfl1 & Hgrow1).
  rewrite (bind_run _ _ _ _ _ Hrun1).
  pose proof Hshape1 as (_ & _ & Hlen1 & _).
  destruct (lookup_lt_is_Some_2 (heap m1) atom ltac:(lia)) as [a1 Ha1].
  pose proof (on_atom_run atom
                (Atom.SetAttention (F32.max F32.f0_01
                                      (F32.mul (Atom.m_attention a) F32.f0_95))) m1 a1 Ha1)
    as Hrun2.
  pose proof (decay_floor (Atom.m_attention a) (Hfl _ _ Ha)) as Hfloor.
  eexists _, a, _. split; [exact Hrun2|].
  split; [eapply attention_only_trans;
          [exact Hshape1|eapply SetAttention_attention_only; exact Hrun2]|].
  split; [eapply SetAttention_floors; [exact Hfl1|exact Hfloor|exact Hrun2]|].
  split; [|split; [exact Ha|split]].
  - intros l b b' Hskip Hl Hl'. cbn [heap] in Hl'.
    rewrite list_lookup_insert_ne in Hl'
      by (intros ->; apply Hskip, list_elem_of_singleton; reflexivity).
    eapply Hgrow1; [apply not_elem_of_nil|exact Hl|exact Hl'].
  - cbn [heap]. apply list_lookup_insert_eq. eapply lookup_lt_Some. exact Ha1.
  - reflexivity.
Qed.


Lemma grows_except_weaken skip skip' m m' :
  skip ⊆ skip' -> grows_except skip m m' -> grows_except skip' m m'.
Proof.
  intros Hsub Hgrow l a a' Hl. apply Hgrow. intros Hin. apply Hl, Hsub, Hin.
Qed.

(** The loop of the pass over any list of atoms of the machine: it returns,
    the floor is kept, and the atoms that are not visited do not lose
    attention. *)
Lemma pass_over_floors m0 m L :
  heap_okb m0 = true -> attention_only m0 m -> floors m ->
  Forall (fun l => l < length (heap m0))%nat L ->
  exists m',
    pass_over L m = Ok tt m' /\
    attention_only m0 m' /\ floors m' /\ grows_except L m m'.
Proof.
  intros Hok Hshape Hfl Hvalid. unfold pass_over.
  apply (for_each_inv (fun m' => attention_only m0 m' /\ floors m' /\ grows_except L m m'));
    [|split; [exact Hshape|split; [exact Hfl|apply grows_except_refl; exact Hfl]]].
  intros atom m1 Hin (Hshape1 & Hfl1 & Hgrow1).
  rewrite Forall_forall in Hvalid.
  destruct (attention_step_floors m0 m1 atom Hok Hshape1 Hfl1 (Hvalid _ Hin))
    as (m2 & a & a' & Hrun & Hshape2 & Hfl2 & Hgrow2 & _).
  exists m2. split; [exact Hrun|]. split; [exact Hshape2|]. split; [exact Hfl2|].
  pose proof Hshape as (_ & _ & Hlen & _). pose proof Hshape1 as (_ & _ & Hlen1 & _).
  eapply (grows_except_trans L m m1 m2); [exact Hfl|exact Hfl1|exact Hfl2|lia|exact Hgrow1|].
  eapply grows_except_weaken; [|exact Hgrow2].
  intros l Hl. apply list_elem_of_singleton in Hl. subst l. exact Hin.
Qed.

(** The visited atom ends a step at 0.01 or above, whatever the machine. *)
Lemma attention_step_own_floor atom m m' :
  attention_step atom m = Ok tt m' ->
  exists a', heap m' !! atom = Some a' /\
             F32.leb F32.f0_01 (Atom.m_attention a') = true.
Proof.
  unfold attention_step. intros Hrun.
  apply bind_Ok in Hrun. destruct Hrun as (a & m1 & _ & Hrun).
  apply bind_Ok in Hrun. destruct Hrun as ([] & m2 & _ & Hrun).
  apply on_atom_Ok in Hrun. destruct Hrun as (a2 & Ha2 & ->).
  eexists. split.
  - cbn [heap]. apply list_lookup_insert_eq. eapply lookup_lt_Some. exact Ha2.
  - apply decay_leb.
Qed.


(** The pass of [UpdateAttentionValues] is the loop over the table. *)
Lemma UpdateAttentionValues_pass_over `{BucketOrder} sp m s :
  spaces m !! sp = Some s ->
  UpdateAttentionValues sp m = pass_over (table s) m.
Proof.
  intros Hs. unfold UpdateAttentionValues.
  rewrite (bind_run _ _ _ _ _ (get_space_run _ _ _ Hs)). reflexivity.
Qed.

(** C2, as amended: [SetAttention] stores the value it is given, whatever it
    is; and on a well-formed machine whose atoms all have an attention of at
    least 0.01 (and not a NaN), one pass of [UpdateAttentionValues] returns,
    changes attention values only, and leaves every atom with an attention
    of at least 0.01, whatever the iteration order of the table. *)
Theorem pass_keeps_attention_floor `{BucketOrder} sp m s :
  spaces m !! sp = Some s ->
  space_okb m s = true ->
  heap_okb m = true ->
  floors_okb m = true ->
  (forall v a, Atom.m_attention (Atom.SetAttention v a) = v) /\
  exists m',
    UpdateAttentionValues sp m = Ok tt m' /\
    attention_only m m' /\
    floors_okb m' = true /\
    (forall (l : loc) a', heap m' !! l = Some a' ->
       F32.leb F32.f0_01 (Atom.m_attention a') = true).
Proof.
  intros Hs Hsok Hok Hfl. split; [reflexivity|].
  apply floors_okb_floors in Hfl.
  destruct (pass_over_floors m m (table s) Hok (attention_only_refl m) Hfl
              (space_ok_table_valid _ _ Hsok))
    as (m' & Hrun & Hshape & Hfl' & _).
  exists m'. rewrite (UpdateAttentionValues_pass_over _ _ _ Hs).
  split; [exact Hrun|]. split; [exact Hshape|].
  split; [apply floors_okb_floors; exact Hfl'|].
  intros l a' Hl. apply (above_floor_inv _ (Hfl' _ _ Hl)).
Qed.

Lemma pass_keeps_attention_floor_witness :
  exists m',
    UpdateAttentionValues 0 half_pair.1 = Ok tt m' /\
    attention_only half_pair.1 m' /\
    floors_okb m' = true /\
    (forall (l : loc) a', heap m' !! l = Some a' ->
       F32.leb F32.f0_01 (Atom.m_attention a') = true).
Proof.
  pose (s := default (AtomSpace.mk ∅ ∅) (spaces half_pair.1 !! 0%nat)).
  assert (H1 : spaces half_pair.1 !! 0%nat = Some s) by (vm_compute; reflexivity).
  assert (H2 : space_okb half_pair.1 s = true) by (vm_compute; reflexivity).
  assert (H3 : heap_okb half_pair.1 = true) by (vm_compute; reflexivity).
  assert (H4 : floors_okb half_pair.1 = true) by (vm_compute; reflexivity).
  exact (proj2 (pass_keeps_attention_floor 0%nat half_pair.1 s H1 H2 H3 H4)).
Defined.

(** C2, as stated, fails.  [SetAttention(0.0f)] on a fresh Concept leaves it
    at attention 0.0, which is below 0.01.  And a pass can leave a node below
    the floor too: with A and B linked to each other and both set to -10.0,
    the pass that visits A first leaves A at about -1.09 and B at 0.01, the
    pass that visits B first does the converse, and in each of the 120
    orders over the five atoms of the store one of the two ends below
    0.01. *)
Lemma attention_below_floor :
  F32.leb F32.f0_01
    (Atom.m_attention
       (Atom.SetAttention F32.f0_0 (Atom.ctor Atom.Concept "A" F32.f1_0 F32.f1_0 4)))
  = false /\
  match pass_on_linked_pair true (F32.of_Z (-10)) (F32.of_Z (-10)) [0; 1; 2; 3; 4]%nat boot with
  | Ok [a; b] _ =>
      a = S754_finite true 9143583 (-23) /\ F32.leb F32.f0_01 a = false /\ b = F32.f0_01
  | _ => False
  end /\
  forallb
    (fun order =>
       match pass_on_linked_pair true (F32.of_Z (-10)) (F32.of_Z (-10)) order boot with
       | Ok [a; b] _ => negb (F32.leb F32.f0_01 a) || negb (F32.leb F32.f0_01 b)
       | _ => false
       end)
    (permutations [0; 1; 2; 3; 4]%nat) = true.
Proof. vm_compute. repeat split. Qed.




(** * Further properties of the code *)

(** ** Comparison of arbitrary floats, and [std::clamp] *)


Lemma SFcompare_antisym x y :
  SFcompare y x = CompOpp <$> SFcompare x y.
Proof.
  destruct x as [sx|sx| |sx mx ex], y as [sy|sy| |sy my ey]; cbn;
    try reflexivity; try (destruct sx; reflexivity); try (destruct sy; reflexivity);
    try (destruct sx, sy; reflexivity).
  assert (Hm : PosDef.Pos.compare_cont Eq my mx =
               CompOpp (PosDef.Pos.compare_cont Eq mx my))
    by (symmetry; exact (Pos.compare_cont_antisym mx my Eq)).
  rewrite (Z.compare_antisym ex ey), Hm.
  destruct sx, sy, (ex ?= ey); cbn; try reflexivity;
    destruct (PosDef.Pos.compare_cont Eq mx my); reflexivity.
Qed.

Lemma SFleb_ltb_false x y : SFleb x y = true -> SFltb y x = false.
Proof.
  unfold SFleb, SFltb. rewrite (SFcompare_antisym x y).
  destruct (SFcompare x y) as [[| |]|]; cbn; congruence.
Qed.

Lemma SFltb_false_leb x y :
  x <> S754_nan -> y <> S754_nan -> SFltb x y = false -> SFleb y x = true.
Proof.
  unfold SFleb, SFltb. rewrite (SFcompare_antisym x y). intros Hx Hy.
  destruct (SFcompare x y) as [[| |]|] eqn:Hc; cbn; try congruence.
  destruct x, y; try discriminate Hc; congruence.
Qed.

Lemma clamp_unit_range v :
  v <> S754_nan ->
  F32.leb F32.f0_0 (F32.clamp v F32.f0_0 F32.f1_0) = true /\
  F32.leb (F32.clamp v F32.f0_0 F32.f1_0) F32.f1_0 = true.
Proof.
  intros Hv. unfold F32.clamp.
  destruct (F32.ltb v F32.f0_0) eqn:H0; [split; reflexivity|].
  destruct (F32.ltb F32.f1_0 v) eqn:H1; [split; reflexivity|].
  split; apply SFltb_false_leb; try assumption; discriminate.
Qed.

Lemma clamp_unit_id v :
  F32.leb F32.f0_0 v = true -> F32.leb v F32.f1_0 = true ->
  F32.clamp v F32.f0_0 F32.f1_0 = v.
Proof.
  intros H0 H1. unfold F32.clamp, F32.ltb.
  rewrite (SFleb_ltb_false _ _ H0), (SFleb_ltb_false _ _ H1). reflexivity.
Qed.

Lemma clamp_unit_idem v :
  F32.clamp (F32.clamp v F32.f0_0 F32.f1_0) F32.f0_0 F32.f1_0 =
  F32.clamp v F32.f0_0 F32.f1_0.
Proof.
  unfold F32.clamp at 2 3.
  destruct (F32.ltb v F32.f0_0) eqn:H0; [reflexivity|].
  destruct (F32.ltb F32.f1_0 v) eqn:H1; [reflexivity|].
  unfold F32.clamp. rewrite H0, H1. reflexivity.
Qed.

(** X1: [SetTruthValue] clamps both arguments to [[0, 1]]: after the call
    truth and confidence lie between 0.0 and 1.0 whenever the argument is not
    a NaN; a value already in the range is stored as it is, one below 0.0
    becomes 0.0 and one above 1.0 becomes 1.0.  A NaN passes through
    [std::clamp] unchanged.  No other field of the atom changes, and setting
    the values an atom already holds after a call changes nothing. *)
Theorem SetTruthValue_clamps truth confidence (a : Atom.t) :
  let a' := Atom.SetTruthValue truth confidence a in
  (truth <> S754_nan ->
     F32.leb F32.f0_0 (Atom.m_truthValue a') = true /\
     F32.leb (Atom.m_truthValue a') F32.f1_0 = true) /\
  (confidence <> S754_nan ->
     F32.leb F32.f0_0 (Atom.m_confidence a') = true /\
     F32.leb (Atom.m_confidence a') F32.f1_0 = true) /\
  (F32.leb F32.f0_0 truth = true -> F32.leb truth F32.f1_0 = true ->
     Atom.m_truthValue a' = truth) /\
  (F32.leb F32.f0_0 confidence = true -> F32.leb confidence F32.f1_0 = true ->
     Atom.m_confidence a' = confidence) /\
  (F32.ltb truth F32.f0_0 = true -> Atom.m_truthValue a' = F32.f0_0) /\
  (F32.ltb F32.f1_0 truth = true -> Atom.m_truthValue a' = F32.f1_0) /\
  (truth = S754_nan -> Atom.m_truthValue a' = S754_nan) /\
  (confidence = S754_nan -> Atom.m_confidence a' = S754_nan) /\
  Atom.SetTruthValue (Atom.m_truthValue a') (Atom.m_confidence a') a' = a' /\
  Atom.m_type a' = Atom.m_type a /\ Atom.m_name a' = Atom.m_name a /\
  Atom.m_id a' = Atom.m_id a /\ Atom.m_attention a' = Atom.m_attention a /\
  Atom.m_incomingLinks a' = Atom.m_incomingLinks a /\
  Atom.m_outgoingLinks a' = Atom.m_outgoingLinks a.
Proof.
  cbn. repeat split.
  - apply clamp_unit_range; assumption.
  - apply clamp_unit_range; assumption.
  - apply clamp_unit_range; assumption.
  - apply clamp_unit_range; assumption.
  - apply clamp_unit_id.
  - apply clamp_unit_id.
  - intros Hlt. unfold F32.clamp. rewrite Hlt. reflexivity.
  - intros Hlt. unfold F32.clamp. rewrite Hlt.
    destruct (F32.ltb truth F32.f0_0) eqn:H0; [|reflexivity].
    exfalso. destruct truth as [s|[|]| |[|] m e]; cbn in *; try discriminate.
  - intros ->. reflexivity.
  - intros ->. reflexivity.
  - unfold Atom.SetTruthValue. cbn. rewrite !clamp_unit_idem. reflexivity.
Qed.

(** ** Link lists *)

Lemma push_unique_NoDup (l : loc) (ls : list loc) :
  l ∉ ls -> NoDup ls -> NoDup (ls ++ [l]).
Proof.
  intros Hin Hnd. apply NoDup_app. split; [exact Hnd|]. split; [|apply NoDup_singleton].
  intros x Hx Hx'. apply list_elem_of_singleton in Hx'. subst. contradiction.
Qed.

Lemma push_unique_elem (l x : loc) (ls : list loc) :
  x ∈ ls ++ [l] <-> x ∈ ls \/ Some l = Some x.
Proof.
  rewrite elem_of_app, list_elem_of_singleton. split.
  - intros [?| ->]; auto.
  - intros [?|[= ->]]; auto.
Qed.

(** X2: the link lists behave as sets kept in insertion order.
    [AddOutgoingLink] and [AddIncomingLink] never introduce a duplicate,
    keep the existing links as a prefix, hold the target afterwards, ignore
    a null pointer, change nothing when called a second time with the same
    target, and each touches only its own list of the atom it is called
    on. *)
Theorem links_are_sets (target : option loc) (a : Atom.t) :
  let out := Atom.AddOutgoingLink target a in
  let inc := Atom.AddIncomingLink target a in
  (NoDup (Atom.m_outgoingLinks a) -> NoDup (Atom.m_outgoingLinks out)) /\
  (NoDup (Atom.m_incomingLinks a) -> NoDup (Atom.m_incomingLinks inc)) /\
  (forall x, x ∈ Atom.m_outgoingLinks out <-> x ∈ Atom.m_outgoingLinks a \/ target = Some x) /\
  (forall x, x ∈ Atom.m_incomingLinks inc <-> x ∈ Atom.m_incomingLinks a \/ target = Some x) /\
  Atom.m_outgoingLinks a `prefix_of` Atom.m_outgoingLinks out /\
  Atom.m_incomingLinks a `prefix_of` Atom.m_incomingLinks inc /\
  Atom.AddOutgoingLink target out = out /\
  Atom.AddIncomingLink target inc = inc /\
  Atom.m_incomingLinks out = Atom.m_incomingLinks a /\
  Atom.m_outgoingLinks inc = Atom.m_outgoingLinks a /\
  (target = None -> out = a /\ inc = a).
Proof.
  destruct a as [ty nm id tv cf att ins outs].
  destruct target as [l|]; cbn.
  - destruct (bool_decide (l ∈ outs)) eqn:Ho, (bool_decide (l ∈ ins)) eqn:Hi; cbn;
      rewrite ?Ho, ?Hi;
      try apply bool_decide_eq_true in Ho; try apply bool_decide_eq_false in Ho;
      try apply bool_decide_eq_true in Hi; try apply bool_decide_eq_false in Hi;
      rewrite ?(bool_decide_eq_true_2 (l ∈ outs ++ [l]))
        by (apply elem_of_app; right; left);
      rewrite ?(bool_decide_eq_true_2 (l ∈ ins ++ [l]))
        by (apply elem_of_app; right; left);
      repeat split; auto using push_unique_NoDup, prefix_app_r;
      try discriminate;
      try (intros [?|[= ->]]; assumption);
      try (apply push_unique_elem); try (apply prefix_app_r; reflexivity).
  - repeat split; auto; try (intros [?|?]; [assumption|discriminate]).
Qed.

(** ** Well-formed stores, continued *)

Lemma space_ok_intro m s :
  (forall id l, AtomSpace.m_atoms s !! id = Some l ->
     exists a, heap m !! l = Some a /\ Atom.m_id a = id /\
               AtomSpace.m_atomsByName s !! Atom.m_name a = Some l) ->
  (forall name l, AtomSpace.m_atomsByName s !! name = Some l ->
     exists a, heap m !! l = Some a /\ Atom.m_name a = name /\
               AtomSpace.m_atoms s !! Atom.m_id a = Some l) ->
  space_okb m s = true.
Proof.
  intros He Hn. unfold space_okb. rewrite andb_true_iff, !forallb_forall. split.
  - intros [id l] Hin. apply list_elem_of_In, elem_of_map_to_list in Hin.
    destruct (He _ _ Hin) as (a & Ha & Hid & Hname).
    unfold entry_okb. cbn. rewrite Ha.
    rewrite andb_true_iff, !bool_decide_eq_true. auto.
  - intros [name l] Hin. apply list_elem_of_In, elem_of_map_to_list in Hin.
    destruct (Hn _ _ Hin) as (a & Ha & Hname & Hid).
    unfold name_okb. cbn. rewrite Ha.
    rewrite andb_true_iff, !bool_decide_eq_true. auto.
Qed.

Lemma RemoveAtom_missing sp id m s :
  spaces m !! sp = Some s -> AtomSpace.m_atoms s !! id = None ->
  RemoveAtom sp id m = Ok false m.
Proof.
  intros Hs Hid. unfold RemoveAtom.
  rewrite (bind_run _ _ _ _ _ (get_space_run _ _ _ Hs)). rewrite Hid. reflexivity.
Qed.

Lemma RemoveAtom_present sp id m s l a :
  spaces m !! sp = Some s -> AtomSpace.m_atoms s !! id = Some l ->
  heap m !! l = Some a ->
  RemoveAtom sp id m =
  Ok true (mkMachine (heap m) (s_nextId m)
             (<[sp := AtomSpace.mk (delete id (AtomSpace.m_atoms s))
                        (delete (Atom.m_name a) (AtomSpace.m_atomsByName s))]>
                (spaces m))).
Proof.
  intros Hs Hid Ha. unfold RemoveAtom.
  rewrite (bind_run _ _ _ _ _ (get_space_run _ _ _ Hs)). rewrite Hid.
  rewrite (bind_run _ _ _ _ _ (deref_run _ _ _ Ha)). reflexivity.
Qed.

Lemma GetAtom_run sp id m s :
  spaces m !! sp = Some s -> GetAtom sp id m = Ok (AtomSpace.m_atoms s !! id) m.
Proof.
  intros Hs. unfold GetAtom.
  rewrite (bind_run _ _ _ _ _ (get_space_run _ _ _ Hs)). reflexivity.
Qed.

Lemma FindAtom_run sp name m s :
  spaces m !! sp = Some s -> FindAtom sp name m = Ok (AtomSpace.m_atomsByName s !! name) m.
Proof.
  intros Hs. unfold FindAtom.
  rewrite (bind_run _ _ _ _ _ (get_space_run _ _ _ Hs)). reflexivity.
Qed.

Lemma GetAtomCount_run sp m s :
  spaces m !! sp = Some s ->
  GetAtomCount sp m = Ok (Z.of_nat (size (AtomSpace.m_atoms s))) m.
Proof.
  intros Hs. unfold GetAtomCount.
  rewrite (bind_run _ _ _ _ _ (get_space_run _ _ _ Hs)). reflexivity.
Qed.

(** X3: [RemoveAtom] on an identifier that is not in the table returns
    [false] and changes nothing.  On an identifier of a well-formed store it
    returns [true] and removes the entry under the identifier and the entry
    under the atom's name, and nothing else: the other entries, the other
    stores and the atoms themselves stay as they are (pointers held elsewhere
    remain valid), the count drops by one, the store is still well formed,
    and a second removal returns [false]. *)
Theorem RemoveAtom_unregisters sp id m s :
  spaces m !! sp = Some s ->
  space_okb m s = true ->
  match AtomSpace.m_atoms s !! id with
  | None => RemoveAtom sp id m = Ok false m
  | Some l =>
      exists a m' s',
        heap m !! l = Some a /\
        RemoveAtom sp id m = Ok true m' /\
        heap m' = heap m /\ s_nextId m' = s_nextId m /\
        spaces m' !! sp = Some s' /\
        (forall sp', sp' <> sp -> spaces m' !! sp' = spaces m !! sp') /\
        GetAtom sp id m' = Ok None m' /\
        FindAtom sp (Atom.m_name a) m' = Ok None m' /\
        (forall id', id' <> id ->
           AtomSpace.m_atoms s' !! id' = AtomSpace.m_atoms s !! id') /\
        (forall name, name <> Atom.m_name a ->
           AtomSpace.m_atomsByName s' !! name = AtomSpace.m_atomsByName s !! name) /\
        GetAtomCount sp m' = Ok (Z.of_nat (size (AtomSpace.m_atoms s)) - 1) m' /\
        space_okb m' s' = true /\
        RemoveAtom sp id m' = Ok false m'
  end.
Proof.
  intros Hs Hok. destruct (AtomSpace.m_atoms s !! id) as [l|] eqn:Hid.
  2: { apply (RemoveAtom_missing _ _ _ _ Hs Hid). }
  destruct (space_ok_entry _ _ _ _ Hok Hid) as (a & Ha & Haid & Hname).
  set (s' := AtomSpace.mk (delete id (AtomSpace.m_atoms s))
               (delete (Atom.m_name a) (AtomSpace.m_atomsByName s))).
  set (m' := mkMachine (heap m) (s_nextId m) (<[sp := s']> (spaces m))).
  assert (Hs' : spaces m' !! sp = Some s').
  { cbn. apply list_lookup_insert_eq. eapply lookup_lt_Some. exact Hs. }
  exists a, m', s'. split; [exact Ha|].
  split; [apply (RemoveAtom_present _ _ _ _ _ _ Hs Hid Ha)|].
  split; [reflexivity|]. split; [reflexivity|]. split; [exact Hs'|].
  split; [intros sp' Hne; cbn; apply list_lookup_insert_ne; congruence|].
  split; [rewrite (GetAtom_run _ _ _ _ Hs'); cbn; rewrite lookup_delete_eq; reflexivity|].
  split; [rewrite (FindAtom_run _ _ _ _ Hs'); cbn; rewrite lookup_delete_eq; reflexivity|].
  split; [intros id' Hne; cbn; apply lookup_delete_ne; congruence|].
  split; [intros name Hne; cbn; apply lookup_delete_ne; congruence|].
  split.
  { rewrite (GetAtomCount_run _ _ _ Hs'). cbn.
    rewrite map_size_delete_Some by (rewrite Hid; eauto).
    assert (0 < size (AtomSpace.m_atoms s))%nat.
    { destruct (size (AtomSpace.m_atoms s)) eqn:Hsz; [|lia].
      apply map_size_empty_inv in Hsz. rewrite Hsz, lookup_empty in Hid. discriminate. }
    f_equal. lia. }
  split.
  { apply space_ok_intro; cbn.
    - intros id' l' Hl'. apply lookup_delete_Some in Hl'. destruct Hl' as [Hne Hl'].
      destruct (space_ok_entry _ _ _ _ Hok Hl') as (a' & Ha' & Hid' & Hn').
      exists a'. split; [exact Ha'|]. split; [exact Hid'|].
      rewrite lookup_delete_ne; [exact Hn'|].
      intros Heq. rewrite <- Heq, Hname in Hn'. inversion Hn'. subst l'.
      rewrite Ha in Ha'. inversion Ha'. subst a'. congruence.
    - intros name l' Hl'. apply lookup_delete_Some in Hl'. destruct Hl' as [Hne Hl'].
      destruct (space_ok_name _ _ _ _ Hok Hl') as (a' & Ha' & Hn' & Hid').
      exists a'. split; [exact Ha'|]. split; [exact Hn'|].
      rewrite lookup_delete_ne; [exact Hid'|].
      intros Heq. rewrite <- Heq, Hid in Hid'. inversion Hid'. subst l'.
      rewrite Ha in Ha'. inversion Ha'. subst a'. congruence. }
  apply (RemoveAtom_missing _ _ _ _ Hs'). cbn. apply lookup_delete_eq.
Qed.

Lemma RemoveAtom_unregisters_witness :
  exists m',
    RemoveAtom 0 1 (seeded boot) = Ok true m' /\
    heap m' = heap (seeded boot) /\
    GetAtom 0 1 m' = Ok None m' /\
    GetAtomCount 0 m' = Ok 2 m'.
Proof.
  assert (H1 : spaces (seeded boot) !! 0%nat = Some boot_space) by reflexivity.
  assert (H2 : space_okb (seeded boot) boot_space = true) by (vm_compute; reflexivity).
  pose proof (RemoveAtom_unregisters 0%nat 1 (seeded boot) boot_space H1 H2) as Hrm.
  change (AtomSpace.m_atoms boot_space !! 1) with (Some 0%nat) in Hrm.
  destruct Hrm as (a & m' & s' & _ & Hrun & Hheap & _ & _ & _ & Hget & _ & _ & _ & Hcount & _).
  exists m'. split; [exact Hrun|]. split; [exact Hheap|]. split; [exact Hget|exact Hcount].
Defined.


(** ** Creation keeps the store consistent *)

Lemma CreateAtom_keeps_space_ok sp type name tv conf m s :
  spaces m !! sp = Some s ->
  space_okb m s = true ->
  AtomSpace.m_atomsByName s !! name = None ->
  AtomSpace.m_atoms s !! s_nextId m = None ->
  space_okb
    (mkMachine (heap m ++ [Atom.ctor type name tv conf (s_nextId m)])
       (next_id (s_nextId m))
       (<[sp := AtomSpace.mk
                  (<[s_nextId m := length (heap m)]> (AtomSpace.m_atoms s))
                  (<[name := length (heap m)]> (AtomSpace.m_atomsByName s))]>
          (spaces m)))
    (AtomSpace.mk (<[s_nextId m := length (heap m)]> (AtomSpace.m_atoms s))
                  (<[name := length (heap m)]> (AtomSpace.m_atomsByName s))) = true.
Proof.
  intros Hs Hok Hn Hid. apply space_ok_intro; cbn [heap AtomSpace.m_atoms AtomSpace.m_atomsByName].
  - intros id l Hl. apply lookup_insert_Some in Hl. destruct Hl as [[<- <-]|[Hne Hl]].
    + eexists. split; [rewrite lookup_app_r by lia; rewrite Nat.sub_diag; reflexivity|].
      cbn. split; [reflexivity|]. apply lookup_insert_eq.
    + destruct (space_ok_entry _ _ _ _ Hok Hl) as (a & Ha & Haid & Hname).
      exists a. split; [apply lookup_app_l_Some; exact Ha|]. split; [exact Haid|].
      rewrite lookup_insert_ne; [exact Hname|]. intros Heq. rewrite <- Heq in Hname. congruence.
  - intros name' l Hl. apply lookup_insert_Some in Hl. destruct Hl as [[<- <-]|[Hne Hl]].
    + eexists. split; [rewrite lookup_app_r by lia; rewrite Nat.sub_diag; reflexivity|].
      cbn. split; [reflexivity|]. apply lookup_insert_eq.
    + destruct (space_ok_name _ _ _ _ Hok Hl) as (a & Ha & Hname & Haid).
      exists a. split; [apply lookup_app_l_Some; exact Ha|]. split; [exact Hname|].
      rewrite lookup_insert_ne; [exact Haid|]. intros Heq. congruence.
Qed.

(** X4: on a well-formed store whose table does not yet use the next
    identifier, [CreateAtom] returns a node that is then found under its
    name by [FindAtom] and under its identifier by [GetAtom]; the store is
    still well formed, the atoms that existed are untouched and the other
    names keep their bindings.  When the name was free, the node is a new
    atom built from the arguments, it takes the next identifier, and the
    count grows by one. *)
Theorem CreateAtom_registers sp type name tv conf m s :
  spaces m !! sp = Some s ->
  space_okb m s = true ->
  AtomSpace.m_atoms s !! s_nextId m = None ->
  exists l m' s' a,
    CreateAtom sp type name tv conf m = Ok l m' /\
    spaces m' !! sp = Some s' /\
    space_okb m' s' = true /\
    heap m `prefix_of` heap m' /\
    heap m' !! l = Some a /\
    Atom.m_name a = name /\
    FindAtom sp name m' = Ok (Some l) m' /\
    GetAtom sp (Atom.m_id a) m' = Ok (Some l) m' /\
    (forall name', name' <> name ->
       AtomSpace.m_atomsByName s' !! name' = AtomSpace.m_atomsByName s !! name') /\
    (AtomSpace.m_atomsByName s !! name = None ->
       a = Atom.ctor type name tv conf (s_nextId m) /\
       l = length (heap m) /\
       s_nextId m' = next_id (s_nextId m) /\
       GetAtomCount sp m' = Ok (Z.of_nat (size (AtomSpace.m_atoms s)) + 1) m').
Proof.
  intros Hs Hok Hid. destruct (AtomSpace.m_atomsByName s !! name) as [l|] eqn:Hn.
  - destruct (space_ok_name _ _ _ _ Hok Hn) as (a & Ha & Hname & Haid).
    exists l, m, s, a. rewrite (CreateAtom_existing _ _ _ _ _ _ _ _ Hs Hn).
    rewrite (FindAtom_run _ _ _ _ Hs), (GetAtom_run _ _ _ _ Hs), Hn, Haid.
    repeat split; auto; discriminate.
  - rewrite (CreateAtom_fresh _ _ _ _ _ _ _ Hs Hn).
    eexists _, _, _, _. split; [reflexivity|].
    assert (Hs' : forall h n, spaces (mkMachine h n
                    (<[sp := AtomSpace.mk
                         (<[s_nextId m := length (heap m)]> (AtomSpace.m_atoms s))
                         (<[name := length (heap m)]> (AtomSpace.m_atomsByName s))]>
                       (spaces m))) !! sp = Some (AtomSpace.mk
                         (<[s_nextId m := length (heap m)]> (AtomSpace.m_atoms s))
                         (<[name := length (heap m)]> (AtomSpace.m_atomsByName s)))).
    { intros. cbn. apply list_lookup_insert_eq. eapply lookup_lt_Some. exact Hs. }
    split; [apply Hs'|].
    split; [apply CreateAtom_keeps_space_ok; assumption|].
    split; [cbn; apply prefix_app_r; reflexivity|].
    split; [cbn; rewrite lookup_app_r by lia; rewrite Nat.sub_diag; reflexivity|].
    split; [reflexivity|].
    split; [rewrite (FindAtom_run _ _ _ _ (Hs' _ _)); cbn; rewrite lookup_insert_eq; reflexivity|].
    split; [rewrite (GetAtom_run _ _ _ _ (Hs' _ _)); cbn; rewrite lookup_insert_eq; reflexivity|].
    split; [intros name' Hne; cbn; apply lookup_insert_ne; congruence|].
    intros _. split; [reflexivity|]. split; [reflexivity|]. split; [reflexivity|].
    rewrite (GetAtomCount_run _ _ _ (Hs' _ _)). cbn.
    rewrite map_size_insert_None by exact Hid. f_equal. lia.
Qed.

Lemma CreateAtom_registers_witness :
  exists l m' s',
    CreateAtom 0 Atom.Concept "A" F32.f0_8 F32.f0_9 (seeded boot) = Ok l m' /\
    spaces m' !! 0%nat = Some s' /\
    space_okb m' s' = true /\
    FindAtom 0 "A" m' = Ok (Some l) m'.
Proof.
  assert (H1 : spaces (seeded boot) !! 0%nat = Some boot_space) by reflexivity.
  assert (H2 : space_okb (seeded boot) boot_space = true) by (vm_compute; reflexivity).
  assert (H3 : AtomSpace.m_atoms boot_space !! s_nextId (seeded boot) = None)
    by (vm_compute; reflexivity).
  destruct (CreateAtom_registers 0%nat Atom.Concept "A" F32.f0_8 F32.f0_9
              (seeded boot) boot_space H1 H2 H3)
    as (l & m' & s' & a & Hrun & Hs' & Hok & _ & _ & _ & Hfind & _).
  exists l, m', s'. split; [exact Hrun|]. split; [exact Hs'|]. split; [exact Hok|exact Hfind].
Defined.


(** X5: creating an atom under a free name and removing it again by its
    identifier restores both tables of the store exactly, provided the table
    did not already use that identifier.  The atom itself stays in memory
    for whoever still holds the pointer, and the identifier is spent: the
    counter has advanced. *)
Theorem CreateAtom_then_RemoveAtom sp type name tv conf m s :
  spaces m !! sp = Some s ->
  AtomSpace.m_atomsByName s !! name = None ->
  AtomSpace.m_atoms s !! s_nextId m = None ->
  exists l m1 m2,
    CreateAtom sp type name tv conf m = Ok l m1 /\
    RemoveAtom sp (s_nextId m) m1 = Ok true m2 /\
    spaces m2 = spaces m /\
    heap m2 = heap m ++ [Atom.ctor type name tv conf (s_nextId m)] /\
    s_nextId m2 = next_id (s_nextId m) /\
    FindAtom sp name m2 = Ok None m2.
Proof.
  intros Hs Hn Hid. rewrite (CreateAtom_fresh _ _ _ _ _ _ _ Hs Hn).
  eexists _, _, _. split; [reflexivity|].
  erewrite RemoveAtom_present; cycle 1.
  - cbn. apply list_lookup_insert_eq. eapply lookup_lt_Some. exact Hs.
  - cbn. apply lookup_insert_eq.
  - cbn. rewrite lookup_app_r by lia. rewrite Nat.sub_diag. reflexivity.
  - cbn [Atom.ctor Atom.m_name AtomSpace.m_atoms AtomSpace.m_atomsByName heap s_nextId spaces].
    rewrite list_insert_insert_eq.
    rewrite !delete_insert_id by assumption.
    assert (Hsame : <[sp := s]> (spaces m) = spaces m).
    { destruct s. apply list_insert_id. exact Hs. }
    replace (AtomSpace.mk (AtomSpace.m_atoms s) (AtomSpace.m_atomsByName s)) with s
      by (destruct s; reflexivity).
    rewrite Hsame.
    split; [reflexivity|]. split; [reflexivity|]. split; [reflexivity|].
    split; [reflexivity|].
    erewrite FindAtom_run by (cbn; exact Hs). rewrite Hn. reflexivity.
Qed.

Lemma CreateAtom_then_RemoveAtom_witness :
  exists l m1 m2,
    CreateAtom 0 Atom.Concept "A" F32.f0_8 F32.f0_9 (seeded boot) = Ok l m1 /\
    RemoveAtom 0 4 m1 = Ok true m2 /\
    spaces m2 = spaces (seeded boot) /\
    s_nextId m2 = 5.
Proof.
  assert (H1 : spaces (seeded boot) !! 0%nat = Some boot_space) by reflexivity.
  assert (H2 : AtomSpace.m_atomsByName boot_space !! "A" = None)
    by (vm_compute; reflexivity).
  assert (H3 : AtomSpace.m_atoms boot_space !! s_nextId (seeded boot) = None)
    by (vm_compute; reflexivity).
  destruct (CreateAtom_then_RemoveAtom 0%nat Atom.Concept "A" F32.f0_8 F32.f0_9
              (seeded boot) boot_space H1 H2 H3)
    as (l & m1 & m2 & Hrun & Hrm & Hsp & _ & Hid & _).
  exists l, m1, m2. split; [exact Hrun|]. split; [exact Hrm|]. split; [exact Hsp|exact Hid].
Defined.


(** ** Counting *)

Lemma filter_cons_length {A} (f : A -> bool) (x : A) (l : list A) :
  length (List.filter f (x :: l)) =
  ((if f x then 1 else 0) + length (List.filter f l))%nat.
Proof. cbn. destruct (f x); reflexivity. Qed.

Lemma length_by_type (m : Machine) (L : list loc) :
  Forall (fun l => l < length (heap m))%nat L ->
  let count t :=
    length (List.filter (holds_at m (fun a => bool_decide (Atom.m_type a = t))) L) in
  (length L = count Atom.Concept + count Atom.Link + count Atom.Process +
              count Atom.Agent + count Atom.Rule + count Atom.Goal +
              count Atom.Memory)%nat.
Proof.
  induction 1 as [|l L Hl _ IH]; [reflexivity|].
  cbn zeta in *. cbn [length]. rewrite IH, !filter_cons_length.
  destruct (lookup_lt_is_Some_2 (heap m) l Hl) as [a Ha].
  assert (Hh : forall f, holds_at m f l = f a)
    by (intros f; unfold holds_at; rewrite Ha; reflexivity).
  rewrite !Hh.
  destruct (Atom.m_type a);
    rewrite (bool_decide_eq_true_2 _ eq_refl);
    rewrite !bool_decide_eq_false_2 by discriminate;
    cbv beta iota; lia.
Qed.

Section Counting.

Context `{BucketOrder}.

Lemma length_table s : length (table s) = size (AtomSpace.m_atoms s).
Proof.
  rewrite (Permutation_length (table_perm s)), length_fmap. apply length_map_to_list.
Qed.

Lemma GetAtomCountByType_run sp type m s :
  spaces m !! sp = Some s ->
  space_okb m s = true ->
  GetAtomCountByType sp type m =
  Ok (Z.of_nat (length (List.filter
                          (holds_at m (fun a => bool_decide (Atom.m_type a = type)))
                          (table s)))) m.
Proof.
  intros Hs Hok. unfold GetAtomCountByType.
  rewrite (bind_run _ _ _ _ _
             (FindAtomsByType_run _ _ _ _ Hs (space_ok_table_valid _ _ Hok))).
  reflexivity.
Qed.

End Counting.

(** X6: on a well-formed store the counts by type partition the total:
    [GetAtomCount] is the sum of [GetAtomCountByType] over the seven types,
    each count lies between 0 and the total, and it is the length of what
    [FindAtomsByType] returns, whatever the iteration order. *)
Theorem counts_by_type_add_up `{BucketOrder} sp m s :
  spaces m !! sp = Some s ->
  space_okb m s = true ->
  exists (total : Z) (count : Atom.Type' -> Z),
    GetAtomCount sp m = Ok total m /\
    (forall t, GetAtomCountByType sp t m = Ok (count t) m) /\
    (forall t found, FindAtomsByType sp t m = Ok found m ->
       Z.of_nat (length found) = count t) /\
    (forall t, 0 <= count t <= total) /\
    total = count Atom.Concept + count Atom.Link + count Atom.Process +
            count Atom.Agent + count Atom.Rule + count Atom.Goal + count Atom.Memory.
Proof.
  intros Hs Hok.
  exists (Z.of_nat (size (AtomSpace.m_atoms s))),
    (fun t => Z.of_nat (length (List.filter
                (holds_at m (fun a => bool_decide (Atom.m_type a = t))) (table s)))).
  split; [apply GetAtomCount_run; exact Hs|].
  split; [intros t; apply GetAtomCountByType_run; assumption|].
  split.
  { intros t found Hrun.
    rewrite (FindAtomsByType_run _ _ _ _ Hs (space_ok_table_valid _ _ Hok)) in Hrun.
    inversion Hrun. reflexivity. }
  pose proof (length_by_type m (table s) (space_ok_table_valid _ _ Hok)) as Hsum.
  cbn zeta in Hsum. rewrite length_table in Hsum. split.
  - intros t. split; [lia|]. rewrite <- length_table.
    apply Nat2Z.inj_le, filter_length_le.
  - rewrite Hsum. lia.
Qed.

Lemma counts_by_type_add_up_witness :
  exists (total : Z) (count : Atom.Type' -> Z),
    GetAtomCount 0 half_pair.1 = Ok total half_pair.1 /\
    (forall t, GetAtomCountByType 0 t half_pair.1 = Ok (count t) half_pair.1) /\
    total = count Atom.Concept + count Atom.Link + count Atom.Process +
            count Atom.Agent + count Atom.Rule + count Atom.Goal + count Atom.Memory.
Proof.
  pose (s := default (AtomSpace.mk ∅ ∅) (spaces half_pair.1 !! 0%nat)).
  assert (H1 : spaces half_pair.1 !! 0%nat = Some s) by (vm_compute; reflexivity).
  assert (H2 : space_okb half_pair.1 s = true) by (vm_compute; reflexivity).
  destruct (counts_by_type_add_up 0%nat half_pair.1 s H1 H2)
    as (total & count & Htotal & Hcount & _ & _ & Hsum).
  exists total, count. split; [exact Htotal|]. split; [exact Hcount|exact Hsum].
Defined.


(** ** Clearing a store *)

Lemma table_empty `{BucketOrder} : table (AtomSpace.mk ∅ ∅) = [].
Proof.
  unfold table. cbn. 
  pose proof (atoms_order_perm (∅ : gmap Z loc)) as Hp.
  rewrite map_to_list_empty in Hp. apply Permutation_nil_r in Hp. rewrite Hp. reflexivity.
Qed.

(** X7: [Clear] on a live store empties both tables and touches nothing
    else: the atoms stay in memory, the identifier counter and the other
    stores are unchanged.  Afterwards the count is 0, every lookup by name or
    identifier misses, every scan is empty, every removal returns [false],
    and [CreateAtom] on any name, also one that was bound before, builds a
    new atom; the three Concepts seeded by the constructor are not
    restored. *)
Theorem Clear_forgets_every_atom `{BucketOrder} sp m s :
  spaces m !! sp = Some s ->
  exists m',
    Clear sp m = Ok tt m' /\
    heap m' = heap m /\ s_nextId m' = s_nextId m /\
    (forall sp', sp' <> sp -> spaces m' !! sp' = spaces m !! sp') /\
    GetAtomCount sp m' = Ok 0 m' /\
    (forall name, FindAtom sp name m' = Ok None m') /\
    (forall id, GetAtom sp id m' = Ok None m') /\
    (forall id, RemoveAtom sp id m' = Ok false m') /\
    (forall type, FindAtomsByType sp type m' = Ok [] m') /\
    (forall type name tv conf,
       exists m'',
         CreateAtom sp type name tv conf m' = Ok (length (heap m)) m'' /\
         heap m'' = heap m ++ [Atom.ctor type name tv conf (s_nextId m)]).
Proof.
  intros Hs.
  set (m' := mkMachine (heap m) (s_nextId m) (<[sp := AtomSpace.mk ∅ ∅]> (spaces m))).
  assert (Hs' : spaces m' !! sp = Some (AtomSpace.mk ∅ ∅)).
  { cbn. apply list_lookup_insert_eq. eapply lookup_lt_Some. exact Hs. }
  exists m'. split.
  { unfold Clear. rewrite (bind_run _ _ _ _ _ (get_space_run _ _ _ Hs)). reflexivity. }
  split; [reflexivity|]. split; [reflexivity|].
  split; [intros sp' Hne; cbn; apply list_lookup_insert_ne; congruence|].
  split; [rewrite (GetAtomCount_run _ _ _ Hs'); reflexivity|].
  split; [intros name; rewrite (FindAtom_run _ _ _ _ Hs'); reflexivity|].
  split; [intros id; rewrite (GetAtom_run _ _ _ _ Hs'); reflexivity|].
  split; [intros id; apply (RemoveAtom_missing _ _ _ _ Hs'); reflexivity|].
  split.
  { intros type. unfold FindAtomsByType.
    rewrite (bind_run _ _ _ _ _ (get_space_run _ _ _ Hs')). rewrite table_empty.
    reflexivity. }
  intros type name tv conf. eexists. split.
  - apply (CreateAtom_fresh _ _ _ _ _ _ _ Hs'). reflexivity.
  - reflexivity.
Qed.

Lemma Clear_forgets_every_atom_witness :
  exists m',
    Clear 0 (seeded boot) = Ok tt m' /\
    heap m' = heap (seeded boot) /\
    GetAtomCount 0 m' = Ok 0 m' /\
    FindAtom 0 "Self" m' = Ok None m'.
Proof.
  assert (H1 : spaces (seeded boot) !! 0%nat = Some boot_space) by reflexivity.
  destruct (Clear_forgets_every_atom 0%nat (seeded boot) boot_space H1)
    as (m' & Hrun & Hheap & _ & _ & Hcount & Hfind & _).
  exists m'. split; [exact Hrun|]. split; [exact Hheap|]. split; [exact Hcount|apply Hfind].
Defined.


(** ** What the attention pass leaves alone *)

Lemma attention_only_fields m m' l a :
  attention_only m m' -> heap m !! l = Some a ->
  exists a', heap m' !! l = Some a' /\
    Atom.m_type a' = Atom.m_type a /\ Atom.m_name a' = Atom.m_name a /\
    Atom.m_id a' = Atom.m_id a /\ Atom.m_truthValue a' = Atom.m_truthValue a /\
    Atom.m_confidence a' = Atom.m_confidence a /\
    Atom.m_incomingLinks a' = Atom.m_incomingLinks a /\
    Atom.m_outgoingLinks a' = Atom.m_outgoingLinks a.
Proof.
  intros (_ & _ & _ & Hat) Ha. destruct (Hat _ _ Ha) as (a' & Ha' & Heq).
  exists a'. split; [exact Ha'|]. rewrite <- Heq. cbn. repeat split; reflexivity.
Qed.

Lemma attention_only_space_ok m m' s :
  attention_only m m' -> space_okb m s = true -> space_okb m' s = true.
Proof.
  intros Hshape Hok. apply space_ok_intro.
  - intros id l Hl. destruct (space_ok_entry _ _ _ _ Hok Hl) as (a & Ha & Hid & Hn).
    destruct (attention_only_fields _ _ _ _ Hshape Ha) as (a' & Ha' & _ & Hn' & Hid' & _).
    exists a'. rewrite Hn', Hid'. auto.
  - intros name l Hl. destruct (space_ok_name _ _ _ _ Hok Hl) as (a & Ha & Hn & Hid).
    destruct (attention_only_fields _ _ _ _ Hshape Ha) as (a' & Ha' & _ & Hn' & Hid' & _).
    exists a'. rewrite Hn', Hid'. auto.
Qed.

Lemma attention_only_heap_ok m m' :
  attention_only m m' -> heap_okb m = true -> heap_okb m' = true.
Proof.
  intros Hshape Hok. pose proof Hshape as (_ & _ & Hlen & _).
  unfold heap_okb in *. rewrite forallb_forall in *. intros a' Hin.
  apply list_elem_of_In, list_elem_of_lookup in Hin. destruct Hin as [l Hl'].
  destruct (lookup_lt_is_Some_2 (heap m) l) as [a Ha].
  { rewrite <- Hlen. eapply lookup_lt_Some. exact Hl'. }
  destruct (attention_only_fields _ _ _ _ Hshape Ha) as (a2 & Ha2 & _ & _ & _ & _ & _ & Hin & Hout).
  rewrite Hl' in Ha2. inversion Ha2. subst a2.
  specialize (Hok a ltac:(apply list_elem_of_In, list_elem_of_lookup; eauto)).
  unfold links_okb in *. rewrite Hin, Hout, Hlen. exact Hok.
Qed.

(** X8: on a well-formed machine one pass of [UpdateAttentionValues]
    returns whatever the attention values are (negative, infinite or NaN
    included) and changes attention values only: no atom is created or
    removed, the tables and the identifier counter are unchanged, every atom
    keeps its type, name, identifier, truth, confidence and links, the
    machine is still well formed, and a scan by type finds the same nodes
    after the pass as before. *)
Theorem pass_changes_attention_only `{BucketOrder} sp m s :
  spaces m !! sp = Some s ->
  space_okb m s = true ->
  heap_okb m = true ->
  exists m',
    UpdateAttentionValues sp m = Ok tt m' /\
    spaces m' = spaces m /\ s_nextId m' = s_nextId m /\
    length (heap m') = length (heap m) /\
    (forall l a, heap m !! l = Some a ->
       exists a', heap m' !! l = Some a' /\
         Atom.m_type a' = Atom.m_type a /\ Atom.m_name a' = Atom.m_name a /\
         Atom.m_id a' = Atom.m_id a /\ Atom.m_truthValue a' = Atom.m_truthValue a /\
         Atom.m_confidence a' = Atom.m_confidence a /\
         Atom.m_incomingLinks a' = Atom.m_incomingLinks a /\
         Atom.m_outgoingLinks a' = Atom.m_outgoingLinks a) /\
    space_okb m' s = true /\ heap_okb m' = true /\
    (forall type found, FindAtomsByType sp type m = Ok found m ->
       FindAtomsByType sp type m' = Ok found m').
Proof.
  intros Hs Hsok Hok.
  destruct (UpdateAttentionValues_run sp m s Hs Hsok Hok) as (m' & Hrun & Hshape).
  pose proof Hshape as (Hsp & Hid & Hlen & _).
  exists m'. split; [exact Hrun|]. split; [exact Hsp|]. split; [exact Hid|].
  split; [exact Hlen|].
  split; [intros l a Ha; apply (attention_only_fields _ _ _ _ Hshape Ha)|].
  pose proof (attention_only_space_ok _ _ _ Hshape Hsok) as Hsok'.
  split; [exact Hsok'|]. split; [apply (attention_only_heap_ok _ _ Hshape Hok)|].
  intros type found Hfound.
  assert (Hs' : spaces m' !! sp = Some s) by (rewrite Hsp; exact Hs).
  rewrite (FindAtomsByType_run _ _ _ _ Hs (space_ok_table_valid _ _ Hsok)) in Hfound.
  rewrite (FindAtomsByType_run _ _ _ _ Hs' (space_ok_table_valid _ _ Hsok')).
  inversion Hfound. f_equal.
  apply filter_ext_in. intros l Hl. apply list_elem_of_In in Hl.
  pose proof (space_ok_table_valid _ _ Hsok) as Hv. rewrite Forall_forall in Hv.
  destruct (lookup_lt_is_Some_2 (heap m) l (Hv _ Hl)) as [a Ha].
  destruct (attention_only_fields _ _ _ _ Hshape Ha) as (a' & Ha' & Hty & _).
  unfold holds_at. rewrite Ha, Ha', Hty. reflexivity.
Qed.

Lemma pass_changes_attention_only_witness :
  exists m',
    UpdateAttentionValues 0 half_pair.1 = Ok tt m' /\
    spaces m' = spaces half_pair.1 /\
    length (heap m') = length (heap half_pair.1) /\
    heap_okb m' = true.
Proof.
  pose (s := default (AtomSpace.mk ∅ ∅) (spaces half_pair.1 !! 0%nat)).
  assert (H1 : spaces half_pair.1 !! 0%nat = Some s) by (vm_compute; reflexivity).
  assert (H2 : space_okb half_pair.1 s = true) by (vm_compute; reflexivity).
  assert (H3 : heap_okb half_pair.1 = true) by (vm_compute; reflexivity).
  destruct (pass_changes_attention_only 0%nat half_pair.1 s H1 H2 H3)
    as (m' & Hrun & Hsp & _ & Hlen & _ & _ & Hok & _).
  exists m'. split; [exact Hrun|]. split; [exact Hsp|]. split; [exact Hlen|exact Hok].
Defined.



(** ** The life cycle of an agent *)



(** ** The goal list *)

Lemma all_live_Forall m ls :
  all_liveb m ls = true -> Forall (fun l => l < length (heap m))%nat ls.
Proof.
  unfold all_liveb. rewrite forallb_forall, Forall_forall. intros Hall l Hl.
  eapply bool_decide_eq_true_1. apply Hall, list_elem_of_In, Hl.
Qed.

Lemma RemoveGoal_run goalId ag m :
  Forall (fun l => l < length (heap m))%nat (CognitiveAgent.m_goals ag) ->
  RemoveGoal goalId (ag, m) =
  Ok tt (CognitiveAgent.mk (CognitiveAgent.m_name ag) (CognitiveAgent.m_atomSpace ag)
           (CognitiveAgent.m_state ag) (CognitiveAgent.m_shouldStop ag)
           (CognitiveAgent.m_processingThread ag)
           (List.filter (fun l => negb (has_id m goalId l)) (CognitiveAgent.m_goals ag))
           (CognitiveAgent.m_memories ag), m).
Proof.
  intros Hv. unfold RemoveGoal. rewrite (bind_run _ _ _ _ _ (this_run _ _)).
  erewrite bind_run; cycle 1.
  { apply lift_run. apply filter_m_pure with (f := fun l => negb (has_id m goalId l)).
    intros l Hl. destruct (Forall_valid_lookup m _ l Hv Hl) as [a Ha].
    rewrite (bind_run _ _ _ _ _ (deref_run _ _ _ Ha)).
    unfold has_id, holds_at. rewrite Ha. reflexivity. }
  reflexivity.
Qed.

(** X10: [AddGoal] appends the pointer when the atom behind it is of type
    Goal and ignores it otherwise, as it ignores a null pointer; it does not
    look for duplicates.  [RemoveGoal] keeps, in their order, exactly the
    goals whose atom carries another identifier, and touches nothing else.
    So adding a goal and removing it by its identifier gives the agent back
    whenever no goal of the list carried that identifier. *)
Theorem goals_round_trip (l : loc) (g : Atom.t) (ag : CognitiveAgent.t) (m : Machine) :
  heap m !! l = Some g ->
  all_liveb m (CognitiveAgent.m_goals ag) = true ->
  exists added removed,
    AddGoal (Some l) (ag, m) = Ok tt (added, m) /\
    CognitiveAgent.m_goals added =
      (if bool_decide (Atom.m_type g = Atom.Goal)
       then CognitiveAgent.m_goals ag ++ [l] else CognitiveAgent.m_goals ag) /\
    RemoveGoal (Atom.m_id g) (added, m) = Ok tt (removed, m) /\
    CognitiveAgent.m_goals removed =
      List.filter (fun l' => negb (has_id m (Atom.m_id g) l')) (CognitiveAgent.m_goals ag) /\
    (forall l', l' ∈ CognitiveAgent.m_goals removed -> has_id m (Atom.m_id g) l' = false) /\
    (Forall (fun l' => has_id m (Atom.m_id g) l' = false) (CognitiveAgent.m_goals ag) ->
       removed = ag) /\
    AddGoal None (ag, m) = Ok tt (ag, m).
Proof.
  intros Hg Hv. apply all_live_Forall in Hv.
  destruct ag as [name sp st stop thread goals mems].
  cbn [CognitiveAgent.m_goals] in *.
  assert (Hself : has_id m (Atom.m_id g) l = true).
  { unfold has_id, holds_at. rewrite Hg. apply bool_decide_eq_true_2. reflexivity. }
  assert (Hl : (l < length (heap m))%nat) by (eapply lookup_lt_Some; exact Hg).
  assert (Hadd : AddGoal (Some l) (CognitiveAgent.mk name sp st stop thread goals mems, m) =
                 Ok tt (CognitiveAgent.mk name sp st stop thread
                          (if bool_decide (Atom.m_type g = Atom.Goal)
                           then goals ++ [l] else goals) mems, m)).
  { unfold AddGoal. rewrite (bind_run _ _ _ _ _ (lift_run _ _ _ _ _ (deref_run _ _ _ Hg))).
    destruct (bool_decide (Atom.m_type g = Atom.Goal)); reflexivity. }
  assert (Hfilter :
            List.filter (fun l' => negb (has_id m (Atom.m_id g) l'))
              (if bool_decide (Atom.m_type g = Atom.Goal) then goals ++ [l] else goals) =
            List.filter (fun l' => negb (has_id m (Atom.m_id g) l')) goals).
  { destruct (bool_decide (Atom.m_type g = Atom.Goal)); [|reflexivity].
    rewrite List.filter_app. cbn. rewrite Hself. cbn. apply app_nil_r. }
  eexists _, _. split; [exact Hadd|]. split; [reflexivity|].
  rewrite RemoveGoal_run; cycle 1.
  { cbn. destruct (bool_decide (Atom.m_type g = Atom.Goal)); [|exact Hv].
    apply Forall_app. split; [exact Hv|repeat constructor; exact Hl]. }
  cbn. rewrite Hfilter.
  split; [reflexivity|]. split; [reflexivity|]. split.
  { intros l' Hin. apply elem_of_filter_bool in Hin. destruct Hin as [_ Hin].
    apply negb_true_iff in Hin. exact Hin. }
  split; [|reflexivity].
  intros Hnone. f_equal. apply forallb_filter_id. apply forallb_forall.
  intros l' Hin. rewrite Forall_forall in Hnone.
  rewrite (Hnone l') by (apply list_elem_of_In; exact Hin). reflexivity.
Qed.

Lemma goals_round_trip_witness :
  exists added removed,
    AddGoal (Some 4%nat) (test_agent_on_store.1.1, test_agent_on_store.1.2) =
      Ok tt (added, test_agent_on_store.1.2) /\
    CognitiveAgent.m_goals added = [4%nat; 4%nat] /\
    RemoveGoal 5 (added, test_agent_on_store.1.2) = Ok tt (removed, test_agent_on_store.1.2) /\
    CognitiveAgent.m_goals removed = [].
Proof.
  pose (g := default (Atom.ctor Atom.Concept "" F32.f0_0 F32.f0_0 0)
               (heap test_agent_on_store.1.2 !! 4%nat)).
  assert (H1 : heap test_agent_on_store.1.2 !! 4%nat = Some g) by (vm_compute; reflexivity).
  assert (H2 : all_liveb test_agent_on_store.1.2
                 (CognitiveAgent.m_goals test_agent_on_store.1.1) = true)
    by (vm_compute; reflexivity).
  destruct (goals_round_trip 4%nat g test_agent_on_store.1.1 test_agent_on_store.1.2 H1 H2)
    as (added & removed & Hadd & Hgoals & Hrm & Hleft & _).
  exists added, removed. split; [exact Hadd|]. split; [exact Hgoals|].
  split; [exact Hrm|exact Hleft].
Defined.


(** ** An agent constructed without a store *)

Lemma for_each_Ok_or_Fault {S A} (l : list A) (body : A -> M S unit) s :
  (forall x, x ∈ l -> body x s = Ok tt s \/ body x s = Fault) ->
  for_each l body s = Ok tt s \/ for_each l body s = Fault.
Proof.
  induction l as [|x l IH]; intros Hbody; [left; reflexivity|].
  cbn [for_each]. unfold mbind, M_bind.
  destruct (Hbody x ltac:(left)) as [-> | ->]; [|right; reflexivity].
  apply IH. intros y Hy. apply Hbody. right. exact Hy.
Qed.

(** X11: an agent constructed with a null store pointer.  [Perceive],
    [Reason], [Learn], [SelfModify] and [ReceiveMessage] test the pointer and
    return at once, leaving agent and machine as they are.  [Plan] and [Act]
    do not test it: [Act] dereferences the null pointer in its first
    statement, and [Plan] does so as soon as it meets a goal with truth below
    0.8.  Every iteration of the processing loop therefore ends in a null
    dereference, which is not an exception and is not caught by the
    [catch (...)] of the loop. *)
Theorem agent_without_store_faults `{BucketOrder} (ag : CognitiveAgent.t) (m : Machine) :
  CognitiveAgent.m_atomSpace ag = None ->
  Perceive (ag, m) = Ok tt (ag, m) /\
  Reason (ag, m) = Ok tt (ag, m) /\
  Learn (ag, m) = Ok tt (ag, m) /\
  SelfModify (ag, m) = Ok tt (ag, m) /\
  (forall fromAgent message, ReceiveMessage fromAgent message (ag, m) = Ok tt (ag, m)) /\
  (Plan (ag, m) = Ok tt (ag, m) \/ Plan (ag, m) = Fault) /\
  (forall goal g,
     head (CognitiveAgent.m_goals ag) = Some goal -> heap m !! goal = Some g ->
     F32.ltb (Atom.m_truthValue g) F32.f0_8 = true ->
     Plan (ag, m) = Fault) /\
  Act (ag, m) = Fault /\
  (forall draw, iteration draw (ag, m) = Fault) /\
  (CognitiveAgent.m_shouldStop ag = false ->
     forall draw draws, ProcessingLoop (draw :: draws) (ag, m) = Fault).
Proof.
  intros Hsp.
  assert (HPerceive : Perceive (ag, m) = Ok tt (ag, m))
    by (unfold Perceive; rewrite (bind_run _ _ _ _ _ (this_run _ _)), Hsp; reflexivity).
  assert (HReason : Reason (ag, m) = Ok tt (ag, m))
    by (unfold Reason; rewrite (bind_run _ _ _ _ _ (this_run _ _)), Hsp; reflexivity).
  assert (HAct : Act (ag, m) = Fault)
    by (unfold Act; rewrite (bind_run _ _ _ _ _ (this_run _ _)), Hsp; reflexivity).
  assert (HPlan : Plan (ag, m) = Ok tt (ag, m) \/ Plan (ag, m) = Fault).
  { unfold Plan. rewrite (bind_run _ _ _ _ _ (this_run _ _)).
    apply for_each_Ok_or_Fault. intros goal _. rewrite Hsp.
    unfold mbind, M_bind, lift, deref, from_option.
    destruct (heap m !! goal) as [g|]; cbn; [|right; reflexivity].
    destruct (F32.ltb (Atom.m_truthValue g) F32.f0_8); [right|left]; reflexivity. }
  assert (Hstages : forall draw, iteration draw (ag, m) = Fault).
  { intros draw. unfold iteration, stages.
    rewrite (bind_run _ _ _ _ _ HPerceive), (bind_run _ _ _ _ _ HReason).
    unfold mbind at 1, M_bind at 1.
    destruct HPlan as [-> | ->]; [|reflexivity].
    unfold mbind at 1, M_bind at 1. rewrite HAct. reflexivity. }
  split; [exact HPerceive|]. split; [exact HReason|].
  split; [unfold Learn; rewrite (bind_run _ _ _ _ _ (this_run _ _)), Hsp; reflexivity|].
  split; [unfold SelfModify; rewrite (bind_run _ _ _ _ _ (this_run _ _)), Hsp; reflexivity|].
  split.
  { intros fromAgent message. unfold ReceiveMessage.
    rewrite (bind_run _ _ _ _ _ (this_run _ _)), Hsp. reflexivity. }
  split; [exact HPlan|]. split.
  { intros goal g Hhead Hg Hlt. unfold Plan. rewrite (bind_run _ _ _ _ _ (this_run _ _)).
    destruct (CognitiveAgent.m_goals ag) as [|goal' goals]; [discriminate|].
    inversion Hhead. subst goal'. cbn [for_each]. rewrite Hsp.
    unfold mbind, M_bind, lift, deref, from_option. rewrite Hg. cbn. rewrite Hlt.
    reflexivity. }
  split; [exact HAct|]. split; [exact Hstages|].
  intros Hstop draw draws. cbn [ProcessingLoop].
  rewrite (bind_run _ _ _ _ _ (this_run _ _)), Hstop.
  unfold mbind, M_bind. rewrite Hstages. reflexivity.
Qed.

Lemma agent_without_store_faults_witness :
  Perceive (agent_without_store, seeded boot) = Ok tt (agent_without_store, seeded boot) /\
  Act (agent_without_store, seeded boot) = Fault /\
  (forall draw, iteration draw (agent_without_store, seeded boot) = Fault).
Proof.
  assert (H1 : CognitiveAgent.m_atomSpace agent_without_store = None) by reflexivity.
  destruct (agent_without_store_faults agent_without_store (seeded boot) H1)
    as (HPerceive & _ & _ & _ & _ & _ & _ & HAct & Hiter & _).
  split; [exact HPerceive|]. split; [exact HAct|exact Hiter].
Defined.


(** ** Configuration *)

Lemma GetConfiguration_run key sys m :
  GetConfiguration key (sys, m) =
  Ok (default EmptyString (CognitiveSystem.m_configuration sys !! key)) (sys, m).
Proof. reflexivity. Qed.

Lemma SetConfiguration_run key value sys m :
  SetConfiguration key value (sys, m) =
  Ok tt (CognitiveSystem.mk (CognitiveSystem.m_globalAtomSpace sys)
           (CognitiveSystem.m_agents sys)
           (<[key := value]> (CognitiveSystem.m_configuration sys))
           (CognitiveSystem.m_initialized sys), m).
Proof. reflexivity. Qed.

(** X12: [GetConfiguration] returns what [SetConfiguration] stored last
    under the key, the other keys read as before, and a key that was never
    set reads as the empty string, which a key set to the empty string also
    does.  Setting a key twice is the same as setting it to the second value
    at once; agents, store and the initialised flag are not touched. *)
Theorem configuration_round_trip (key value : string) (sys : CognitiveSystem.t) (m : Machine) :
  exists sys',
    SetConfiguration key value (sys, m) = Ok tt (sys', m) /\
    GetConfiguration key (sys', m) = Ok value (sys', m) /\
    (forall key', key' <> key ->
       exists v, GetConfiguration key' (sys, m) = Ok v (sys, m) /\
                 GetConfiguration key' (sys', m) = Ok v (sys', m)) /\
    (CognitiveSystem.m_configuration sys !! key = None ->
       GetConfiguration key (sys, m) = Ok EmptyString (sys, m)) /\
    (forall value2 sys2,
       SetConfiguration key value2 (sys', m) = Ok tt (sys2, m) ->
       SetConfiguration key value2 (sys, m) = Ok tt (sys2, m)) /\
    CognitiveSystem.m_agents sys' = CognitiveSystem.m_agents sys /\
    CognitiveSystem.m_initialized sys' = CognitiveSystem.m_initialized sys /\
    CognitiveSystem.m_globalAtomSpace sys' = CognitiveSystem.m_globalAtomSpace sys.
Proof.
  eexists. split; [apply SetConfiguration_run|].
  rewrite !GetConfiguration_run. cbn [CognitiveSystem.m_configuration].
  split; [rewrite lookup_insert_eq; reflexivity|].
  split.
  { intros key' Hne. eexists. split; [reflexivity|].
    rewrite GetConfiguration_run. cbn [CognitiveSystem.m_configuration].
    rewrite lookup_insert_ne by congruence. reflexivity. }
  split; [intros ->; reflexivity|].
  split; [|auto].
  intros value2 sys2 Hset. rewrite SetConfiguration_run in *.
  cbn [CognitiveSystem.m_configuration CognitiveSystem.m_agents
       CognitiveSystem.m_globalAtomSpace CognitiveSystem.m_initialized] in Hset.
  rewrite insert_insert_eq in Hset. exact Hset.
Qed.


(** ** What a creation changes *)

Lemma space_ok_names_live m s : space_okb m s = true -> names_live m s.
Proof.
  intros Hok n l Hl. destruct (space_ok_name _ _ _ _ Hok Hl) as (a & Ha & _).
  eapply lookup_lt_Some. exact Ha.
Qed.

Lemma CreateAtom_effect sp type name tv conf m s :
  spaces m !! sp = Some s ->
  exists l m' s',
    CreateAtom sp type name tv conf m = Ok l m' /\
    spaces m' !! sp = Some s' /\
    AtomSpace.m_atomsByName s' !! name = Some l /\
    (forall n, n <> name ->
       AtomSpace.m_atomsByName s' !! n = AtomSpace.m_atomsByName s !! n) /\
    (forall l0, AtomSpace.m_atomsByName s !! name = Some l0 -> l = l0 /\ m' = m) /\
    (AtomSpace.m_atomsByName s !! name = None ->
       l = length (heap m) /\
       heap m' = heap m ++ [Atom.ctor type name tv conf (s_nextId m)]) /\
    heap m `prefix_of` heap m' /\
    (length (heap m') <= S (length (heap m)))%nat /\
    (forall sp', sp' <> sp -> spaces m' !! sp' = spaces m !! sp') /\
    (names_live m s -> names_live m' s' /\ (l < length (heap m'))%nat).
Proof.
  intros Hs. destruct (AtomSpace.m_atomsByName s !! name) as [l|] eqn:Hn.
  - exists l, m, s. rewrite (CreateAtom_existing _ _ _ _ _ _ _ _ Hs Hn).
    repeat split; auto; try discriminate; try congruence.
    eapply H. exact Hn.
  - rewrite (CreateAtom_fresh _ _ _ _ _ _ _ Hs Hn). eexists _, _, _.
    split; [reflexivity|]. cbn [heap spaces s_nextId].
    split; [apply list_lookup_insert_eq; eapply lookup_lt_Some; exact Hs|].
    cbn [AtomSpace.m_atomsByName].
    split; [apply lookup_insert_eq|].
    split; [intros n Hne; apply lookup_insert_ne; congruence|].
    split; [discriminate|]. split; [auto|].
    split; [apply prefix_app_r; reflexivity|].
    split; [rewrite length_app; cbn; lia|].
    split; [intros sp' Hne; apply list_lookup_insert_ne; congruence|].
    intros Hlive. split; [|rewrite length_app; cbn; lia].
    intros n l Hl. cbn [heap AtomSpace.m_atomsByName] in *. rewrite length_app. cbn.
    apply lookup_insert_Some in Hl. destruct Hl as [[_ <-]|[_ Hl]]; [lia|].
    specialize (Hlive _ _ Hl). lia.
Qed.

(** ** Initialisation of the registry *)

Lemma set_initialized_run b sys m :
  set_initialized b (sys, m) =
  Ok tt (CognitiveSystem.mk (CognitiveSystem.m_globalAtomSpace sys)
           (CognitiveSystem.m_agents sys) (CognitiveSystem.m_configuration sys) b, m).
Proof. reflexivity. Qed.

Lemma set_agents_run ags sys m :
  set_agents ags (sys, m) =
  Ok tt (CognitiveSystem.mk (CognitiveSystem.m_globalAtomSpace sys) ags
           (CognitiveSystem.m_configuration sys) (CognitiveSystem.m_initialized sys), m).
Proof. reflexivity. Qed.

Lemma Initialize_again sys m :
  CognitiveSystem.m_initialized sys = true -> Initialize (sys, m) = Ok tt (sys, m).
Proof. destruct sys as [sp agents config init]. cbn. intros ->. reflexivity. Qed.

(** X13: [Initialize] on a registry whose global store is live.  Called on
    an initialised registry it changes nothing.  Called on one that is not,
    it sets the flag, makes sure the names "CognitiveSystem",
    "SystemStability" and "OptimizePerformance" are bound in the global
    store, creating at most three atoms and leaving every existing atom and
    binding alone, and writes the three default settings over whatever was
    configured under those keys before, leaving the other keys alone.  A
    second call is then without effect. *)
Theorem Initialize_sets_defaults_once (sys : CognitiveSystem.t) (m : Machine) (s : AtomSpace.t) :
  spaces m !! CognitiveSystem.m_globalAtomSpace sys = Some s ->
  exists sys' m' s',
    Initialize (sys, m) = Ok tt (sys', m') /\
    CognitiveSystem.m_initialized sys' = true /\
    CognitiveSystem.m_agents sys' = CognitiveSystem.m_agents sys /\
    CognitiveSystem.m_globalAtomSpace sys' = CognitiveSystem.m_globalAtomSpace sys /\
    spaces m' !! CognitiveSystem.m_globalAtomSpace sys = Some s' /\
    Initialize (sys', m') = Ok tt (sys', m') /\
    (CognitiveSystem.m_initialized sys = true -> sys' = sys /\ m' = m) /\
    (CognitiveSystem.m_initialized sys = false ->
       heap m `prefix_of` heap m' /\
       (length (heap m') <= length (heap m) + 3)%nat /\
       (forall name, name ∈ ["CognitiveSystem"; "SystemStability"; "OptimizePerformance"] ->
          is_Some (AtomSpace.m_atomsByName s' !! name)) /\
       (forall name l, AtomSpace.m_atomsByName s !! name = Some l ->
          AtomSpace.m_atomsByName s' !! name = Some l) /\
       GetConfiguration "max_agents" (sys', m') = Ok "10" (sys', m') /\
       GetConfiguration "attention_update_interval" (sys', m') = Ok "1000" (sys', m') /\
       GetConfiguration "self_modification_probability" (sys', m') = Ok "0.01" (sys', m') /\
       (forall key,
          key ∉ ["max_agents"; "attention_update_interval"; "self_modification_probability"] ->
          CognitiveSystem.m_configuration sys' !! key =
          CognitiveSystem.m_configuration sys !! key)).
Proof.
  intros Hs. destruct sys as [sp agents config [|]]; cbn [CognitiveSystem.m_globalAtomSpace] in *.
  { exists (CognitiveSystem.mk sp agents config true), m, s.
    repeat split; auto; discriminate. }
  destruct (CreateAtom_effect sp Atom.Concept "CognitiveSystem" F32.f1_0 F32.f1_0 m s Hs)
    as (l1 & m1 & s1 & Hrun1 & Hs1 & Hn1 & Hkeep1 & Hsame1 & _ & Hpre1 & Hlen1 & _).
  destruct (CreateAtom_effect sp Atom.Goal "SystemStability" F32.f1_0 F32.f1_0 m1 s1 Hs1)
    as (l2 & m2 & s2 & Hrun2 & Hs2 & Hn2 & Hkeep2 & Hsame2 & _ & Hpre2 & Hlen2 & _).
  destruct (CreateAtom_effect sp Atom.Goal "OptimizePerformance" F32.f0_8 F32.f0_9 m2 s2 Hs2)
    as (l3 & m3 & s3 & Hrun3 & Hs3 & Hn3 & Hkeep3 & Hsame3 & _ & Hpre3 & Hlen3 & _).
  eexists _, m3, s3. split.
  { unfold Initialize. rewrite (bind_run _ _ _ _ _ (this_run _ _)).
    cbn [CognitiveSystem.m_initialized CognitiveSystem.m_globalAtomSpace].
    rewrite (bind_run _ _ _ _ _ (set_initialized_run _ _ _)).
    rewrite (bind_run _ _ _ _ _ (lift_run _ _ _ _ _ Hrun1)).
    rewrite (bind_run _ _ _ _ _ (lift_run _ _ _ _ _ Hrun2)).
    rewrite (bind_run _ _ _ _ _ (lift_run _ _ _ _ _ Hrun3)).
    rewrite (bind_run _ _ _ _ _ (SetConfiguration_run _ _ _ _)).
    rewrite (bind_run _ _ _ _ _ (SetConfiguration_run _ _ _ _)).
    rewrite SetConfiguration_run. reflexivity. }
  cbn [CognitiveSystem.m_initialized CognitiveSystem.m_agents
       CognitiveSystem.m_globalAtomSpace CognitiveSystem.m_configuration].
  split; [reflexivity|]. split; [reflexivity|]. split; [reflexivity|].
  split; [exact Hs3|]. split; [apply Initialize_again; reflexivity|].
  split; [discriminate|]. intros _.
  assert (Hkeep : forall name l, AtomSpace.m_atomsByName s !! name = Some l ->
                    AtomSpace.m_atomsByName s3 !! name = Some l).
  { intros name l Hl.
    assert (H1 : AtomSpace.m_atomsByName s1 !! name = Some l).
    { destruct (decide (name = "CognitiveSystem")) as [->|Hne].
      - destruct (Hsame1 _ Hl) as [-> _]. exact Hn1.
      - rewrite Hkeep1 by exact Hne. exact Hl. }
    assert (H2 : AtomSpace.m_atomsByName s2 !! name = Some l).
    { destruct (decide (name = "SystemStability")) as [->|Hne].
      - destruct (Hsame2 _ H1) as [-> _]. exact Hn2.
      - rewrite Hkeep2 by exact Hne. exact H1. }
    destruct (decide (name = "OptimizePerformance")) as [->|Hne].
    - destruct (Hsame3 _ H2) as [-> _]. exact Hn3.
    - rewrite Hkeep3 by exact Hne. exact H2. }
  split; [etrans; [exact Hpre1|]; etrans; [exact Hpre2|exact Hpre3]|].
  split; [lia|].
  split.
  { intros name Hin.
    apply elem_of_cons in Hin as [->|Hin]; [|apply elem_of_cons in Hin as [->|Hin]];
      [| |apply list_elem_of_singleton in Hin; subst name].
    - exists l1. rewrite Hkeep3, Hkeep2 by discriminate. exact Hn1.
    - exists l2. rewrite Hkeep3 by discriminate. exact Hn2.
    - exists l3. exact Hn3. }
  split; [exact Hkeep|].
  rewrite !GetConfiguration_run. cbn [CognitiveSystem.m_configuration].
  split; [rewrite !lookup_insert_ne by discriminate; rewrite lookup_insert_eq; reflexivity|].
  split; [rewrite lookup_insert_ne by discriminate; rewrite lookup_insert_eq; reflexivity|].
  split; [rewrite lookup_insert_eq; reflexivity|].
  intros key Hkey. rewrite !lookup_insert_ne; [reflexivity| | |];
    intros <-; apply Hkey; rewrite !elem_of_cons; auto.
Qed.

Lemma Initialize_sets_defaults_once_witness :
  exists sys' m',
    Initialize (CognitiveSystem.mk 0 ∅ (<["max_agents" := "5"]> ∅) false, seeded boot) =
      Ok tt (sys', m') /\
    CognitiveSystem.m_initialized sys' = true /\
    Initialize (sys', m') = Ok tt (sys', m') /\
    GetConfiguration "max_agents" (sys', m') = Ok "10" (sys', m').
Proof.
  assert (H1 : spaces (seeded boot) !!
                 CognitiveSystem.m_globalAtomSpace
                   (CognitiveSystem.mk 0 ∅ (<["max_agents" := "5"]> ∅) false) =
               Some boot_space) by reflexivity.
  destruct (Initialize_sets_defaults_once
              (CognitiveSystem.mk 0 ∅ (<["max_agents" := "5"]> ∅) false)
              (seeded boot) boot_space H1)
    as (sys' & m' & s' & Hrun & Hinit & _ & _ & _ & Hagain & _ & Hfresh).
  exists sys', m'. split; [exact Hrun|]. split; [exact Hinit|]. split; [exact Hagain|].
  apply (Hfresh eq_refl).
Defined.


(** ** Registered agents *)

Lemma on_agent_run {A} name (method : AgentM A) sys m ag a ag' m' :
  CognitiveSystem.m_agents sys !! name = Some ag ->
  method (ag, m) = Ok a (ag', m') ->
  on_agent name method (sys, m) =
  Ok a (with_agents sys (<[name := ag']> (CognitiveSystem.m_agents sys)), m').
Proof. intros Hag Hrun. unfold on_agent. rewrite Hag, Hrun. reflexivity. Qed.

Lemma GetAgent_run name sys m :
  GetAgent name (sys, m) = Ok (CognitiveSystem.m_agents sys !! name) (sys, m).
Proof. reflexivity. Qed.

Lemma GetAgentCount_run sys m :
  GetAgentCount (sys, m) = Ok (Z.of_nat (size (CognitiveSystem.m_agents sys))) (sys, m).
Proof. reflexivity. Qed.

Lemma RemoveAgent_missing name sys m :
  CognitiveSystem.m_agents sys !! name = None ->
  RemoveAgent name (sys, m) = Ok false (sys, m).
Proof.
  intros Hag. unfold RemoveAgent. rewrite (bind_run _ _ _ _ _ (this_run _ _)), Hag.
  reflexivity.
Qed.

(** X14: [RemoveAgent] on a name that is not registered returns [false] and
    changes nothing.  On a registered name it returns [true] and removes that
    entry only: the other agents are found as before, the count drops by
    one, a second removal returns [false].  The machine is not touched: the
    atoms the agent created, "Agent:<name>" and "AgentGoal:<name>" among
    them, stay in the global store. *)
Theorem RemoveAgent_unregisters (name : string) (sys : CognitiveSystem.t) (m : Machine) :
  match CognitiveSystem.m_agents sys !! name with
  | None => RemoveAgent name (sys, m) = Ok false (sys, m)
  | Some _ =>
      let sys' := with_agents sys (delete name (CognitiveSystem.m_agents sys)) in
      RemoveAgent name (sys, m) = Ok true (sys', m) /\
      GetAgent name (sys', m) = Ok None (sys', m) /\
      GetAgentCount (sys', m) =
        Ok (Z.of_nat (size (CognitiveSystem.m_agents sys)) - 1) (sys', m) /\
      (forall other, other <> name ->
         GetAgent other (sys', m) = Ok (CognitiveSystem.m_agents sys !! other) (sys', m)) /\
      RemoveAgent name (sys', m) = Ok false (sys', m)
  end.
Proof.
  destruct (CognitiveSystem.m_agents sys !! name) as [ag|] eqn:Hag.
  2: { apply RemoveAgent_missing. exact Hag. }
  cbn zeta. split.
  { unfold RemoveAgent. rewrite (bind_run _ _ _ _ _ (this_run _ _)), Hag.
    erewrite bind_run; cycle 1.
    { eapply on_agent_run; [exact Hag|]. reflexivity. }
    rewrite (bind_run _ _ _ _ _ (this_run _ _)).
    rewrite (bind_run _ _ _ _ _ (set_agents_run _ _ _)).
    cbn [with_agents CognitiveSystem.m_agents CognitiveSystem.m_globalAtomSpace
         CognitiveSystem.m_configuration CognitiveSystem.m_initialized].
    rewrite delete_insert_eq. reflexivity. }
  rewrite !GetAgent_run, GetAgentCount_run. cbn [with_agents CognitiveSystem.m_agents].
  split; [rewrite lookup_delete_eq; reflexivity|].
  split.
  { rewrite map_size_delete_Some by (rewrite Hag; eauto).
    assert (0 < size (CognitiveSystem.m_agents sys))%nat.
    { destruct (size (CognitiveSystem.m_agents sys)) eqn:Hsz; [|lia].
      apply map_size_empty_inv in Hsz. rewrite Hsz, lookup_empty in Hag. discriminate. }
    do 2 f_equal. lia. }
  split.
  { intros other Hne. rewrite GetAgent_run. cbn [with_agents CognitiveSystem.m_agents].
    rewrite lookup_delete_ne by congruence. reflexivity. }
  apply RemoveAgent_missing. cbn. apply lookup_delete_eq.
Qed.


Lemma names_live_insert m s l (a : Atom.t) :
  names_live m s ->
  names_live (mkMachine (<[l := a]> (heap m)) (s_nextId m) (spaces m)) s.
Proof. intros Hlive n l' Hl'. cbn. rewrite length_insert. eapply Hlive. exact Hl'. Qed.

(** The constructor of an agent bound to a live store. *)
Lemma new_CognitiveAgent_effect name sp m s :
  spaces m !! sp = Some s ->
  names_live m s ->
  exists self a m' s',
    new_CognitiveAgent name (Some sp) m =
      Ok (CognitiveAgent.mk name (Some sp) CognitiveAgent.Inactive false false [] []) m' /\
    spaces m' !! sp = Some s' /\
    names_live m' s' /\
    AtomSpace.m_atomsByName s' !! ("Agent:" +:+ name) = Some self /\
    heap m' !! self = Some a /\ Atom.m_attention a = F32.f1_0 /\
    (forall n l, AtomSpace.m_atomsByName s !! n = Some l ->
       AtomSpace.m_atomsByName s' !! n = Some l) /\
    (forall n, n <> "Agent:" +:+ name ->
       AtomSpace.m_atomsByName s' !! n = AtomSpace.m_atomsByName s !! n) /\
    (length (heap m) <= length (heap m') <= S (length (heap m)))%nat.
Proof.
  intros Hs Hlive.
  destruct (CreateAtom_effect sp Atom.Agent ("Agent:" +:+ name) F32.f1_0 F32.f1_0 m s Hs)
    as (l & m1 & s1 & Hrun & Hs1 & Hn1 & Hkeep & Hsame & _ & Hpre & Hlen & _ & Hlive1).
  destruct (Hlive1 Hlive) as [Hlive1' Hl].
  destruct (lookup_lt_is_Some_2 (heap m1) l Hl) as [a Ha].
  exists l, (Atom.SetAttention F32.f1_0 a),
    (mkMachine (<[l := Atom.SetAttention F32.f1_0 a]> (heap m1)) (s_nextId m1) (spaces m1)),
    s1.
  split.
  { unfold new_CognitiveAgent. erewrite bind_run; [reflexivity|].
    rewrite (bind_run _ _ _ _ _ Hrun). apply on_atom_run. exact Ha. }
  split; [exact Hs1|]. split; [apply names_live_insert; exact Hlive1'|].
  split; [exact Hn1|].
  split; [cbn; apply list_lookup_insert_eq; exact Hl|]. split; [reflexivity|].
  split.
  { intros n l' Hl'. destruct (decide (n = "Agent:" +:+ name)) as [->|Hne].
    - destruct (Hsame _ Hl') as [-> _]. exact Hn1.
    - rewrite Hkeep by exact Hne. exact Hl'. }
  split; [exact Hkeep|].
  cbn [heap]. rewrite length_insert.
  split; [apply list_relations.list.prefix_length; exact Hpre|exact Hlen].
Qed.

Lemma Agent_name_not_AgentGoal (name : string) :
  "AgentGoal:" +:+ name <> "Agent:" +:+ name.
Proof. intros Heq. vm_compute in Heq. discriminate Heq. Qed.

(** X15: [CreateAgent] on a registry with a well-formed global store.  On
    a registered name it returns the registered agent and changes nothing.
    Otherwise it registers a new agent under the name and leaves the other
    agents alone: the agent is [Inactive], bound to the global store, without
    memories; the names "Agent:<name>" and "AgentGoal:<name>" are bound
    afterwards, the former to an atom at attention 1.0; the agent's goal
    list holds the atom bound to "AgentGoal:<name>" if that atom is of type
    Goal and is empty otherwise, and the atom is a Goal at truth 0.5 and
    confidence 0.8 when the name was free.  At most two atoms are created
    and no binding is lost.  A second call changes nothing. *)
Theorem CreateAgent_registers_once (name : string) (sys : CognitiveSystem.t) (m : Machine)
    (s : AtomSpace.t) :
  spaces m !! CognitiveSystem.m_globalAtomSpace sys = Some s ->
  space_okb m s = true ->
  exists sys' m' s',
    CreateAgent name (sys, m) = Ok name (sys', m') /\
    spaces m' !! CognitiveSystem.m_globalAtomSpace sys = Some s' /\
    CreateAgent name (sys', m') = Ok name (sys', m') /\
    (forall other, other <> name ->
       CognitiveSystem.m_agents sys' !! other = CognitiveSystem.m_agents sys !! other) /\
    (CognitiveSystem.m_agents sys !! name <> None -> sys' = sys /\ m' = m) /\
    (CognitiveSystem.m_agents sys !! name = None ->
       exists goal g self a,
         AtomSpace.m_atomsByName s' !! ("AgentGoal:" +:+ name) = Some goal /\
         heap m' !! goal = Some g /\
         AtomSpace.m_atomsByName s' !! ("Agent:" +:+ name) = Some self /\
         heap m' !! self = Some a /\ Atom.m_attention a = F32.f1_0 /\
         CognitiveSystem.m_agents sys' !! name =
           Some (CognitiveAgent.mk name (Some (CognitiveSystem.m_globalAtomSpace sys))
                   CognitiveAgent.Inactive false false
                   (if bool_decide (Atom.m_type g = Atom.Goal) then [goal] else []) []) /\
         (AtomSpace.m_atomsByName s !! ("AgentGoal:" +:+ name) = None ->
            Atom.m_type g = Atom.Goal /\ Atom.m_truthValue g = F32.f0_5 /\
            Atom.m_confidence g = F32.f0_8) /\
         (length (heap m) <= length (heap m') <= length (heap m) + 2)%nat /\
         (forall n l, AtomSpace.m_atomsByName s !! n = Some l ->
            AtomSpace.m_atomsByName s' !! n = Some l)).
Proof.
  intros Hs Hok. pose proof (space_ok_names_live _ _ Hok) as Hlive.
  destruct (CognitiveSystem.m_agents sys !! name) as [ag|] eqn:Hag.
  { exists sys, m, s.
    assert (Hrun : CreateAgent name (sys, m) = Ok name (sys, m)).
    { unfold CreateAgent. rewrite (bind_run _ _ _ _ _ (this_run _ _)), Hag. reflexivity. }
    repeat split; auto; discriminate. }
  set (sp := CognitiveSystem.m_globalAtomSpace sys) in *.
  destruct (new_CognitiveAgent_effect name sp m s Hs Hlive)
    as (self & a & m1 & s1 & Hnew & Hs1 & Hlive1 & Hself & Ha & Hatt & Hkeep1 & Hframe1 & Hlen1).
  destruct (CreateAtom_effect sp Atom.Goal ("AgentGoal:" +:+ name) F32.f0_5 F32.f0_8 m1 s1 Hs1)
    as (goal & m2 & s2 & Hrun & Hs2 & Hn2 & Hkeep2 & Hsame2 & Hfresh2 & Hpre2 & Hlen2 & _ & Hlive2).
  destruct (Hlive2 Hlive1) as [Hlive2' Hgoal].
  destruct (lookup_lt_is_Some_2 (heap m2) goal Hgoal) as [g Hg].
  set (agent := CognitiveAgent.mk name (Some sp) CognitiveAgent.Inactive false false [] []).
  set (agent' := CognitiveAgent.mk name (Some sp) CognitiveAgent.Inactive false false
                   (if bool_decide (Atom.m_type g = Atom.Goal) then [goal] else []) []).
  assert (HAdd : AddGoal (Some goal) (agent, m2) = Ok tt (agent', m2)).
  { unfold AddGoal. rewrite (bind_run _ _ _ _ _ (lift_run _ _ _ _ _ (deref_run _ _ _ Hg))).
    subst agent agent'. destruct (bool_decide (Atom.m_type g = Atom.Goal)); reflexivity. }
  exists (with_agents sys (<[name := agent']> (CognitiveSystem.m_agents sys))), m2, s2.
  split.
  { unfold CreateAgent. rewrite (bind_run _ _ _ _ _ (this_run _ _)), Hag.
    rewrite (bind_run _ _ _ _ _ (lift_run _ _ _ _ _ Hnew)).
    rewrite (bind_run _ _ _ _ _ (set_agents_run _ _ _)).
    rewrite (bind_run _ _ _ _ _ (lift_run _ _ _ _ _ Hrun)).
    erewrite bind_run; cycle 1.
    { eapply on_agent_run; [|exact HAdd]. cbn. apply lookup_insert_eq. }
    cbn [with_agents CognitiveSystem.m_agents CognitiveSystem.m_globalAtomSpace
         CognitiveSystem.m_configuration CognitiveSystem.m_initialized].
    rewrite insert_insert_eq. reflexivity. }
  split; [exact Hs2|].
  split.
  { unfold CreateAgent. rewrite (bind_run _ _ _ _ _ (this_run _ _)).
    cbn [with_agents CognitiveSystem.m_agents]. rewrite lookup_insert_eq. reflexivity. }
  split; [intros other Hne; cbn; apply lookup_insert_ne; congruence|].
  split; [contradiction|]. intros _.
  assert (Hself2 : AtomSpace.m_atomsByName s2 !! ("Agent:" +:+ name) = Some self).
  { rewrite Hkeep2; [exact Hself|].
    intros Heq. symmetry in Heq. exact (Agent_name_not_AgentGoal _ Heq). }
  pose proof (prefix_lookup_Some _ _ _ _ Ha Hpre2) as Ha2.
  exists goal, g, self, a.
  split; [exact Hn2|]. split; [exact Hg|]. split; [exact Hself2|].
  split; [exact Ha2|]. split; [exact Hatt|].
  split; [cbn; apply lookup_insert_eq|].
  split.
  { intros Hnone.
    assert (Hnone1 : AtomSpace.m_atomsByName s1 !! ("AgentGoal:" +:+ name) = None).
    { rewrite Hframe1 by apply Agent_name_not_AgentGoal. exact Hnone. }
    destruct (Hfresh2 Hnone1) as [-> Hheap]. rewrite Hheap in Hg.
    rewrite lookup_app_r in Hg by lia. rewrite Nat.sub_diag in Hg. inversion Hg.
    cbn. auto. }
  split.
  { pose proof (list_relations.list.prefix_length _ _ Hpre2). lia. }
  intros n l Hl. specialize (Hkeep1 _ _ Hl).
  destruct (decide (n = "AgentGoal:" +:+ name)) as [->|Hne].
  - destruct (Hsame2 _ Hkeep1) as [-> _]. exact Hn2.
  - rewrite Hkeep2 by exact Hne. exact Hkeep1.
Qed.

Lemma CreateAgent_registers_once_witness :
  exists sys' m',
    CreateAgent "Agent1" (CognitiveSystem.mk 0 ∅ ∅ false, seeded boot) =
      Ok "Agent1" (sys', m') /\
    CreateAgent "Agent1" (sys', m') = Ok "Agent1" (sys', m').
Proof.
  assert (H1 : spaces (seeded boot) !!
                 CognitiveSystem.m_globalAtomSpace (CognitiveSystem.mk 0 ∅ ∅ false) =
               Some boot_space) by reflexivity.
  assert (H2 : space_okb (seeded boot) boot_space = true) by (vm_compute; reflexivity).
  destruct (CreateAgent_registers_once "Agent1" (CognitiveSystem.mk 0 ∅ ∅ false)
              (seeded boot) boot_space H1 H2)
    as (sys' & m' & s' & Hrun & _ & Hagain & _).
  exists sys', m'. split; [exact Hrun|exact Hagain].
Defined.


(** ** Shutting the registry down *)

Section Shutdown.

Context `{BucketOrder}.

Lemma stop_all_run (L : list (string * CognitiveAgent.t)) sys m :
  (forall e, e ∈ L -> is_Some (CognitiveSystem.m_agents sys !! e.1)) ->
  exists agents',
    for_each L (fun '(name, _) => on_agent name Stop) (sys, m) =
      Ok tt (with_agents sys agents', m) /\
    (forall n, is_Some (agents' !! n) <-> is_Some (CognitiveSystem.m_agents sys !! n)).
Proof.
  intros HL.
  destruct (for_each_inv
              (fun st : CognitiveSystem.t * Machine =>
                 exists agents', st = (with_agents sys agents', m) /\
                   forall n, is_Some (agents' !! n) <->
                             is_Some (CognitiveSystem.m_agents sys !! n))
              L (fun '(name, _) => on_agent name Stop)) with (s := (sys, m))
    as (st & Hrun & agents' & -> & Hdom).
  - intros [name ag0] st Hin (agents1 & -> & Hdom).
    destruct (proj2 (Hdom name) (HL _ Hin)) as [ag Hag].
    erewrite on_agent_run; [|exact Hag|reflexivity].
    eexists. split; [reflexivity|]. eexists. split; [reflexivity|].
    intros n. cbn [with_agents CognitiveSystem.m_agents]. rewrite <- Hdom.
    destruct (decide (n = name)) as [->|Hne].
    + rewrite lookup_insert_eq, Hag. split; eauto.
    + rewrite lookup_insert_ne by congruence. reflexivity.
  - exists (CognitiveSystem.m_agents sys). split; [|reflexivity].
    destruct sys; reflexivity.
  - exists agents'. split; [exact Hrun|exact Hdom].
Qed.

Lemma Shutdown_run sys m :
  Shutdown (sys, m) =
  Ok tt (if CognitiveSystem.m_initialized sys
         then CognitiveSystem.mk (CognitiveSystem.m_globalAtomSpace sys) ∅
                (CognitiveSystem.m_configuration sys) false
         else sys, m).
Proof.
  unfold Shutdown. rewrite (bind_run _ _ _ _ _ (this_run _ _)).
  rewrite (bind_run _ _ _ _ _ (set_initialized_run _ _ _)).
  destruct sys as [sp agents config [|]]; cbn [CognitiveSystem.m_initialized negb];
    [|reflexivity].
  destruct (stop_all_run (agents_order agents)
              (CognitiveSystem.mk sp agents config false) m) as (agents' & Hrun & _).
  { intros [name ag] Hin. cbn. exists ag. apply agents_order_lookup. exact Hin. }
  cbn [CognitiveSystem.m_agents CognitiveSystem.m_globalAtomSpace
       CognitiveSystem.m_configuration] in *.
  rewrite (bind_run _ _ _ _ _ Hrun). reflexivity.
Qed.

End Shutdown.

(** X16: [Shutdown] always returns and never touches the machine or the
    configuration.  On an initialised registry it clears the flag and empties
    the registry: the count is 0, no name is listed, no agent is found.  On a
    registry that is not initialised it does nothing, so agents created
    without [Initialize] stay registered.  Afterwards a second [Shutdown]
    and [UpdateSystem] are both without effect. *)
Theorem Shutdown_drops_all_agents `{BucketOrder} (sys : CognitiveSystem.t) (m : Machine) :
  exists sys',
    Shutdown (sys, m) = Ok tt (sys', m) /\
    CognitiveSystem.m_initialized sys' = false /\
    CognitiveSystem.m_configuration sys' = CognitiveSystem.m_configuration sys /\
    CognitiveSystem.m_globalAtomSpace sys' = CognitiveSystem.m_globalAtomSpace sys /\
    (CognitiveSystem.m_initialized sys = true ->
       CognitiveSystem.m_agents sys' = ∅ /\
       GetAgentCount (sys', m) = Ok 0 (sys', m) /\
       GetAgentNames (sys', m) = Ok [] (sys', m) /\
       forall name, GetAgent name (sys', m) = Ok None (sys', m)) /\
    (CognitiveSystem.m_initialized sys = false -> sys' = sys) /\
    Shutdown (sys', m) = Ok tt (sys', m) /\
    UpdateSystem (sys', m) = Ok tt (sys', m).
Proof.
  eexists. split; [apply Shutdown_run|].
  destruct sys as [sp agents config [|]];
    cbn [CognitiveSystem.m_initialized CognitiveSystem.m_configuration
         CognitiveSystem.m_globalAtomSpace CognitiveSystem.m_agents].
  - split; [reflexivity|]. split; [reflexivity|]. split; [reflexivity|].
    split.
    { intros _. split; [reflexivity|]. split; [reflexivity|]. split; [|reflexivity].
      unfold GetAgentNames. rewrite (bind_run _ _ _ _ _ (this_run _ _)).
      cbn [CognitiveSystem.m_agents].
      pose proof (agents_order_perm (∅ : gmap string CognitiveAgent.t)) as Hp.
      rewrite map_to_list_empty in Hp. apply Permutation_nil_r in Hp. rewrite Hp.
      reflexivity. }
    split; [discriminate|]. split; [rewrite Shutdown_run|]; reflexivity.
  - split; [reflexivity|]. split; [reflexivity|]. split; [reflexivity|].
    split; [discriminate|]. split; [reflexivity|].
    split; [rewrite Shutdown_run|]; reflexivity.
Qed.


(** ** Messages *)

Lemma string_length_app (s1 s2 : string) :
  String.length (s1 +:+ s2) = (String.length s1 + String.length s2)%nat.
Proof.
  induction s1 as [|c s1 IH]; [reflexivity|].
  change (String c s1 +:+ s2) with (String c (s1 +:+ s2)). cbn [String.length].
  rewrite IH. reflexivity.
Qed.

Lemma ReceiveMessage_run fromAgent message ag m sp node m' :
  CognitiveAgent.m_atomSpace ag = Some sp ->
  CreateAtom sp Atom.Memory (message_name fromAgent message) F32.f1_0 F32.f0_9 m = Ok node m' ->
  ReceiveMessage fromAgent message (ag, m) = Ok tt (remembering node ag, m').
Proof.
  intros Hsp Hrun. unfold ReceiveMessage.
  rewrite (bind_run _ _ _ _ _ (this_run _ _)), Hsp.
  rewrite (bind_run _ _ _ _ _ (lift_run _ _ _ _ _ Hrun)). reflexivity.
Qed.

(** X17: [ReceiveMessage] on an agent bound to a live store appends one
    pointer to the memory list and changes nothing else of the agent.  The
    pointer is the node bound to "Message:<from>:<message>": the node that
    name was bound to already, the machine then being unchanged, or else a
    new Memory atom at truth 1.0 and confidence 0.9.  Receiving the same
    message again appends the same pointer again and creates no atom.  The
    name has at least 9 characters, so the [substr(9)] of [Reason] does not
    throw on it. *)
Theorem ReceiveMessage_files_a_memory (fromAgent message : string)
    (ag : CognitiveAgent.t) (m : Machine) (sp : nat) (s : AtomSpace.t) :
  CognitiveAgent.m_atomSpace ag = Some sp ->
  spaces m !! sp = Some s ->
  exists node m' s',
    ReceiveMessage fromAgent message (ag, m) = Ok tt (remembering node ag, m') /\
    spaces m' !! sp = Some s' /\
    AtomSpace.m_atomsByName s' !! message_name fromAgent message = Some node /\
    (forall node0, AtomSpace.m_atomsByName s !! message_name fromAgent message = Some node0 ->
       node = node0 /\ m' = m) /\
    (AtomSpace.m_atomsByName s !! message_name fromAgent message = None ->
       node = length (heap m) /\
       heap m' = heap m ++ [Atom.ctor Atom.Memory (message_name fromAgent message)
                              F32.f1_0 F32.f0_9 (s_nextId m)]) /\
    ReceiveMessage fromAgent message (remembering node ag, m') =
      Ok tt (remembering node (remembering node ag), m') /\
    (9 <= String.length (message_name fromAgent message))%nat.
Proof.
  intros Hsp Hs.
  destruct (CreateAtom_effect sp Atom.Memory (message_name fromAgent message)
              F32.f1_0 F32.f0_9 m s Hs)
    as (node & m' & s' & Hrun & Hs' & Hn & _ & Hsame & Hfresh & _).
  exists node, m', s'.
  split; [apply (ReceiveMessage_run _ _ _ _ _ _ _ Hsp Hrun)|].
  split; [exact Hs'|]. split; [exact Hn|]. split; [exact Hsame|]. split; [exact Hfresh|].
  split.
  - apply (ReceiveMessage_run _ _ _ _ sp); [exact Hsp|].
    apply (CreateAtom_existing _ _ _ _ _ _ _ _ Hs' Hn).
  - unfold message_name. rewrite !string_length_app. cbn [String.length]. lia.
Qed.

Lemma ReceiveMessage_files_a_memory_witness :
  exists node m',
    ReceiveMessage "System" "tick" (test_agent_on_store.1.1, test_agent_on_store.1.2) =
      Ok tt (remembering node test_agent_on_store.1.1, m') /\
    ReceiveMessage "System" "tick" (remembering node test_agent_on_store.1.1, m') =
      Ok tt (remembering node (remembering node test_agent_on_store.1.1), m').
Proof.
  pose (s := default (AtomSpace.mk ∅ ∅) (spaces test_agent_on_store.1.2 !! 0%nat)).
  assert (H1 : CognitiveAgent.m_atomSpace test_agent_on_store.1.1 = Some 0%nat)
    by reflexivity.
  assert (H2 : spaces test_agent_on_store.1.2 !! 0%nat = Some s)
    by (vm_compute; reflexivity).
  destruct (ReceiveMessage_files_a_memory "System" "tick"
              test_agent_on_store.1.1 test_agent_on_store.1.2 0%nat s H1 H2)
    as (node & m' & s' & Hrun & _ & _ & _ & _ & Hagain & _).
  exists node, m'. split; [exact Hrun|exact Hagain].
Defined.


Section Broadcast.

Context `{BucketOrder}.

Lemma with_agents_twice sys A B : with_agents (with_agents sys A) B = with_agents sys B.
Proof. reflexivity. Qed.

Lemma broadcast_bound (L : list (string * CognitiveAgent.t)) message sys A m sp s node :
  spaces m !! sp = Some s ->
  AtomSpace.m_atomsByName s !! message_name "System" message = Some node ->
  NoDup L.*1 ->
  (forall n a, (n, a) ∈ L -> A !! n = Some a /\ CognitiveAgent.m_atomSpace a = Some sp) ->
  exists A',
    for_each L (fun '(name, _) => on_agent name (ReceiveMessage "System" message))
      (with_agents sys A, m) = Ok tt (with_agents sys A', m) /\
    (forall n a, (n, a) ∈ L -> A' !! n = Some (remembering node a)) /\
    (forall n, n ∉ L.*1 -> A' !! n = A !! n).
Proof.
  intros Hs Hnode. revert A. induction L as [|[n a] L IH]; intros A Hnd HL.
  - exists A. split; [reflexivity|]. split; [|reflexivity].
    intros n a Hin. apply elem_of_nil in Hin. contradiction.
  - cbn in Hnd. apply NoDup_cons in Hnd. destruct Hnd as [Hn Hnd].
    destruct (HL n a ltac:(left)) as [Ha Hsp].
    destruct (IH (<[n := remembering node a]> A) Hnd) as (A' & Hrun & Hin' & Hout').
    { intros n' a' Hin. destruct (HL n' a' ltac:(right; exact Hin)) as [Ha' Hsp'].
      split; [|exact Hsp']. rewrite lookup_insert_ne; [exact Ha'|].
      intros <-. apply Hn. apply list_elem_of_fmap. exists (n, a'). auto. }
    exists A'. split; [|split].
    + cbn [for_each]. erewrite bind_run; [exact Hrun|].
      erewrite on_agent_run; cycle 1.
      * cbn. exact Ha.
      * apply (ReceiveMessage_run _ _ _ _ sp); [exact Hsp|].
        apply (CreateAtom_existing _ _ _ _ _ _ _ _ Hs Hnode).
      * reflexivity.
    + intros n' a' Hin. apply elem_of_cons in Hin. destruct Hin as [[= -> ->]|Hin].
      * rewrite Hout' by exact Hn. apply lookup_insert_eq.
      * apply Hin'. exact Hin.
    + intros n' Hn'. cbn in Hn'. apply not_elem_of_cons in Hn'. destruct Hn' as [Hne Hn'].
      rewrite Hout' by exact Hn'. apply lookup_insert_ne. congruence.
Qed.

End Broadcast.

Lemma agents_bound_lookup sys :
  agents_boundb sys = true ->
  forall name ag, CognitiveSystem.m_agents sys !! name = Some ag ->
    CognitiveAgent.m_atomSpace ag = Some (CognitiveSystem.m_globalAtomSpace sys).
Proof.
  unfold agents_boundb. rewrite forallb_forall. intros Hall name ag Hag.
  eapply bool_decide_eq_true_1.
  apply (Hall (name, ag)), list_elem_of_In, elem_of_map_to_list, Hag.
Qed.

(** X18: [BroadcastMessage] on a registry whose agents all work on the
    live global store.  With no agent registered it does nothing, and no
    atom is created.  Otherwise every registered agent gets exactly one more
    memory and no other change, whatever the iteration order, and all agents
    get the same pointer: the node bound to "Message:System:<message>",
    which is created by the first delivery if the name was free (one new
    atom) and is the existing node otherwise (the machine unchanged). *)
Theorem BroadcastMessage_reaches_every_agent `{BucketOrder} (message : string)
    (sys : CognitiveSystem.t) (m : Machine) (s : AtomSpace.t) :
  spaces m !! CognitiveSystem.m_globalAtomSpace sys = Some s ->
  agents_boundb sys = true ->
  (CognitiveSystem.m_agents sys = ∅ -> BroadcastMessage message (sys, m) = Ok tt (sys, m)) /\
  (CognitiveSystem.m_agents sys <> ∅ ->
     exists node agents' m' s',
       BroadcastMessage message (sys, m) = Ok tt (with_agents sys agents', m') /\
       spaces m' !! CognitiveSystem.m_globalAtomSpace sys = Some s' /\
       AtomSpace.m_atomsByName s' !! message_name "System" message = Some node /\
       (forall name,
          agents' !! name = remembering node <$> CognitiveSystem.m_agents sys !! name) /\
       (forall node0,
          AtomSpace.m_atomsByName s !! message_name "System" message = Some node0 ->
          node = node0 /\ m' = m) /\
       (AtomSpace.m_atomsByName s !! message_name "System" message = None ->
          node = length (heap m) /\
          heap m' = heap m ++ [Atom.ctor Atom.Memory (message_name "System" message)
                                 F32.f1_0 F32.f0_9 (s_nextId m)])).
Proof.
  intros Hs Hbound. pose proof (agents_bound_lookup _ Hbound) as Hbound'.
  clear Hbound. rename Hbound' into Hbound.
  set (sp := CognitiveSystem.m_globalAtomSpace sys) in *.
  assert (Hrun0 : BroadcastMessage message (sys, m) =
                  for_each (agents_order (CognitiveSystem.m_agents sys))
                    (fun '(name, _) => on_agent name (ReceiveMessage "System" message))
                    (sys, m)).
  { unfold BroadcastMessage. rewrite (bind_run _ _ _ _ _ (this_run _ _)). reflexivity. }
  assert (Hnd : NoDup (agents_order (CognitiveSystem.m_agents sys)).*1).
  { rewrite agents_order_perm. apply NoDup_fst_map_to_list. }
  assert (HL : forall n a, (n, a) ∈ agents_order (CognitiveSystem.m_agents sys) <->
                           CognitiveSystem.m_agents sys !! n = Some a).
  { intros n a. rewrite agents_order_perm. apply elem_of_map_to_list. }
  split.
  { intros Hempty. rewrite Hrun0.
    pose proof (agents_order_perm (CognitiveSystem.m_agents sys)) as Hp.
    rewrite Hempty, map_to_list_empty in Hp. apply Permutation_nil_r in Hp.
    rewrite Hempty, Hp. reflexivity. }
  intros Hne. rewrite Hrun0.
  destruct (agents_order (CognitiveSystem.m_agents sys)) as [|[n a] L] eqn:HLeq.
  { exfalso. apply Hne. apply map_eq. intros n. rewrite lookup_empty.
    destruct (CognitiveSystem.m_agents sys !! n) as [a|] eqn:Ha; [|reflexivity].
    apply HL in Ha. apply elem_of_nil in Ha. contradiction. }
  pose proof (proj1 (HL n a) ltac:(left)) as Ha.
  destruct (CreateAtom_effect sp Atom.Memory (message_name "System" message)
              F32.f1_0 F32.f0_9 m s Hs)
    as (node & m' & s' & Hrun & Hs' & Hn & _ & Hsame & Hfresh & _).
  cbn in Hnd. apply NoDup_cons in Hnd. destruct Hnd as [Hn' Hnd].
  destruct (broadcast_bound L message sys
              (<[n := remembering node a]> (CognitiveSystem.m_agents sys)) m' sp s' node
              Hs' Hn Hnd) as (A' & Hloop & Hin' & Hout').
  { intros n' a' Hin. pose proof (proj1 (HL n' a') ltac:(right; exact Hin)) as Ha'.
    split; [|apply (Hbound _ _ Ha')]. rewrite lookup_insert_ne; [exact Ha'|].
    intros <-. apply Hn'. apply list_elem_of_fmap. exists (n, a'). auto. }
  exists node, A', m', s'. split.
  { cbn [for_each]. erewrite bind_run; [exact Hloop|].
    erewrite on_agent_run; [reflexivity|exact Ha|].
    apply (ReceiveMessage_run _ _ _ _ sp); [apply (Hbound _ _ Ha)|exact Hrun]. }
  split; [exact Hs'|]. split; [exact Hn|]. split; [|split; [exact Hsame|exact Hfresh]].
  intros name. destruct (CognitiveSystem.m_agents sys !! name) as [ag|] eqn:Hag; cbn.
  - apply HL in Hag. apply elem_of_cons in Hag. destruct Hag as [[= -> ->]|Hag].
    + rewrite Hout' by exact Hn'. apply lookup_insert_eq.
    + apply Hin'. exact Hag.
  - assert (Hnot : name ∉ ((n, a) :: L).*1).
    { intros Hin. apply list_elem_of_fmap in Hin. destruct Hin as ([n' a'] & -> & Hin).
      apply HL in Hin. cbn in Hag. congruence. }
    cbn in Hnot. apply not_elem_of_cons in Hnot. destruct Hnot as [Hne' Hnot].
    rewrite Hout' by exact Hnot. rewrite lookup_insert_ne by congruence. exact Hag.
Qed.

Lemma BroadcastMessage_reaches_every_agent_witness :
  exists node agents' m',
    BroadcastMessage "tick" two_idle_agents =
      Ok tt (with_agents two_idle_agents.1 agents', m') /\
    (forall name,
       agents' !! name =
       remembering node <$> CognitiveSystem.m_agents two_idle_agents.1 !! name).
Proof.
  pose (s := default (AtomSpace.mk ∅ ∅) (spaces two_idle_agents.2 !! 0%nat)).
  assert (H1 : spaces two_idle_agents.2 !!
                 CognitiveSystem.m_globalAtomSpace two_idle_agents.1 = Some s)
    by (vm_compute; reflexivity).
  assert (H2 : agents_boundb two_idle_agents.1 = true) by (vm_compute; reflexivity).
  assert (H3 : CognitiveSystem.m_agents two_idle_agents.1 <> ∅)
    by (intros Heq; apply (f_equal size) in Heq; vm_compute in Heq; discriminate Heq).
  destruct (proj2 (BroadcastMessage_reaches_every_agent "tick"
                     two_idle_agents.1 two_idle_agents.2 s H1 H2) H3)
    as (node & agents' & m' & s' & Hrun & _ & _ & Hall & _).
  exists node, agents', m'. split; [exact Hrun|exact Hall].
Defined.


(** ** No dangling pointer *)



Lemma evolves_refl m : evolves m m.
Proof. split; [reflexivity|]. intros l a Ha. exists a. auto. Qed.

Lemma evolves_trans m1 m2 m3 : evolves m1 m2 -> evolves m2 m3 -> evolves m1 m3.
Proof.
  intros [Hs12 H12] [Hs23 H23]. split; [congruence|].
  intros l a Ha. destruct (H12 _ _ Ha) as (a2 & Ha2 & Hn2).
  destruct (H23 _ _ Ha2) as (a3 & Ha3 & Hn3). exists a3. split; [exact Ha3|congruence].
Qed.

Lemma evolves_length m m' : evolves m m' -> (length (heap m) <= length (heap m'))%nat.
Proof.
  intros [_ Hev].
  destruct (decide (length (heap m) <= length (heap m'))%nat) as [Hle|Hgt]; [exact Hle|].
  destruct (lookup_lt_is_Some_2 (heap m) (length (heap m')) ltac:(lia)) as [a Ha].
  destruct (Hev _ _ Ha) as (a' & Ha' & _). apply lookup_lt_Some in Ha'. lia.
Qed.

Lemma evolves_lt m m' l : evolves m m' -> (l < length (heap m))%nat -> (l < length (heap m'))%nat.
Proof. intros Hev Hl. pose proof (evolves_length _ _ Hev). lia. Qed.

Lemma memory_ok_evolves m m' l : evolves m m' -> memory_ok m l -> memory_ok m' l.
Proof.
  intros [_ Hev] (a & Ha & Hlen). destruct (Hev _ _ Ha) as (a' & Ha' & Hn).
  exists a'. split; [exact Ha'|]. rewrite Hn. exact Hlen.
Qed.

Lemma agent_live_evolves sp ag m m' :
  evolves m m' -> agent_live sp ag m -> agent_live sp ag m'.
Proof.
  intros Hev (Hsp & Hlt & Hgoals & Hmems). split; [exact Hsp|].
  split; [destruct Hev as [-> _]; exact Hlt|]. split.
  - eapply Forall_impl; [exact Hgoals|]. intros l Hl. eapply evolves_lt; eauto.
  - eapply Forall_impl; [exact Hmems|]. intros l Hl. eapply memory_ok_evolves; eauto.
Qed.

Lemma Forall_lt_le (ls : list loc) (n n' : nat) :
  (n <= n')%nat -> Forall (fun x => x < n)%nat ls -> Forall (fun x => x < n')%nat ls.
Proof. intros Hle Hall. eapply Forall_impl; [exact Hall|]. intros x Hx. cbn in *. lia. Qed.

(** An update in place that keeps the name and leaves live links. *)
Lemma on_atom_live l f m a :
  live m -> heap m !! l = Some a ->
  Atom.m_name (f a) = Atom.m_name a ->
  Forall (fun x => x < length (heap m))%nat (Atom.m_outgoingLinks (f a)) ->
  Forall (fun x => x < length (heap m))%nat (Atom.m_incomingLinks (f a)) ->
  let m' := mkMachine (<[l := f a]> (heap m)) (s_nextId m) (spaces m) in
  on_atom l f m = Ok tt m' /\ live m' /\ evolves m m' /\
  length (heap m') = length (heap m).
Proof.
  intros [Hstores Hlinks] Ha Hname Hout Hin. cbn zeta.
  split; [apply on_atom_run; exact Ha|].
  assert (Hlookup : forall l' b, heap m !! l' = Some b ->
            exists b', <[l := f a]> (heap m) !! l' = Some b' /\
                       Atom.m_name b' = Atom.m_name b).
  { intros l' b Hb. destruct (decide (l = l')) as [<-|Hne].
    - rewrite Ha in Hb. inversion Hb. subst b. exists (f a).
      split; [apply list_lookup_insert_eq; eapply lookup_lt_Some; exact Ha|exact Hname].
    - exists b. rewrite list_lookup_insert_ne by exact Hne. auto. }
  split; [split|split; [split; [reflexivity|exact Hlookup]|cbn; apply length_insert]].
  - intros sp s Hs. cbn in Hs. destruct (Hstores _ _ Hs) as [Hids Hnames]. split.
    + intros id l' Hl'. cbn. rewrite length_insert. eapply Hids. exact Hl'.
    + intros n l' Hl'. destruct (Hnames _ _ Hl') as (b & Hb & Hbn).
      destruct (Hlookup _ _ Hb) as (b' & Hb' & Hn'). exists b'. split; [exact Hb'|congruence].
  - intros l' b Hb. cbn [heap] in *. rewrite length_insert.
    destruct (decide (l = l')) as [<-|Hne].
    + rewrite list_lookup_insert_eq in Hb by (eapply lookup_lt_Some; exact Ha).
      inversion Hb. subst b. auto.
    + rewrite list_lookup_insert_ne in Hb by exact Hne. apply Hlinks in Hb. exact Hb.
Qed.

(** Creation on a live machine. *)
Lemma CreateAtom_live sp type name tv conf m :
  live m -> (sp < length (spaces m))%nat ->
  exists l m' a,
    CreateAtom sp type name tv conf m = Ok l m' /\
    live m' /\ evolves m m' /\
    heap m' !! l = Some a /\ Atom.m_name a = name /\
    (length (heap m') <= S (length (heap m)))%nat /\
    heap m `prefix_of` heap m'.
Proof.
  intros [Hstores Hlinks] Hsp.
  destruct (lookup_lt_is_Some_2 (spaces m) sp Hsp) as [s Hs].
  destruct (Hstores _ _ Hs) as [Hids Hnames].
  destruct (AtomSpace.m_atomsByName s !! name) as [l|] eqn:Hn.
  - destruct (Hnames _ _ Hn) as (a & Ha & Hname). exists l, m, a.
    split; [apply (CreateAtom_existing _ _ _ _ _ _ _ _ Hs Hn)|].
    split; [split; assumption|]. split; [apply evolves_refl|].
    split; [exact Ha|]. split; [exact Hname|]. split; [lia|reflexivity].
  - rewrite (CreateAtom_fresh _ _ _ _ _ _ _ Hs Hn). eexists _, _, _.
    split; [reflexivity|].
    split; [split|].
    + intros sp' s' Hs'. unfold store_live. cbn [spaces heap] in *.
      rewrite length_app. cbn [length].
      destruct (decide (sp = sp')) as [<-|Hne].
      * rewrite list_lookup_insert_eq in Hs' by exact Hsp. inversion Hs'. subst s'.
        cbn [AtomSpace.m_atoms AtomSpace.m_atomsByName]. split.
        -- intros id l Hl. apply lookup_insert_Some in Hl.
           destruct Hl as [[_ <-]|[_ Hl]]; [lia|]. specialize (Hids _ _ Hl). lia.
        -- intros n l Hl. apply lookup_insert_Some in Hl.
           destruct Hl as [[<- <-]|[_ Hl]].
           ++ eexists. split; [rewrite lookup_app_r by lia; rewrite Nat.sub_diag; reflexivity|].
              reflexivity.
           ++ destruct (Hnames _ _ Hl) as (a & Ha & Hname). exists a.
              split; [apply lookup_app_l_Some; exact Ha|exact Hname].
      * rewrite list_lookup_insert_ne in Hs' by exact Hne.
        destruct (Hstores _ _ Hs') as [Hids' Hnames']. split.
        -- intros id l Hl. specialize (Hids' _ _ Hl). lia.
        -- intros n l Hl. destruct (Hnames' _ _ Hl) as (a & Ha & Hname). exists a.
           split; [apply lookup_app_l_Some; exact Ha|exact Hname].
    + intros l a Ha. cbn [heap] in *. rewrite length_app. cbn [length].
      destruct (decide (l < length (heap m))%nat) as [Hlt|Hge].
      * rewrite lookup_app_l in Ha by exact Hlt. destruct (Hlinks _ _ Ha) as [Ho Hi].
        split; eapply Forall_lt_le; try eassumption; lia.
      * rewrite lookup_app_r in Ha by lia.
        destruct (l - length (heap m))%nat; [|destruct n; discriminate].
        inversion Ha. cbn. split; constructor.
    + split; [split|].
      * cbn. apply length_insert.
      * intros l a Ha. exists a. cbn. split; [apply lookup_app_l_Some; exact Ha|reflexivity].
      * cbn [heap]. split; [rewrite lookup_app_r by lia; rewrite Nat.sub_diag; reflexivity|].
        split; [reflexivity|]. split; [rewrite length_app; cbn; lia|].
        apply prefix_app_r. reflexivity.
Qed.

Section LiveScans.

Context `{BucketOrder}.

Lemma live_table m sp s :
  live m -> spaces m !! sp = Some s ->
  Forall (fun l => l < length (heap m))%nat (table s).
Proof.
  intros [Hstores _] Hs. destruct (Hstores _ _ Hs) as [Hids _].
  apply Forall_forall. intros l Hl. apply elem_of_table in Hl. destruct Hl as [id Hid].
  eapply Hids. exact Hid.
Qed.

End LiveScans.

(** A loop whose invariant follows the elements already visited. *)
Lemma for_each_acc {S A} (I : list A -> S -> Prop) (l : list A) (body : A -> M S unit) :
  (forall done x rest s, l = done ++ x :: rest -> I done s ->
     exists s', body x s = Ok tt s' /\ I (done ++ [x]) s') ->
  forall s, I [] s -> exists s', for_each l body s = Ok tt s' /\ I l s'.
Proof.
  intros Hbody.
  assert (Hgen : forall rest done s, l = done ++ rest -> I done s ->
            exists s', for_each rest body s = Ok tt s' /\ I l s').
  { induction rest as [|x rest IH]; intros done s Hl Hs.
    - exists s. rewrite app_nil_r in Hl. subst done. split; [reflexivity|exact Hs].
    - destruct (Hbody done x rest s Hl Hs) as (s1 & Hx & Hs1).
      destruct (IH (done ++ [x]) s1) as (s2 & Hrest & Hs2).
      { rewrite <- app_assoc. exact Hl. }
      { exact Hs1. }
      exists s2. split; [|exact Hs2]. cbn [for_each]. rewrite (bind_run _ _ _ _ _ Hx).
      exact Hrest. }
  intros s Hs. apply (Hgen l [] s); [reflexivity|exact Hs].
Qed.

Lemma push_memory_run memory ag m :
  push_memory memory (ag, m) = Ok tt (remembering memory ag, m).
Proof. reflexivity. Qed.

Lemma Perceived_name_length (name : string) :
  (9 <= String.length ("Perceived:" +:+ name))%nat.
Proof.
  assert (Hlen : forall s1 s2, String.length (s1 +:+ s2) =
                               (String.length s1 + String.length s2)%nat).
  { induction s1 as [|c s1 IH]; intros s2; [reflexivity|].
    change (String c s1 +:+ s2) with (String c (s1 +:+ s2)). cbn [String.length].
    rewrite IH. reflexivity. }
  rewrite Hlen. cbn [String.length]. lia.
Qed.

Section Stages2.

Context `{BucketOrder}.

Lemma Perceive_live sp ag m s :
  live m -> agent_live sp ag m -> spaces m !! sp = Some s ->
  exists ag' m',
    Perceive (ag, m) = Ok tt (ag', m') /\
    live m' /\ agent_live sp ag' m' /\ evolves m m' /\
    CognitiveAgent.m_state ag' = CognitiveAgent.Active /\
    CognitiveAgent.m_goals ag' = CognitiveAgent.m_goals ag /\
    CognitiveAgent.m_shouldStop ag' = CognitiveAgent.m_shouldStop ag /\
    CognitiveAgent.m_memories ag `prefix_of` CognitiveAgent.m_memories ag' /\
    length (CognitiveAgent.m_memories ag') =
      (length (CognitiveAgent.m_memories ag) + length (perceived m s))%nat /\
    heap m `prefix_of` heap m' /\
    (length (heap m') <= length (heap m) + length (perceived m s))%nat.
Proof.
  intros Hlive Hag Hs. pose proof Hag as (Hsp & Hlt & Hgoals & Hmems).
  unfold Perceive. rewrite (bind_run _ _ _ _ _ (this_run ag m)), Hsp.
  rewrite (bind_run _ _ _ _ _ (set_state_run _ _ _)).
  set (agA := CognitiveAgent.mk _ _ CognitiveAgent.Active _ _ _ _).
  pose proof (live_table _ _ _ Hlive Hs) as Hvalid.
  rewrite (bind_run _ _ _ _ _
             (lift_run _ agA _ _ _
                (Query_pure sp _ (fun a => F32.ltb F32.f0_7 (Atom.m_attention a)) m s
                   Hs Hvalid (fun a => eq_refl)))).
  fold (perceived m s).
  match goal with
  | |- context [for_each ?l ?body] =>
      destruct (for_each_acc
                  (fun done (st : CognitiveAgent.t * Machine) =>
                     live st.2 /\ agent_live sp st.1 st.2 /\ evolves m st.2 /\
                     CognitiveAgent.m_state st.1 = CognitiveAgent.Active /\
                     CognitiveAgent.m_goals st.1 = CognitiveAgent.m_goals ag /\
                     CognitiveAgent.m_shouldStop st.1 = CognitiveAgent.m_shouldStop ag /\
                     CognitiveAgent.m_memories ag `prefix_of` CognitiveAgent.m_memories st.1 /\
                     length (CognitiveAgent.m_memories st.1) =
                       (length (CognitiveAgent.m_memories ag) + length done)%nat /\
                     heap m `prefix_of` heap st.2 /\
                     (length (heap st.2) <= length (heap m) + length done)%nat)
                  l body) with (s := (agA, m))
        as ([ag' m'] & Hloop & Hpost)
  end.
  - intros done atom rest [ag0 m0] Hsplit
      (Hlive0 & Hag0 & Hev0 & Hst0 & Hg0 & Hstop0 & Hpre0 & Hlen0 & Hheap0 & Hsize0).
    cbn [fst snd] in *.
    assert (Hatom : atom ∈ perceived m s) by (rewrite Hsplit; apply elem_of_app; right; left).
    apply elem_of_filter_bool in Hatom. destruct Hatom as [Hatom _].
    rewrite Forall_forall in Hvalid. specialize (Hvalid _ Hatom).
    destruct (lookup_lt_is_Some_2 (heap m0) atom (evolves_lt _ _ _ Hev0 Hvalid)) as [a Ha].
    rewrite (bind_run _ _ _ _ _ (lift_run _ ag0 _ _ _ (deref_run _ _ _ Ha))).
    destruct Hag0 as (Hsp0 & Hlt0 & Hgoals0 & Hmems0).
    destruct (CreateAtom_live sp Atom.Memory ("Perceived:" +:+ Atom.m_name a)
                (Atom.m_truthValue a) (Atom.m_confidence a) m0 Hlive0 Hlt0)
      as (memory & m1 & b & Hrun & Hlive1 & Hev1 & Hb & Hname & Hsize1 & Hheap1).
    rewrite (bind_run _ _ _ _ _ (lift_run _ ag0 _ _ _ Hrun)).
    rewrite push_memory_run. eexists. split; [reflexivity|]. cbn [fst snd].
    split; [exact Hlive1|]. split.
    { pose proof (agent_live_evolves sp ag0 m0 m1 Hev1
                    (conj Hsp0 (conj Hlt0 (conj Hgoals0 Hmems0)))) as (? & ? & ? & Hm1).
      split; [assumption|]. split; [assumption|]. split; [assumption|].
      cbn. apply Forall_app. split; [exact Hm1|]. constructor; [|constructor].
      exists b. split; [exact Hb|]. rewrite Hname. apply Perceived_name_length. }
    split; [eapply evolves_trans; eassumption|].
    split; [exact Hst0|]. split; [exact Hg0|]. split; [exact Hstop0|].
    split; [cbn; etrans; [exact Hpre0|apply prefix_app_r; reflexivity]|].
    split; [cbn; rewrite !length_app, Hlen0; cbn; lia|].
    split; [etrans; eassumption|]. rewrite length_app. cbn. lia.
  - cbn [fst snd]. split; [exact Hlive|]. split; [exact Hag|].
    split; [apply evolves_refl|]. split; [reflexivity|]. split; [reflexivity|].
    split; [reflexivity|]. split; [reflexivity|]. split; [cbn; lia|].
    split; [reflexivity|cbn; lia].
  - exists ag', m'. split; [exact Hloop|]. cbn [fst snd] in Hpost.
    destruct Hpost as (? & ? & ? & ? & ? & ? & ? & ? & ? & ?). auto 12.
Qed.

Lemma substr_from_Some (n : nat) (s : string) :
  (n <= String.length s)%nat -> exists t, substr_from n s = Some t.
Proof.
  revert s. induction n as [|n IH]; intros s Hle; [exists s; destruct s; reflexivity|].
  destruct s as [|c s]; cbn in Hle; [lia|]. cbn. apply IH. lia.
Qed.

(** [SetTruthValue] through a live pointer. *)
Lemma SetTruthValue_live l tv conf m a :
  live m -> heap m !! l = Some a ->
  let m' := mkMachine (<[l := Atom.SetTruthValue tv conf a]> (heap m)) (s_nextId m) (spaces m) in
  on_atom l (Atom.SetTruthValue tv conf) m = Ok tt m' /\ live m' /\ evolves m m' /\
  length (heap m') = length (heap m).
Proof.
  intros Hlive Ha. apply on_atom_live; [exact Hlive|exact Ha|reflexivity| |];
    destruct Hlive as [_ Hlinks]; apply (Hlinks _ _ Ha).
Qed.

Lemma truth_only_refl m : truth_only m m.
Proof.
  split; [reflexivity|]. split; [reflexivity|]. split; [reflexivity|].
  intros l a Ha. exists a. split; [exact Ha|]. destruct a; reflexivity.
Qed.

Lemma truth_only_trans m1 m2 m3 : truth_only m1 m2 -> truth_only m2 m3 -> truth_only m1 m3.
Proof.
  intros (Hs12 & Hn12 & Hl12 & H12) (Hs23 & Hn23 & Hl23 & H23).
  split; [congruence|]. split; [congruence|]. split; [congruence|].
  intros l a Ha. destruct (H12 _ _ Ha) as (a2 & Ha2 & Heq2).
  destruct (H23 _ _ Ha2) as (a3 & Ha3 & Heq3). exists a3. split; [exact Ha3|].
  rewrite <- Heq2, <- Heq3. reflexivity.
Qed.

Lemma SetTruthValue_truth_only l tv conf m a :
  heap m !! l = Some a ->
  truth_only m (mkMachine (<[l := Atom.SetTruthValue tv conf a]> (heap m))
                  (s_nextId m) (spaces m)).
Proof.
  intros Ha. split; [reflexivity|]. split; [reflexivity|].
  split; [cbn; apply length_insert|].
  intros l' b Hb. cbn [heap]. destruct (decide (l = l')) as [<-|Hne].
  - rewrite Ha in Hb. inversion Hb. subst b. eexists.
    split; [apply list_lookup_insert_eq; eapply lookup_lt_Some; exact Ha|].
    destruct a; reflexivity.
  - exists b. rewrite list_lookup_insert_ne by exact Hne. split; [exact Hb|].
    destruct b; reflexivity.
Qed.

Lemma Reason_live sp ag m :
  live m -> agent_live sp ag m ->
  exists m',
    Reason (ag, m) = Ok tt (ag, m') /\
    live m' /\ agent_live sp ag m' /\ evolves m m' /\ truth_only m m'.
Proof.
  intros Hlive Hag. pose proof Hag as (Hsp & Hlt & Hgoals & Hmems).
  unfold Reason. rewrite (bind_run _ _ _ _ _ (this_run ag m)), Hsp.
  match goal with
  | |- context [for_each ?l ?body] =>
      destruct (for_each_inv
                  (fun st : CognitiveAgent.t * Machine =>
                     st.1 = ag /\ live st.2 /\ evolves m st.2 /\ truth_only m st.2)
                  l body) with (s := (ag, m))
        as ([ag' m'] & Hloop & Hpost)
  end.
  - intros memory [ag0 m0] Hin (Hag0 & Hlive0 & Hev0 & Htr0).
    cbn [fst snd] in *. subst ag0. pose proof Htr0 as (Hsp0 & _ & Hlen0 & _).
    rewrite Forall_forall in Hmems.
    destruct (memory_ok_evolves _ _ _ Hev0 (Hmems _ Hin)) as (mem & Hmem & Hname).
    destruct (substr_from_Some 9 _ Hname) as [needle Hneedle].
    destruct (lookup_lt_is_Some_2 (spaces m0) sp ltac:(rewrite Hsp0; exact Hlt)) as [s0 Hs0].
    pose proof (live_table _ _ _ Hlive0 Hs0) as Hvalid.
    erewrite bind_run; cycle 1.
    { apply lift_run.
      apply (Query_pure sp _
               (fun a => if bool_decide (Atom.m_type a = Atom.Concept)
                         then str_contains (Atom.m_name a) needle else false)
               m0 s0 Hs0 Hvalid).
      intros a. unfold related_to. destruct (bool_decide (Atom.m_type a = Atom.Concept));
        [|reflexivity].
      rewrite (bind_run _ _ _ _ _ (deref_run _ _ _ Hmem)), Hneedle. reflexivity. }
    match goal with
    | |- context [for_each ?l ?body] =>
        destruct (for_each_inv
                    (fun st : CognitiveAgent.t * Machine =>
                       st.1 = ag /\ live st.2 /\ evolves m0 st.2 /\ truth_only m0 st.2)
                    l body) with (s := (ag, m0))
          as ([ag1 m1] & Hinner & Hag1 & Hlive1 & Hev1 & Htr1)
    end.
    + intros related [ag2 m2] Hrel (Hag2 & Hlive2 & Hev2 & Htr2).
      cbn [fst snd] in *. subst ag2. pose proof Htr2 as (_ & _ & Hlen2 & _).
      apply elem_of_filter_bool in Hrel. destruct Hrel as [Hrel _].
      rewrite Forall_forall in Hvalid. specialize (Hvalid _ Hrel).
      destruct (lookup_lt_is_Some_2 (heap m2) related ltac:(lia)) as [r Hr].
      destruct (lookup_lt_is_Some_2 (heap m2) memory) as [mem2 Hmem2].
      { rewrite Hlen2. eapply lookup_lt_Some. exact Hmem. }
      rewrite (bind_run _ _ _ _ _ (lift_run _ ag _ _ _ (deref_run _ _ _ Hr))).
      rewrite (bind_run _ _ _ _ _ (lift_run _ ag _ _ _ (deref_run _ _ _ Hmem2))).
      match goal with
      | |- context [Atom.SetTruthValue ?tv ?conf] =>
          destruct (SetTruthValue_live related tv conf m2 r Hlive2 Hr)
            as (Hrun & Hlive3 & Hev3 & _);
          pose proof (SetTruthValue_truth_only related tv conf m2 r Hr) as Htr3
      end.
      eexists. split; [apply lift_run; exact Hrun|]. cbn [fst snd].
      split; [reflexivity|]. split; [exact Hlive3|].
      split; [eapply evolves_trans; eassumption|eapply truth_only_trans; eassumption].
    + cbn [fst snd]. split; [reflexivity|]. split; [exact Hlive0|].
      split; [apply evolves_refl|apply truth_only_refl].
    + cbn [fst snd] in *. subst ag1. eexists. split; [exact Hinner|]. cbn [fst snd].
      split; [reflexivity|]. split; [exact Hlive1|].
      split; [eapply evolves_trans; eassumption|eapply truth_only_trans; eassumption].
  - cbn [fst snd]. split; [reflexivity|]. split; [exact Hlive|].
    split; [apply evolves_refl|apply truth_only_refl].
  - cbn [fst snd] in Hpost. destruct Hpost as (-> & Hlive' & Hev' & Htr').
    exists m'. split; [exact Hloop|]. split; [exact Hlive'|].
    split; [eapply agent_live_evolves; eassumption|]. auto.
Qed.

Lemma ret_bind {S A B} (a : A) (k : A -> M S B) s : (mret a ≫= k) s = k a s.
Proof. reflexivity. Qed.

(** [AddOutgoingLink] through a live pointer, to a live target. *)
Lemma AddOutgoingLink_live l target m a :
  live m -> heap m !! l = Some a -> (target < length (heap m))%nat ->
  let m' := mkMachine (<[l := Atom.AddOutgoingLink (Some target) a]> (heap m))
              (s_nextId m) (spaces m) in
  on_atom l (Atom.AddOutgoingLink (Some target)) m = Ok tt m' /\ live m' /\ evolves m m' /\
  length (heap m') = length (heap m).
Proof.
  intros Hlive Ha Htarget. pose proof Hlive as [_ Hlinks].
  destruct (Hlinks _ _ Ha) as [Hout Hin].
  apply on_atom_live; [exact Hlive|exact Ha| | |]; unfold Atom.AddOutgoingLink;
    destruct (bool_decide (target ∈ Atom.m_outgoingLinks a)); cbn; try reflexivity;
    try assumption.
  apply Forall_app. split; [exact Hout|]. constructor; [exact Htarget|constructor].
Qed.

Lemma Plan_live sp ag m :
  live m -> agent_live sp ag m ->
  exists m',
    Plan (ag, m) = Ok tt (ag, m') /\
    live m' /\ agent_live sp ag m' /\ evolves m m'.
Proof.
  intros Hlive Hag. pose proof Hag as (Hsp & Hlt & Hgoals & Hmems).
  unfold Plan. rewrite (bind_run _ _ _ _ _ (this_run ag m)).
  match goal with
  | |- context [for_each ?l ?body] =>
      destruct (for_each_inv
                  (fun st : CognitiveAgent.t * Machine =>
                     st.1 = ag /\ live st.2 /\ evolves m st.2)
                  l body) with (s := (ag, m))
        as ([ag' m'] & Hloop & Hpost)
  end.
  - intros goal [ag0 m0] Hin (Hag0 & Hlive0 & Hev0). cbn [fst snd] in *. subst ag0.
    rewrite Forall_forall in Hgoals. specialize (Hgoals _ Hin).
    destruct (lookup_lt_is_Some_2 (heap m0) goal (evolves_lt _ _ _ Hev0 Hgoals)) as [g Hg].
    rewrite (bind_run _ _ _ _ _ (lift_run _ ag _ _ _ (deref_run _ _ _ Hg))).
    destruct (F32.ltb (Atom.m_truthValue g) F32.f0_8).
    + rewrite Hsp. cbn [from_option]. rewrite ret_bind.
      destruct (CreateAtom_live sp Atom.Process ("Plan:" +:+ Atom.m_name g)
                  F32.f0_5 F32.f0_8 m0 Hlive0)
        as (plan & m1 & b & Hrun & Hlive1 & Hev1 & Hb & _).
      { destruct Hev0 as [-> _]. exact Hlt. }
      rewrite (bind_run _ _ _ _ _ (lift_run _ ag _ _ _ Hrun)).
      destruct (lookup_lt_is_Some_2 (heap m1) goal) as [g1 Hg1].
      { eapply evolves_lt; [exact Hev1|]. eapply lookup_lt_Some. exact Hg. }
      destruct (AddOutgoingLink_live goal plan m1 g1 Hlive1 Hg1)
        as (Hrun2 & Hlive2 & Hev2 & _).
      { eapply lookup_lt_Some. exact Hb. }
      eexists. split; [apply lift_run; exact Hrun2|]. cbn [fst snd].
      split; [reflexivity|]. split; [exact Hlive2|].
      eapply evolves_trans; [exact Hev0|]. eapply evolves_trans; eassumption.
    + eexists. split; [reflexivity|]. cbn [fst snd]. auto.
  - cbn [fst snd]. split; [reflexivity|]. split; [exact Hlive|apply evolves_refl].
  - cbn [fst snd] in Hpost. destruct Hpost as (-> & Hlive' & Hev').
    exists m'. split; [exact Hloop|]. split; [exact Hlive'|].
    split; [eapply agent_live_evolves; eassumption|exact Hev'].
Qed.

Lemma Act_live sp ag m :
  live m -> agent_live sp ag m ->
  exists m',
    Act (ag, m) = Ok tt (ag, m') /\
    live m' /\ agent_live sp ag m' /\ evolves m m' /\ truth_only m m'.
Proof.
  intros Hlive Hag. pose proof Hag as (Hsp & Hlt & Hgoals & Hmems).
  unfold Act. rewrite (bind_run _ _ _ _ _ (this_run ag m)).
  rewrite Hsp. cbn [from_option]. rewrite ret_bind.
  destruct (lookup_lt_is_Some_2 (spaces m) sp Hlt) as [s Hs].
  pose proof (live_table _ _ _ Hlive Hs) as Hvalid.
  rewrite (bind_run _ _ _ _ _
             (lift_run _ ag _ _ _ (FindAtomsByType_run _ _ _ _ Hs Hvalid))).
  match goal with
  | |- context [for_each ?l ?body] =>
      destruct (for_each_inv
                  (fun st : CognitiveAgent.t * Machine =>
                     st.1 = ag /\ live st.2 /\ evolves m st.2 /\ truth_only m st.2)
                  l body) with (s := (ag, m))
        as ([ag' m'] & Hloop & Hpost)
  end.
  - intros plan [ag0 m0] Hin (Hag0 & Hlive0 & Hev0 & Htr0).
    cbn [fst snd] in *. subst ag0. pose proof Htr0 as (_ & _ & Hlen0 & _).
    apply elem_of_filter_bool in Hin. destruct Hin as [Hin _].
    rewrite Forall_forall in Hvalid. specialize (Hvalid _ Hin).
    destruct (lookup_lt_is_Some_2 (heap m0) plan ltac:(lia)) as [p Hp].
    rewrite (bind_run _ _ _ _ _ (lift_run _ ag _ _ _ (deref_run _ _ _ Hp))).
    destruct (bool_decide (substr_0 5 (Atom.m_name p) = "Plan:")
              && F32.ltb F32.f0_4 (Atom.m_truthValue p)).
    2: { eexists. split; [reflexivity|]. cbn [fst snd]. auto. }
    pose proof Hlive0 as [_ Hlinks0]. destruct (Hlinks0 _ _ Hp) as [_ Hincoming].
    match goal with
    | |- context [on_atom plan (Atom.SetTruthValue ?tv ?conf)] =>
        destruct (SetTruthValue_live plan tv conf m0 p Hlive0 Hp)
          as (Hrun & Hlive1 & Hev1 & Hlen1);
        pose proof (SetTruthValue_truth_only plan tv conf m0 p Hp) as Htr1
    end.
    rewrite (bind_run _ _ _ _ _ (lift_run _ ag _ _ _ Hrun)).
    match goal with
    | |- context [mkMachine ?h ?n ?sps] => set (m1 := mkMachine h n sps) in *
    end.
    match goal with
    | |- context [for_each ?l ?body] =>
        destruct (for_each_inv
                    (fun st : CognitiveAgent.t * Machine =>
                       st.1 = ag /\ live st.2 /\ evolves m1 st.2 /\ truth_only m1 st.2)
                    l body) with (s := (ag, m1))
          as ([ag2 m2] & Hinner & Hag2 & Hlive2 & Hev2 & Htr2)
    end.
    + intros incoming [ag3 m3] Hinc (Hag3 & Hlive3 & Hev3 & Htr3).
      cbn [fst snd] in *. subst ag3. pose proof Htr3 as (_ & _ & Hlen3 & _).
      rewrite Forall_forall in Hincoming. specialize (Hincoming _ Hinc).
      destruct (lookup_lt_is_Some_2 (heap m3) incoming ltac:(lia)) as [i Hi].
      rewrite (bind_run _ _ _ _ _ (lift_run _ ag _ _ _ (deref_run _ _ _ Hi))).
      destruct (bool_decide (Atom.m_type i = Atom.Goal)).
      2: { eexists. split; [reflexivity|]. cbn [fst snd]. auto. }
      match goal with
      | |- context [Atom.SetTruthValue ?tv ?conf] =>
          destruct (SetTruthValue_live incoming tv conf m3 i Hlive3 Hi)
            as (Hrun4 & Hlive4 & Hev4 & _);
          pose proof (SetTruthValue_truth_only incoming tv conf m3 i Hi) as Htr4
      end.
      eexists. split; [apply lift_run; exact Hrun4|]. cbn [fst snd].
      split; [reflexivity|]. split; [exact Hlive4|].
      split; [eapply evolves_trans; eassumption|eapply truth_only_trans; eassumption].
    + cbn [fst snd]. split; [reflexivity|]. split; [exact Hlive1|].
      split; [apply evolves_refl|apply truth_only_refl].
    + cbn [fst snd] in *. subst ag2. eexists. split; [exact Hinner|]. cbn [fst snd].
      split; [reflexivity|]. split; [exact Hlive2|].
      split; [eapply evolves_trans; [exact Hev0|]; eapply evolves_trans; eassumption|].
      eapply truth_only_trans; [exact Htr0|]. eapply truth_only_trans; eassumption.
  - cbn [fst snd]. split; [reflexivity|]. split; [exact Hlive|].
    split; [apply evolves_refl|apply truth_only_refl].
  - cbn [fst snd] in Hpost. destruct Hpost as (-> & Hlive' & Hev' & Htr').
    exists m'. split; [exact Hloop|]. split; [exact Hlive'|].
    split; [eapply agent_live_evolves; eassumption|]. auto.
Qed.

Lemma Learn_live sp ag m :
  live m -> agent_live sp ag m ->
  exists ag' m',
    Learn (ag, m) = Ok tt (ag', m') /\
    live m' /\ agent_live sp ag' m' /\ evolves m m' /\
    CognitiveAgent.m_state ag' = CognitiveAgent.Learning /\
    CognitiveAgent.m_shouldStop ag' = CognitiveAgent.m_shouldStop ag /\
    CognitiveAgent.m_goals ag' = CognitiveAgent.m_goals ag /\
    CognitiveAgent.m_memories ag' = trimmed (CognitiveAgent.m_memories ag) /\
    truth_only m m'.
Proof.
  intros Hlive Hag. pose proof Hag as (Hsp & Hlt & Hgoals & Hmems).
  unfold Learn. rewrite (bind_run _ _ _ _ _ (this_run ag m)), Hsp.
  rewrite (bind_run _ _ _ _ _ (set_state_run _ _ _)).
  set (agL := CognitiveAgent.mk _ _ CognitiveAgent.Learning _ _ _ _).
  destruct (lookup_lt_is_Some_2 (spaces m) sp Hlt) as [s Hs].
  pose proof (live_table _ _ _ Hlive Hs) as Hvalid.
  rewrite (bind_run _ _ _ _ _
             (lift_run _ agL _ _ _ (FindAtomsByType_run _ _ _ _ Hs Hvalid))).
  match goal with
  | |- context [for_each ?l ?body] =>
      destruct (for_each_inv
                  (fun st : CognitiveAgent.t * Machine =>
                     st.1 = agL /\ live st.2 /\ evolves m st.2 /\ truth_only m st.2)
                  l body) with (s := (agL, m))
        as ([ag1 m1] & Hloop & Hag1 & Hlive1 & Hev1 & Htr1)
  end.
  - intros concept [ag0 m0] Hin (Hag0 & Hlive0 & Hev0 & Htr0).
    cbn [fst snd] in *. subst ag0. pose proof Htr0 as (_ & _ & Hlen0 & _).
    apply elem_of_filter_bool in Hin. destruct Hin as [Hin _].
    rewrite Forall_forall in Hvalid. specialize (Hvalid _ Hin).
    destruct (lookup_lt_is_Some_2 (heap m0) concept ltac:(lia)) as [c Hc].
    rewrite (bind_run _ _ _ _ _ (lift_run _ agL _ _ _ (deref_run _ _ _ Hc))).
    destruct (F32.ltb F32.f0_5 (Atom.m_attention c)).
    2: { eexists. split; [reflexivity|]. cbn [fst snd]. auto. }
    match goal with
    | |- context [Atom.SetTruthValue ?tv ?conf] =>
        destruct (SetTruthValue_live concept tv conf m0 c Hlive0 Hc)
          as (Hrun & Hlive2 & Hev2 & _);
        pose proof (SetTruthValue_truth_only concept tv conf m0 c Hc) as Htr2
    end.
    eexists. split; [apply lift_run; exact Hrun|]. cbn [fst snd].
    split; [reflexivity|]. split; [exact Hlive2|].
    split; [eapply evolves_trans; eassumption|eapply truth_only_trans; eassumption].
  - cbn [fst snd]. split; [reflexivity|]. split; [exact Hlive|].
    split; [apply evolves_refl|apply truth_only_refl].
  - cbn [fst snd] in *. subst ag1.
    rewrite (bind_run _ _ _ _ _ Hloop). rewrite (bind_run _ _ _ _ _ (this_run agL m1)).
    exists (CognitiveAgent.mk (CognitiveAgent.m_name ag) (CognitiveAgent.m_atomSpace ag)
              CognitiveAgent.Learning (CognitiveAgent.m_shouldStop ag)
              (CognitiveAgent.m_processingThread ag) (CognitiveAgent.m_goals ag)
              (trimmed (CognitiveAgent.m_memories ag))), m1.
    split.
    { subst agL. cbn [CognitiveAgent.m_memories]. unfold trimmed.
      destruct (bool_decide _); reflexivity. }
    split; [exact Hlive1|]. split.
    { destruct (agent_live_evolves sp ag m m1 Hev1 Hag) as (_ & Hlt1 & Hgoals1 & Hmems1).
      split; [exact Hsp|]. split; [exact Hlt1|]. split; [exact Hgoals1|].
      cbn. unfold trimmed. destruct (bool_decide _); [apply Forall_drop|]; exact Hmems1. }
    split; [exact Hev1|]. cbn. auto.
Qed.

Lemma SelfModify_live sp ag m :
  live m -> agent_live sp ag m ->
  exists ag' m',
    SelfModify (ag, m) = Ok tt (ag', m') /\
    live m' /\ agent_live sp ag' m' /\ evolves m m' /\
    CognitiveAgent.m_state ag' = CognitiveAgent.SelfModifying /\
    CognitiveAgent.m_shouldStop ag' = CognitiveAgent.m_shouldStop ag /\
    CognitiveAgent.m_goals ag' = CognitiveAgent.m_goals ag /\
    CognitiveAgent.m_memories ag' = CognitiveAgent.m_memories ag.
Proof.
  intros Hlive Hag. pose proof Hag as (Hsp & Hlt & Hgoals & Hmems).
  unfold SelfModify. rewrite (bind_run _ _ _ _ _ (this_run ag m)), Hsp.
  rewrite (bind_run _ _ _ _ _ (set_state_run _ _ _)).
  set (agS := CognitiveAgent.mk _ _ CognitiveAgent.SelfModifying _ _ _ _).
  destruct (lookup_lt_is_Some_2 (spaces m) sp Hlt) as [s Hs].
  pose proof (live_table _ _ _ Hlive Hs) as Hvalid.
  rewrite (bind_run _ _ _ _ _
             (lift_run _ agS _ _ _
                (Query_pure sp _ successful_plan m s Hs Hvalid (fun a => eq_refl)))).
  match goal with
  | |- context [for_each ?l ?body] =>
      destruct (for_each_inv
                  (fun st : CognitiveAgent.t * Machine =>
                     st.1 = agS /\ live st.2 /\ evolves m st.2)
                  l body) with (s := (agS, m))
        as ([ag1 m1] & Hloop & Hag1 & Hlive1 & Hev1)
  end.
  - intros plan [ag0 m0] Hin (Hag0 & Hlive0 & Hev0). cbn [fst snd] in *. subst ag0.
    apply elem_of_filter_bool in Hin. destruct Hin as [Hin _].
    rewrite Forall_forall in Hvalid. specialize (Hvalid _ Hin).
    destruct (lookup_lt_is_Some_2 (heap m0) plan (evolves_lt _ _ _ Hev0 Hvalid)) as [p Hp].
    rewrite (bind_run _ _ _ _ _ (lift_run _ agS _ _ _ (deref_run _ _ _ Hp))).
    destruct (CreateAtom_live sp Atom.Rule ("Rule:" +:+ Atom.m_name p)
                (Atom.m_truthValue p) (Atom.m_confidence p) m0 Hlive0)
      as (rule & m2 & b & Hrun & Hlive2 & Hev2 & Hb & _).
    { destruct Hev0 as [-> _]. exact Hlt. }
    rewrite (bind_run _ _ _ _ _ (lift_run _ agS _ _ _ Hrun)).
    destruct (lookup_lt_is_Some_2 (heap m2) plan) as [p2 Hp2].
    { eapply evolves_lt; [exact Hev2|]. eapply lookup_lt_Some. exact Hp. }
    destruct (AddOutgoingLink_live plan rule m2 p2 Hlive2 Hp2)
      as (Hrun3 & Hlive3 & Hev3 & _).
    { eapply lookup_lt_Some. exact Hb. }
    eexists. split; [apply lift_run; exact Hrun3|]. cbn [fst snd].
    split; [reflexivity|]. split; [exact Hlive3|].
    eapply evolves_trans; [exact Hev0|]. eapply evolves_trans; eassumption.
  - cbn [fst snd]. split; [reflexivity|]. split; [exact Hlive|apply evolves_refl].
  - cbn [fst snd] in *. subst ag1. exists agS, m1. split; [exact Hloop|].
    split; [exact Hlive1|]. split.
    { destruct (agent_live_evolves sp ag m m1 Hev1 Hag) as (_ & Hlt1 & Hgoals1 & Hmems1).
      split; [exact Hsp|]. split; [exact Hlt1|]. split; [exact Hgoals1|exact Hmems1]. }
    split; [exact Hev1|]. cbn. auto.
Qed.

(** One iteration of the processing loop on a live agent. *)
Lemma iteration_live sp ag m draw :
  live m -> agent_live sp ag m ->
  exists ag' m',
    iteration draw (ag, m) = Ok tt (ag', m') /\
    stages draw (ag, m) = Ok tt (ag', m') /\
    live m' /\ agent_live sp ag' m' /\ evolves m m' /\
    CognitiveAgent.m_state ag' =
      (if draw then CognitiveAgent.SelfModifying else CognitiveAgent.Learning) /\
    CognitiveAgent.m_shouldStop ag' = CognitiveAgent.m_shouldStop ag /\
    CognitiveAgent.m_goals ag' = CognitiveAgent.m_goals ag.
Proof.
  intros Hlive Hag. pose proof Hag as (_ & Hlt & _).
  destruct (lookup_lt_is_Some_2 (spaces m) sp Hlt) as [s Hs].
  destruct (Perceive_live sp ag m s Hlive Hag Hs)
    as (ag1 & m1 & Hrun1 & Hlive1 & Hag1 & Hev1 & _ & Hg1 & Hstop1 & _).
  destruct (Reason_live sp ag1 m1 Hlive1 Hag1) as (m2 & Hrun2 & Hlive2 & Hag2 & Hev2 & _).
  destruct (Plan_live sp ag1 m2 Hlive2 Hag2) as (m3 & Hrun3 & Hlive3 & Hag3 & Hev3).
  destruct (Act_live sp ag1 m3 Hlive3 Hag3) as (m4 & Hrun4 & Hlive4 & Hag4 & Hev4 & _).
  destruct (Learn_live sp ag1 m4 Hlive4 Hag4)
    as (ag5 & m5 & Hrun5 & Hlive5 & Hag5 & Hev5 & Hst5 & Hstop5 & Hg5 & _).
  assert (Hev : evolves m m5).
  { eapply evolves_trans; [exact Hev1|]. eapply evolves_trans; [exact Hev2|].
    eapply evolves_trans; [exact Hev3|]. eapply evolves_trans; [exact Hev4|exact Hev5]. }
  destruct draw.
  - destruct (SelfModify_live sp ag5 m5 Hlive5 Hag5)
      as (ag6 & m6 & Hrun6 & Hlive6 & Hag6 & Hev6 & Hst6 & Hstop6 & Hg6 & _).
    assert (Hstages : stages true (ag, m) = Ok tt (ag6, m6)).
    { unfold stages. rewrite (bind_run _ _ _ _ _ Hrun1), (bind_run _ _ _ _ _ Hrun2),
        (bind_run _ _ _ _ _ Hrun3), (bind_run _ _ _ _ _ Hrun4), (bind_run _ _ _ _ _ Hrun5).
      exact Hrun6. }
    exists ag6, m6. split; [unfold iteration; rewrite Hstages; reflexivity|].
    split; [exact Hstages|]. split; [exact Hlive6|]. split; [exact Hag6|].
    split; [eapply evolves_trans; eassumption|]. split; [exact Hst6|].
    split; congruence.
  - assert (Hstages : stages false (ag, m) = Ok tt (ag5, m5)).
    { unfold stages. rewrite (bind_run _ _ _ _ _ Hrun1), (bind_run _ _ _ _ _ Hrun2),
        (bind_run _ _ _ _ _ Hrun3), (bind_run _ _ _ _ _ Hrun4), (bind_run _ _ _ _ _ Hrun5).
      reflexivity. }
    exists ag5, m5. split; [unfold iteration; rewrite Hstages; reflexivity|].
    split; [exact Hstages|]. split; [exact Hlive5|]. split; [exact Hag5|].
    split; [exact Hev|]. split; [exact Hst5|]. split; congruence.
Qed.

(** The processing loop on a live agent, for any sequence of draws. *)
Lemma ProcessingLoop_live sp draws : forall ag m,
  live m -> agent_live sp ag m ->
  exists ag' m',
    ProcessingLoop draws (ag, m) = Ok tt (ag', m') /\
    live m' /\ agent_live sp ag' m' /\ evolves m m' /\
    CognitiveAgent.m_shouldStop ag' = CognitiveAgent.m_shouldStop ag /\
    CognitiveAgent.m_goals ag' = CognitiveAgent.m_goals ag /\
    (CognitiveAgent.m_shouldStop ag = true \/ draws = [] -> ag' = ag /\ m' = m) /\
    (CognitiveAgent.m_shouldStop ag = false -> draws <> [] ->
       CognitiveAgent.m_state ag' =
         (if last draws is Some true
          then CognitiveAgent.SelfModifying else CognitiveAgent.Learning)).
Proof.
  induction draws as [|d ds IH]; intros ag m Hlive Hag.
  - exists ag, m. split; [reflexivity|]. split; [exact Hlive|]. split; [exact Hag|].
    split; [apply evolves_refl|]. split; [reflexivity|]. split; [reflexivity|].
    split; [auto|]. intros _ Hne. contradiction.
  - cbn [ProcessingLoop]. rewrite (bind_run _ _ _ _ _ (this_run ag m)).
    destruct (CognitiveAgent.m_shouldStop ag) eqn:Hstop.
    + exists ag, m. split; [reflexivity|]. split; [exact Hlive|]. split; [exact Hag|].
      split; [apply evolves_refl|]. split; [exact Hstop|]. split; [reflexivity|].
      split; [auto|]. discriminate.
    + destruct (iteration_live sp ag m d Hlive Hag)
        as (ag1 & m1 & Hrun1 & _ & Hlive1 & Hag1 & Hev1 & Hst1 & Hstop1 & Hg1).
      destruct (IH ag1 m1 Hlive1 Hag1)
        as (ag2 & m2 & Hrun2 & Hlive2 & Hag2 & Hev2 & Hstop2 & Hg2 & Hsame2 & Hst2).
      exists ag2, m2. rewrite (bind_run _ _ _ _ _ Hrun1).
      split; [exact Hrun2|]. split; [exact Hlive2|]. split; [exact Hag2|].
      split; [eapply evolves_trans; eassumption|]. split; [congruence|].
      split; [congruence|]. split; [intros [?|?]; discriminate|].
      intros _ _. destruct ds as [|d' ds'].
      * destruct (Hsame2 (or_intror eq_refl)) as [-> _]. rewrite Hst1. cbn.
        destruct d; reflexivity.
      * rewrite Hst2; [|congruence|discriminate]. reflexivity.
Qed.

End Stages2.



Lemma all_liveb_Forall m ls :
  all_liveb m ls = true <-> Forall (fun l => l < length (heap m))%nat ls.
Proof.
  unfold all_liveb. rewrite forallb_forall, Forall_forall. split.
  - intros Hall l Hl. eapply bool_decide_eq_true_1. apply Hall, list_elem_of_In, Hl.
  - intros Hall l Hl. apply bool_decide_eq_true_2. apply Hall, list_elem_of_In, Hl.
Qed.

Lemma store_liveb_live m s : store_liveb m s = true <-> store_live m s.
Proof.
  unfold store_liveb, store_live. rewrite andb_true_iff, !forallb_forall. split.
  - intros [Hids Hnames]. split.
    + intros id l Hl. eapply bool_decide_eq_true_1.
      apply (Hids (id, l)), list_elem_of_In, elem_of_map_to_list, Hl.
    + intros n l Hl.
      pose proof (Hnames (n, l) ltac:(apply list_elem_of_In, elem_of_map_to_list, Hl)) as Hn.
      unfold holds_at in Hn. cbn in Hn. destruct (heap m !! l) as [a|]; [|discriminate].
      exists a. split; [reflexivity|]. eapply bool_decide_eq_true_1. exact Hn.
  - intros [Hids Hnames]. split.
    + intros [id l] Hin. apply list_elem_of_In, elem_of_map_to_list in Hin.
      apply bool_decide_eq_true_2. eapply Hids. exact Hin.
    + intros [n l] Hin. apply list_elem_of_In, elem_of_map_to_list in Hin.
      destruct (Hnames _ _ Hin) as (a & Ha & Hn). unfold holds_at. cbn. rewrite Ha.
      apply bool_decide_eq_true_2. exact Hn.
Qed.

Lemma liveb_live m : liveb m = true <-> live m.
Proof.
  unfold liveb, live, links_live. rewrite andb_true_iff, !forallb_forall. split.
  - intros [Hstores Hlinks]. split.
    + intros sp s Hs. apply store_liveb_live. apply Hstores.
      apply list_elem_of_In, list_elem_of_lookup. eauto.
    + intros l a Ha.
      pose proof (Hlinks a ltac:(apply list_elem_of_In, list_elem_of_lookup; eauto)) as Hl.
      apply andb_true_iff in Hl. rewrite !all_liveb_Forall in Hl. exact Hl.
  - intros [Hstores Hlinks]. split.
    + intros s Hin. apply list_elem_of_In, list_elem_of_lookup in Hin.
      destruct Hin as [sp Hs]. apply store_liveb_live. eapply Hstores. exact Hs.
    + intros a Hin. apply list_elem_of_In, list_elem_of_lookup in Hin.
      destruct Hin as [l Ha]. apply andb_true_iff. rewrite !all_liveb_Forall.
      eapply Hlinks. exact Ha.
Qed.

Lemma agent_liveb_live ag m :
  agent_liveb ag m = true <-> exists sp, agent_live sp ag m.
Proof.
  unfold agent_liveb, agent_live. rewrite !andb_true_iff, all_liveb_Forall.
  rewrite forallb_forall. split.
  - intros [[Hsp Hgoals] Hmems].
    destruct (CognitiveAgent.m_atomSpace ag) as [sp|]; [|discriminate].
    exists sp. split; [reflexivity|]. split; [eapply bool_decide_eq_true_1; exact Hsp|].
    split; [exact Hgoals|]. apply Forall_forall. intros l Hl.
    specialize (Hmems l ltac:(apply list_elem_of_In, Hl)). unfold holds_at in Hmems.
    destruct (heap m !! l) as [a|] eqn:Ha; [|discriminate]. exists a.
    split; [exact Ha|]. eapply bool_decide_eq_true_1. exact Hmems.
  - intros (sp & Hsp & Hlt & Hgoals & Hmems). rewrite Hsp. split; [split|].
    + apply bool_decide_eq_true_2. exact Hlt.
    + exact Hgoals.
    + intros l Hl. rewrite Forall_forall in Hmems.
      destruct (Hmems l ltac:(apply list_elem_of_In, Hl)) as (a & Ha & Hlen).
      unfold holds_at. rewrite Ha. apply bool_decide_eq_true_2. exact Hlen.
Qed.

Lemma agent_live_store sp sp' ag m :
  agent_live sp ag m -> CognitiveAgent.m_atomSpace ag = Some sp' -> sp' = sp.
Proof. intros (Hsp & _) Hsp'. congruence. Qed.

(** X19: [Perceive] on a live agent and machine returns, leaves the agent
    [Active], and appends to the memory list exactly one pointer for each
    atom of the store whose attention was above 0.7 when the stage began,
    keeping the memories it had; it creates at most that many atoms and
    modifies no existing one, the goals are unchanged, and agent and machine
    are live afterwards. *)
Theorem Perceive_remembers_what_it_sees `{BucketOrder} (ag : CognitiveAgent.t) (m : Machine)
    (sp : nat) (s : AtomSpace.t) :
  liveb m = true ->
  agent_liveb ag m = true ->
  CognitiveAgent.m_atomSpace ag = Some sp ->
  spaces m !! sp = Some s ->
  exists ag' m',
    Perceive (ag, m) = Ok tt (ag', m') /\
    CognitiveAgent.m_state ag' = CognitiveAgent.Active /\
    CognitiveAgent.m_goals ag' = CognitiveAgent.m_goals ag /\
    CognitiveAgent.m_memories ag `prefix_of` CognitiveAgent.m_memories ag' /\
    length (CognitiveAgent.m_memories ag') =
      (length (CognitiveAgent.m_memories ag) + length (perceived m s))%nat /\
    heap m `prefix_of` heap m' /\
    (length (heap m') <= length (heap m) + length (perceived m s))%nat /\
    liveb m' = true /\ agent_liveb ag' m' = true.
Proof.
  intros Hlive Hag Hsp Hs. apply liveb_live in Hlive. apply agent_liveb_live in Hag.
  destruct Hag as [sp0 Hag]. pose proof (agent_live_store _ _ _ _ Hag Hsp) as ->.
  destruct (Perceive_live sp0 ag m s Hlive Hag Hs)
    as (ag' & m' & Hrun & Hlive' & Hag' & _ & Hst & Hg & _ & Hpre & Hlen & Hheap & Hsize).
  exists ag', m'. split; [exact Hrun|]. split; [exact Hst|]. split; [exact Hg|].
  split; [exact Hpre|]. split; [exact Hlen|]. split; [exact Hheap|].
  split; [exact Hsize|]. split; [apply liveb_live; exact Hlive'|].
  apply agent_liveb_live. exists sp0. exact Hag'.
Qed.

Lemma Perceive_remembers_what_it_sees_witness :
  exists ag' m',
    Perceive (test_agent_on_store.1.1, test_agent_on_store.1.2) = Ok tt (ag', m') /\
    CognitiveAgent.m_state ag' = CognitiveAgent.Active /\
    length (CognitiveAgent.m_memories ag') = 1%nat.
Proof.
  pose (s := default (AtomSpace.mk ∅ ∅) (spaces test_agent_on_store.1.2 !! 0%nat)).
  assert (H1 : liveb test_agent_on_store.1.2 = true) by (vm_compute; reflexivity).
  assert (H2 : agent_liveb test_agent_on_store.1.1 test_agent_on_store.1.2 = true)
    by (vm_compute; reflexivity).
  assert (H3 : CognitiveAgent.m_atomSpace test_agent_on_store.1.1 = Some 0%nat)
    by reflexivity.
  assert (H4 : spaces test_agent_on_store.1.2 !! 0%nat = Some s)
    by (vm_compute; reflexivity).
  destruct (Perceive_remembers_what_it_sees test_agent_on_store.1.1
              test_agent_on_store.1.2 0%nat s H1 H2 H3 H4)
    as (ag' & m' & Hrun & Hst & _ & _ & Hlen & _).
  exists ag', m'. split; [exact Hrun|]. split; [exact Hst|]. exact Hlen.
Defined.


(** X20: [Reason], [Act] and [Learn] on a live agent and machine return
    without throwing and change truth values and confidences only: they
    create and remove no atom, leave the tables and the identifier counter
    alone, and every atom keeps its type, name, identifier, attention and
    links; the machine is live afterwards.  [Reason] and [Act] leave the
    agent as it is; [Learn] sets the state to [Learning], trims the memory
    list and keeps the goals. *)
Theorem beliefs_are_updated_in_place `{BucketOrder} (ag : CognitiveAgent.t) (m : Machine) :
  liveb m = true ->
  agent_liveb ag m = true ->
  (exists m', Reason (ag, m) = Ok tt (ag, m') /\ truth_only m m' /\ liveb m' = true) /\
  (exists m', Act (ag, m) = Ok tt (ag, m') /\ truth_only m m' /\ liveb m' = true) /\
  (exists ag' m',
     Learn (ag, m) = Ok tt (ag', m') /\ truth_only m m' /\ liveb m' = true /\
     CognitiveAgent.m_state ag' = CognitiveAgent.Learning /\
     CognitiveAgent.m_goals ag' = CognitiveAgent.m_goals ag /\
     CognitiveAgent.m_memories ag' = trimmed (CognitiveAgent.m_memories ag)).
Proof.
  intros Hlive Hag. apply liveb_live in Hlive. apply agent_liveb_live in Hag.
  destruct Hag as [sp Hag]. split; [|split].
  - destruct (Reason_live sp ag m Hlive Hag) as (m' & Hrun & Hlive' & _ & _ & Htr).
    exists m'. split; [exact Hrun|]. split; [exact Htr|apply liveb_live; exact Hlive'].
  - destruct (Act_live sp ag m Hlive Hag) as (m' & Hrun & Hlive' & _ & _ & Htr).
    exists m'. split; [exact Hrun|]. split; [exact Htr|apply liveb_live; exact Hlive'].
  - destruct (Learn_live sp ag m Hlive Hag)
      as (ag' & m' & Hrun & Hlive' & _ & _ & Hst & _ & Hg & Hmem & Htr).
    exists ag', m'. split; [exact Hrun|]. split; [exact Htr|].
    split; [apply liveb_live; exact Hlive'|]. auto.
Qed.

Lemma beliefs_are_updated_in_place_witness :
  (exists m', Reason (test_agent_on_store.1.1, test_agent_on_store.1.2) =
                Ok tt (test_agent_on_store.1.1, m') /\
              truth_only test_agent_on_store.1.2 m') /\
  (exists m', Act (test_agent_on_store.1.1, test_agent_on_store.1.2) =
                Ok tt (test_agent_on_store.1.1, m') /\
              truth_only test_agent_on_store.1.2 m').
Proof.
  assert (H1 : liveb test_agent_on_store.1.2 = true) by (vm_compute; reflexivity).
  assert (H2 : agent_liveb test_agent_on_store.1.1 test_agent_on_store.1.2 = true)
    by (vm_compute; reflexivity).
  destruct (beliefs_are_updated_in_place test_agent_on_store.1.1
              test_agent_on_store.1.2 H1 H2)
    as ((m1 & Hrun1 & Htr1 & _) & (m2 & Hrun2 & Htr2 & _) & _).
  split; [exists m1|exists m2]; auto.
Defined.


(** X21: one iteration of the processing loop on a live agent and machine,
    whatever the state of the agent and whatever the draw.  The six stages
    run to their end: no null or dangling pointer is dereferenced and
    [substr(9)] does not throw, so the [catch (...)] branch is not entered
    and the state is never [Error].  The agent ends in [Learning], or in
    [SelfModifying] when the draw selected the self-modification, also when
    it had been paused before; stop flag and goals are unchanged, no atom is
    freed or renamed, and agent and machine are live again. *)
Theorem iteration_never_faults `{BucketOrder} (ag : CognitiveAgent.t) (m : Machine)
    (draw : bool) :
  liveb m = true ->
  agent_liveb ag m = true ->
  exists ag' m',
    stages draw (ag, m) = Ok tt (ag', m') /\
    iteration draw (ag, m) = Ok tt (ag', m') /\
    CognitiveAgent.m_state ag' =
      (if draw then CognitiveAgent.SelfModifying else CognitiveAgent.Learning) /\
    CognitiveAgent.m_shouldStop ag' = CognitiveAgent.m_shouldStop ag /\
    CognitiveAgent.m_goals ag' = CognitiveAgent.m_goals ag /\
    evolves m m' /\
    liveb m' = true /\ agent_liveb ag' m' = true.
Proof.
  intros Hlive Hag. apply liveb_live in Hlive. apply agent_liveb_live in Hag.
  destruct Hag as [sp Hag].
  destruct (iteration_live sp ag m draw Hlive Hag)
    as (ag' & m' & Hrun & Hstages & Hlive' & Hag' & Hev & Hst & Hstop & Hg).
  exists ag', m'. split; [exact Hstages|]. split; [exact Hrun|]. split; [exact Hst|].
  split; [exact Hstop|]. split; [exact Hg|]. split; [exact Hev|].
  split; [apply liveb_live; exact Hlive'|]. apply agent_liveb_live. exists sp. exact Hag'.
Qed.

Lemma iteration_never_faults_witness :
  exists ag' m',
    iteration false (test_agent_on_store.1.1, test_agent_on_store.1.2) = Ok tt (ag', m') /\
    CognitiveAgent.m_state ag' = CognitiveAgent.Learning /\
    liveb m' = true /\ agent_liveb ag' m' = true.
Proof.
  assert (H1 : liveb test_agent_on_store.1.2 = true) by (vm_compute; reflexivity).
  assert (H2 : agent_liveb test_agent_on_store.1.1 test_agent_on_store.1.2 = true)
    by (vm_compute; reflexivity).
  destruct (iteration_never_faults test_agent_on_store.1.1 test_agent_on_store.1.2
              false H1 H2)
    as (ag' & m' & _ & Hrun & Hst & _ & _ & _ & Hlive & Hag).
  exists ag', m'. auto.
Defined.


(** X22: the processing loop on a live agent and machine returns for every
    finite sequence of draws, with agent and machine live again.  With the
    stop flag set, or no draw, nothing changes.  Otherwise all iterations
    run, the stop flag and the goals are unchanged, and the agent ends in
    [Learning], or in [SelfModifying] when the last draw selected the
    self-modification: never in [Error]. *)
Theorem ProcessingLoop_runs_to_the_end `{BucketOrder} (ag : CognitiveAgent.t) (m : Machine)
    (draws : list bool) :
  liveb m = true ->
  agent_liveb ag m = true ->
  exists ag' m',
    ProcessingLoop draws (ag, m) = Ok tt (ag', m') /\
    liveb m' = true /\ agent_liveb ag' m' = true /\
    CognitiveAgent.m_shouldStop ag' = CognitiveAgent.m_shouldStop ag /\
    CognitiveAgent.m_goals ag' = CognitiveAgent.m_goals ag /\
    (CognitiveAgent.m_shouldStop ag = true \/ draws = [] -> ag' = ag /\ m' = m) /\
    (CognitiveAgent.m_shouldStop ag = false -> draws <> [] ->
       CognitiveAgent.m_state ag' =
         (if last draws is Some true
          then CognitiveAgent.SelfModifying else CognitiveAgent.Learning)).
Proof.
  intros Hlive Hag. apply liveb_live in Hlive. apply agent_liveb_live in Hag.
  destruct Hag as [sp Hag].
  destruct (ProcessingLoop_live sp draws ag m Hlive Hag)
    as (ag' & m' & Hrun & Hlive' & Hag' & _ & Hstop & Hg & Hsame & Hst).
  exists ag', m'. split; [exact Hrun|]. split; [apply liveb_live; exact Hlive'|].
  split; [apply agent_liveb_live; exists sp; exact Hag'|]. auto.
Qed.

Lemma ProcessingLoop_runs_to_the_end_witness :
  exists ag' m',
    ProcessingLoop [false; true] (test_agent_on_store.1.1, test_agent_on_store.1.2) =
      Ok tt (ag', m') /\
    CognitiveAgent.m_state ag' = CognitiveAgent.SelfModifying.
Proof.
  assert (H1 : liveb test_agent_on_store.1.2 = true) by (vm_compute; reflexivity).
  assert (H2 : agent_liveb test_agent_on_store.1.1 test_agent_on_store.1.2 = true)
    by (vm_compute; reflexivity).
  destruct (ProcessingLoop_runs_to_the_end test_agent_on_store.1.1 test_agent_on_store.1.2
              [false; true] H1 H2)
    as (ag' & m' & Hrun & _ & _ & _ & _ & _ & Hst).
  exists ag', m'. split; [exact Hrun|]. apply Hst; [reflexivity|discriminate].
Defined.


(** ** The public interface keeps every pointer live *)

Lemma live_new_store m :
  live m -> live (mkMachine (heap m) (s_nextId m) (spaces m ++ [AtomSpace.mk ∅ ∅])).
Proof.
  intros [Hstores Hlinks]. split; [|exact Hlinks].
  intros sp s Hs. cbn [spaces] in Hs. apply lookup_app_Some in Hs.
  destruct Hs as [Hs|[_ Hs]]; [apply (Hstores _ _ Hs)|].
  destruct (sp - length (spaces m))%nat; [|destruct n; discriminate].
  inversion Hs. split; intros ? ? Hl; cbn in Hl; rewrite lookup_empty in Hl; discriminate.
Qed.

Lemma seeded_live m : live m -> live (seeded m).
Proof.
  intros Hlive. pose proof (new_AtomSpace_run m) as Hrun.
  unfold new_AtomSpace, get, put in Hrun.
  unfold mbind at 1, M_bind at 1 in Hrun. unfold mbind at 1, M_bind at 1 in Hrun.
  set (m0 := mkMachine (heap m) (s_nextId m) (spaces m ++ [AtomSpace.mk ∅ ∅])) in *.
  assert (Hlt : (length (spaces m) < length (spaces m0))%nat)
    by (cbn; rewrite length_app; cbn; lia).
  destruct (CreateAtom_live (length (spaces m)) Atom.Concept "Self" F32.f1_0 F32.f1_0 m0
              (live_new_store _ Hlive) Hlt)
    as (l1 & m1 & a1 & Hrun1 & Hlive1 & [Hsp1 _] & _).
  rewrite (bind_run _ _ _ _ _ Hrun1) in Hrun.
  destruct (CreateAtom_live (length (spaces m)) Atom.Concept "System" F32.f1_0 F32.f1_0 m1
              Hlive1 ltac:(rewrite Hsp1; exact Hlt))
    as (l2 & m2 & a2 & Hrun2 & Hlive2 & [Hsp2 _] & _).
  rewrite (bind_run _ _ _ _ _ Hrun2) in Hrun.
  destruct (CreateAtom_live (length (spaces m)) Atom.Concept "WSL" F32.f1_0 F32.f1_0 m2
              Hlive2 ltac:(rewrite Hsp2, Hsp1; exact Hlt))
    as (l3 & m3 & a3 & Hrun3 & Hlive3 & _).
  rewrite (bind_run _ _ _ _ _ Hrun3) in Hrun.
  unfold mret, M_ret in Hrun. injection Hrun as Heq. rewrite <- Heq. exact Hlive3.
Qed.

Lemma SetAttention_live l v m a :
  live m -> heap m !! l = Some a ->
  let m' := mkMachine (<[l := Atom.SetAttention v a]> (heap m)) (s_nextId m) (spaces m) in
  on_atom l (Atom.SetAttention v) m = Ok tt m' /\ live m' /\ evolves m m' /\
  length (heap m') = length (heap m).
Proof.
  intros Hlive Ha. apply on_atom_live; [exact Hlive|exact Ha|reflexivity| |];
    destruct Hlive as [_ Hlinks]; apply (Hlinks _ _ Ha).
Qed.

(** X23: liveness is established and kept by the public interface.  The
    machine at program start is live; on a live machine the constructor of a
    store, [CreateAtom] on a live store and the constructor of an agent bound
    to a live store return and leave a live machine, the new agent being
    live; and for a live agent [ReceiveMessage] returns with agent and
    machine live again, and [AddGoal] of a live pointer keeps the agent
    live. *)
Theorem public_interface_keeps_pointers_live (m : Machine) :
  liveb m = true ->
  liveb boot = true /\
  (exists sp m',
     new_AtomSpace m = Ok sp m' /\ liveb m' = true /\ (sp < length (spaces m'))%nat) /\
  (forall sp type name tv conf, (sp < length (spaces m))%nat ->
     exists l m',
       CreateAtom sp type name tv conf m = Ok l m' /\
       liveb m' = true /\ (l < length (heap m'))%nat /\
       length (spaces m') = length (spaces m)) /\
  (forall sp name, (sp < length (spaces m))%nat ->
     exists ag m',
       new_CognitiveAgent name (Some sp) m = Ok ag m' /\
       liveb m' = true /\ agent_liveb ag m' = true) /\
  (forall ag, agent_liveb ag m = true ->
     (forall fromAgent message,
        exists ag' m',
          ReceiveMessage fromAgent message (ag, m) = Ok tt (ag', m') /\
          liveb m' = true /\ agent_liveb ag' m' = true) /\
     (forall goal, (goal < length (heap m))%nat ->
        exists ag',
          AddGoal (Some goal) (ag, m) = Ok tt (ag', m) /\ agent_liveb ag' m = true)).
Proof.
  intros Hlive. apply liveb_live in Hlive.
  split; [reflexivity|]. split; [|split; [|split]].
  - exists (length (spaces m)), (seeded m). split; [apply new_AtomSpace_run|].
    split; [apply liveb_live, seeded_live, Hlive|].
    unfold seeded. cbn. rewrite length_app. cbn. lia.
  - intros sp type name tv conf Hsp.
    destruct (CreateAtom_live sp type name tv conf m Hlive Hsp)
      as (l & m' & a & Hrun & Hlive' & [Hspaces _] & Ha & _).
    exists l, m'. split; [exact Hrun|]. split; [apply liveb_live; exact Hlive'|].
    split; [eapply lookup_lt_Some; exact Ha|exact Hspaces].
  - intros sp name Hsp.
    destruct (CreateAtom_live sp Atom.Agent ("Agent:" +:+ name) F32.f1_0 F32.f1_0 m Hlive Hsp)
      as (l & m1 & a & Hrun & Hlive1 & [Hspaces _] & Ha & _).
    destruct (SetAttention_live l F32.f1_0 m1 a Hlive1 Ha) as (Hrun2 & Hlive2 & _).
    eexists _, _. split.
    { unfold new_CognitiveAgent. erewrite bind_run; [reflexivity|].
      rewrite (bind_run _ _ _ _ _ Hrun). exact Hrun2. }
    split; [apply liveb_live; exact Hlive2|].
    apply agent_liveb_live. exists sp. split; [reflexivity|].
    split; [cbn; rewrite Hspaces; exact Hsp|]. split; constructor.
  - intros ag Hag. apply agent_liveb_live in Hag. destruct Hag as [sp Hag].
    pose proof Hag as (Hsp & Hlt & Hgoals & Hmems). split.
    + intros fromAgent message.
      destruct (CreateAtom_live sp Atom.Memory (message_name fromAgent message)
                  F32.f1_0 F32.f0_9 m Hlive Hlt)
        as (l & m' & a & Hrun & Hlive' & Hev & Ha & Hname & _).
      exists (remembering l ag), m'.
      split; [apply (ReceiveMessage_run _ _ _ _ _ _ _ Hsp Hrun)|].
      split; [apply liveb_live; exact Hlive'|].
      apply agent_liveb_live. exists sp.
      destruct (agent_live_evolves sp ag m m' Hev Hag) as (_ & Hlt' & Hgoals' & Hmems').
      split; [exact Hsp|]. split; [exact Hlt'|]. split; [exact Hgoals'|].
      cbn. apply Forall_app. split; [exact Hmems'|]. constructor; [|constructor].
      exists a. split; [exact Ha|]. rewrite Hname. unfold message_name.
      rewrite !string_length_app. cbn [String.length]. lia.
    + intros goal Hgoal. destruct (lookup_lt_is_Some_2 (heap m) goal Hgoal) as [g Hg].
      exists (if bool_decide (Atom.m_type g = Atom.Goal)
              then CognitiveAgent.mk (CognitiveAgent.m_name ag) (CognitiveAgent.m_atomSpace ag)
                     (CognitiveAgent.m_state ag) (CognitiveAgent.m_shouldStop ag)
                     (CognitiveAgent.m_processingThread ag)
                     (CognitiveAgent.m_goals ag ++ [goal]) (CognitiveAgent.m_memories ag)
              else ag).
      split.
      { unfold AddGoal.
        rewrite (bind_run _ _ _ _ _ (lift_run _ _ _ _ _ (deref_run _ _ _ Hg))).
        destruct (bool_decide (Atom.m_type g = Atom.Goal)); reflexivity. }
      destruct (bool_decide (Atom.m_type g = Atom.Goal));
        apply agent_liveb_live; exists sp; [|exact Hag].
      split; [exact Hsp|]. split; [exact Hlt|]. split; [|exact Hmems].
      cbn. apply Forall_app. split; [exact Hgoals|]. constructor; [exact Hgoal|constructor].
Qed.

Lemma public_interface_keeps_pointers_live_witness :
  exists ag m',
    new_CognitiveAgent "TestAgent" (Some 0%nat) (seeded boot) = Ok ag m' /\
    liveb m' = true /\ agent_liveb ag m' = true.
Proof.
  assert (H1 : liveb (seeded boot) = true) by (vm_compute; reflexivity).
  destruct (public_interface_keeps_pointers_live (seeded boot) H1)
    as (_ & _ & _ & Hagent & _).
  apply (Hagent 0%nat "TestAgent"). vm_compute. lia.
Defined.

(** ** Identifiers *)

Lemma ids_ok_below m l a :
  ids_okb m = true -> heap m !! l = Some a -> Atom.m_id a < s_nextId m.
Proof.
  unfold ids_okb. rewrite andb_true_iff, forallb_forall. intros [Hall _] Ha.
  apply Z.ltb_lt. apply Hall, list_elem_of_In, list_elem_of_lookup. eauto.
Qed.

Lemma ids_ok_fresh m s :
  ids_okb m = true -> space_okb m s = true ->
  AtomSpace.m_atoms s !! s_nextId m = None.
Proof.
  intros Hids Hok. destruct (AtomSpace.m_atoms s !! s_nextId m) as [l|] eqn:Hl; [|reflexivity].
  destruct (space_ok_entry _ _ _ _ Hok Hl) as (a & Ha & Hid & _).
  pose proof (ids_ok_below _ _ _ Hids Ha). lia.
Qed.

Lemma next_id_succ id : 0 <= id < 2 ^ 64 - 1 -> next_id id = id + 1.
Proof.
  intros Hid. unfold next_id. apply Z.mod_small.
  change (2 ^ 64) with 18446744073709551616 in *. lia.
Qed.

Lemma ids_ok_push m a :
  ids_okb m = true -> 0 <= s_nextId m < 2 ^ 64 - 1 -> Atom.m_id a = s_nextId m ->
  forall sps, ids_okb (mkMachine (heap m ++ [a]) (next_id (s_nextId m)) sps) = true.
Proof.
  intros Hids Hrange Hid sps. pose proof Hids as Hids'.
  unfold ids_okb in Hids |- *. rewrite andb_true_iff, forallb_forall in *.
  destruct Hids as [Hall Hnd]. apply bool_decide_eq_true in Hnd.
  cbn [heap s_nextId]. rewrite (next_id_succ _ Hrange). split.
  - intros b Hin. apply in_app_or in Hin. destruct Hin as [Hin|[<-|[]]].
    + specialize (Hall _ Hin). apply Z.ltb_lt in Hall. apply Z.ltb_lt. lia.
    + apply Z.ltb_lt. lia.
  - apply bool_decide_eq_true. rewrite fmap_app. apply NoDup_app.
    split; [exact Hnd|]. split; [|apply NoDup_singleton].
    intros id Hin Hin'. apply list_elem_of_singleton in Hin'. subst id.
    apply list_elem_of_fmap in Hin. destruct Hin as (b & Hb & Hin).
    apply list_elem_of_lookup in Hin. destruct Hin as [l Hl].
    pose proof (ids_ok_below _ _ _ Hids' Hl). lia.
Qed.

Lemma ids_ok_inj m l1 l2 a1 a2 :
  ids_okb m = true -> heap m !! l1 = Some a1 -> heap m !! l2 = Some a2 ->
  Atom.m_id a1 = Atom.m_id a2 -> l1 = l2.
Proof.
  unfold ids_okb. rewrite andb_true_iff. intros [_ Hnd] H1 H2 Heq.
  apply bool_decide_eq_true in Hnd.
  eapply NoDup_lookup; [exact Hnd| |].
  - rewrite list_lookup_fmap, H1. reflexivity.
  - rewrite list_lookup_fmap, H2. cbn. congruence.
Qed.

Lemma space_ok_grow m s a n sps :
  space_okb m s = true ->
  space_okb (mkMachine (heap m ++ [a]) n sps) s = true.
Proof.
  intros Hok. apply space_ok_intro; cbn [heap].
  - intros id l Hl. destruct (space_ok_entry _ _ _ _ Hok Hl) as (b & Hb & Hid & Hn).
    exists b. split; [apply lookup_app_l_Some; exact Hb|]. auto.
  - intros name l Hl. destruct (space_ok_name _ _ _ _ Hok Hl) as (b & Hb & Hn & Hid).
    exists b. split; [apply lookup_app_l_Some; exact Hb|]. auto.
Qed.

(** X24: the identifiers drawn from the counter [s_nextId], which all stores
    share.  On a machine whose atoms carry distinct identifiers below the
    counter, with the counter below 2^64 - 1 so that [s_nextId++] does not
    wrap, [CreateAtom] on a well-formed store returns, moves the counter by at
    most one, and leaves the store well formed and the identifiers distinct
    and below the counter: no two atoms of the machine share an identifier.
    The other stores are untouched and remain well formed. *)
Theorem identifiers_are_never_reused (sp : nat) (type : Atom.Type') (name : string)
    (tv conf : F32.t) (m : Machine) (s : AtomSpace.t) :
  spaces m !! sp = Some s ->
  space_okb m s = true ->
  ids_okb m = true ->
  0 <= s_nextId m < 2 ^ 64 - 1 ->
  exists l m' s',
    CreateAtom sp type name tv conf m = Ok l m' /\
    spaces m' !! sp = Some s' /\
    space_okb m' s' = true /\
    ids_okb m' = true /\
    s_nextId m <= s_nextId m' <= s_nextId m + 1 /\
    (forall l1 l2 a1 a2,
       heap m' !! l1 = Some a1 -> heap m' !! l2 = Some a2 ->
       Atom.m_id a1 = Atom.m_id a2 -> l1 = l2) /\
    (forall sp2 s2, sp2 <> sp -> spaces m !! sp2 = Some s2 -> space_okb m s2 = true ->
       spaces m' !! sp2 = Some s2 /\ space_okb m' s2 = true).
Proof.
  intros Hs Hok Hids Hrange.
  destruct (AtomSpace.m_atomsByName s !! name) as [l|] eqn:Hn.
  - exists l, m, s. rewrite (CreateAtom_existing _ _ _ _ _ _ _ _ Hs Hn).
    split; [reflexivity|]. split; [exact Hs|]. split; [exact Hok|].
    split; [exact Hids|]. split; [lia|].
    split; [intros; eapply ids_ok_inj; eassumption|]. auto.
  - rewrite (CreateAtom_fresh _ _ _ _ _ _ _ Hs Hn). eexists _, _, _.
    split; [reflexivity|].
    split; [cbn; apply list_lookup_insert_eq; eapply lookup_lt_Some; exact Hs|].
    split; [apply CreateAtom_keeps_space_ok; try assumption;
            apply ids_ok_fresh; assumption|].
    assert (Hids' : forall sps,
              ids_okb (mkMachine (heap m ++ [Atom.ctor type name tv conf (s_nextId m)])
                         (next_id (s_nextId m)) sps) = true)
      by (apply ids_ok_push; [exact Hids|exact Hrange|reflexivity]).
    split; [apply Hids'|]. split; [cbn; rewrite (next_id_succ _ Hrange); lia|].
    split; [intros; eapply ids_ok_inj; [apply Hids'| | |]; eassumption|].
    intros sp2 s2 Hne Hs2 Hok2. split.
    + cbn. rewrite list_lookup_insert_ne by congruence. exact Hs2.
    + apply space_ok_grow. exact Hok2.
Qed.

Lemma identifiers_are_never_reused_witness :
  exists l m',
    CreateAtom 0%nat Atom.Concept "Fresh" F32.f0_5 F32.f0_5 two_idle_agents.2 = Ok l m' /\
    ids_okb m' = true /\
    s_nextId two_idle_agents.2 <= s_nextId m' <= s_nextId two_idle_agents.2 + 1.
Proof.
  pose (s := default (AtomSpace.mk ∅ ∅) (spaces two_idle_agents.2 !! 0%nat)).
  assert (H1 : spaces two_idle_agents.2 !! 0%nat = Some s) by (vm_compute; reflexivity).
  assert (H2 : space_okb two_idle_agents.2 s = true) by (vm_compute; reflexivity).
  assert (H3 : ids_okb two_idle_agents.2 = true) by (vm_compute; reflexivity).
  assert (H4 : 0 <= s_nextId two_idle_agents.2 < 2 ^ 64 - 1)
    by (change (s_nextId two_idle_agents.2) with 11; lia).
  destruct (identifiers_are_never_reused 0%nat Atom.Concept "Fresh" F32.f0_5 F32.f0_5
              two_idle_agents.2 s H1 H2 H3 H4)
    as (l & m' & s' & Hrun & _ & _ & Hids & Hnext & _).
  exists l, m'. auto.
Defined.

(** ** Listing and statistics *)

Section Reports.

Context `{BucketOrder}.

Lemma agents_order_names (ags : gmap string CognitiveAgent.t) :
  NoDup (fst <$> agents_order ags) /\
  (forall n, n ∈ fst <$> agents_order ags <-> is_Some (ags !! n)) /\
  length (fst <$> agents_order ags) = size ags.
Proof.
  split; [rewrite agents_order_perm; apply NoDup_fst_map_to_list|].
  split.
  - intros n. rewrite agents_order_perm, list_elem_of_fmap. split.
    + intros ([n' ag] & -> & Hin). apply elem_of_map_to_list in Hin. eauto.
    + intros [ag Hag]. exists (n, ag). split; [reflexivity|].
      apply elem_of_map_to_list. exact Hag.
  - rewrite length_fmap, agents_order_perm. apply length_map_to_list.
Qed.

Lemma filter_length_le {A} (f : A -> bool) (l : list A) :
  (length (List.filter f l) <= length l)%nat.
Proof. induction l as [|x l IH]; cbn; [lia|]. destruct (f x); cbn; lia. Qed.

Lemma active_count_names sys (ags : list (string * CognitiveAgent.t)) :
  (forall n ag, (n, ag) ∈ ags -> CognitiveSystem.m_agents sys !! n = Some ag) ->
  length (List.filter (fun e => counts_as_active (CognitiveAgent.m_state e.2)) ags) =
  length (List.filter (is_active sys) (fst <$> ags)).
Proof.
  induction ags as [|[n ag] ags IH]; intros Hags; [reflexivity|].
  cbn [List.filter fmap list_fmap fst snd].
  assert (Hn : is_active sys n = counts_as_active (CognitiveAgent.m_state ag)).
  { unfold is_active. rewrite (Hags n ag ltac:(left)). reflexivity. }
  rewrite Hn. specialize (IH ltac:(intros; apply Hags; right; assumption)).
  destruct (counts_as_active (CognitiveAgent.m_state ag)); cbn [length]; rewrite IH;
    reflexivity.
Qed.

End Reports.

(** X25: the reports of the registry agree with each other and change
    nothing.  On a system whose global store is well formed, [GetAgentNames]
    lists every registered name exactly once, in whatever order the table is
    traversed; [GetAgentCount] and the field [totalAgents] of [GetStatistics]
    are the length of that list; [activeAgents] is the number of listed agents
    whose state is Active, Learning, Planning, Executing or SelfModifying, so
    it lies between 0 and [totalAgents]; [totalAtoms] is [GetAtomCount] of the
    global store, and the average attention is 0 when that store is empty. *)
Theorem reports_agree `{BucketOrder} (sys : CognitiveSystem.t) (m : Machine)
    (s : AtomSpace.t) :
  spaces m !! CognitiveSystem.m_globalAtomSpace sys = Some s ->
  space_okb m s = true ->
  exists names stats,
    GetAgentNames (sys, m) = Ok names (sys, m) /\
    GetStatistics (sys, m) = Ok stats (sys, m) /\
    NoDup names /\
    (forall n, n ∈ names <-> CognitiveSystem.m_agents sys !! n <> None) /\
    GetAgentCount (sys, m) = Ok (Z.of_nat (length names)) (sys, m) /\
    CognitiveSystem.totalAgents stats = Z.of_nat (length names) /\
    CognitiveSystem.activeAgents stats =
      Z.of_nat (length (List.filter (is_active sys) names)) /\
    0 <= CognitiveSystem.activeAgents stats <= CognitiveSystem.totalAgents stats /\
    GetAtomCount (CognitiveSystem.m_globalAtomSpace sys) m
      = Ok (CognitiveSystem.totalAtoms stats) m /\
    (CognitiveSystem.totalAtoms stats = 0 ->
       CognitiveSystem.averageAttention stats = F32.f0_0).
Proof.
  intros Hs Hok.
  pose proof (space_ok_table_valid _ _ Hok) as Hvalid.
  destruct (agents_order_names (CognitiveSystem.m_agents sys)) as (Hnd & Hin & Hlen).
  exists (fst <$> agents_order (CognitiveSystem.m_agents sys)).
  assert (Hactive :
    length (List.filter (fun e => counts_as_active (CognitiveAgent.m_state e.2))
              (agents_order (CognitiveSystem.m_agents sys))) =
    length (List.filter (is_active sys) (fst <$> agents_order (CognitiveSystem.m_agents sys)))).
  { apply active_count_names. intros n ag Hn. rewrite agents_order_perm in Hn.
    apply elem_of_map_to_list in Hn. exact Hn. }
  unfold GetStatistics.
  rewrite (bind_run _ _ _ _ _ (this_run sys m)).
  erewrite bind_run; cycle 1.
  { apply lift_run. apply (GetAtomCount_run _ _ _ Hs). }
  erewrite bind_run; cycle 1.
  { apply lift_run. apply (Query_pure _ _ (fun _ => true) _ _ Hs Hvalid).
    intros a. reflexivity. }
  erewrite bind_run; cycle 1.
  { apply lift_run.
    apply (mapM_pure _ (fun l => default F32.f0_0 (Atom.m_attention <$> heap m !! l))).
    intros x Hx. apply elem_of_filter_bool in Hx. destruct Hx as [Hx _].
    destruct (Forall_valid_lookup m _ x Hvalid Hx) as [a Ha].
    rewrite (bind_run _ _ _ _ _ (deref_run _ _ _ Ha)). rewrite Ha. reflexivity. }
  eexists. split; [reflexivity|]. split; [reflexivity|].
  split; [exact Hnd|].
  split; [intros n; rewrite Hin, <- not_eq_None_Some; reflexivity|].
  split; [rewrite GetAgentCount_run, Hlen; reflexivity|].
  cbn [CognitiveSystem.totalAgents CognitiveSystem.activeAgents
       CognitiveSystem.totalAtoms CognitiveSystem.averageAttention].
  split; [rewrite Hlen; reflexivity|].
  split; [rewrite Hactive; reflexivity|].
  split.
  { pose proof (filter_length_le
                  (fun e : string * CognitiveAgent.t =>
                     counts_as_active (CognitiveAgent.m_state e.2))
                  (agents_order (CognitiveSystem.m_agents sys))) as Hle.
    rewrite length_fmap in Hlen. rewrite Hactive in Hle |- *. lia. }
  split; [apply (GetAtomCount_run _ _ _ Hs)|].
  intros Hzero. assert (Hempty : table s = []).
  { apply length_zero_iff_nil. rewrite length_table. lia. }
  rewrite Hempty. reflexivity.
Qed.

Lemma reports_agree_witness :
  exists names stats,
    GetAgentNames two_idle_agents = Ok names two_idle_agents /\
    GetStatistics two_idle_agents = Ok stats two_idle_agents /\
    NoDup names /\
    (forall n, n ∈ names <-> CognitiveSystem.m_agents two_idle_agents.1 !! n <> None) /\
    GetAgentCount two_idle_agents = Ok (Z.of_nat (length names)) two_idle_agents /\
    CognitiveSystem.totalAgents stats = Z.of_nat (length names) /\
    CognitiveSystem.activeAgents stats =
      Z.of_nat (length (List.filter (is_active two_idle_agents.1) names)) /\
    0 <= CognitiveSystem.activeAgents stats <= CognitiveSystem.totalAgents stats /\
    GetAtomCount (CognitiveSystem.m_globalAtomSpace two_idle_agents.1) two_idle_agents.2
      = Ok (CognitiveSystem.totalAtoms stats) two_idle_agents.2 /\
    (CognitiveSystem.totalAtoms stats = 0 ->
       CognitiveSystem.averageAttention stats = F32.f0_0).
Proof.
  pose (s := default (AtomSpace.mk ∅ ∅) (spaces two_idle_agents.2 !! 0%nat)).
  assert (H1 : spaces two_idle_agents.2
                 !! CognitiveSystem.m_globalAtomSpace two_idle_agents.1 = Some s)
    by (vm_compute; reflexivity).
  assert (H2 : space_okb two_idle_agents.2 s = true) by (vm_compute; reflexivity).
  exact (reports_agree two_idle_agents.1 two_idle_agents.2 s H1 H2).
Defined.

(** ** Queries *)

(** X26: [Query] with a predicate that only reads the atom, on a well-formed
    store.  It returns without changing the machine; the result holds no
    pointer twice, and holds exactly the atoms registered in the store under
    their identifier for which the predicate is true.  So it is never longer
    than [GetAtomCount], has that length when the predicate is always true,
    and is empty when the predicate is always false. *)
Theorem Query_finds_each_match_once `{BucketOrder} (sp : nat) (f : Atom.t -> bool)
    (m : Machine) (s : AtomSpace.t) :
  spaces m !! sp = Some s ->
  space_okb m s = true ->
  exists found,
    Query sp (fun a => mret (f a)) m = Ok found m /\
    NoDup found /\
    (forall l, l ∈ found <->
       exists a, heap m !! l = Some a /\ f a = true /\
                 AtomSpace.m_atoms s !! Atom.m_id a = Some l) /\
    (Z.of_nat (length found) <= Z.of_nat (size (AtomSpace.m_atoms s))) /\
    ((forall a, f a = true) -> GetAtomCount sp m = Ok (Z.of_nat (length found)) m) /\
    ((forall a, f a = false) -> found = []).
Proof.
  intros Hs Hok. pose proof (space_ok_table_valid _ _ Hok) as Hvalid.
  exists (List.filter (holds_at m f) (table s)).
  split; [apply (Query_pure _ _ f _ _ Hs Hvalid); intros a; reflexivity|].
  split; [apply NoDup_ListNoDup, List.NoDup_filter, NoDup_ListNoDup, (table_NoDup m), Hok|].
  split.
  { intros l. rewrite list_elem_of_In, filter_In, <- list_elem_of_In, elem_of_table.
    unfold holds_at. split.
    - intros [[id Hid] Hf]. destruct (space_ok_entry _ _ _ _ Hok Hid) as (a & Ha & Hida & _).
      rewrite Ha in Hf. exists a. rewrite Hida. auto.
    - intros (a & Ha & Hf & Hid). rewrite Ha. eauto. }
  split.
  { rewrite <- length_table. apply inj_le. apply filter_length_le. }
  split.
  { intros Hall. rewrite (GetAtomCount_run _ _ _ Hs). do 2 f_equal.
    rewrite <- length_table. f_equal. symmetry. apply forallb_filter_id.
    apply forallb_forall. intros l Hl. apply list_elem_of_In in Hl.
    destruct (Forall_valid_lookup m _ l Hvalid Hl) as [a Ha].
    unfold holds_at. rewrite Ha. apply Hall. }
  intros Hnone. clear Hvalid. induction (table s) as [|l ls IH]; [reflexivity|]. cbn.
  unfold holds_at at 1. destruct (heap m !! l); [rewrite Hnone|]; exact IH.
Qed.

Lemma Query_finds_each_match_once_witness :
  exists found,
    Query 0%nat (fun a => mret (bool_decide (Atom.m_type a = Atom.Goal)))
      test_agent_on_store.1.2 = Ok found test_agent_on_store.1.2 /\
    found = [4%nat].
Proof.
  pose (s := default (AtomSpace.mk ∅ ∅) (spaces test_agent_on_store.1.2 !! 0%nat)).
  assert (H1 : spaces test_agent_on_store.1.2 !! 0%nat = Some s) by (vm_compute; reflexivity).
  assert (H2 : space_okb test_agent_on_store.1.2 s = true) by (vm_compute; reflexivity).
  destruct (Query_finds_each_match_once 0%nat
              (fun a => bool_decide (Atom.m_type a = Atom.Goal))
              test_agent_on_store.1.2 s H1 H2) as (found & Hrun & _).
  exists found. split; [exact Hrun|].
  vm_compute in Hrun. injection Hrun as <-. reflexivity.
Defined.

(** ** Planning twice *)

Lemma adds_only_refl sp m : adds_only sp m m.
Proof. split; [intros l a Ha; exists a; auto|intros s Hs; exists s; auto]. Qed.

Lemma adds_only_trans sp m1 m2 m3 :
  adds_only sp m1 m2 -> adds_only sp m2 m3 -> adds_only sp m1 m3.
Proof.
  intros [Ha1 Hs1] [Ha2 Hs2]. split.
  - intros l a Ha. destruct (Ha1 _ _ Ha) as (a' & Ha' & Hn & Ht & Ho).
    destruct (Ha2 _ _ Ha') as (a'' & Ha'' & Hn' & Ht' & Ho').
    exists a''. split; [exact Ha''|]. split; [congruence|]. split; [congruence|]. auto.
  - intros s Hs. destruct (Hs1 _ Hs) as (s' & Hs' & Hn).
    destruct (Hs2 _ Hs') as (s'' & Hs'' & Hn'). exists s''. auto.
Qed.

Lemma planned_mono sp m m' goal :
  adds_only sp m m' -> (goal < length (heap m))%nat ->
  planned sp m goal -> planned sp m' goal.
Proof.
  intros [Hheap Hsp] Hlt Hpl g' Hg' Htruth.
  destruct (lookup_lt_is_Some_2 _ _ Hlt) as [g Hg].
  destruct (Hheap _ _ Hg) as (a' & Ha' & Hn & Ht & Ho).
  assert (a' = g') by congruence. subst a'.
  destruct (Hpl g Hg) as (s & plan & Hs & Hname & Hin); [congruence|].
  destruct (Hsp _ Hs) as (s' & Hs' & Hnames).
  exists s', plan. split; [exact Hs'|]. split; [rewrite Hn; auto|auto].
Qed.

Lemma CreateAtom_adds_only sp type name tv conf m s l m' :
  spaces m !! sp = Some s ->
  CreateAtom sp type name tv conf m = Ok l m' ->
  adds_only sp m m'.
Proof.
  intros Hs Hrun. destruct (AtomSpace.m_atomsByName s !! name) as [l0|] eqn:Hn.
  - rewrite (CreateAtom_existing _ _ _ _ _ _ _ _ Hs Hn) in Hrun.
    injection Hrun as _ <-. apply adds_only_refl.
  - rewrite (CreateAtom_fresh _ _ _ _ _ _ _ Hs Hn) in Hrun.
    injection Hrun as _ <-. split; cbn [heap spaces].
    + intros x a Ha. exists a. split; [apply lookup_app_l_Some; exact Ha|auto].
    + intros s0 Hs0. assert (s0 = s) by congruence. subst s0.
      eexists. split; [apply list_lookup_insert_eq; eapply lookup_lt_Some; exact Hs|].
      cbn. intros n x Hx. rewrite lookup_insert_ne; [exact Hx|congruence].
Qed.

Lemma AddOutgoingLink_adds_only sp goal plan m g :
  heap m !! goal = Some g ->
  adds_only sp m
    (mkMachine (<[goal := Atom.AddOutgoingLink (Some plan) g]> (heap m))
       (s_nextId m) (spaces m)).
Proof.
  intros Hg. split; cbn [heap spaces]; [|intros s Hs; exists s; auto].
  intros l a Ha. destruct (decide (l = goal)) as [->|Hne].
  - assert (a = g) by congruence. subst a. eexists.
    split; [apply list_lookup_insert_eq; eapply lookup_lt_Some; exact Hg|].
    unfold Atom.AddOutgoingLink.
    destruct (bool_decide (plan ∈ Atom.m_outgoingLinks g)); cbn; auto.
    split; [reflexivity|]. split; [reflexivity|].
    intros x Hx. apply elem_of_app. auto.
  - exists a. split; [rewrite list_lookup_insert_ne by congruence; exact Ha|auto].
Qed.

Lemma AddOutgoingLink_name o g :
  Atom.m_name (Atom.AddOutgoingLink o g) = Atom.m_name g.
Proof.
  destruct o as [l|]; [|reflexivity]. unfold Atom.AddOutgoingLink.
  case_bool_decide; reflexivity.
Qed.

Lemma AddOutgoingLink_elem plan g :
  plan ∈ Atom.m_outgoingLinks (Atom.AddOutgoingLink (Some plan) g).
Proof.
  unfold Atom.AddOutgoingLink.
  case_bool_decide as Hin.
  - exact Hin.
  - cbn. apply elem_of_app. right. apply list_elem_of_singleton. reflexivity.
Qed.

Lemma AddOutgoingLink_present plan g :
  plan ∈ Atom.m_outgoingLinks g -> Atom.AddOutgoingLink (Some plan) g = g.
Proof.
  intros Hin. unfold Atom.AddOutgoingLink.
  case_bool_decide; [reflexivity|contradiction].
Qed.

Lemma Plan_plans sp ag m :
  live m -> agent_live sp ag m ->
  exists m',
    Plan (ag, m) = Ok tt (ag, m') /\ live m' /\ evolves m m' /\
    forall goal, goal ∈ CognitiveAgent.m_goals ag -> planned sp m' goal.
Proof.
  intros Hlive Hag. pose proof Hag as (Hsp & Hlt & Hgoals & Hmems).
  rewrite Forall_forall in Hgoals.
  unfold Plan. rewrite (bind_run _ _ _ _ _ (this_run ag m)).
  match goal with
  | |- context [for_each ?l ?body] =>
      destruct (for_each_acc
                  (fun done (st : CognitiveAgent.t * Machine) =>
                     st.1 = ag /\ live st.2 /\ evolves m st.2 /\
                     forall goal, goal ∈ done -> planned sp st.2 goal)
                  l body) with (s := (ag, m))
        as ([ag' m'] & Hloop & Hpost)
  end.
  - intros done goal rest [ag0 m0] Hsplit (Hag0 & Hlive0 & Hev0 & Hdone).
    cbn [fst snd] in *. subst ag0.
    assert (Hin : goal ∈ CognitiveAgent.m_goals ag).
    { rewrite Hsplit. apply elem_of_app. right. left. }
    assert (Hins : forall x, x ∈ done -> (x < length (heap m0))%nat).
    { intros x Hx. eapply evolves_lt; [exact Hev0|]. apply Hgoals.
      rewrite Hsplit. apply elem_of_app. left. exact Hx. }
    pose proof (evolves_lt _ _ _ Hev0 (Hgoals _ Hin)) as Hgoal0.
    destruct (lookup_lt_is_Some_2 (heap m0) goal Hgoal0) as [g Hg].
    rewrite (bind_run _ _ _ _ _ (lift_run _ ag _ _ _ (deref_run _ _ _ Hg))).
    destruct (F32.ltb (Atom.m_truthValue g) F32.f0_8) eqn:Htruth.
    + rewrite Hsp. cbn [from_option]. rewrite ret_bind.
      assert (Hlt0 : (sp < length (spaces m0))%nat) by (destruct Hev0 as [-> _]; exact Hlt).
      destruct (lookup_lt_is_Some_2 (spaces m0) sp Hlt0) as [s0 Hs0].
      destruct (CreateAtom_effect sp Atom.Process ("Plan:" +:+ Atom.m_name g)
                  F32.f0_5 F32.f0_8 m0 s0 Hs0)
        as (plan & m1 & s1 & Hrun & Hs1 & Hbound & _).
      destruct (CreateAtom_live sp Atom.Process ("Plan:" +:+ Atom.m_name g)
                  F32.f0_5 F32.f0_8 m0 Hlive0 Hlt0)
        as (plan' & m1' & b & Hrun' & Hlive1 & Hev1 & Hb & _).
      rewrite Hrun in Hrun'. injection Hrun' as Hp1 Hm1. subst plan' m1'.
      pose proof (CreateAtom_adds_only _ _ _ _ _ _ _ _ _ Hs0 Hrun) as Hadd1.
      rewrite (bind_run _ _ _ _ _ (lift_run _ ag _ _ _ Hrun)).
      destruct (proj1 Hadd1 _ _ Hg) as (g1 & Hg1 & Hname1 & Htruth1 & _).
      destruct (AddOutgoingLink_live goal plan m1 g1 Hlive1 Hg1)
        as (Hrun2 & Hlive2 & Hev2 & _).
      { eapply lookup_lt_Some. exact Hb. }
      pose proof (AddOutgoingLink_adds_only sp goal plan m1 g1 Hg1) as Hadd2.
      eexists. split; [apply lift_run; exact Hrun2|]. cbn [fst snd].
      split; [reflexivity|]. split; [exact Hlive2|].
      split; [eapply evolves_trans; [exact Hev0|]; eapply evolves_trans; eassumption|].
      intros x Hx. apply elem_of_app in Hx. destruct Hx as [Hx|Hx].
      * eapply planned_mono; [exact Hadd2| |].
        { eapply evolves_lt; [exact Hev1|]. apply Hins. exact Hx. }
        eapply planned_mono; [exact Hadd1|apply Hins; exact Hx|]. apply Hdone. exact Hx.
      * apply list_elem_of_singleton in Hx. subst x. intros g2 Hg2 _.
        cbn [heap] in Hg2.
        rewrite list_lookup_insert_eq in Hg2 by (eapply lookup_lt_Some; exact Hg1).
        assert (Heq : g2 = Atom.AddOutgoingLink (Some plan) g1) by congruence.
        rewrite Heq. exists s1, plan. split; [exact Hs1|].
        split; [rewrite AddOutgoingLink_name, Hname1; exact Hbound|].
        apply AddOutgoingLink_elem.
    + eexists. split; [reflexivity|]. cbn [fst snd].
      split; [reflexivity|]. split; [exact Hlive0|]. split; [exact Hev0|].
      intros x Hx. apply elem_of_app in Hx. destruct Hx as [Hx|Hx]; [auto|].
      apply list_elem_of_singleton in Hx. subst x. intros g2 Hg2 Htruth2.
      assert (g2 = g) by congruence. subst g2. congruence.
  - cbn [fst snd]. split; [reflexivity|]. split; [exact Hlive|].
    split; [apply evolves_refl|]. intros goal Hin. inversion Hin.
  - cbn [fst snd] in Hpost. destruct Hpost as (-> & Hlive' & Hev' & Hall).
    exists m'. auto.
Qed.

Lemma Plan_fixed sp ag m :
  live m -> agent_live sp ag m ->
  (forall goal, goal ∈ CognitiveAgent.m_goals ag -> planned sp m goal) ->
  Plan (ag, m) = Ok tt (ag, m).
Proof.
  intros Hlive Hag Hall. pose proof Hag as (Hsp & Hlt & Hgoals & Hmems).
  rewrite Forall_forall in Hgoals.
  unfold Plan. rewrite (bind_run _ _ _ _ _ (this_run ag m)).
  match goal with
  | |- context [for_each ?l ?body] =>
      destruct (for_each_inv
                  (fun st : CognitiveAgent.t * Machine => st = (ag, m))
                  l body) with (s := (ag, m))
        as (st & Hloop & ->)
  end.
  - intros goal st Hin ->.
    destruct (lookup_lt_is_Some_2 (heap m) goal (Hgoals _ Hin)) as [g Hg].
    rewrite (bind_run _ _ _ _ _ (lift_run _ ag _ _ _ (deref_run _ _ _ Hg))).
    destruct (F32.ltb (Atom.m_truthValue g) F32.f0_8) eqn:Htruth.
    + rewrite Hsp. cbn [from_option]. rewrite ret_bind.
      destruct (Hall _ Hin g Hg Htruth) as (s & plan & Hs & Hname & Hplan).
      rewrite (bind_run _ _ _ _ _
                 (lift_run _ ag _ _ _ (CreateAtom_existing _ Atom.Process _ F32.f0_5 F32.f0_8
                                         _ _ _ Hs Hname))).
      exists (ag, m). split; [|reflexivity]. apply lift_run.
      rewrite (on_atom_run _ _ _ _ Hg). rewrite (AddOutgoingLink_present _ _ Hplan).
      rewrite list_insert_id by exact Hg. destruct m; reflexivity.
    + exists (ag, m). split; reflexivity.
  - reflexivity.
  - exact Hloop.
Qed.

(** X27: [Plan] on a live agent and machine.  It returns and leaves the
    agent as it was; afterwards every goal of the agent whose truth value is
    below 0.8 has, among its outgoing links, the atom that the store holds
    under the name "Plan:" followed by the name of the goal.  A second [Plan]
    right after the first changes nothing: no atom is created and no link is
    added twice. *)
Theorem planning_twice_changes_nothing (ag : CognitiveAgent.t) (m : Machine) :
  liveb m = true ->
  agent_liveb ag m = true ->
  exists sp m',
    CognitiveAgent.m_atomSpace ag = Some sp /\
    Plan (ag, m) = Ok tt (ag, m') /\
    Plan (ag, m') = Ok tt (ag, m') /\
    forall goal g,
      goal ∈ CognitiveAgent.m_goals ag -> heap m' !! goal = Some g ->
      F32.ltb (Atom.m_truthValue g) F32.f0_8 = true ->
      exists s plan,
        spaces m' !! sp = Some s /\
        AtomSpace.m_atomsByName s !! ("Plan:" +:+ Atom.m_name g) = Some plan /\
        plan ∈ Atom.m_outgoingLinks g.
Proof.
  intros Hm Hag. apply liveb_live in Hm. apply agent_liveb_live in Hag.
  destruct Hag as [sp Hag].
  destruct (Plan_plans sp ag m Hm Hag) as (m' & Hrun & Hlive' & Hev' & Hall).
  exists sp, m'. split; [apply Hag|]. split; [exact Hrun|].
  split; [|intros goal g Hin Hg Ht; exact (Hall goal Hin g Hg Ht)].
  apply (Plan_fixed sp); [exact Hlive'| |exact Hall].
  eapply agent_live_evolves; eassumption.
Qed.

Lemma planning_twice_changes_nothing_witness :
  exists sp m',
    CognitiveAgent.m_atomSpace test_agent_on_store.1.1 = Some sp /\
    Plan (test_agent_on_store.1.1, test_agent_on_store.1.2)
      = Ok tt (test_agent_on_store.1.1, m') /\
    Plan (test_agent_on_store.1.1, m') = Ok tt (test_agent_on_store.1.1, m') /\
    forall goal g,
      goal ∈ CognitiveAgent.m_goals test_agent_on_store.1.1 -> heap m' !! goal = Some g ->
      F32.ltb (Atom.m_truthValue g) F32.f0_8 = true ->
      exists s plan,
        spaces m' !! sp = Some s /\
        AtomSpace.m_atomsByName s !! ("Plan:" +:+ Atom.m_name g) = Some plan /\
        plan ∈ Atom.m_outgoingLinks g.
Proof.
  apply (planning_twice_changes_nothing test_agent_on_store.1.1 test_agent_on_store.1.2);
    vm_compute; reflexivity.
Defined.

(** ** Removing an agent and creating it again *)

Lemma SetAttention_same att a :
  Atom.m_attention a = att -> Atom.SetAttention att a = a.
Proof. intros <-. destruct a; reflexivity. Qed.

(** [CreateAgent] for a name whose two atoms are in the store. *)
Lemma CreateAgent_bound_run name sys m s self a goal g :
  spaces m !! CognitiveSystem.m_globalAtomSpace sys = Some s ->
  CognitiveSystem.m_agents sys !! name = None ->
  AtomSpace.m_atomsByName s !! ("Agent:" +:+ name) = Some self ->
  heap m !! self = Some a ->
  AtomSpace.m_atomsByName s !! ("AgentGoal:" +:+ name) = Some goal ->
  heap m !! goal = Some g ->
  CreateAgent name (sys, m) =
  Ok name
     (with_agents sys
        (<[name := CognitiveAgent.mk name (Some (CognitiveSystem.m_globalAtomSpace sys))
                     CognitiveAgent.Inactive false false
                     (if bool_decide (Atom.m_type g = Atom.Goal) then [goal] else []) []]>
           (CognitiveSystem.m_agents sys)),
      mkMachine (<[self := Atom.SetAttention F32.f1_0 a]> (heap m)) (s_nextId m) (spaces m)).
Proof.
  intros Hs Hag Hself Ha Hgoal Hg.
  set (sp := CognitiveSystem.m_globalAtomSpace sys) in *.
  set (m1 := mkMachine (<[self := Atom.SetAttention F32.f1_0 a]> (heap m))
               (s_nextId m) (spaces m)).
  set (agent := CognitiveAgent.mk name (Some sp) CognitiveAgent.Inactive false false [] []).
  assert (Hnew : new_CognitiveAgent name (Some sp) m = Ok agent m1).
  { unfold new_CognitiveAgent.
    erewrite bind_run; cycle 1.
    { erewrite bind_run; [|apply (CreateAtom_existing _ _ _ _ _ _ _ _ Hs Hself)].
      apply (on_atom_run _ _ _ _ Ha). }
    reflexivity. }
  assert (Hg1 : exists g1, heap m1 !! goal = Some g1 /\ Atom.m_type g1 = Atom.m_type g).
  { cbn [m1 heap]. destruct (decide (goal = self)) as [->|Hne].
    - exists (Atom.SetAttention F32.f1_0 a).
      split; [apply list_lookup_insert_eq; eapply lookup_lt_Some; exact Ha|].
      cbn. congruence.
    - exists g. split; [rewrite list_lookup_insert_ne by congruence; exact Hg|reflexivity]. }
  destruct Hg1 as (g1 & Hg1 & Htype).
  set (agent' := CognitiveAgent.mk name (Some sp) CognitiveAgent.Inactive false false
                   (if bool_decide (Atom.m_type g = Atom.Goal) then [goal] else []) []).
  assert (HAdd : AddGoal (Some goal) (agent, m1) = Ok tt (agent', m1)).
  { unfold AddGoal. rewrite (bind_run _ _ _ _ _ (lift_run _ _ _ _ _ (deref_run _ _ _ Hg1))).
    rewrite Htype. subst agent agent'.
    destruct (bool_decide (Atom.m_type g = Atom.Goal)); reflexivity. }
  unfold CreateAgent. rewrite (bind_run _ _ _ _ _ (this_run _ _)), Hag.
  rewrite (bind_run _ _ _ _ _ (lift_run _ _ _ _ _ Hnew)).
  rewrite (bind_run _ _ _ _ _ (set_agents_run _ _ _)).
  rewrite (bind_run _ _ _ _ _
             (lift_run _ _ _ _ _
                (CreateAtom_existing sp Atom.Goal _ F32.f0_5 F32.f0_8 m1 s goal Hs Hgoal))).
  erewrite bind_run; cycle 1.
  { eapply on_agent_run; [|exact HAdd]. cbn. apply lookup_insert_eq. }
  cbn [with_agents CognitiveSystem.m_agents CognitiveSystem.m_globalAtomSpace
       CognitiveSystem.m_configuration CognitiveSystem.m_initialized].
  rewrite insert_insert_eq. reflexivity.
Qed.

(** X28: removing an agent and creating it again.  When the agent [name] is
    registered and the global store holds its two atoms "Agent:<name>" and
    "AgentGoal:<name>", [RemoveAgent] returns true and leaves the machine as
    it was: the atoms of the agent stay in the store.  [CreateAgent] then
    finds both atoms instead of creating new ones: the heap changes only in
    the attention of "Agent:<name>", which is set to 1.0, the stores and the
    identifier counter are unchanged.  The agent registered is a new one:
    [Inactive], without memories, with the old goal atom as its only goal if
    that atom is a Goal. *)
Theorem removed_agent_is_rebuilt_from_its_atoms
    (name : string) (sys : CognitiveSystem.t) (m : Machine) (s : AtomSpace.t)
    (self goal : loc) (a g : Atom.t) (ag : CognitiveAgent.t) :
  spaces m !! CognitiveSystem.m_globalAtomSpace sys = Some s ->
  CognitiveSystem.m_agents sys !! name = Some ag ->
  AtomSpace.m_atomsByName s !! ("Agent:" +:+ name) = Some self ->
  heap m !! self = Some a ->
  AtomSpace.m_atomsByName s !! ("AgentGoal:" +:+ name) = Some goal ->
  heap m !! goal = Some g ->
  exists sys1 sys2 m2 ag2,
    RemoveAgent name (sys, m) = Ok true (sys1, m) /\
    CreateAgent name (sys1, m) = Ok name (sys2, m2) /\
    CognitiveSystem.m_agents sys2 = <[name := ag2]> (CognitiveSystem.m_agents sys) /\
    CognitiveAgent.m_state ag2 = CognitiveAgent.Inactive /\
    CognitiveAgent.m_memories ag2 = [] /\
    CognitiveAgent.m_goals ag2 =
      (if bool_decide (Atom.m_type g = Atom.Goal) then [goal] else []) /\
    heap m2 = <[self := Atom.SetAttention F32.f1_0 a]> (heap m) /\
    spaces m2 = spaces m /\ s_nextId m2 = s_nextId m /\
    (Atom.m_attention a = F32.f1_0 -> m2 = m).
Proof.
  intros Hs Hag Hself Ha Hgoal Hg.
  set (sys1 := with_agents sys (delete name (CognitiveSystem.m_agents sys))).
  assert (Hrm : RemoveAgent name (sys, m) = Ok true (sys1, m)).
  { unfold RemoveAgent. rewrite (bind_run _ _ _ _ _ (this_run _ _)), Hag.
    erewrite bind_run; cycle 1.
    { eapply on_agent_run; [exact Hag|]. reflexivity. }
    rewrite (bind_run _ _ _ _ _ (this_run _ _)).
    rewrite (bind_run _ _ _ _ _ (set_agents_run _ _ _)).
    cbn [with_agents CognitiveSystem.m_agents CognitiveSystem.m_globalAtomSpace
         CognitiveSystem.m_configuration CognitiveSystem.m_initialized].
    rewrite delete_insert_eq. reflexivity. }
  assert (Hnone : CognitiveSystem.m_agents sys1 !! name = None) by apply lookup_delete_eq.
  pose proof (CreateAgent_bound_run name sys1 m s self a goal g Hs Hnone Hself Ha Hgoal Hg)
    as Hrun.
  eexists sys1, _, _, _. split; [exact Hrm|]. split; [exact Hrun|].
  cbn [with_agents sys1 CognitiveSystem.m_agents CognitiveSystem.m_globalAtomSpace
       CognitiveAgent.m_state CognitiveAgent.m_memories CognitiveAgent.m_goals
       heap spaces s_nextId].
  split; [apply insert_delete_eq|].
  do 6 (split; [reflexivity|]).
  intros Hatt. rewrite (SetAttention_same _ _ Hatt), list_insert_id by exact Ha.
  destruct m; reflexivity.
Qed.

Lemma removed_agent_is_rebuilt_from_its_atoms_witness :
  exists sys1 sys2,
    RemoveAgent "Agent1" (two_idle_agents.1, two_idle_agents.2)
      = Ok true (sys1, two_idle_agents.2) /\
    CreateAgent "Agent1" (sys1, two_idle_agents.2)
      = Ok "Agent1" (sys2, two_idle_agents.2).
Proof.
  pose (s := default (AtomSpace.mk ∅ ∅) (spaces two_idle_agents.2 !! 0%nat)).
  pose (a := default (Atom.ctor Atom.Concept "none" F32.f0_0 F32.f0_0 0)
               (heap two_idle_agents.2 !! 6%nat)).
  pose (g := default (Atom.ctor Atom.Concept "none" F32.f0_0 F32.f0_0 0)
               (heap two_idle_agents.2 !! 7%nat)).
  pose (ag := default agent_without_store
                (CognitiveSystem.m_agents two_idle_agents.1 !! "Agent1")).
  assert (H1 : spaces two_idle_agents.2
                 !! CognitiveSystem.m_globalAtomSpace two_idle_agents.1 = Some s)
    by (vm_compute; reflexivity).
  assert (H2 : CognitiveSystem.m_agents two_idle_agents.1 !! "Agent1" = Some ag)
    by (vm_compute; reflexivity).
  assert (H3 : AtomSpace.m_atomsByName s !! ("Agent:" +:+ "Agent1") = Some 6%nat)
    by (vm_compute; reflexivity).
  assert (H4 : heap two_idle_agents.2 !! 6%nat = Some a) by (vm_compute; reflexivity).
  assert (H5 : AtomSpace.m_atomsByName s !! ("AgentGoal:" +:+ "Agent1") = Some 7%nat)
    by (vm_compute; reflexivity).
  assert (H6 : heap two_idle_agents.2 !! 7%nat = Some g) by (vm_compute; reflexivity).
  destruct (removed_agent_is_rebuilt_from_its_atoms "Agent1" two_idle_agents.1
              two_idle_agents.2 s 6%nat 7%nat a g ag H1 H2 H3 H4 H5 H6)
    as (sys1 & sys2 & m2 & ag2 & Hrm & Hrun & _ & _ & _ & _ & _ & _ & _ & Hsame).
  exists sys1, sys2. split; [exact Hrm|].
  rewrite <- (Hsame ltac:(vm_compute; reflexivity)) at 2. exact Hrun.
Defined.
